(* ===== verification/_CoqProject ===== *)
-Q . S2P
Prelude.v
Float64.v
Slot.v
Ssz.v
Xmss.v
Containers.v
State.v
JustifiedSlots.v
StateInv.v
AttestationSpec.v
Transition.v
Attestations.v
Example.v
StateTheorems.v
Liveness.v
Signatures.v
BuildBlock.v
BuildTheorems.v
ForkChoice.v
ForkChoiceHead.v
StoreInv.v
StoreBlocks.v
StoreTheorems.v
Derivation.v
Validator.v
Node.v
Proposals.v
Sync.v
Accountable.v
Heads.v
Bytes.v
Serde.v
Discovery.v
Metrics.v
Observed.v
Gauges.v
Counters.v
Gossip.v
Config.v
ReqResp.v
Network.v
Propagation.v
Main.v
