(* ===== verification/Prelude.v ===== *)
(** * A verification development of the leanEthereum consensus client

    The repository is a consensus client in Rust under [src/lean_client].  This
    library models its protocol logic as executable definitions, one file per
    part of the code, and proves the properties that make each part correct.
    Definitions keep the names of the Rust functions, with the type's name in
    front where two types share one ([KeyManager_new], [Signature_verify]); record
    fields carry a short prefix ([st_slot] is [State::slot]).

    ** The program and the files that model it

    - Machine integers, results and the state monad: this file.  [Result] is
      [outcome] with errors as values, panics are a separate constructor, code on
      [&mut] is [stM], which returns the state on every exit.  The client is built
      in release mode, so [u64] arithmetic wraps ([wadd], [wsub], [wmul]).
    - [Float64], [Slot]: [containers/src/slot.rs].  The binary64 conversions and
      square root are modelled bit by bit; [is_justifiable_after] uses them.
    - [Ssz], [Xmss]: the SSZ library as parameters, and the [xmss] crate around the
      leanSig and lean-multisig libraries, which are the class [LeanSig].
    - [Containers], [Signatures]: the other files of [containers/src] (attestations,
      aggregation bits, blocks, the signature check of a signed block).
    - [State]: [containers/src/state.rs] up to [process_attestations]; [BuildBlock]
      its block building and signature aggregation.
    - [ForkChoice]: [fork_choice/src/store.rs] and [handlers.rs].
    - [Validator]: [validator/src].  [Node]: the chain task of [src/main.rs], which
      drives everything else by clock ticks and network messages; [Main]: the
      start-up of [src/main.rs], which composes all other parts.
    - [Bytes], [Gossip], [ReqResp], [Network]: [networking/src], from the wire formats
      to the network service, whose messages are those that [Node] consumes and
      whose requests are those that [Node] sends.  [Discovery]: node records (ENR)
      and the discovery service, whose finds the network service dials.
    - [Serde]: hexadecimal text, JSON and SSZ forms of keys, signatures and lists
      ([containers/src/serde_helpers.rs], [xmss/src], [networking/src/serde_utils.rs])
      and the genesis file.  [Config]: [chain/src/config.rs].
    - [Metrics]: [metrics/src] and [http_api/src]; the peer counters are updated by
      [Network].  [Observed]: the handlers of the state transition, block building,
      fork choice and the validator client once more, with the counters, gauges and
      timers that they touch ([.._observed]); the other files leave these out, and
      [Observed] proves that each definition is its observed form without metrics.

    The other files hold specifications and proofs: [JustifiedSlots] and [StateInv]
    (the window of justified slots, the state invariant [state_wf]),
    [AttestationSpec] (the protocol's transition relation for attestations),
    [Transition], [Attestations] (proofs about the state transition),
    [StateTheorems], [BuildTheorems] (their theorems), [ForkChoiceHead] (LMD-GHOST as
    a relation), [StoreInv], [StoreBlocks], [StoreTheorems] (the store invariant
    [store_ok], the extension of a chain by ticks and votes, and every operation on the
    store), [Liveness] (a quorum justifies),
    [Derivation] (a node's states are derived from its genesis; the class
    [StoreInvariant] of invariants that the operations of fork choice keep, which
    [Node] is proved against), [Proposals] (known votes reach a block and justify),
    [Sync] (agreement of nodes on states), [Accountable] (conflicting checkpoints of
    one slot convict a third of the registry), [Heads] (agreement on checkpoints and
    head), [Propagation] (a block from node to node over [Network]), [Gauges] and
    [Counters] (metrics change no result; the gauges of fork choice and the counters of
    votes are exact).  [Example] runs a small chain on which the theorems are
    instantiated.

    ** What the theorems show

    - The state transition keeps [state_wf] on every chain from genesis; header and
      slot processing have exact specifications; attestation processing refines the
      relation of [AttestationSpec]; justification needs two thirds of the
      registry and happens once they have voted, finality is monotone and backed by
      a quorum; every state fits its SSZ type; the floating-point
      test is exact below [2^62]; processing is total except for the cases stated.
    - Building a block terminates, and what it returns is accepted by the state
      transition, stands on signatures that were received, and leaves no includable
      vote behind.
    - Fork choice computes the LMD-GHOST head, independently of hash map order;
      every operation keeps [store_ok], from genesis on; refused blocks change
      nothing; orphans wait and are released; ticks, votes, targets and proposals
      have functional specifications.
    - Proposals and attestations of the validator client are right for the slot,
      the head and the key; the node acts once per slot and passes on only what it
      accepted, and its store keeps the invariant over any sequence of events.
    - Nodes with the same genesis agree on every block both have; a node that hears
      of the blocks of another in any order ends up with them; a block that a node
      passes on reaches the store of the next, with the same state; nodes without
      validators that have the same blocks and votes agree on checkpoints and head,
      unless the blocks show a third of the registry voting for two targets of a slot.
    - A proposer that knows the votes of a quorum produces a block that justifies their
      target.  Two checkpoints of one slot convict a third of the registry; across
      slots this fails: votes are counted for a target whatever their sources, and
      [finality_reverted] is a run in which finality changes branches although nobody
      has cast two conflicting votes.
    - The wire formats round-trip, what is gossiped arrives as sent, the network
      hands nothing else to the chain, its peer counter and its peer metrics are exact
      and peer entries follow a state machine; a discovered node is dialled at the
      address it listens on; requests for blocks are lost between two such nodes.
    - The node starts, with all metrics registered and its validators counted, whenever
      its surroundings allow; metrics change nothing that a handler does or returns, and
      the gauges of head, safe target, justified and finalized slot and the counters of
      the votes handed to [on_attestation] and [on_gossip_attestation] are exact after any
      sequence of events (votes inside blocks are not counted); the structured JSON form of a signature has the SSZ layout.

    ** Assumptions

    Code that is not in the repository is a class, with its documented behaviour as
    a class of laws: bounded SSZ lists ([SszContainersLaws]), hash-map and hash-set
    order ([MapOrderLaws], [SetOrderLaws]), SSZ, Snappy and hexadecimal round trips,
    addresses, keys and records ([Libp2pLaws]), protocol negotiation
    ([MultistreamLaws]), the checks of prometheus and of the gossip configuration
    ([PrometheusLaws], [GossipBuilderLaws]), the random choice of a peer.
    [hash_tree_root] and the signature schemes have no laws; theorems about the store
    assume that the blocks seen have distinct nonzero roots ([no_collisions]).  The
    numbered theorems with hypotheses come with a witness on concrete instances of these
    classes, mostly on the chain of [Example].

    ** Bounds and fuel

    The unbounded loops of the code take fuel, and running out of it is the value
    [Diverge], which no theorem confuses with a result.  The fuel is computed from
    the input: the slots to advance, the uncovered validators, the available votes,
    the blocks in the store, the blocks waiting.  Termination theorems
    ([build_block_terminates], [on_block_correct], [on_tick_correct],
    [fork_choice_head_correct], [attestation_target_correct]) show that it suffices.

    ** Not modelled

    Logging; the durations that the histograms sort; parsing of the command line and of
    YAML, what an optional feature does, the sockets and the middleware of the HTTP server; the insides of libp2p,
    discv5, prometheus, SSZ and the signature schemes; timing of asynchronous tasks
    other than the order of events.  The crate [env-config] is empty.  The test code
    under [src] is not part of the program.

    ** Plan

    The node's chain task with its metrics; the counters of slots and signatures over
    whole runs; the SSZ layout of the containers. *)

From stdpp Require Export base tactics numbers list gmap sorting.
From Stdlib Require Export Lia ZifyBool.

(** ** Machine integers

    [u64] values are natural numbers below [2^64].  The binaries are built with
    [cargo build --release], so arithmetic wraps around. *)

Abbreviation u64 := N (only parsing).

Definition u64_modulus : N := 18446744073709551616.

Definition u64_max : N := 18446744073709551615.

Definition wadd (x y : u64) : u64 := (x + y) `mod` u64_modulus.

Definition wsub (x y : u64) : u64 :=
  if (y <=? x)%N then (x - y)%N else (x + u64_modulus - y)%N.

Definition wmul (x y : u64) : u64 := (x * y) `mod` u64_modulus.

Definition checked_sub (x y : u64) : option u64 :=
  if (y <=? x)%N then Some (x - y)%N else None.

Definition saturating_sub (x y : u64) : u64 := (x - y)%N.

(** [x as u32] keeps the low 32 bits. *)
Definition as_u32 (x : u64) : N := x `mod` 4294967296.

Definition is_u64 (x : N) : Prop := (x < u64_modulus)%N.

(** ** Errors, panics and results

    [Err e] is an [anyhow::Error] returned through [Result]; [Panic p] is an
    unwinding panic; [Diverge] marks a loop whose fuel ran out. *)

Inductive error : Type :=
  | EOutsideTrackedRange
  | EInvalidBlockSignatures
  | EInvalidStateRoot
  | ETargetSlotNotInFuture
  | EDuplicateAttestationData
  | EBlockSlotMismatch
  | EBlockOlderThanHeader
  | EIncorrectProposer
  | EParentRootMismatch
  | EZeroJustificationRoot
  | EListPush
  | EListTooLong
  | EIndexOutOfBounds
  | EUnknownTargetRoot
  | EValidatorIndexOutOfRange
  | EJustificationRootMissing
  | EInvalidValidatorId
  | EGreedyFailure
  | ESignatureCountMismatch
  | EProposerOutOfRange
  | EHeadBlockUnknown
  | EHeadStateNotFound
  | ENotProposer
  | EUnknownSource
  | EUnknownTarget
  | EUnknownHead
  | ESourceAfterTarget
  | ESourceSlotMismatch
  | ETargetSlotMismatch
  | EAttestationInFuture
  | EBlockQueued (parent : N) (pending : nat)
  | ENoParentState
  | EKeyManagerMissing
  | ENoKeyForValidator
  | EExternal (code : N).

Inductive panic : Type :=
  | PAssert
  | PIndex
  | PSlice
  | PUnwrap
  | PDivisionByZero.

Inductive outcome (A : Type) : Type :=
  | Ok (a : A)
  | Err (e : error)
  | Panic (p : panic)
  | Diverge.

Arguments Ok {A} _.
Arguments Err {A} _.
Arguments Panic {A} _.
Arguments Diverge {A}.

#[export] Instance outcome_ret : MRet outcome := fun A a => Ok a.

#[export] Instance outcome_bind : MBind outcome := fun A B f m =>
  match m with
  | Ok a => f a
  | Err e => Err e
  | Panic p => Panic p
  | Diverge => Diverge
  end.

#[export] Instance outcome_fmap : FMap outcome := fun A B f m =>
  match m with
  | Ok a => Ok (f a)
  | Err e => Err e
  | Panic p => Panic p
  | Diverge => Diverge
  end.

(** [ensure!(b, e)] *)
Definition ensure (b : bool) (e : error) : outcome unit :=
  if b then Ok tt else Err e.

(** [assert!(b)] *)
Definition assert_ (b : bool) (p : panic) : outcome unit :=
  if b then Ok tt else Panic p.

(** [o.ok_or(e)] *)
Definition ok_or {A} (o : option A) (e : error) : outcome A :=
  match o with Some a => Ok a | None => Err e end.

(** [o.expect(..)], [o.unwrap()], [m[&k]] *)
Definition or_panic {A} (o : option A) (p : panic) : outcome A :=
  match o with Some a => Ok a | None => Panic p end.

Definition is_ok {A} (m : outcome A) : bool :=
  match m with Ok _ => true | _ => false end.

(** A [for] loop that threads a state and may leave early with an error. *)
Fixpoint foldM {S A : Type} (f : S -> A -> outcome S) (s : S) (l : list A)
    : outcome S :=
  match l with
  | [] => Ok s
  | x :: l => s' ← f s x; foldM f s' l
  end.

(** ** A state monad for code that takes [&mut]

    The final state is returned on every exit, so that mutations made before an
    error are visible. *)

Definition stM (S A : Type) : Type := S -> S * outcome A.

#[export] Instance stM_ret {S} : MRet (stM S) := fun A a s => (s, Ok a).

#[export] Instance stM_bind {S} : MBind (stM S) := fun A B f m s =>
  match m s with
  | (s', Ok a) => f a s'
  | (s', Err e) => (s', Err e)
  | (s', Panic p) => (s', Panic p)
  | (s', Diverge) => (s', Diverge)
  end.

Definition get_st {S} : stM S S := fun s => (s, Ok s).

Definition modify_st {S} (f : S -> S) : stM S unit := fun s => (f s, Ok tt).

Definition lift_st {S A} (m : outcome A) : stM S A := fun s => (s, m).

(** Run a whole-state computation that either yields a new state or fails. *)
Definition update_st {S} (f : S -> outcome S) : stM S unit := fun s =>
  match f s with
  | Ok s' => (s', Ok tt)
  | Err e => (s, Err e)
  | Panic p => (s, Panic p)
  | Diverge => (s, Diverge)
  end.

Fixpoint iterM {S A : Type} (f : A -> stM S unit) (l : list A) : stM S unit :=
  match l with
  | [] => mret tt
  | x :: l => f x ≫= fun _ => iterM f l
  end.

(** [iter.any(f)]: stops at the first hit. *)
Fixpoint anyM {A : Type} (f : A -> outcome bool) (l : list A) : outcome bool :=
  match l with
  | [] => Ok false
  | x :: l => b ← f x; if (b : bool) then Ok true else anyM f l
  end.

(** ** Maps *)

(** [iter.collect()] into a map: a later entry replaces an earlier one. *)
Definition collect_map {V} (l : list (N * V)) : gmap N V :=
  foldl (fun m '(k, v) => <[k := v]> m) ∅ l.

(** The keys of a map, sorted. *)
Definition sorted_keys {V} (m : gmap N V) : list N :=
  merge_sort N.le (map_to_list m).*1.

(** ** Lists and bit lists *)

(** [iter().enumerate()], indices counted from [i]. *)
Fixpoint enumerate_from {A} (i : N) (l : list A) : list (N * A) :=
  match l with
  | [] => []
  | x :: l => (i, x) :: enumerate_from (N.succ i) l
  end.

Definition enumerate {A} (l : list A) : list (N * A) := enumerate_from 0 l.

Definition get_nth {A} (l : list A) (i : N) : option A := l !! N.to_nat i.

Definition len_u64 {A} (l : list A) : N := N.of_nat (length l).

(** [bits.set(i, b)] on a bit slice: out of range panics. *)
Definition bit_set (l : list bool) (i : N) (b : bool) : outcome (list bool) :=
  if (i <? len_u64 l)%N then Ok (<[N.to_nat i := b]> l) else Panic PIndex.

(** [&bits[from..]]: a start past the end panics. *)
Definition slice_from {A} (l : list A) (from : N) : outcome (list A) :=
  if (from <=? len_u64 l)%N then Ok (drop (N.to_nat from) l) else Panic PSlice.

(** [&bits[from..to]] *)
Definition slice {A} (l : list A) (from to : N) : outcome (list A) :=
  if ((from <=? to) && (to <=? len_u64 l))%N
  then Ok (take (N.to_nat (to - from)) (drop (N.to_nat from) l))
  else Panic PSlice.

(** [iter().map(|v| *v as u64).sum()] *)
Fixpoint count_true (l : list bool) : N :=
  match l with
  | [] => 0
  | b :: l => ((if b then 1 else 0) + count_true l)%N
  end.

(** The integers [a..b] of a Rust range, in order. *)
Definition nrange (a b : N) : list N :=
  (fun i : nat => (a + N.of_nat i)%N) <$> seq 0 (N.to_nat (b - a)).

(** [max_by]: the last of the maximal elements, as [Iterator::max_by] returns. *)
Fixpoint max_by_from {A} (cmp : A -> A -> comparison) (best : A) (l : list A) : A :=
  match l with
  | [] => best
  | x :: l => max_by_from cmp (match cmp best x with Gt => best | _ => x end) l
  end.

Definition max_by {A} (cmp : A -> A -> comparison) (l : list A) : option A :=
  match l with
  | [] => None
  | x :: l => Some (max_by_from cmp x l)
  end.

(** [min_by_key]: the first of the minimal elements. *)
Fixpoint min_by_key_from {A} (key : A -> N) (best : A) (l : list A) : A :=
  match l with
  | [] => best
  | x :: l => min_by_key_from key (if (key x <? key best)%N then x else best) l
  end.

Definition min_by_key {A} (key : A -> N) (l : list A) : option A :=
  match l with
  | [] => None
  | x :: l => Some (min_by_key_from key x l)
  end.

(** * Lemmas *)

Create HintDb lean.

Section Outcome.
Context {A B : Type}.

Lemma Ok_inj {X} (x y : X) : Ok x = Ok y -> x = y.
Proof. by intros [= ->]. Qed.

Lemma bind_Ok (m : outcome A) (f : A -> outcome B) (b : B) :
  m ≫= f = Ok b <-> exists a, m = Ok a /\ f a = Ok b.
Proof. destruct m; cbn; naive_solver. Qed.

Lemma bind_Err (m : outcome A) (f : A -> outcome B) (e : error) :
  m ≫= f = Err e <-> m = Err e \/ exists a, m = Ok a /\ f a = Err e.
Proof. destruct m; cbn; naive_solver. Qed.

Lemma bind_Panic (m : outcome A) (f : A -> outcome B) (p : panic) :
  m ≫= f = Panic p <-> m = Panic p \/ exists a, m = Ok a /\ f a = Panic p.
Proof. destruct m; cbn; naive_solver. Qed.

Lemma ensure_Ok (b : bool) (e : error) (u : unit) : ensure b e = Ok u <-> b = true.
Proof. destruct b, u; cbn; naive_solver. Qed.

Lemma assert_Ok (b : bool) (p : panic) (u : unit) : assert_ b p = Ok u <-> b = true.
Proof. destruct b, u; cbn; naive_solver. Qed.

Lemma ok_or_Ok (o : option A) (e : error) (a : A) : ok_or o e = Ok a <-> o = Some a.
Proof. destruct o; cbn; naive_solver. Qed.

Lemma or_panic_Ok (o : option A) (p : panic) (a : A) :
  or_panic o p = Ok a <-> o = Some a.
Proof. destruct o; cbn; naive_solver. Qed.
End Outcome.

(** Take apart a successful computation, one bind at a time. *)
Ltac ok_inv1 :=
  match goal with
  | H : (_ ≫= _) = Ok _ |- _ =>
      apply bind_Ok in H; let x := fresh "x" in let Hx := fresh "Hx" in
      destruct H as (x & Hx & H)
  | H : ensure _ _ = Ok _ |- _ => apply ensure_Ok in H
  | H : assert_ _ _ = Ok _ |- _ => apply assert_Ok in H
  | H : ok_or _ _ = Ok _ |- _ => apply ok_or_Ok in H
  | H : or_panic _ _ = Ok _ |- _ => apply or_panic_Ok in H
  | H : Ok _ = Ok _ |- _ => injection H as H
  | H : mret _ = Ok _ |- _ => injection H as H
  | H : Err _ = Ok _ |- _ => discriminate H
  | H : Panic _ = Ok _ |- _ => discriminate H
  | H : Diverge = Ok _ |- _ => discriminate H
  | x : unit |- _ => destruct x
  end.

Ltac ok_inv := repeat ok_inv1.

Lemma mapM_Ok {A B} (f : A -> outcome B) l k :
  mapM f l = Ok k <-> Forall2 (fun x y => f x = Ok y) l k.
Proof.
  revert k; induction l as [|x l IH]; intros k; cbn.
  - split; [by intros [= <-]|]. by intros ->%Forall2_nil_inv_l.
  - rewrite bind_Ok. setoid_rewrite bind_Ok. setoid_rewrite IH. split.
    + intros (y & Hy & ys & Hys & [= <-]). by constructor.
    + intros (y & ys & Hy & Hys & ->)%Forall2_cons_inv_l. eauto 10.
Qed.

Lemma mapM_total {A B} (f : A -> outcome B) l :
  (forall x, x ∈ l -> exists y, f x = Ok y) -> exists k, mapM f l = Ok k.
Proof.
  induction l as [|x l IH]; intros H; cbn; [by eexists|].
  destruct (H x) as [y ->]; [left|]. cbn.
  destruct IH as [k ->]; [by intros; apply H; right|]. cbn. by eexists.
Qed.

(** [m] neither panics nor diverges, and fails only with one of [es]. *)
Definition only_fails {A} (es : list error) (m : outcome A) : Prop :=
  match m with
  | Ok _ => True
  | Err e => e ∈ es
  | _ => False
  end.

Lemma only_fails_bind {A B} es (m : outcome A) (f : A -> outcome B) :
  only_fails es m -> (forall a, m = Ok a -> only_fails es (f a)) ->
  only_fails es (m ≫= f).
Proof. destruct m; cbn; auto. Qed.

Lemma only_fails_mono {A} es es' (m : outcome A) :
  es ⊆ es' -> only_fails es m -> only_fails es' m.
Proof. destruct m; cbn; auto. Qed.

Lemma only_fails_ok_or {A} es (o : option A) e : e ∈ es -> only_fails es (ok_or o e).
Proof. destruct o; cbn; auto. Qed.

Lemma only_fails_ensure es b e : e ∈ es -> only_fails es (ensure b e).
Proof. destruct b; cbn; auto. Qed.

Lemma only_fails_Ok {A} es (a : A) : only_fails es (Ok a).
Proof. done. Qed.

#[export] Hint Resolve only_fails_bind only_fails_ok_or only_fails_ensure only_fails_Ok : lean.

Lemma only_fails_foldM {S A} es (f : S -> A -> outcome S) (P : S -> Prop) s l :
  P s -> (forall s x, x ∈ l -> P s -> only_fails es (f s x)) ->
  (forall s x s', x ∈ l -> P s -> f s x = Ok s' -> P s') ->
  only_fails es (foldM f s l).
Proof.
  revert s; induction l as [|x l IH]; intros s Hs Hf Hp; cbn; [done|].
  apply only_fails_bind; [apply Hf; [left|done]|].
  intros s1 H1. apply IH.
  - eapply Hp; [left|done..].
  - intros; apply Hf; [by right|done].
  - intros; eapply Hp; [by right|..]; done.
Qed.

(** ** Reasoning about the state monad *)

(** [m] preserves [P], whatever its result. *)
Definition keeps {S A} (P : S -> Prop) (m : stM S A) : Prop := forall s, P s -> P (m s).1.

(** From a state with [P], [m] succeeds. *)
Definition succeeds {S A} (P : S -> Prop) (m : stM S A) : Prop :=
  forall s, P s -> exists a, (m s).2 = Ok a.

Section Keeps.
Context {S : Type} (P : S -> Prop).

Lemma keeps_bind {A B} (m : stM S A) (f : A -> stM S B) :
  keeps P m -> (forall a, keeps P (f a)) -> keeps P (m ≫= f).
Proof.
  intros Hm Hf s Hs. specialize (Hm s Hs). unfold mbind, stM_bind.
  destruct (m s) as [s' [a| | |]]; cbn in *; [by apply Hf|done..].
Qed.

Lemma keeps_ret {A} (a : A) : keeps P (mret a).
Proof. by intros s. Qed.

Lemma keeps_get : keeps P get_st.
Proof. by intros s. Qed.

Lemma keeps_lift {A} (m : outcome A) : keeps P (lift_st m).
Proof. by intros s. Qed.

Lemma keeps_modify f : (forall s, P s -> P (f s)) -> keeps P (modify_st f).
Proof. intros H s. apply H. Qed.

Lemma keeps_update f : (forall s s', P s -> f s = Ok s' -> P s') -> keeps P (update_st f).
Proof. intros H s Hs. unfold update_st. destruct (f s) eqn:E; cbn; eauto. Qed.

Lemma keeps_iterM {A} (f : A -> stM S unit) l :
  (forall x, x ∈ l -> keeps P (f x)) -> keeps P (iterM f l).
Proof.
  induction l as [|x l IH]; intros H; [apply keeps_ret|].
  apply keeps_bind; [apply H; left|]. intros _. apply IH. intros; apply H; by right.
Qed.

Lemma succeeds_bind {A B} (m : stM S A) (f : A -> stM S B) :
  keeps P m -> succeeds P m -> (forall a, succeeds P (f a)) -> succeeds P (m ≫= f).
Proof.
  intros Hk Hm Hf s Hs. specialize (Hk s Hs). specialize (Hm s Hs).
  unfold mbind, stM_bind. destruct (m s) as [s' r]; cbn in *. destruct Hm as [a ->].
  by apply Hf.
Qed.

Lemma succeeds_ret {A} (a : A) : succeeds P (mret a).
Proof. intros s _. by exists a. Qed.

Lemma succeeds_get : succeeds P get_st.
Proof. intros s _. by exists s. Qed.

Lemma succeeds_modify f : succeeds P (modify_st f).
Proof. intros s _. by exists tt. Qed.

Lemma succeeds_update f :
  (forall s, P s -> exists s', f s = Ok s') -> succeeds P (update_st f).
Proof. intros H s Hs. unfold update_st. destruct (H s Hs) as [s' ->]. by exists tt. Qed.

Lemma succeeds_iterM {A} (f : A -> stM S unit) l :
  (forall x, x ∈ l -> keeps P (f x)) -> (forall x, x ∈ l -> succeeds P (f x)) ->
  succeeds P (iterM f l).
Proof.
  induction l as [|x l IH]; intros Hk H; [apply succeeds_ret|].
  apply succeeds_bind; [apply Hk; left|apply H; left|]. intros _.
  apply IH; intros; [apply Hk|apply H]; by right.
Qed.
End Keeps.

#[export] Hint Resolve keeps_bind keeps_ret keeps_get keeps_lift keeps_modify keeps_update
  succeeds_bind succeeds_ret succeeds_get succeeds_modify succeeds_update : lean.

(** [m] does not run out of fuel. *)
Definition terminates {A} (m : outcome A) : Prop := m <> Diverge.

Lemma terminates_bind {A B} (m : outcome A) (f : A -> outcome B) :
  terminates m -> (forall a, m = Ok a -> terminates (f a)) -> terminates (m ≫= f).
Proof. unfold terminates. destruct m; cbn; auto; done. Qed.

Lemma terminates_Ok {A} (a : A) : terminates (Ok a).
Proof. done. Qed.

Lemma terminates_Err {A} e : terminates (@Err A e).
Proof. done. Qed.

Lemma terminates_Panic {A} p : terminates (@Panic A p).
Proof. done. Qed.

Lemma terminates_ok_or {A} (o : option A) e : terminates (ok_or o e).
Proof. by destruct o. Qed.

Lemma terminates_or_panic {A} (o : option A) p : terminates (or_panic o p).
Proof. by destruct o. Qed.

Lemma terminates_ensure b e : terminates (ensure b e).
Proof. by destruct b. Qed.

Lemma terminates_assert b p : terminates (assert_ b p).
Proof. by destruct b. Qed.

Lemma terminates_bit_set l i b : terminates (bit_set l i b).
Proof. unfold bit_set. by case_match. Qed.

Lemma terminates_slice {A} (l : list A) i j : terminates (slice l i j).
Proof. unfold slice. by case_match. Qed.

Lemma terminates_slice_from {A} (l : list A) i : terminates (slice_from l i).
Proof. unfold slice_from. by case_match. Qed.

Lemma terminates_foldM {S A} (f : S -> A -> outcome S) s l :
  (forall s x, terminates (f s x)) -> terminates (foldM f s l).
Proof.
  intros Hf. revert s; induction l as [|x l IH]; intros s; [done|].
  apply terminates_bind; [apply Hf|]. intros; apply IH.
Qed.

Lemma terminates_mapM {A B} (f : A -> outcome B) l :
  (forall x, terminates (f x)) -> terminates (mapM f l).
Proof.
  intros Hf. induction l as [|x l IH]; [done|]. cbn.
  apply terminates_bind; [apply Hf|]. intros. apply terminates_bind; done.
Qed.

Lemma terminates_anyM {A} (f : A -> outcome bool) l :
  (forall x, terminates (f x)) -> terminates (anyM f l).
Proof.
  intros Hf. induction l as [|x l IH]; [done|]. cbn.
  apply terminates_bind; [apply Hf|]. intros [] _; done.
Qed.

#[export] Hint Resolve terminates_Ok terminates_Err terminates_Panic terminates_ok_or
  terminates_or_panic terminates_ensure terminates_assert terminates_bit_set
  terminates_slice terminates_slice_from : lean.

(** Straight-line code terminates; loops need their own lemma, in [lean]. *)
Ltac solve_terminates :=
  repeat first
    [ solve [eauto 2 with lean]
    | apply terminates_bind; [|intros ? ?]
    | apply terminates_foldM; intros ? ?
    | apply terminates_mapM; intros ?
    | apply terminates_anyM; intros ?
    | progress cbn beta zeta
    | case_match ].

Section FoldM.
Context {S A : Type} (f : S -> A -> outcome S).

Lemma foldM_app s l1 l2 :
  foldM f s (l1 ++ l2) = (s' ← foldM f s l1; foldM f s' l2).
Proof.
  revert s; induction l1 as [|x l1 IH]; intros s; cbn; [done|].
  destruct (f s x); cbn; auto.
Qed.

(** An invariant of the body is an invariant of the loop. *)
Lemma foldM_inv (P : S -> Prop) s l s' :
  P s ->
  (forall s x s', x ∈ l -> P s -> f s x = Ok s' -> P s') ->
  foldM f s l = Ok s' -> P s'.
Proof.
  revert s; induction l as [|x l IH]; intros s Hs Hstep Hf; cbn in Hf; ok_inv.
  - by subst.
  - eapply IH; [|intros; eapply Hstep; [by right|..]; done|done].
    eapply Hstep; [by left|done..].
Qed.

(** A body that always succeeds under the invariant makes the loop succeed. *)
Lemma foldM_total (P : S -> Prop) s l :
  P s ->
  (forall s x, x ∈ l -> P s -> exists s', f s x = Ok s' /\ P s') ->
  exists s', foldM f s l = Ok s' /\ P s'.
Proof.
  revert s; induction l as [|x l IH]; intros s Hs Hstep; cbn; [eauto|].
  destruct (Hstep s x) as (s1 & -> & Hs1); [by left|done|]. cbn.
  apply IH; [done|]. intros; apply Hstep; [by right|done].
Qed.

(** A body that cannot panic under the invariant makes the loop panic-free. *)
Lemma foldM_no_panic (P : S -> Prop) s l p :
  P s ->
  (forall s x s', x ∈ l -> P s -> f s x = Ok s' -> P s') ->
  (forall s x, x ∈ l -> P s -> f s x <> Panic p) ->
  foldM f s l <> Panic p.
Proof.
  revert s; induction l as [|x l IH]; intros s Hs Hstep Hnp; cbn; [done|].
  destruct (f s x) as [s1| | |] eqn:E; cbn; try done.
  - apply IH; [by eapply Hstep; [left|done|done]|..].
    + intros; eapply Hstep; [by right|..]; done.
    + intros; apply Hnp; [by right|done].
  - rewrite <-E. by apply Hnp; [left|].
Qed.

Lemma foldM_no_diverge s l :
  (forall s x, f s x <> Diverge) -> foldM f s l <> Diverge.
Proof.
  intros Hf. revert s; induction l as [|x l IH]; intros s; cbn; [done|].
  pose proof (Hf s x) as Hx. destruct (f s x); cbn; auto; done.
Qed.
End FoldM.

Section Lists.
Context {A : Type}.

Lemma lookup_enumerate_from (l : list A) (k : N) (i : nat) :
  enumerate_from k l !! i = (fun x => ((k + N.of_nat i)%N, x)) <$> l !! i.
Proof.
  revert k i; induction l as [|x l IH]; intros k i; cbn; [done|].
  destruct i as [|i]; cbn.
  - do 2 f_equal. lia.
  - rewrite IH. destruct (l !! i); cbn; [|done]. do 2 f_equal. lia.
Qed.

Lemma lookup_enumerate (l : list A) (i : nat) :
  enumerate l !! i = (fun x => (N.of_nat i, x)) <$> l !! i.
Proof. unfold enumerate. rewrite lookup_enumerate_from. done. Qed.

Lemma elem_of_enumerate (l : list A) (i : N) (x : A) :
  (i, x) ∈ enumerate l <-> get_nth l i = Some x.
Proof.
  unfold get_nth. rewrite list_elem_of_lookup. split.
  - intros [j Hj]. rewrite lookup_enumerate in Hj.
    destruct (l !! j) eqn:E; naive_solver (rewrite ?Nat2N.id; done).
  - intros H. exists (N.to_nat i). rewrite lookup_enumerate, H; cbn.
    by rewrite N2Nat.id.
Qed.

Lemma length_enumerate_from (l : list A) k : length (enumerate_from k l) = length l.
Proof. revert k; induction l; intros; cbn; auto. Qed.

Lemma enumerate_from_snd (l : list A) k : (enumerate_from k l).*2 = l.
Proof. revert k; induction l; intros; cbn; f_equal; auto. Qed.

Lemma get_nth_lt (l : list A) i x : get_nth l i = Some x -> (i < len_u64 l)%N.
Proof. unfold get_nth, len_u64. intros H%lookup_lt_Some. lia. Qed.

Lemma get_nth_is_Some (l : list A) i : is_Some (get_nth l i) <-> (i < len_u64 l)%N.
Proof. unfold get_nth, len_u64. rewrite lookup_lt_is_Some. lia. Qed.

Lemma get_nth_None (l : list A) i : get_nth l i = None <-> (len_u64 l <= i)%N.
Proof. unfold get_nth, len_u64. rewrite lookup_ge_None. lia. Qed.

Lemma elem_of_nrange a b x : x ∈ nrange a b <-> (a <= x < b)%N.
Proof.
  unfold nrange. rewrite list_elem_of_fmap. setoid_rewrite elem_of_seq. split.
  - intros (i & -> & ?). lia.
  - intros ?. exists (N.to_nat (x - a)). split; lia.
Qed.
End Lists.

Lemma wadd_small x y : (x + y < u64_modulus)%N -> wadd x y = (x + y)%N.
Proof. intros. unfold wadd. apply N.mod_small. done. Qed.

Lemma wmul_small x y : (x * y < u64_modulus)%N -> wmul x y = (x * y)%N.
Proof. intros. unfold wmul. apply N.mod_small. done. Qed.

Lemma wsub_small x y : (y <= x)%N -> wsub x y = (x - y)%N.
Proof. intros H%N.leb_le. unfold wsub. by rewrite H. Qed.

Lemma checked_sub_Some x y z : checked_sub x y = Some z <-> (y <= x /\ z = x - y)%N.
Proof. unfold checked_sub. destruct (N.leb_spec y x); naive_solver lia. Qed.

Lemma checked_sub_None x y : checked_sub x y = None <-> (x < y)%N.
Proof. unfold checked_sub. destruct (N.leb_spec y x); naive_solver lia. Qed.

Lemma count_true_le l : (count_true l <= len_u64 l)%N.
Proof.
  unfold len_u64. induction l as [|b l IH]; [cbn; lia|].
  cbn [length count_true]. destruct b; lia.
Qed.

Lemma bit_set_Ok l i b :
  (i < len_u64 l)%N -> bit_set l i b = Ok (<[N.to_nat i := b]> l).
Proof. intros. unfold bit_set. by replace (i <? len_u64 l)%N with true by lia. Qed.

Lemma bit_set_Ok_inv l i b l' :
  bit_set l i b = Ok l' -> (i < len_u64 l)%N /\ l' = <[N.to_nat i := b]> l.
Proof. unfold bit_set. destruct (N.ltb_spec i (len_u64 l)); naive_solver. Qed.

(** ** Maxima under a total comparison *)

Class TotalCmp {A} (cmp : A -> A -> comparison) : Prop := {
  cmp_opp : forall a b, cmp b a = CompOpp (cmp a b);
  cmp_trans : forall a b c, cmp a b <> Gt -> cmp b c <> Gt -> cmp a c <> Gt;
  cmp_eq : forall a b, cmp a b = Eq -> a = b
}.

#[export] Instance N_compare_total : TotalCmp N.compare.
Proof.
  split; intros *.
  - apply N.compare_antisym.
  - rewrite !N.compare_le_iff. lia.
  - apply N.compare_eq.
Qed.

Section MaxBy.
Context {A : Type} (cmp : A -> A -> comparison) `{!TotalCmp cmp}.

Lemma cmp_refl a : cmp a a = Eq.
Proof. pose proof (cmp_opp a a) as H. by destruct (cmp a a). Qed.

Lemma max_by_from_spec b l :
  let m := max_by_from cmp b l in
  (m = b \/ m ∈ l) /\ cmp b m <> Gt /\ forall x, x ∈ l -> cmp x m <> Gt.
Proof.
  revert b; induction l as [|y l IH]; intros b; cbn.
  { split; [by left|]. split; [by rewrite cmp_refl|]. by intros x ?%not_elem_of_nil. }
  set (b' := match cmp b y with Gt => b | _ => y end).
  destruct (IH b') as (Hin & Hb & Hl).
  assert (cmp b b' <> Gt /\ cmp y b' <> Gt) as [Hbb' Hyb'].
  { unfold b'. pose proof (cmp_opp b y) as Ho. destruct (cmp b y) eqn:E;
      rewrite ?cmp_refl, ?Ho, ?E; cbn; split; congruence. }
  split; [|split].
  - destruct Hin as [->|]; [|right; by right].
    unfold b'. destruct (cmp b y); [right; left|right; left|by left].
  - by eapply cmp_trans.
  - intros x [->|Hx]%elem_of_cons; [by eapply cmp_trans|by apply Hl].
Qed.

Lemma max_by_Some l m :
  max_by cmp l = Some m <-> m ∈ l /\ forall x, x ∈ l -> cmp x m <> Gt.
Proof.
  destruct l as [|y l]; cbn.
  { split; [done|]. by intros [?%not_elem_of_nil _]. }
  pose proof (max_by_from_spec y l) as (Hin & Hy & Hl).
  assert (Hmax : forall x, x ∈ y :: l -> cmp x (max_by_from cmp y l) <> Gt).
  { intros x [->|Hx]%elem_of_cons; auto. }
  assert (Hmem : max_by_from cmp y l ∈ y :: l).
  { destruct Hin as [->|]; [left|by right]. }
  split.
  - intros [= <-]. done.
  - intros [Hm Hmx]. f_equal. apply cmp_eq.
    specialize (Hmx _ Hmem). specialize (Hmax _ Hm).
    rewrite (cmp_opp m) in Hmx |- *. by destruct (cmp m _).
Qed.

Lemma max_by_None l : max_by cmp l = None <-> l = [].
Proof. by destruct l. Qed.

(** The maximum does not depend on the order of the list. *)
Lemma max_by_perm l1 l2 : l1 ≡ₚ l2 -> max_by cmp l1 = max_by cmp l2.
Proof.
  intros Hp. destruct (max_by cmp l2) as [m|] eqn:E.
  - apply max_by_Some in E as [Hm Hx]. apply max_by_Some.
    split; [by rewrite Hp|]. intros x. rewrite Hp. apply Hx.
  - apply max_by_None in E as ->. apply Permutation_nil_r in Hp as ->. done.
Qed.

#[export] Instance max_by_proper : Proper ((≡ₚ) ==> (=)) (max_by cmp).
Proof. intros l1 l2. apply max_by_perm. Qed.
End MaxBy.

(** ** Collecting and sorting keys *)

Section Collect.
Context {V : Type}.

Lemma collect_map_app (l1 l2 : list (N * V)) :
  collect_map (l1 ++ l2) = foldl (fun m '(k, v) => <[k := v]> m) (collect_map l1) l2.
Proof. unfold collect_map. by rewrite foldl_app. Qed.

Lemma collect_map_lookup (l : list (N * V)) k v :
  NoDup l.*1 -> collect_map l !! k = Some v <-> (k, v) ∈ l.
Proof.
  induction l as [|[k' v'] l IH] using rev_ind; intros Hnd.
  { unfold collect_map; cbn. rewrite lookup_empty, elem_of_nil. done. }
  rewrite collect_map_app. cbn. rewrite fmap_app in Hnd. cbn in Hnd.
  apply NoDup_app in Hnd as (Hnd & Hdis & _).
  rewrite elem_of_app, list_elem_of_singleton, <-IH by done.
  destruct (decide (k = k')) as [->|Hne].
  - rewrite lookup_insert_eq. split; [naive_solver|]. intros [H|[= ->]]; [|done].
    apply IH in H; [|done]. exfalso. apply (Hdis k').
    + apply list_elem_of_fmap. by exists (k', v).
    + left.
  - rewrite lookup_insert_ne by done. naive_solver.
Qed.

Lemma sorted_keys_elem (m : gmap N V) k : k ∈ sorted_keys m <-> is_Some (m !! k).
Proof.
  unfold sorted_keys. rewrite merge_sort_Permutation, list_elem_of_fmap. split.
  - intros ([k' v] & -> & Hk%elem_of_map_to_list). by exists v.
  - intros [v Hv]. exists (k, v). split; [done|]. by apply elem_of_map_to_list.
Qed.

Lemma sorted_keys_NoDup (m : gmap N V) : NoDup (sorted_keys m).
Proof. unfold sorted_keys. rewrite merge_sort_Permutation. apply NoDup_fst_map_to_list. Qed.

Lemma sorted_keys_sorted (m : gmap N V) : StronglySorted N.lt (sorted_keys m).
Proof.
  pose proof (StronglySorted_merge_sort N.le (map_to_list m).*1) as Hs.
  pose proof (sorted_keys_NoDup m) as Hnd. unfold sorted_keys in *.
  revert Hnd. induction Hs as [|x l Hs IH Hx]; intros Hnd; constructor.
  - apply IH. by apply NoDup_cons in Hnd as [_ ?].
  - apply NoDup_cons in Hnd as [Hnin _]. rewrite Forall_forall in Hx |- *.
    intros y Hy. specialize (Hx y Hy). assert (x <> y) by (by intros ->). lia.
Qed.
End Collect.

Lemma StronglySorted_lt_NoDup (l : list N) : StronglySorted N.lt l -> NoDup l.
Proof.
  induction 1 as [|x l _ IH Hx]; constructor; [|done].
  rewrite Forall_forall in Hx. intros H%Hx. lia.
Qed.

(** A sorted list is determined by its elements. *)
Lemma StronglySorted_lt_unique (l1 l2 : list N) :
  StronglySorted N.lt l1 -> StronglySorted N.lt l2 ->
  (forall x, x ∈ l1 <-> x ∈ l2) -> l1 = l2.
Proof.
  intros H1 H2 Heq.
  assert (AntiSymm (=) N.lt) by (intros x y ? ?; lia).
  apply (StronglySorted_unique N.lt); [done..|].
  apply NoDup_Permutation; [by apply StronglySorted_lt_NoDup..|done].
Qed.
