(* ===== verification/Float64.v ===== *)
(** * IEEE-754 binary64 square root, as [Slot::is_justifiable_after] uses it

    Rust's [x as f64], [f64::sqrt] and [f as u64] over the executable binary64
    of the Standard Library ([SpecFloat], round to nearest even), and the fact
    that the detour through floating point returns the exact root of every
    perfect square below [2^64]. *)

From S2P Require Import Prelude.
From Stdlib Require Import ZArith Lia.
From Stdlib Require Import SpecFloat.

#[local] Open Scope Z_scope.

(** [x as f64] *)
Definition u64_to_f64 (x : u64) : spec_float :=
  binary_normalize 53 1024 (Z.of_N x) 0 false.

(** [f.sqrt()] *)
Definition f64_sqrt (f : spec_float) : spec_float := SFsqrt 53 1024 f.

(** [f as u64]: truncation towards zero, saturating, NaN to 0. *)
Definition f64_to_u64 (f : spec_float) : u64 :=
  match f with
  | S754_nan => 0%N
  | S754_zero _ => 0%N
  | S754_infinity s => if s then 0%N else u64_max
  | S754_finite true _ _ => 0%N
  | S754_finite false m e => N.min u64_max (Z.to_N (Z.shiftl (Zpos m) e))
  end.

(** [(x as f64).sqrt() as u64] *)
Definition f64_isqrt (x : u64) : u64 := f64_to_u64 (f64_sqrt (u64_to_f64 x)).

Example f64_isqrt_samples :
  f64_isqrt <$> [0; 1; 2; 15; 16; 17; 18446744065119617025; 18446744073709551615]%N
  = [0; 1; 1; 3; 4; 4; 4294967295; 4294967296]%N.
Proof. vm_compute. reflexivity. Qed.

(** ** Digits *)

Lemma digits2_pos_bounds p :
  2 ^ (Zpos (digits2_pos p) - 1) <= Zpos p < 2 ^ Zpos (digits2_pos p).
Proof.
  induction p as [p IH|p IH|]; cbn [digits2_pos]; [..|done].
  all: rewrite Pos2Z.inj_succ;
    replace (Z.succ (Zpos (digits2_pos p))) with (Zpos (digits2_pos p) + 1) by lia;
    replace (Zpos (digits2_pos p) + 1 - 1) with ((Zpos (digits2_pos p) - 1) + 1) by lia;
    rewrite !Z.pow_add_r by lia; lia.
Qed.

Lemma Zdigits2_unique m d :
  0 < d -> 2 ^ (d - 1) <= m < 2 ^ d -> Zdigits2 m = d.
Proof.
  intros Hd Hm. assert (0 < m) by (pose proof (Z.pow_pos_nonneg 2 (d - 1)); lia).
  destruct m as [|p|p]; try lia. cbn.
  pose proof (digits2_pos_bounds p) as Hb.
  assert (~ d < Zpos (digits2_pos p)).
  { intros Hlt. assert (2 ^ d <= 2 ^ (Zpos (digits2_pos p) - 1))
      by (apply Z.pow_le_mono_r; lia). lia. }
  assert (~ Zpos (digits2_pos p) < d).
  { intros Hlt. assert (2 ^ Zpos (digits2_pos p) <= 2 ^ (d - 1))
      by (apply Z.pow_le_mono_r; lia). lia. }
  lia.
Qed.

(** ** Right shifts with round and sticky bits *)

(** [rec] is [x] shifted right by [j], with the shifted-out part [rem]
    summarised by the round and sticky bits. *)
Definition shr_rel (x : Z) (j : Z) (r : shr_record) : Prop :=
  exists rem,
    x = shr_m r * 2 ^ j + rem /\ 0 <= rem < 2 ^ j /\ 0 <= shr_m r /\
    (shr_r r = true <-> 2 ^ j <= 2 * rem) /\
    (shr_s r = false <-> rem = 0 \/ 2 * rem = 2 ^ j).

Lemma shr_rel_step x j r : 0 <= j -> shr_rel x j r -> shr_rel x (j + 1) (shr_1 r).
Proof.
  intros Hj (rem & Hx & Hrem & Hm & Hr & Hs). destruct r as [m rb sb];
    cbn [shr_m shr_r shr_s] in *.
  assert (Hpow : 2 ^ (j + 1) = 2 * 2 ^ j) by (rewrite Z.pow_add_r; lia).
  set (P := 2 ^ j) in *.
  assert (Hsticky : rb || sb = false <-> rem = 0).
  { rewrite orb_false_iff. destruct rb, sb; intuition (try congruence; lia). }
  assert (exists q b, m = 2 * q + Z.b2z b /\ 0 <= q /\
    shr_1 {| shr_m := m; shr_r := rb; shr_s := sb |} =
    {| shr_m := q; shr_r := b; shr_s := rb || sb |}) as (q & b & -> & Hq & ->).
  { destruct m as [|[p|p|]|]; cbn; try lia.
    - by exists 0, false.
    - by exists (Zpos p), true.
    - by exists (Zpos p), false.
    - by exists 0, true. }
  exists (Z.b2z b * P + rem). cbn [shr_m shr_r shr_s]. rewrite Hpow.
  destruct b; cbn [Z.b2z]; rewrite Hsticky; repeat split; intros; try done; try lia;
    rewrite Hx; cbn [Z.b2z]; ring.
Qed.

Lemma iter_pos_nat {A} (f : A -> A) p x :
  iter_pos f p x = Nat.iter (Pos.to_nat p) f x.
Proof.
  revert x; induction p as [p IH|p IH|]; intros x; cbn [iter_pos]; rewrite ?IH.
  - rewrite <-Nat.iter_add, Pos2Nat.inj_xI.
    replace (S (2 * Pos.to_nat p)) with ((Pos.to_nat p + Pos.to_nat p) + 1)%nat by lia.
    by rewrite (Nat.iter_add _ 1).
  - rewrite <-Nat.iter_add, Pos2Nat.inj_xO. f_equal. lia.
  - done.
Qed.

Lemma shr_rel_iter x p r :
  shr_rel x 0 r -> shr_rel x (Zpos p) (iter_pos shr_1 p r).
Proof.
  intros H. rewrite iter_pos_nat, <-(positive_nat_Z p).
  induction (Pos.to_nat p) as [|n IH]; [done|].
  replace (Z.of_nat (S n)) with (Z.of_nat n + 1) by lia.
  apply shr_rel_step; [lia|done].
Qed.

Lemma shr_rel_exact m : 0 <= m -> shr_rel m 0 (shr_record_of_loc m loc_Exact).
Proof. intros. exists 0. cbn. repeat split; intros; try lia; try done. Qed.

(** Rounding to nearest is off by at most half a unit in the last place. *)
Lemma round_nearest_even_error x j r :
  0 < j -> shr_rel x j r ->
  let m := round_nearest_even (shr_m r) (loc_of_shr_record r) in
  shr_m r <= m <= shr_m r + 1 /\ Z.abs (m * 2 ^ j - x) <= 2 ^ (j - 1).
Proof.
  intros Hj (rem & Hx & Hrem & Hm & Hr & Hs).
  assert (2 ^ j = 2 * 2 ^ (j - 1)) as Hpow
    by (rewrite <-Z.pow_succ_r by lia; f_equal; lia).
  rewrite Hpow in *. set (P := 2 ^ (j - 1)) in *. destruct r as [m [] []]; cbn in *.
  - intuition (try congruence; lia).
  - assert (2 * rem = 2 * P) by (destruct Hs as [Hs _]; specialize (Hs eq_refl);
      destruct Hr as [Hr _]; specialize (Hr eq_refl); lia).
    destruct (Z.even m); lia.
  - assert (~ 2 * P <= 2 * rem) by (intros ?; by apply Hr in H). lia.
  - destruct Hs as [Hs _]; specialize (Hs eq_refl).
    assert (~ 2 * P <= 2 * rem) by (intros ?; by apply Hr in H). lia.
Qed.

(** ** Conversion and square root on normalised mantissas *)

Lemma shr_fexp_normal m e l :
  2 ^ 52 <= m < 2 ^ 53 -> -1074 <= e ->
  shr_fexp 53 1024 m e l = (shr_record_of_loc m l, e).
Proof.
  intros Hm He. unfold shr_fexp. rewrite (Zdigits2_unique m 53) by lia.
  replace (fexp 53 1024 (53 + e) - e) with 0; [done|].
  unfold fexp, emin. lia.
Qed.

Lemma loc_of_record_of_loc m l :
  shr_m (shr_record_of_loc m l) = m /\ loc_of_shr_record (shr_record_of_loc m l) = l.
Proof. by destruct l as [|[]]. Qed.

Lemma binary_round_aux_normal m e l p :
  2 ^ 52 <= m < 2 ^ 53 -> -1074 <= e <= 971 ->
  round_nearest_even m l = Zpos p -> 2 ^ 52 <= Zpos p < 2 ^ 53 ->
  binary_round_aux 53 1024 false m e l = S754_finite false p e.
Proof.
  intros Hm He Hr Hp. unfold binary_round_aux.
  rewrite shr_fexp_normal by lia. destruct (loc_of_record_of_loc m l) as [-> ->].
  rewrite Hr, shr_fexp_normal by lia. cbn [shr_record_of_loc shr_m].
  replace (e <=? 1024 - 53) with true by (symmetry; apply Z.leb_le; lia). done.
Qed.

Lemma Pos_iter_xO p d : Zpos (Pos.iter xO p d) = Zpos p * 2 ^ Zpos d.
Proof.
  revert p; induction d as [|d IH] using Pos.peano_ind; intros p.
  - change (Pos.iter xO p 1) with (xO p). lia.
  - rewrite Pos.iter_succ, Pos2Z.inj_succ, Z.pow_succ_r by lia.
    rewrite Pos2Z.inj_xO, IH. lia.
Qed.

(** An integer of at most 53 digits is shifted into the mantissa. *)
Lemma align_narrow x d :
  1 <= d <= 53 -> 2 ^ (d - 1) <= Zpos x < 2 ^ d ->
  exists p, (match d - 53 with Zneg d' => (Pos.iter xO x d', d - 53) | _ => (x, 0) end)
      = (p, d - 53) /\ Zpos p = Zpos x * 2 ^ (53 - d) /\ 2 ^ 52 <= Zpos p < 2 ^ 53.
Proof.
  intros Hd Hx. assert (exists p, (match d - 53 with Zneg d' => (Pos.iter xO x d', d - 53)
      | _ => (x, 0) end) = (p, d - 53) /\ Zpos p = Zpos x * 2 ^ (53 - d)) as (p & E & Hp).
  { destruct (d - 53) as [|q|q] eqn:E; [|lia|].
    - exists x. split; [done|]. replace (53 - d) with 0 by lia. lia.
    - exists (Pos.iter xO x q). split; [done|]. rewrite Pos_iter_xO.
      replace (53 - d) with (Zpos q) by lia. done. }
  exists p. split; [done|]. split; [done|].
  assert (2 ^ 52 = 2 ^ (d - 1) * 2 ^ (53 - d)) as ->
    by (rewrite <-Z.pow_add_r by lia; f_equal; lia).
  assert (2 ^ 53 = 2 ^ d * 2 ^ (53 - d)) as ->
    by (rewrite <-Z.pow_add_r by lia; f_equal; lia).
  rewrite Hp. pose proof (Z.pow_pos_nonneg 2 (53 - d) ltac:(lia) ltac:(lia)).
  split; [apply Z.mul_le_mono_nonneg_r|apply Z.mul_lt_mono_pos_r]; lia.
Qed.

(** A longer one is rounded to 53 digits, to 52 and one more exponent on a carry. *)
Lemma round_wide x q :
  Zpos q <= 11 -> 2 ^ (52 + Zpos q) <= Zpos x < 2 ^ (53 + Zpos q) ->
  exists m e, binary_round_aux 53 1024 false (Zpos x) 0 loc_Exact = S754_finite false m e /\
    2 ^ 52 <= Zpos m < 2 ^ 53 /\ 0 < e <= 12 /\
    Z.abs (Zpos m * 2 ^ e - Zpos x) <= 2 ^ (e - 1).
Proof.
  intros Hq Hx. unfold binary_round_aux, shr_fexp.
  rewrite (Zdigits2_unique (Zpos x) (53 + Zpos q))
    by (replace (53 + Zpos q - 1) with (52 + Zpos q) by lia; lia).
  replace (fexp 53 1024 (53 + Zpos q + 0) - 0) with (Zpos q) by (unfold fexp, emin; lia).
  cbn [shr]. rewrite !Z.pow_add_r in Hx by lia.
  pose proof (shr_rel_iter (Zpos x) q _ (shr_rel_exact (Zpos x) ltac:(lia))) as Hrel.
  set (r := iter_pos shr_1 q _) in *.
  pose proof (round_nearest_even_error _ _ _ (Pos2Z.is_pos q) Hrel) as [Hm Herr].
  destruct Hrel as (rem & Hxr & Hrem & _). set (m := round_nearest_even _ _) in *.
  pose proof (Z.pow_pos_nonneg 2 (Zpos q) ltac:(lia) ltac:(lia)) as HP.
  assert (2 ^ 52 <= shr_m r < 2 ^ 53) by nia. rewrite Z.add_0_l.
  destruct (Z.eq_dec m (2 ^ 53)) as [Heq|Hne].
  - rewrite Heq. exists (Z.to_pos (2 ^ 52)), (Zpos q + 1).
    replace (Zdigits2 (2 ^ 53)) with 54 by reflexivity.
    replace (fexp 53 1024 (54 + Zpos q) - Zpos q) with 1 by (unfold fexp, emin; lia).
    cbn [shr iter_pos]. replace (Zpos q + 1 <=? 1024 - 53) with true by lia.
    split; [done|]. repeat split; try (done || lia).
    rewrite Z.pow_add_r by lia. replace (Zpos q + 1 - 1) with (Zpos q) by lia.
    assert (2 ^ (Zpos q - 1) <= 2 ^ Zpos q) by (apply Z.pow_le_mono_r; lia).
    change (Zpos (Z.to_pos (2 ^ 52))) with (2 ^ 52). rewrite Heq in Herr. lia.
  - assert (2 ^ 52 <= m < 2 ^ 53) as Hmb by lia.
    rewrite (Zdigits2_unique m 53) by lia.
    replace (fexp 53 1024 (53 + Zpos q) - Zpos q) with 0 by (unfold fexp, emin; lia).
    cbn [shr shr_record_of_loc shr_m]. destruct m as [|p|p]; try lia.
    replace (Zpos q <=? 1024 - 53) with true by lia.
    exists p, (Zpos q). repeat split; try (done || lia).
Qed.

(** A [u64] and its [f64] differ by at most half a unit in the last place. *)
Lemma u64_to_f64_spec x :
  (0 < x < u64_modulus)%N ->
  exists m e, u64_to_f64 x = S754_finite false m e /\
    2 ^ 52 <= Zpos m < 2 ^ 53 /\ -52 <= e <= 12 /\
    (e <= 0 -> Zpos m = Z.of_N x * 2 ^ (- e)) /\
    (0 < e -> Z.abs (Zpos m * 2 ^ e - Z.of_N x) <= 2 ^ (e - 1)).
Proof.
  intros Hx. destruct x as [|x]; [lia|]. unfold u64_to_f64.
  cbn [Z.of_N binary_normalize]. unfold binary_round.
  pose proof (digits2_pos_bounds x) as Hd. rewrite Z.add_0_r.
  set (d := Zpos (digits2_pos x)) in *.
  assert (1 <= d <= 64).
  { split; [lia|]. apply Z.nlt_ge. intros Hlt.
    assert (2 ^ 64 <= 2 ^ (d - 1)) by (apply Z.pow_le_mono_r; lia).
    unfold u64_modulus in Hx. lia. }
  assert (Hf : fexp 53 1024 d = d - 53) by (unfold fexp, emin; lia).
  rewrite Hf. unfold shl_align. rewrite Z.sub_0_r.
  destruct (Z.le_gt_cases d 53) as [Hle|Hgt].
  - destruct (align_narrow x d) as (p & -> & Hp & Hb); [lia|done|].
    exists p, (d - 53). rewrite (binary_round_aux_normal _ _ _ p) by (done || lia).
    repeat split; try lia. intros _. rewrite Hp. f_equal. f_equal. lia.
  - destruct (d - 53) as [|q|q] eqn:E; try lia.
    destruct (round_wide x q) as (m & e & -> & Hm & He & Herr); [lia| |].
    { replace (52 + Zpos q) with (d - 1) by lia. replace (53 + Zpos q) with d by lia. done. }
    exists m, e. repeat split; lia.
Qed.

(** The square root of a normalised mantissa: the radicand is scaled by an even
    power of two to 105 or 106 digits, and its integer root is rounded. *)
Definition sqrt_exp (e : Z) : Z := 53 - Z.div2 (54 + e).

Lemma sqrt_exp_bounds e :
  -52 <= e <= 12 ->
  20 <= sqrt_exp e <= 52 /\ (e <= 11 -> 21 <= sqrt_exp e) /\
  (e + 2 * sqrt_exp e = 52 \/ e + 2 * sqrt_exp e = 53).
Proof.
  intros He. unfold sqrt_exp. pose proof (Z.div2_odd (54 + e)) as Hodd.
  destruct (Z.odd (54 + e)); cbn in Hodd; lia.
Qed.

Lemma f64_sqrt_eval m e :
  2 ^ 52 <= Zpos m < 2 ^ 53 -> -52 <= e <= 12 ->
  f64_sqrt (S754_finite false m e) =
  (let '(q, r) := Z.sqrtrem (Zpos m * 2 ^ (e + 2 * sqrt_exp e)) in
   binary_round_aux 53 1024 false q (- sqrt_exp e)
     (if r =? 0 then loc_Exact else loc_Inexact (if r <=? q then Lt else Gt))).
Proof.
  intros Hm He. destruct (sqrt_exp_bounds e He) as (Hk & _ & Hs).
  unfold f64_sqrt, SFsqrt, SFsqrt_core_binary.
  rewrite (Zdigits2_unique (Zpos m) 53) by lia.
  replace (Z.min (fexp 53 1024 (Z.div2 (53 + e + 1))) (Z.div2 e)) with (- sqrt_exp e).
  2:{ unfold sqrt_exp, fexp, emin. replace (53 + e + 1) with (54 + e) by lia.
      pose proof (Z.div2_odd e). pose proof (Z.div2_odd (54 + e)).
      destruct (Z.odd (54 + e)), (Z.odd e); cbn in *; lia. }
  replace (e - 2 * - sqrt_exp e) with (e + 2 * sqrt_exp e) by lia.
  replace (match e + 2 * sqrt_exp e with
    Zpos _ => Z.shiftl (Zpos m) (e + 2 * sqrt_exp e) | Z0 => Zpos m | Zneg _ => 0 end)
    with (Zpos m * 2 ^ (e + 2 * sqrt_exp e))
    by (destruct Hs as [-> | ->]; rewrite Z.shiftl_mul_pow2; lia).
  by destruct (Z.sqrtrem _).
Qed.

(** An integer square root of a number close to [n * n], rounded with the
    remainder, is [n]. *)
Lemma sqrtrem_near n M :
  1 < n -> - n < M - n * n <= n ->
  let '(q, r) := Z.sqrtrem M in
  (q = n \/ q = n - 1) /\
  round_nearest_even q
    (if r =? 0 then loc_Exact else loc_Inexact (if r <=? q then Lt else Gt)) = n.
Proof.
  intros Hn HM. assert (0 <= M) by nia.
  pose proof (Z.sqrtrem_spec M H) as Hsp. destruct (Z.sqrtrem M) as [q r].
  destruct Hsp as [Hq Hr].
  assert (q = n \/ q = n - 1) as [->| ->] by nia.
  - split; [by left|]. replace (r <=? n) with true by nia.
    destruct (r =? 0); done.
  - split; [by right|]. assert (n - 1 < r) by nia.
    replace (r =? 0) with false by lia. replace (r <=? n - 1) with false by lia.
    cbn. lia.
Qed.

Lemma f64_sqrt_near m e n :
  2 ^ 52 <= Zpos m < 2 ^ 53 -> -52 <= e <= 12 -> 0 < n ->
  (e <= 0 -> Zpos m = n * n * 2 ^ (- e)) ->
  (0 < e -> Z.abs (Zpos m * 2 ^ e - n * n) <= 2 ^ (e - 1)) ->
  exists p k, f64_sqrt (S754_finite false m e) = S754_finite false p (- k) /\
    0 <= k /\ Zpos p = n * 2 ^ k.
Proof.
  intros Hm He Hn Hexact Hround.
  rewrite f64_sqrt_eval by done. destruct (sqrt_exp_bounds e He) as (Hk & _ & Hs).
  set (k := sqrt_exp e) in *. set (s := e + 2 * k) in *.
  (* the scaled radicand and the scaled root *)
  set (M := Zpos m * 2 ^ s). set (K := n * 2 ^ k).
  assert (HKK : K * K = n * n * 2 ^ (2 * k))
    by (unfold K; replace (2 * k) with (k + k) by lia; rewrite Z.pow_add_r by lia; ring).
  assert (Hnear : Z.abs (M - K * K) <= 2 ^ 52).
  { destruct (Z.le_gt_cases e 0) as [Hle|Hgt].
    - assert (M = K * K); [|lia]. unfold M. rewrite HKK, Hexact by done.
      replace (2 * k) with (- e + s) by (unfold s; lia).
      rewrite Z.pow_add_r by lia. ring.
    - specialize (Hround Hgt).
      assert (M = Zpos m * 2 ^ e * 2 ^ (2 * k)) as ->
        by (unfold M, s; rewrite Z.pow_add_r by lia; ring).
      rewrite HKK, <-Z.mul_sub_distr_r, Z.abs_mul, (Z.abs_eq (2 ^ (2 * k))) by lia.
      transitivity (2 ^ (e - 1) * 2 ^ (2 * k)).
      { apply Z.mul_le_mono_nonneg_r; [|done]. apply Z.pow_nonneg. lia. }
      rewrite <-Z.pow_add_r by lia. apply Z.pow_le_mono_r; unfold s in Hs; lia. }
  assert (HMb : 2 ^ 104 <= M < 2 ^ 106 /\ M <> 2 ^ 104 - 2 ^ 52 /\ M + 2 ^ 52 < 2 ^ 106)
    by (unfold M; destruct Hs as [-> | ->]; lia).
  assert (HK0 : 0 < K) by (apply Z.mul_pos_pos; [done|apply Z.pow_pos_nonneg; lia]).
  assert (HK : 2 ^ 52 <= K < 2 ^ 53).
  { split.
    - apply Z.nlt_ge. intros Hlt.
      assert (K * K <= (2 ^ 52 - 1) * (2 ^ 52 - 1))
        by (apply Z.mul_le_mono_nonneg; lia). lia.
    - apply Z.square_lt_simpl_nonneg; lia. }
  fold M.
  assert (HK52 : K = 2 ^ 52 -> K * K = 2 ^ 104) by (intros ->; vm_compute; reflexivity).
  assert (HKdef : K = n * 2 ^ k) by reflexivity. clearbody K M. clear Hexact Hround.
  pose proof (sqrtrem_near K M ltac:(lia) ltac:(lia)) as Hsq.
  pose proof (Z.sqrtrem_spec M ltac:(lia)) as Hspec.
  destruct (Z.sqrtrem M) as [q r]. destruct Hsq as [Hq Hrnd].
  assert (2 ^ 52 <= q < 2 ^ 53).
  { split; [|lia]. apply Z.nlt_ge. intros Hlt. nia. }
  destruct K as [|p|p]; try lia. exists p, k.
  rewrite (binary_round_aux_normal q (- k) _ p) by (done || lia). split; [done|].
  split; [lia|]. done.
Qed.

(** The float detour computes the root of every perfect square below [2^64]. *)
Lemma f64_isqrt_square n : (n < 4294967296)%N -> f64_isqrt (n * n) = n.
Proof.
  intros Hn. destruct (N.eq_dec n 0) as [->|Hn0]; [done|].
  destruct (u64_to_f64_spec (n * n)) as (m & e & Hf & Hm & He & Hex & Hrd).
  { unfold u64_modulus. nia. }
  unfold f64_isqrt. rewrite Hf. rewrite N2Z.inj_mul in *.
  destruct (f64_sqrt_near m e (Z.of_N n)) as (p & k & -> & Hk & Hp); try done; [lia|].
  cbn [f64_to_u64]. rewrite Z.shiftl_opp_r, Z.shiftr_div_pow2, Hp, Z.div_mul by lia.
  rewrite N2Z.id. unfold u64_max. lia.
Qed.

(** ** The result never exceeds [2^32] *)

Lemma binary_round_aux_carry m e l :
  2 ^ 52 <= m < 2 ^ 53 -> -1074 <= e < 971 ->
  round_nearest_even m l = 2 ^ 53 ->
  binary_round_aux 53 1024 false m e l = S754_finite false (2 ^ 52)%positive (e + 1).
Proof.
  intros Hm He Hr. unfold binary_round_aux.
  rewrite shr_fexp_normal by lia. destruct (loc_of_record_of_loc m l) as [-> ->].
  rewrite Hr. unfold shr_fexp. replace (Zdigits2 (2 ^ 53)) with 54 by reflexivity.
  replace (fexp 53 1024 (54 + e) - e) with 1 by (unfold fexp, emin; lia).
  cbn [shr SpecFloat.iter_pos]. replace (e + 1 <=? 1024 - 53) with true by lia. done.
Qed.

Lemma round_nearest_even_range m l :
  m <= round_nearest_even m l <= m + 1.
Proof. destruct l as [|[]]; cbn; try lia. destruct (Z.even m); lia. Qed.

Lemma round_aux_truncated q k l :
  2 ^ 52 <= q < 2 ^ 53 -> 1 <= k <= 52 ->
  (f64_to_u64 (binary_round_aux 53 1024 false q (- k) l) <= Z.to_N (2 ^ (53 - k)))%N.
Proof.
  intros Hq Hk. pose proof (round_nearest_even_range q l) as Hr.
  assert (2 ^ 53 = 2 ^ (53 - k) * 2 ^ k) as H53
    by (rewrite <-Z.pow_add_r by lia; f_equal; lia).
  pose proof (Z.pow_pos_nonneg 2 k ltac:(lia) ltac:(lia)).
  pose proof (Z.pow_pos_nonneg 2 (53 - k) ltac:(lia) ltac:(lia)).
  destruct (Z.eq_dec (round_nearest_even q l) (2 ^ 53)) as [E|E].
  - rewrite binary_round_aux_carry by (done || lia). cbn [f64_to_u64].
    replace (- k + 1) with (- (k - 1)) by lia.
    rewrite Z.shiftl_opp_r, Z.shiftr_div_pow2 by lia.
    assert (Zpos (2 ^ 52) = 2 ^ (53 - k) * 2 ^ (k - 1)) as ->
      by (rewrite <-Z.pow_add_r by lia; replace (53 - k + (k - 1)) with 52 by lia; done).
    rewrite Z.div_mul by (apply Z.pow_nonzero; lia). lia.
  - destruct (round_nearest_even q l) as [|p|p] eqn:Ep; try lia.
    rewrite (binary_round_aux_normal q (- k) l p) by (done || lia).
    cbn [f64_to_u64]. rewrite Z.shiftl_opp_r, Z.shiftr_div_pow2 by lia.
    assert (Zpos p / 2 ^ k <= 2 ^ (53 - k)) by (apply Z.div_le_upper_bound; lia).
    lia.
Qed.

Lemma f64_isqrt_bound x : is_u64 x -> (f64_isqrt x <= 4294967296)%N.
Proof.
  unfold is_u64. intros Hx. destruct (N.eq_dec x 0) as [->|Hx0]; [done|].
  destruct (u64_to_f64_spec x) as (m & e & Hf & Hm & He & Hex & Hrd); [lia|].
  unfold f64_isqrt. rewrite Hf. clear Hf.
  destruct (Z.eq_dec e 12) as [->|].
  - (* only 2^64 itself has this exponent *)
    assert (m = 2 ^ 52)%positive as -> by (unfold u64_modulus in Hx; lia).
    vm_compute. done.
  - clear Hex Hrd. rewrite f64_sqrt_eval by done.
    destruct (sqrt_exp_bounds e He) as (Hk & Hk' & Hs).
    set (k := sqrt_exp e) in *. set (M := Zpos m * _) in *.
    assert (HMb : 2 ^ 104 <= M < 2 ^ 106) by (unfold M; destruct Hs as [-> | ->]; lia).
    pose proof (Z.sqrtrem_spec M ltac:(lia)) as Hspec. clearbody M.
    destruct (Z.sqrtrem M) as [q r].
    assert (2 ^ 52 <= q < 2 ^ 53) by nia.
    etransitivity; [apply round_aux_truncated; [done|lia]|].
    transitivity (Z.to_N (2 ^ 32)); [|done].
    apply Z2N.inj_le; [apply Z.pow_nonneg; lia..|apply Z.pow_le_mono_r; lia].
Qed.
