(* ===== verification/Slot.v ===== *)
(** * Slots and the 3SF-mini justifiability rule

    [containers/src/slot.rs]: the position of a slot after the finalized one and
    [Slot::is_justifiable_after], with its floating-point square roots and its
    [u64] arithmetic. *)

From S2P Require Import Prelude Float64.

#[local] Open Scope N_scope.

(** [struct Slot(pub u64)] with the order of its [u64]. *)
Abbreviation Slot := N (only parsing).

Definition justified_index_after (self finalized_slot : Slot) : option u64 :=
  checked_sub self (wadd finalized_slot 1).

Definition is_justifiable_after (self finalized : Slot) : outcome bool :=
  _ ← assert_ (finalized <=? self) PAssert;
  let delta := wsub self finalized in
  if delta <=? 5 then Ok true else
  let sqrt := f64_isqrt delta in
  if wmul sqrt sqrt =? delta then Ok true else
  let test := wadd (wmul 4 delta) 1 in
  let test_sqrt := f64_isqrt test in
  if (wmul test_sqrt test_sqrt =? test) && (test_sqrt `mod` 2 =? 1) then Ok true else
  Ok false.

(** ** The rule of the 3SF-mini specification *)

(** The distance is at most 5, a perfect square or a pronic number. *)
Definition justifiable_distance (d : N) : Prop :=
  d <= 5 \/ (exists n, d = n * n) \/ (exists n, d = n * (n + 1)).

(** The slot [s] can be justified when [f] is the last finalized slot. *)
Definition justifiable_after (s f : Slot) : Prop := justifiable_distance (s - f).

(** Executable form, on the exact integer square root. *)
Definition justifiable_distanceb (d : N) : bool :=
  (d <=? 5) || (N.sqrt d * N.sqrt d =? d) || (N.sqrt d * (N.sqrt d + 1) =? d).

Lemma justifiable_distanceb_spec d :
  justifiable_distanceb d = true <-> justifiable_distance d.
Proof.
  unfold justifiable_distanceb, justifiable_distance.
  rewrite !orb_true_iff, N.leb_le, !N.eqb_eq. split.
  - intros [[?|?]|?]; eauto.
  - intros [?|[[n ->]|[n ->]]].
    + by left; left.
    + left; right. by rewrite N.sqrt_square.
    + right. rewrite (N.sqrt_unique (n * (n + 1)) n); [done|]. nia.
Qed.

#[export] Instance justifiable_distance_dec d : Decision (justifiable_distance d).
Proof.
  refine (cast_if (decide (justifiable_distanceb d = true)));
    by rewrite <-justifiable_distanceb_spec.
Defined.

#[export] Instance justifiable_after_dec s f : Decision (justifiable_after s f).
Proof. unfold justifiable_after. apply _. Defined.

(** ** Lemmas *)

Lemma f64_isqrt_exact x :
  is_u64 x -> 0 < x ->
  (wmul (f64_isqrt x) (f64_isqrt x) =? x) = true <-> exists n, x = n * n.
Proof.
  unfold is_u64. intros Hx Hx0. rewrite N.eqb_eq. split.
  - intros H. pose proof (f64_isqrt_bound x Hx) as Hb.
    destruct (N.eq_dec (f64_isqrt x) 4294967296) as [E|E].
    + rewrite E in H. vm_compute in H. lia.
    + exists (f64_isqrt x). rewrite wmul_small in H by (unfold u64_modulus; nia). done.
  - intros [n ->]. assert (n < 4294967296) by (unfold u64_modulus in Hx; nia).
    rewrite f64_isqrt_square by done. apply wmul_small. done.
Qed.

Lemma f64_isqrt_root x n : is_u64 x -> x = n * n -> f64_isqrt x = n.
Proof.
  unfold is_u64. intros Hx ->. apply f64_isqrt_square. unfold u64_modulus in Hx. nia.
Qed.

(** The implementation of the rule is exact as long as [4 * delta + 1] does not
    wrap around. *)
Lemma is_justifiable_after_exact s f :
  is_u64 s -> f <= s -> s - f < 4611686018427387904 ->
  is_justifiable_after s f = Ok (bool_decide (justifiable_after s f)).
Proof.
  intros Hs Hle Hd. unfold is_u64 in Hs. unfold is_justifiable_after.
  rewrite (bool_decide_ext _ _ (H0 := justifiable_distance_dec (s - f))) by done.
  replace (f <=? s) with true by lia. cbn [assert_ mbind outcome_bind].
  rewrite wsub_small by done. generalize dependent (s - f). clear s f Hs Hle.
  intros d Hd.
  destruct (N.leb_spec d 5) as [H5|H5].
  { rewrite bool_decide_eq_true_2; [done|]. by left. }
  assert (is_u64 d) by (unfold is_u64, u64_modulus; lia).
  destruct (wmul (f64_isqrt d) (f64_isqrt d) =? d) eqn:Esq.
  { apply f64_isqrt_exact in Esq; [|done|lia].
    rewrite bool_decide_eq_true_2; [done|]. by right; left. }
  rewrite (wmul_small 4 d), (wadd_small (4 * d) 1) by (unfold u64_modulus; lia).
  set (t := 4 * d + 1). assert (is_u64 t) by (unfold is_u64, u64_modulus, t; lia).
  assert (Hpronic : (wmul (f64_isqrt t) (f64_isqrt t) =? t) && (f64_isqrt t `mod` 2 =? 1)
    = true <-> exists n, d = n * (n + 1)).
  { rewrite andb_true_iff, f64_isqrt_exact, N.eqb_eq by (done || unfold t; lia). split.
    - intros [[n Hn] Hodd]. rewrite (f64_isqrt_root t n) in Hodd by done.
      exists (n / 2). pose proof (N.div_mod n 2). unfold t in Hn. nia.
    - intros [n Hn]. assert (Ht : t = (2 * n + 1) * (2 * n + 1)) by (unfold t; nia).
      split; [eauto|]. rewrite (f64_isqrt_root t (2 * n + 1)) by done.
      rewrite N.add_comm, N.mul_comm, N.Div0.mod_add. done. }
  destruct (_ && _) eqn:Epr.
  - rewrite bool_decide_eq_true_2; [done|]. right; right. by apply Hpronic.
  - rewrite bool_decide_eq_false_2; [done|]. intros [?|[Hn|Hn]]; [lia| |].
    + assert (false = true); [|done]. rewrite <-Esq. by apply f64_isqrt_exact; [|lia|].
    + assert (false = true); [|done]. by apply Hpronic.
Qed.

Lemma is_justifiable_after_panic s f :
  s < f -> is_justifiable_after s f = Panic PAssert.
Proof. intros. unfold is_justifiable_after. by replace (f <=? s) with false by lia. Qed.

Lemma is_justifiable_after_not_diverge s f : is_justifiable_after s f <> Diverge.
Proof.
  unfold is_justifiable_after. destruct (f <=? s); cbn; [|done].
  repeat case_match; done.
Qed.

Lemma is_justifiable_after_Ok s f b :
  is_justifiable_after s f = Ok b -> f <= s.
Proof.
  intros H. destruct (N.le_gt_cases f s); [done|].
  by rewrite is_justifiable_after_panic in H.
Qed.

Lemma is_justifiable_after_le5 s f :
  f <= s -> s - f <= 5 -> is_justifiable_after s f = Ok true.
Proof.
  intros. unfold is_justifiable_after. replace (f <=? s) with true by lia. cbn.
  rewrite wsub_small by done. by replace (s - f <=? 5) with true by lia.
Qed.

Lemma justified_index_after_Some s f i :
  is_u64 (f + 1) ->
  justified_index_after s f = Some i <-> f < s /\ i = s - f - 1.
Proof.
  intros Hf. unfold justified_index_after.
  rewrite wadd_small, checked_sub_Some by done. lia.
Qed.

Lemma justified_index_after_None s f :
  is_u64 (f + 1) -> justified_index_after s f = None <-> s <= f.
Proof.
  intros Hf. unfold justified_index_after.
  rewrite wadd_small, checked_sub_None by done. lia.
Qed.
