(* ===== verification/Ssz.v ===== *)
(** * The SSZ library as the client uses it

    The [ssz] crate is not part of the repository.  Its hashing is the class
    [SszHash] (one instance per hashed type, all abstract), and the bounded
    containers are the class [SszContainers] with the laws [SszContainersLaws].
    [PersistentList<T, N>] and [BitList<N>] values are Rocq lists; reading,
    indexing and iterating over them are list operations, and the places
    where the limit [N] matters (pushing, collecting, allocating) go through the
    class. *)

From S2P Require Import Prelude.

#[local] Open Scope N_scope.

(** [H256]: 32 bytes, read as a big-endian number, so that the byte-wise order
    of [H256] is the order of the numbers. *)
Abbreviation H256 := N (only parsing).

Definition h256_zero : H256 := 0.

Definition is_zero (h : H256) : bool := h =? 0.

Class SszHash (A : Type) := hash_tree_root : A -> H256.

Class SszContainers := {
  pl_push : forall {T : Type}, N -> list T -> T -> option (list T);
  pl_try_from_iter : forall {T : Type}, N -> list T -> option (list T);
  bl_with_length : N -> N -> option (list bool);
  bl_new : N -> bool -> N -> option (list bool)
}.

(** What the client relies on: a list refuses to grow past its limit, and a new
    bit list holds one value throughout.  Allocating past the limit is left open. *)
Class SszContainersLaws (C : SszContainers) : Prop := {
  pl_push_law : forall T limit (l : list T) x,
    pl_push limit l x = if len_u64 l <? limit then Some (l ++ [x]) else None;
  pl_try_from_iter_law : forall T limit (l : list T),
    pl_try_from_iter limit l = if len_u64 l <=? limit then Some l else None;
  bl_with_length_law : forall limit n,
    n <= limit -> bl_with_length limit n = Some (replicate (N.to_nat n) false);
  bl_new_law : forall limit b n,
    n <= limit -> bl_new limit b n = Some (replicate (N.to_nat n) b)
}.

(** A reference implementation. *)
#[export] Instance list_containers : SszContainers := {|
  pl_push := fun T limit l x => if len_u64 l <? limit then Some (l ++ [x]) else None;
  pl_try_from_iter := fun T limit l => if len_u64 l <=? limit then Some l else None;
  bl_with_length := fun limit n => Some (replicate (N.to_nat n) false);
  bl_new := fun limit b n => Some (replicate (N.to_nat n) b)
|}.

#[export] Instance list_containers_laws : SszContainersLaws list_containers.
Proof. split; intros; done. Qed.

(** Repeated pushes, [for x in xs { list.push(x)?; }]. *)
Definition push_all `{SszContainers} {T} (limit : N) (e : outcome (list T))
    (l xs : list T) : outcome (list T) :=
  foldM (fun acc x => match pl_push limit acc x with Some acc' => Ok acc' | None => e end)
    l xs.

Section Laws.
Context {C : SszContainers} {HL : SszContainersLaws C}.

Lemma push_all_Ok {T} limit e (l xs : list T) :
  len_u64 l + len_u64 xs <= limit -> push_all limit e l xs = Ok (l ++ xs).
Proof.
  unfold push_all, len_u64. revert l; induction xs as [|x xs IH]; intros l Hl; cbn.
  - by rewrite app_nil_r.
  - cbn [length] in Hl. rewrite pl_push_law.
    replace (len_u64 l <? limit) with true by (unfold len_u64; lia). cbn.
    rewrite IH by (rewrite length_app; cbn; lia). by rewrite <-app_assoc.
Qed.

Lemma push_all_inv {T} limit e (l xs r : list T) :
  (forall r', e <> Ok r') -> push_all limit e l xs = Ok r -> r = l ++ xs.
Proof.
  unfold push_all. intros He. revert l; induction xs as [|x xs IH]; intros l Hr; cbn in Hr.
  - ok_inv. by rewrite app_nil_r.
  - rewrite pl_push_law in Hr. destruct (len_u64 l <? limit); ok_inv.
    + subst. rewrite (IH _ Hr). by rewrite <-app_assoc.
    + by apply He in Hx.
Qed.

Lemma push_all_len {T} limit e (l xs r : list T) :
  (forall r', e <> Ok r') -> len_u64 l <= limit ->
  push_all limit e l xs = Ok r -> len_u64 r <= limit.
Proof.
  unfold push_all. intros He Hl Hr. revert l Hl Hr.
  induction xs as [|x xs IH]; intros l Hl Hr; cbn in Hr; ok_inv.
  - by subst.
  - rewrite pl_push_law in Hx. destruct (N.ltb_spec (len_u64 l) limit).
    + ok_inv. subst. eapply IH; [|done]. unfold len_u64 in *. rewrite length_app; cbn. lia.
    + by apply He in Hx.
Qed.
End Laws.
