(* ===== verification/Xmss.v ===== *)
(** * XMSS keys and signatures

    The [xmss] crate: byte-encoded public keys, secret keys, signatures and
    aggregated signatures around the leanSig and lean-multisig libraries, which
    are not part of the repository and form the class [LeanSig]. *)

From S2P Require Import Prelude Ssz.
From Stdlib Require Import Strings.Byte.

#[local] Open Scope N_scope.

Abbreviation bytes := (list Byte.byte) (only parsing).

(** leanSig ([from_bytes], [to_bytes], [sign], [verify]) and lean-multisig
    ([from_ssz_bytes], [as_ssz_bytes], aggregation and its verification). *)
Class LeanSig := {
  LeanSigPublicKey : Type;
  LeanSigSecretKey : Type;
  LeanSigSignature : Type;
  XmssAggregateSignature : Type;
  pk_from_bytes : bytes -> option LeanSigPublicKey;
  pk_to_bytes : LeanSigPublicKey -> bytes;
  sk_from_bytes : bytes -> option LeanSigSecretKey;
  sk_to_bytes : LeanSigSecretKey -> bytes;
  sig_from_bytes : bytes -> option LeanSigSignature;
  sig_to_bytes : LeanSigSignature -> bytes;
  agg_from_ssz_bytes : bytes -> option XmssAggregateSignature;
  agg_as_ssz_bytes : XmssAggregateSignature -> bytes;
  lean_sign : LeanSigSecretKey -> N -> H256 -> option LeanSigSignature;
  lean_verify : LeanSigPublicKey -> N -> H256 -> LeanSigSignature -> bool;
  xmss_aggregate_signatures : list LeanSigPublicKey -> list LeanSigSignature ->
    H256 -> N -> option XmssAggregateSignature;
  xmss_verify_aggregated_signatures : list LeanSigPublicKey -> H256 ->
    XmssAggregateSignature -> N -> bool
}.

Definition PublicKeySize : nat := 52.
Definition SignatureSize : nat := 3112.
Definition AggregatedSignatureSizeLimit : N := 1048576.

Record PublicKey := mkPublicKey { pk_bytes : bytes }.
Record SecretKey := mkSecretKey { sk_bytes : bytes }.
Record Signature := mkSignature { sig_bytes : bytes }.
Record AggregatedSignature := mkAggregatedSignature { agg_bytes : bytes }.

(** [impl Default for PublicKey], [derive(Default)] for [Signature]. *)
Definition PublicKey_default : PublicKey := mkPublicKey (replicate PublicKeySize x00).
Definition Signature_default : Signature := mkSignature (replicate SignatureSize x00).

Section Xmss.
Context {LS : LeanSig}.

(** Error codes of the external libraries, in [EExternal]. *)
Definition EDecode : error := EExternal 1.
Definition EAggregate : error := EExternal 2.
Definition EVerify : error := EExternal 3.
Definition ESign : error := EExternal 4.
Definition ECountMismatch : error := EExternal 5.
Definition ETooLarge : error := EExternal 6.

(** [PublicKey::new]: validate, then fix the length. *)
Definition PublicKey_new (bs : bytes) : outcome PublicKey :=
  _ ← ok_or (pk_from_bytes bs) EDecode;
  if decide (length bs = PublicKeySize) then Ok (mkPublicKey bs) else Panic PUnwrap.

Definition PublicKey_as_lean (pk : PublicKey) : outcome LeanSigPublicKey :=
  or_panic (pk_from_bytes (pk_bytes pk)) PUnwrap.

Definition PublicKey_from_lean (k : LeanSigPublicKey) : outcome PublicKey :=
  if decide (length (pk_to_bytes k) = PublicKeySize)
  then Ok (mkPublicKey (pk_to_bytes k)) else Panic PUnwrap.

Definition Signature_new (bs : bytes) : outcome Signature :=
  _ ← ok_or (sig_from_bytes bs) EDecode;
  if decide (length bs = SignatureSize) then Ok (mkSignature bs) else Panic PUnwrap.

Definition Signature_as_lean (s : Signature) : outcome LeanSigSignature :=
  or_panic (sig_from_bytes (sig_bytes s)) PUnwrap.

Definition Signature_from_lean (s : LeanSigSignature) : outcome Signature :=
  if decide (length (sig_to_bytes s) = SignatureSize)
  then Ok (mkSignature (sig_to_bytes s)) else Panic PUnwrap.

Definition Signature_verify (s : Signature) (public_key : PublicKey) (epoch : N)
    (message : H256) : outcome unit :=
  k ← PublicKey_as_lean public_key;
  ls ← Signature_as_lean s;
  if lean_verify k epoch message ls then Ok tt else Err EVerify.

Definition SecretKey_try_from (bs : bytes) : outcome SecretKey :=
  _ ← ok_or (sk_from_bytes bs) EDecode;
  Ok (mkSecretKey bs).

Definition SecretKey_as_lean (sk : SecretKey) : outcome LeanSigSecretKey :=
  or_panic (sk_from_bytes (sk_bytes sk)) PUnwrap.

Definition SecretKey_sign (sk : SecretKey) (message : H256) (epoch : N)
    : outcome Signature :=
  k ← SecretKey_as_lean sk;
  s ← ok_or (lean_sign k epoch message) ESign;
  Signature_from_lean s.

Definition AggregatedSignature_new (bs : bytes) : outcome AggregatedSignature :=
  _ ← ensure (len_u64 bs <=? AggregatedSignatureSizeLimit) ETooLarge;
  _ ← ok_or (agg_from_ssz_bytes bs) EDecode;
  Ok (mkAggregatedSignature bs).

Definition AggregatedSignature_as_lean (a : AggregatedSignature)
    : outcome XmssAggregateSignature :=
  or_panic (agg_from_ssz_bytes (agg_bytes a)) PUnwrap.

Definition AggregatedSignature_aggregate (public_keys : list PublicKey)
    (signatures : list Signature) (message : H256) (epoch : N)
    : outcome AggregatedSignature :=
  pks ← mapM PublicKey_as_lean public_keys;
  sigs ← mapM Signature_as_lean signatures;
  _ ← ensure (bool_decide (length pks = length sigs)) ECountMismatch;
  agg ← ok_or (xmss_aggregate_signatures pks sigs message epoch) EAggregate;
  _ ← ensure (len_u64 (agg_as_ssz_bytes agg) <=? AggregatedSignatureSizeLimit) ETooLarge;
  Ok (mkAggregatedSignature (agg_as_ssz_bytes agg)).

Definition AggregatedSignature_verify (a : AggregatedSignature)
    (public_keys : list PublicKey) (message : H256) (epoch : N) : outcome unit :=
  pks ← mapM PublicKey_as_lean public_keys;
  agg ← AggregatedSignature_as_lean a;
  if xmss_verify_aggregated_signatures pks message agg epoch then Ok tt else Err EVerify.
End Xmss.
