(* ===== verification/Containers.v ===== *)
(** * Consensus containers

    [containers/src/{checkpoint,attestation,block,validator,config,status}.rs]:
    the data of the protocol, participation bit lists, and grouping of single
    attestations by their data. *)

From S2P Require Import Prelude Slot Ssz Xmss.

#[local] Open Scope N_scope.

Definition ValidatorRegistryLimit : N := 4096.
Definition HistoricalRootsLimit : N := 262144.
Definition JustificationValidatorsLimit : N := ValidatorRegistryLimit * HistoricalRootsLimit.

Record Checkpoint := mkCheckpoint { cp_root : H256; cp_slot : Slot }.

Record AttestationData := mkAttestationData {
  ad_slot : Slot;
  ad_head : Checkpoint;
  ad_target : Checkpoint;
  ad_source : Checkpoint
}.

Record SignatureKey := mkSignatureKey { sk_validator_id : u64; sk_data_root : H256 }.

Record Attestation := mkAttestation { at_validator_id : u64; at_data : AttestationData }.

Record SignedAttestation := mkSignedAttestation {
  sa_validator_id : u64;
  sa_message : AttestationData;
  sa_signature : Signature
}.

(** [struct AggregationBits(BitList<ValidatorRegistryLimit>)] *)
Abbreviation AggregationBits := (list bool) (only parsing).

Record AggregatedAttestation := mkAggregatedAttestation {
  aa_aggregation_bits : AggregationBits;
  aa_data : AttestationData
}.

Record AggregatedSignatureProof := mkAggregatedSignatureProof {
  asp_participants : AggregationBits;
  asp_proof_data : AggregatedSignature
}.

Record BlockBody := mkBlockBody { bb_attestations : list AggregatedAttestation }.

Record BlockHeader := mkBlockHeader {
  bh_slot : Slot;
  bh_proposer_index : u64;
  bh_parent_root : H256;
  bh_state_root : H256;
  bh_body_root : H256
}.

Record Block := mkBlock {
  b_slot : Slot;
  b_proposer_index : u64;
  b_parent_root : H256;
  b_state_root : H256;
  b_body : BlockBody
}.

Record BlockWithAttestation := mkBlockWithAttestation {
  bwa_block : Block;
  bwa_proposer_attestation : Attestation
}.

Record BlockSignatures := mkBlockSignatures {
  bs_attestation_signatures : list AggregatedSignatureProof;
  bs_proposer_signature : Signature
}.

Record SignedBlockWithAttestation := mkSignedBlockWithAttestation {
  sb_message : BlockWithAttestation;
  sb_signature : BlockSignatures
}.

Record Validator := mkValidator { v_pubkey : PublicKey; v_index : u64 }.

Record Config := mkConfig { genesis_time : u64 }.

Record Status := mkStatus { status_finalized : Checkpoint; status_head : Checkpoint }.

(** [derive(PartialEq, Eq)], [derive(Hash)] *)
#[export] Instance Checkpoint_eq_dec : EqDecision Checkpoint.
Proof. solve_decision. Defined.

#[export] Instance AttestationData_eq_dec : EqDecision AttestationData.
Proof. solve_decision. Defined.

#[export] Instance Attestation_eq_dec : EqDecision Attestation.
Proof. solve_decision. Defined.

#[export] Instance SignatureKey_eq_dec : EqDecision SignatureKey.
Proof. solve_decision. Defined.

#[export] Instance AggregatedAttestation_eq_dec : EqDecision AggregatedAttestation.
Proof. solve_decision. Defined.

#[export] Instance BlockBody_eq_dec : EqDecision BlockBody.
Proof. solve_decision. Defined.

#[export] Instance Block_eq_dec : EqDecision Block.
Proof. solve_decision. Defined.

#[export] Program Instance SignatureKey_countable : Countable SignatureKey :=
  inj_countable' (fun k => (sk_validator_id k, sk_data_root k))
    (fun '(v, r) => mkSignatureKey v r) _.
Next Obligation. by intros []. Qed.

#[export] Program Instance Checkpoint_countable : Countable Checkpoint :=
  inj_countable' (fun c => (cp_root c, cp_slot c)) (fun '(r, s) => mkCheckpoint r s) _.
Next Obligation. by intros []. Qed.

#[export] Program Instance AttestationData_countable : Countable AttestationData :=
  inj_countable' (fun d => (ad_slot d, ad_head d, ad_target d, ad_source d))
    (fun '(s, h, t, c) => mkAttestationData s h t c) _.
Next Obligation. by intros []. Qed.

#[export] Program Instance AggregatedAttestation_countable
    : Countable AggregatedAttestation :=
  inj_countable' (fun a => (aa_aggregation_bits a, aa_data a))
    (fun '(b, d) => mkAggregatedAttestation b d) _.
Next Obligation. by intros []. Qed.

#[export] Program Instance BlockBody_countable : Countable BlockBody :=
  inj_countable' bb_attestations mkBlockBody _.
Next Obligation. by intros []. Qed.

#[export] Program Instance Block_countable : Countable Block :=
  inj_countable' (fun b => (b_slot b, b_proposer_index b, b_parent_root b,
    b_state_root b, b_body b)) (fun '(s, p, r, t, y) => mkBlock s p r t y) _.
Next Obligation. by intros []. Qed.

(** [derive(Default)] *)
Definition Checkpoint_default : Checkpoint := mkCheckpoint 0 0.
Definition Status_default : Status := mkStatus Checkpoint_default Checkpoint_default.

Section Aggregation.
Context {C : SszContainers}.

(** [AggregationBits::from_validator_indices] *)
Definition from_validator_indices (indices : list u64) : outcome AggregationBits :=
  _ ← assert_ (negb (bool_decide (indices = []))) PAssert;
  max_id ← or_panic (max_by N.compare indices) PUnwrap;
  _ ← assert_ (max_id <? ValidatorRegistryLimit) PAssert;
  bits ← or_panic (bl_with_length ValidatorRegistryLimit (wadd max_id 1)) PAssert;
  bits ← foldM (fun bits i => bit_set bits i false) bits (nrange 0 (max_id + 1));
  foldM (fun bits i => bit_set bits i true) bits indices.

(** The indices of the set bits, in order. *)
Definition set_bits (bits : list bool) : list u64 :=
  omap (fun '(i, bit) => if (bit : bool) then Some i else None) (enumerate bits).

(** [AggregationBits::to_validator_indices] *)
Definition to_validator_indices (bits : AggregationBits) : outcome (list u64) :=
  let indices := set_bits bits in
  _ ← assert_ (negb (bool_decide (indices = []))) PAssert;
  Ok indices.

Definition get_participant_indices (proof : AggregatedSignatureProof)
    : outcome (list u64) :=
  to_validator_indices (asp_participants proof).

(** The grouping loop of [aggregate_by_data]: the first group with the same
    data takes the validator, otherwise a new group goes to the end. *)
Fixpoint add_to_group (groups : list (AttestationData * list u64)) (a : Attestation)
    : list (AttestationData * list u64) :=
  match groups with
  | [] => [(at_data a, [at_validator_id a])]
  | (data, ids) :: groups =>
      if decide (data = at_data a)
      then (data, ids ++ [at_validator_id a]) :: groups
      else (data, ids) :: add_to_group groups a
  end.

Definition group_by_data (attestations : list Attestation)
    : list (AttestationData * list u64) :=
  foldl add_to_group [] attestations.

(** [AggregatedAttestation::aggregate_by_data] *)
Definition aggregate_by_data (attestations : list Attestation)
    : outcome (list AggregatedAttestation) :=
  mapM (fun '(data, ids) =>
      bits ← from_validator_indices ids; Ok (mkAggregatedAttestation bits data))
    (group_by_data attestations).

(** [AggregatedAttestation::has_duplicate_data] *)
Definition has_duplicate_data `{SszHash AttestationData}
    (attestations : list AggregatedAttestation) : bool :=
  (fix go (seen : gset H256) (l : list AggregatedAttestation) : bool :=
     match l with
     | [] => false
     | a :: l =>
         let root := hash_tree_root (aa_data a) in
         if decide (root ∈ seen) then true else go ({[root]} ∪ seen) l
     end) ∅ attestations.

Context {LS : LeanSig}.

(** [AggregatedSignatureProof::aggregate] and [verify] *)
Definition AggregatedSignatureProof_aggregate (participants : AggregationBits)
    (public_keys : list PublicKey) (signatures : list Signature) (message : H256)
    (epoch : N) : outcome AggregatedSignatureProof :=
  proof ← AggregatedSignature_aggregate public_keys signatures message epoch;
  Ok (mkAggregatedSignatureProof participants proof).

Definition AggregatedSignatureProof_verify (self : AggregatedSignatureProof)
    (public_keys : list PublicKey) (message : H256) (epoch : N) : outcome unit :=
  AggregatedSignature_verify (asp_proof_data self) public_keys message epoch.
End Aggregation.

(** * Participation bits and indices *)

Lemma elem_of_set_bits bits i : i ∈ set_bits bits <-> get_nth bits i = Some true.
Proof.
  unfold set_bits. rewrite list_elem_of_omap. split.
  - intros ([j []] & Hj & [= ->]). by apply elem_of_enumerate.
  - intros H. exists (i, true). split; [by apply elem_of_enumerate|done].
Qed.

Lemma set_bits_from_sorted bits k :
  StronglySorted N.lt
    (omap (fun '(i, bit) => if (bit : bool) then Some i else None) (enumerate_from k bits))
  /\ forall i, i ∈ omap (fun '(i, bit) => if (bit : bool) then Some i else None)
       (enumerate_from k bits) -> k <= i.
Proof.
  revert k; induction bits as [|b bits IH]; intros k; cbn.
  { split; [constructor|]. by intros i ?%not_elem_of_nil. }
  destruct (IH (N.succ k)) as [Hs Hk]. destruct b; cbn.
  - split.
    + constructor; [done|]. apply Forall_forall. intros i Hi%Hk. lia.
    + intros i [->|Hi%Hk]%elem_of_cons; lia.
  - split; [done|]. intros i Hi%Hk. lia.
Qed.

Lemma set_bits_sorted bits : StronglySorted N.lt (set_bits bits).
Proof. apply set_bits_from_sorted. Qed.

Lemma set_bits_NoDup bits : NoDup (set_bits bits).
Proof.
  pose proof (set_bits_sorted bits) as H. induction H as [|x l _ IH Hx]; constructor; [|done].
  intros Hin. rewrite Forall_forall in Hx. specialize (Hx _ Hin). lia.
Qed.

Lemma to_validator_indices_Ok bits l :
  to_validator_indices bits = Ok l <-> l = set_bits bits /\ l <> [].
Proof.
  unfold to_validator_indices. destruct (decide (set_bits bits = [])) as [E|E].
  - rewrite bool_decide_eq_true_2 by done. cbn. naive_solver.
  - rewrite bool_decide_eq_false_2 by done. cbn. naive_solver.
Qed.

Lemma to_validator_indices_panic bits :
  set_bits bits = [] -> to_validator_indices bits = Panic PAssert.
Proof. intros E. unfold to_validator_indices. by rewrite bool_decide_eq_true_2. Qed.

Section BitSet.
Context (b : bool).

(** Setting a list of in-range bits succeeds and sets exactly these. *)
Lemma bit_set_all_Ok bits l :
  (forall i, i ∈ l -> i < len_u64 bits) ->
  exists bits', foldM (fun bits i => bit_set bits i b) bits l = Ok bits' /\
    length bits' = length bits /\
    forall i, get_nth bits' i = if decide (i ∈ l) then Some b else get_nth bits i.
Proof.
  revert bits; induction l as [|j l IH]; intros bits Hl; cbn.
  { exists bits. by repeat split. }
  assert (Hj : j < len_u64 bits) by (apply Hl; left).
  rewrite bit_set_Ok by done. cbn [mbind outcome_bind].
  destruct (IH (<[N.to_nat j:=b]> bits)) as (bits' & Hf & Hlen & Hget).
  { intros i Hi. unfold len_u64. rewrite length_insert. apply Hl. by right. }
  rewrite length_insert in Hlen. exists bits'. split; [done|]. split; [done|].
  intros i. rewrite Hget. destruct (decide (i ∈ l)) as [Hi|Hi].
  { by rewrite decide_True by (by right). }
  unfold get_nth, len_u64 in *. destruct (decide (i = j)) as [->|Hne].
  - rewrite list_lookup_insert_eq by lia. rewrite decide_True by left. done.
  - rewrite list_lookup_insert_ne by lia. rewrite decide_False; [done|].
    by rewrite not_elem_of_cons.
Qed.
End BitSet.

Section AggregationBits.
Context {C : SszContainers} {HC : SszContainersLaws C}.

Lemma from_validator_indices_spec (l : list u64) :
  l <> [] -> (forall i, i ∈ l -> i < ValidatorRegistryLimit) ->
  exists bits, from_validator_indices l = Ok bits /\
    (forall i, get_nth bits i = Some true <-> i ∈ l) /\
    (exists m, m ∈ l /\ len_u64 bits = m + 1).
Proof.
  intros Hne Hlim. unfold from_validator_indices.
  rewrite bool_decide_eq_false_2 by done. cbn [negb assert_ mbind outcome_bind].
  destruct (max_by N.compare l) as [m|] eqn:Em; [|by apply max_by_None in Em].
  apply (max_by_Some N.compare) in Em as [Hm Hmax]. cbn [or_panic mbind outcome_bind].
  pose proof (Hlim m Hm) as Hml. replace (m <? ValidatorRegistryLimit) with true by lia.
  cbn [assert_ mbind outcome_bind].
  rewrite wadd_small by (unfold u64_modulus, ValidatorRegistryLimit in *; lia).
  rewrite bl_with_length_law by lia. cbn [or_panic mbind outcome_bind].
  set (zeros := replicate _ false).
  assert (Hz : len_u64 zeros = m + 1) by (unfold zeros, len_u64; rewrite length_replicate; lia).
  destruct (bit_set_all_Ok false zeros (nrange 0 (m + 1))) as (bs1 & -> & Hl1 & Hg1).
  { intros i ?%elem_of_nrange. lia. }
  cbn [mbind outcome_bind].
  assert (Hz1 : len_u64 bs1 = m + 1) by (unfold len_u64 in *; lia).
  destruct (bit_set_all_Ok true bs1 l) as (bs2 & -> & Hl2 & Hg2).
  { intros i Hi. specialize (Hmax i Hi). rewrite N.compare_le_iff in Hmax. lia. }
  exists bs2. split; [done|]. split; [|exists m; unfold len_u64 in *; split; [done|lia]].
  intros i. rewrite Hg2. destruct (decide (i ∈ l)) as [|Hi]; [done|].
  rewrite Hg1. split; [|done]. destruct (decide _) as [|Hr]; [done|].
  unfold zeros, get_nth. rewrite lookup_replicate. intros []; done.
Qed.

Lemma from_validator_indices_panic (l : list u64) :
  l = [] \/ (exists i, i ∈ l /\ ValidatorRegistryLimit <= i) ->
  from_validator_indices l = Panic PAssert.
Proof.
  unfold from_validator_indices. intros [->|(i & Hi & Hlim)]; [done|].
  rewrite bool_decide_eq_false_2 by (by intros ->; apply not_elem_of_nil in Hi).
  cbn [negb assert_ mbind outcome_bind].
  destruct (max_by N.compare l) as [m|] eqn:Em.
  - apply (max_by_Some N.compare) in Em as [Hm Hmax]. cbn.
    specialize (Hmax i Hi). rewrite N.compare_le_iff in Hmax.
    by replace (m <? ValidatorRegistryLimit) with false by lia.
  - apply max_by_None in Em as ->. by apply not_elem_of_nil in Hi.
Qed.

(** ** Grouping *)

Definition in_groups (groups : list (AttestationData * list u64)) (a : Attestation) : Prop :=
  exists ids, (at_data a, ids) ∈ groups /\ at_validator_id a ∈ ids.

Lemma add_to_group_spec groups a :
  NoDup groups.*1 -> (forall d ids, (d, ids) ∈ groups -> ids <> []) ->
  let groups' := add_to_group groups a in
  NoDup groups'.*1 /\ (forall d ids, (d, ids) ∈ groups' -> ids <> []) /\
  (forall d, d ∈ groups'.*1 -> d ∈ groups.*1 \/ d = at_data a) /\
  (forall a', in_groups groups' a' <-> in_groups groups a' \/ a' = a).
Proof.
  induction groups as [|[d ids] groups IH]; intros Hnd Hne; cbn.
  - repeat split.
    + apply NoDup_singleton.
    + intros ? ? ?%list_elem_of_singleton. naive_solver.
    + intros ? ->%list_elem_of_singleton. by right.
    + intros (ids & [= Hd ->]%list_elem_of_singleton & Hv%list_elem_of_singleton).
      right. destruct a, a'; cbn in *. by subst.
    + intros [(? & ?%not_elem_of_nil & _)| ->]; [done|].
      exists [at_validator_id a]. split; left.
  - cbn in Hnd. apply NoDup_cons in Hnd as [Hd Hnd]. destruct (decide (d = at_data a)) as [->|Hda].
    + repeat split.
      * cbn. by apply NoDup_cons.
      * intros ? ? [[= -> ->]|Hin]%elem_of_cons; [by destruct ids|]. eapply Hne. by right.
      * cbn. intros ? ?. by left.
      * intros (ids' & [[= Hd' ->]|Hin]%elem_of_cons & Hv).
        -- apply elem_of_app in Hv as [Hv|Hv%list_elem_of_singleton].
           ++ left. exists ids. split; [rewrite Hd'; left|done].
           ++ right. destruct a, a'; cbn in *. by subst.
        -- left. exists ids'. split; [by right|done].
      * intros [(ids' & [[= Hd' ->]|Hin]%elem_of_cons & Hv)| ->].
        -- exists (ids ++ [at_validator_id a]). rewrite Hd'. split; [left|].
           apply elem_of_app. by left.
        -- exists ids'. split; [by right|done].
        -- exists (ids ++ [at_validator_id a]). split; [left|].
           apply elem_of_app. right. left.
    + destruct IH as (IH1 & IH2 & IH3 & IH4); [done|by intros; eapply Hne; right|].
      repeat split.
      * cbn. apply NoDup_cons. split; [|done]. intros [?|?]%IH3; done.
      * intros ? ? [[= -> ->]|Hin]%elem_of_cons; [eapply Hne; left|by eapply IH2].
      * cbn. intros ? [->|[?|?]%IH3]%elem_of_cons; [left; left|left; by right|by right].
      * intros (ids' & [[= Hd' ->]|Hin]%elem_of_cons & Hv).
        -- left. exists ids. split; [rewrite Hd'; left|done].
        -- destruct (proj1 (IH4 a')) as [(ids'' & ? & ?)| ->]; [by exists ids'| |by right].
           left. exists ids''. split; [by right|done].
      * intros [(ids' & [[= Hd' ->]|Hin]%elem_of_cons & Hv)|Ha].
        -- exists ids. split; [rewrite Hd'; left|done].
        -- destruct (proj2 (IH4 a')) as (ids'' & ? & ?); [left; by exists ids'|].
           exists ids''. split; [by right|done].
        -- destruct (proj2 (IH4 a')) as (ids'' & ? & ?); [by right|].
           exists ids''. split; [by right|done].
Qed.

Lemma group_by_data_spec attestations :
  let groups := group_by_data attestations in
  NoDup groups.*1 /\ (forall d ids, (d, ids) ∈ groups -> ids <> []) /\
  (forall a, in_groups groups a <-> a ∈ attestations).
Proof.
  cbn. induction attestations as [|a l IH] using rev_ind.
  - repeat split; [constructor|by intros ? ? ?%not_elem_of_nil| |by intros ?%not_elem_of_nil].
    by intros (? & ?%not_elem_of_nil & _).
  - unfold group_by_data in *. rewrite foldl_app. cbn. destruct IH as (IH1 & IH2 & IH3).
    pose proof (add_to_group_spec _ a IH1 IH2) as (H1 & H2 & _ & H4).
    repeat split; [done|done|..]; rewrite H4, IH3, elem_of_app, list_elem_of_singleton; done.
Qed.

Lemma has_duplicate_data_spec {HA : SszHash AttestationData} atts :
  has_duplicate_data atts = false <-> NoDup ((fun a => hash_tree_root (aa_data a)) <$> atts).
Proof.
  unfold has_duplicate_data.
  match goal with |- ?go ∅ _ = _ <-> _ => set (f := go) end.
  enough (H : forall seen, f seen atts = false <->
    NoDup ((fun a => hash_tree_root (aa_data a)) <$> atts) /\
    forall a, a ∈ atts -> hash_tree_root (aa_data a) ∉ seen).
  { rewrite H. split; [tauto|]. intros; split; [done|]. intros; apply not_elem_of_empty. }
  induction atts as [|a l IH]; intros seen; cbn.
  { split; [|done]. intros _. split; [constructor|]. by intros ? ?%not_elem_of_nil. }
  rewrite NoDup_cons, list_elem_of_fmap. case_decide as Hs.
  - split; [done|]. intros [_ Hall]. by destruct (Hall a); [left|].
  - fold (f ({[hash_tree_root (aa_data a)]} ∪ seen) l). rewrite IH. set_solver.
Qed.
(** What any accepted index list gives. *)
Lemma from_validator_indices_inv (l : list u64) bits :
  from_validator_indices l = Ok bits ->
  l <> [] /\ forall i, i ∈ set_bits bits <-> i ∈ l.
Proof.
  intros Hb. destruct (decide (l = [])) as [->|Hne]; [done|].
  destruct (decide (Exists (fun i => ValidatorRegistryLimit <= i) l)) as [Hex|Hall].
  - apply Exists_exists in Hex. by rewrite from_validator_indices_panic in Hb by (by right).
  - rewrite <-Forall_Exists_neg, Forall_forall in Hall.
    destruct (from_validator_indices_spec l) as (bits' & Hb' & Hget & _); [done| |].
    { intros i Hi%Hall. lia. }
    rewrite Hb in Hb'. injection Hb' as <-. split; [done|].
    intros i. by rewrite elem_of_set_bits.
Qed.

Lemma aggregate_by_data_inv (attestations : list Attestation) groups :
  aggregate_by_data attestations = Ok groups ->
  NoDup (aa_data <$> groups) /\
  forall d i, (exists g, g ∈ groups /\ aa_data g = d /\ i ∈ set_bits (aa_aggregation_bits g)) <->
    mkAttestation i d ∈ attestations.
Proof.
  destruct (group_by_data_spec attestations) as (Hnd & Hne & Hin).
  unfold aggregate_by_data. set (gs := group_by_data attestations) in *. intros H%mapM_Ok.
  assert (Hrel : Forall2 (fun '(d, ids) g => aa_data g = d /\
      forall i, i ∈ set_bits (aa_aggregation_bits g) <-> i ∈ ids) gs groups).
  { eapply Forall2_impl; [done|]. intros [d ids] g Hg. cbn in Hg. ok_inv. subst.
    by apply from_validator_indices_inv in Hx as [_ Hx]. }
  split.
  - replace (aa_data <$> groups) with gs.*1; [done|].
    clear -Hrel. induction Hrel as [|[d ids] g ? ? [? _] _ IH]; csimpl; [done|]. congruence.
  - intros d i. rewrite <-Hin. split.
    + intros (g & Hg & <- & Hb). apply list_elem_of_lookup in Hg as [k Hk].
      eapply Forall2_lookup_r in Hrel as ([d ids] & Hgk & <- & Hget); [|done].
      exists ids. cbn. split; [by eapply list_elem_of_lookup_2|by apply Hget].
    + intros (ids & Hg & Hi). cbn in *. apply list_elem_of_lookup in Hg as [k Hk].
      eapply Forall2_lookup_l in Hrel as (g & Hgk & Hr); [|done].
      destruct Hr as [Hd Hget].
      exists g. split; [by eapply list_elem_of_lookup_2|]. split; [done|]. by apply Hget.
Qed.
End AggregationBits.

(** * Properties *)

Section Properties.
Context {C : SszContainers} {HC : SszContainersLaws C}.

(** Building participation bits from validator indices and reading the
    indices back gives the same set of validators, in ascending order; no index
    list without this property is accepted: an empty list, or one with an index
    past the registry limit, panics. *)
Theorem validator_indices_roundtrip (l : list u64) :
  ((l = [] \/ exists i, i ∈ l /\ ValidatorRegistryLimit <= i) /\
    from_validator_indices l = Panic PAssert) \/
  (exists bits l', from_validator_indices l = Ok bits /\
    to_validator_indices bits = Ok l' /\ StronglySorted N.lt l' /\
    forall i, i ∈ l' <-> i ∈ l).
Proof.
  destruct (decide (l = [])) as [->|Hne]; [by left; split; [left|]|].
  destruct (decide (Exists (fun i => ValidatorRegistryLimit <= i) l)) as [Hex|Hall].
  - apply Exists_exists in Hex. left. split; [by right|].
    apply from_validator_indices_panic. by right.
  - right. rewrite <-Forall_Exists_neg, Forall_forall in Hall.
    destruct (from_validator_indices_spec l) as (bits & Hb & _); [done| |].
    { intros i Hi%Hall. lia. }
    pose proof (from_validator_indices_inv _ _ Hb) as [_ Hget].
    exists bits, (set_bits bits). split; [done|]. split; [|split; [apply set_bits_sorted|done]].
    apply to_validator_indices_Ok. split; [done|]. intros E. apply Hne, elem_of_nil_inv.
    intros i. rewrite <-Hget, E. apply not_elem_of_nil.
Qed.

(** Grouping attestations by their data loses nothing and invents nothing:
    it succeeds when the validators are within the registry limit, each group has
    its own data, and a validator's bit is set in a group exactly when the
    validator attested to the data of that group. *)
Theorem aggregate_by_data_correct (attestations : list Attestation) :
  (forall a, a ∈ attestations -> at_validator_id a < ValidatorRegistryLimit) ->
  exists groups, aggregate_by_data attestations = Ok groups /\
    NoDup (aa_data <$> groups) /\
    forall d i, (exists g, g ∈ groups /\ aa_data g = d /\
                   i ∈ set_bits (aa_aggregation_bits g)) <->
                mkAttestation i d ∈ attestations.
Proof.
  intros Hlim. destruct (group_by_data_spec attestations) as (Hnd & Hne & Hin).
  assert (exists groups, aggregate_by_data attestations = Ok groups) as [groups Hg].
  { apply mapM_total. intros [d ids] Hg.
    destruct (from_validator_indices_spec ids) as (bits & -> & _);
      [by eapply Hne| |by eexists].
    intros i Hi. apply (Hlim (mkAttestation i d)), Hin. by exists ids. }
  exists groups. split; [done|]. by apply aggregate_by_data_inv.
Qed.
End Properties.

Lemma aggregate_by_data_correct_witness :
  let d := mkAttestationData 1 Checkpoint_default Checkpoint_default Checkpoint_default in
  exists groups, aggregate_by_data [mkAttestation 2 d; mkAttestation 0 d] = Ok groups /\
    NoDup (aa_data <$> groups) /\
    forall d' i, (exists g, g ∈ groups /\ aa_data g = d' /\
                   i ∈ set_bits (aa_aggregation_bits g)) <->
                mkAttestation i d' ∈ [mkAttestation 2 d; mkAttestation 0 d].
Proof.
  intros d. apply aggregate_by_data_correct.
  intros a [->|[->|?%not_elem_of_nil]%elem_of_cons]%elem_of_cons; [reflexivity..|done].
Defined.

Lemma validator_indices_roundtrip_witness :
  exists bits l', from_validator_indices [3; 1; 3] = Ok bits /\
    to_validator_indices bits = Ok l' /\ StronglySorted N.lt l' /\
    forall i, i ∈ l' <-> i ∈ [3; 1; 3].
Proof.
  destruct (validator_indices_roundtrip [3; 1; 3]) as [[_ H]|H];
    [vm_compute in H; discriminate H|exact H].
Defined.
