(* ===== verification/State.v ===== *)
(** * The beacon state and its transition function

    [containers/src/state.rs]: [JustifiedSlots], [State], genesis, slot and
    block processing, attestation processing with justification and
    finalization.  Logging and metrics have no effect on the state and are left
    out. *)

From S2P Require Import Prelude Slot Ssz Xmss Containers.

#[local] Open Scope N_scope.

(** [struct JustifiedSlots(BitList<HistoricalRootsLimit>)]: bit [i] tells
    whether slot [finalized + 1 + i] is justified. *)
Abbreviation JustifiedSlots := (list bool) (only parsing).

Section JustifiedSlots.
Context {C : SszContainers}.

Definition is_slot_justified (self : JustifiedSlots) (finalized_slot target_slot : Slot)
    : outcome bool :=
  match justified_index_after target_slot finalized_slot with
  | None => Ok true
  | Some relative_index => ok_or (get_nth self relative_index) EOutsideTrackedRange
  end.

Definition with_justified (self : JustifiedSlots) (finalized_slot target_slot : Slot)
    (value : bool) : outcome JustifiedSlots :=
  match justified_index_after target_slot finalized_slot with
  | None => Ok self
  | Some relative_index =>
      if relative_index <? len_u64 self
      then Ok (<[N.to_nat relative_index := value]> self)
      else Err EOutsideTrackedRange
  end.

(** [for (i, val) in bits.iter().enumerate() { output.set(i, *val) }] *)
Definition copy_bits (output bits : list bool) : outcome (list bool) :=
  foldM (fun out '(i, val) => bit_set out i val) output (enumerate bits).

Definition shift_window (self : JustifiedSlots) (delta : u64) : outcome JustifiedSlots :=
  if delta =? 0 then Ok self else
  bits ← slice_from self delta;
  output ← or_panic (bl_with_length HistoricalRootsLimit (len_u64 bits)) PAssert;
  copy_bits output bits.

Definition extend_to_slot (self : JustifiedSlots) (finalized_slot target_slot : Slot)
    : outcome JustifiedSlots :=
  match justified_index_after target_slot finalized_slot with
  | None => Ok self
  | Some relative_index =>
      let required_capacity := wadd relative_index 1 in
      match checked_sub required_capacity (len_u64 self) with
      | None => Ok self
      | Some _ =>
          list ← or_panic (bl_with_length HistoricalRootsLimit required_capacity) PAssert;
          copy_bits list self
      end
  end.
End JustifiedSlots.

Record State := mkState {
  st_config : Config;
  st_slot : Slot;
  st_latest_block_header : BlockHeader;
  st_latest_justified : Checkpoint;
  st_latest_finalized : Checkpoint;
  st_historical_block_hashes : list H256;
  st_justified_slots : JustifiedSlots;
  st_validators : list Validator;
  st_justifications_roots : list H256;
  st_justifications_validators : list bool
}.

Definition set_st_slot (v : Slot) (s : State) : State :=
  mkState (st_config s) v (st_latest_block_header s) (st_latest_justified s)
    (st_latest_finalized s) (st_historical_block_hashes s) (st_justified_slots s)
    (st_validators s) (st_justifications_roots s) (st_justifications_validators s).

Definition set_st_header (v : BlockHeader) (s : State) : State :=
  mkState (st_config s) (st_slot s) v (st_latest_justified s)
    (st_latest_finalized s) (st_historical_block_hashes s) (st_justified_slots s)
    (st_validators s) (st_justifications_roots s) (st_justifications_validators s).

Definition set_st_justifications (roots : list H256) (bits : list bool) (s : State) : State :=
  mkState (st_config s) (st_slot s) (st_latest_block_header s) (st_latest_justified s)
    (st_latest_finalized s) (st_historical_block_hashes s) (st_justified_slots s)
    (st_validators s) roots bits.

Definition set_st_historical (v : list H256) (s : State) : State :=
  mkState (st_config s) (st_slot s) (st_latest_block_header s) (st_latest_justified s)
    (st_latest_finalized s) v (st_justified_slots s)
    (st_validators s) (st_justifications_roots s) (st_justifications_validators s).

Definition set_state_root (r : H256) (h : BlockHeader) : BlockHeader :=
  mkBlockHeader (bh_slot h) (bh_proposer_index h) (bh_parent_root h) r (bh_body_root h).

(** [slot.0 % num_validators == validator_index]; a zero modulus panics. *)
Definition is_proposer_for (validator_index : u64) (slot : Slot) (num_validators : u64)
    : outcome bool :=
  if num_validators =? 0 then Panic PDivisionByZero
  else Ok (slot `mod` num_validators =? validator_index).

Section State.
Context {C : SszContainers}.
Context {HState : SszHash State} {HHeader : SszHash BlockHeader}
  {HBody : SszHash BlockBody} {HData : SszHash AttestationData}.

(** ** Genesis *)

Definition generate_genesis_with_validators (genesis_time : u64)
    (validators : list Validator) : outcome State :=
  let body_for_root := mkBlockBody [] in
  let genesis_header := mkBlockHeader 0 0 h256_zero h256_zero (hash_tree_root body_for_root) in
  validator_list ← push_all ValidatorRegistryLimit (Panic PUnwrap) [] validators;
  Ok (mkState (mkConfig genesis_time) 0 genesis_header (mkCheckpoint h256_zero 0)
        (mkCheckpoint h256_zero 0) [] [] validator_list [] []).

Definition generate_genesis (genesis_time num_validators : u64) : outcome State :=
  let body_for_root := mkBlockBody [] in
  let header := mkBlockHeader 0 0 h256_zero h256_zero (hash_tree_root body_for_root) in
  validators ← push_all ValidatorRegistryLimit (Panic PUnwrap) []
    (mkValidator PublicKey_default <$> nrange 0 num_validators);
  Ok (mkState (mkConfig genesis_time) 0 header (mkCheckpoint h256_zero 0)
        (mkCheckpoint h256_zero 0) [] [] validators [] []).

(** ** Flattened justification tracking *)

Definition get_justifications (self : State) : gmap H256 (list bool) :=
  let num_validators := len_u64 (st_validators self) in
  collect_map ((fun '(i, root) =>
      let start := wmul i num_validators in
      let end_ := wadd start num_validators in
      (root, (fun idx => default false (get_nth (st_justifications_validators self) idx))
               <$> nrange start end_))
    <$> enumerate (st_justifications_roots self)).

Definition with_justifications (self : State) (map : gmap H256 (list bool)) : outcome State :=
  let num_validators := len_u64 (st_validators self) in
  let roots := sorted_keys map in
  new_roots ← push_all HistoricalRootsLimit (Panic PUnwrap) [] roots;
  let total_bits := wmul (len_u64 roots) num_validators in
  new_validators ← or_panic (bl_new JustificationValidatorsLimit false total_bits) PAssert;
  new_validators ← foldM (fun bits '(i, r) =>
      v ← or_panic (map !! r) PUnwrap;
      _ ← assert_ (len_u64 v =? num_validators) PAssert;
      let base := wmul i num_validators in
      foldM (fun bits '(j, bit) =>
          if (bit : bool) then bit_set bits (wadd base j) true else Ok bits)
        bits (enumerate v))
    new_validators (enumerate roots);
  Ok (set_st_justifications new_roots new_validators self).

Definition with_historical_hashes (self : State) (hashes : list H256) : outcome State :=
  new_hashes ← push_all HistoricalRootsLimit (Panic PUnwrap) [] hashes;
  Ok (set_st_historical new_hashes self).

(** ** Slots *)

(** One iteration of the loop of [process_slots]. *)
Definition process_slot_step (state : State) : State :=
  let state :=
    if is_zero (bh_state_root (st_latest_block_header state))
    then set_st_header
           (set_state_root (hash_tree_root state) (st_latest_block_header state)) state
    else state in
  set_st_slot (wadd (st_slot state) 1) state.

Fixpoint process_slots_loop (fuel : nat) (target_slot : Slot) (state : State)
    : outcome State :=
  if st_slot state <? target_slot then
    match fuel with
    | O => Diverge
    | S fuel => process_slots_loop fuel target_slot (process_slot_step state)
    end
  else Ok state.

Definition process_slots (self : State) (target_slot : Slot) : outcome State :=
  _ ← ensure (st_slot self <? target_slot) ETargetSlotNotInFuture;
  process_slots_loop (N.to_nat (target_slot - st_slot self)) target_slot self.

(** ** Block header *)

Definition process_block_header (self : State) (block : Block) : outcome State :=
  let parent_header := st_latest_block_header self in
  let parent_root := hash_tree_root parent_header in
  _ ← ensure (b_slot block =? st_slot self) EBlockSlotMismatch;
  _ ← ensure (bh_slot parent_header <? b_slot block) EBlockOlderThanHeader;
  is_proposer ← is_proposer_for (b_proposer_index block) (st_slot self)
    (len_u64 (st_validators self));
  _ ← ensure is_proposer EIncorrectProposer;
  _ ← ensure (b_parent_root block =? parent_root) EParentRootMismatch;
  let is_genesis_parent := bh_slot parent_header =? 0 in
  let '(new_latest_justified, new_latest_finalized) :=
    if is_genesis_parent
    then (mkCheckpoint parent_root 0, mkCheckpoint parent_root 0)
    else (st_latest_justified self, st_latest_finalized self) in
  let num_empty_slots := wsub (wsub (b_slot block) (bh_slot parent_header)) 1 in
  historical ← push_all HistoricalRootsLimit (Err EListPush)
    (st_historical_block_hashes self) [parent_root];
  historical ← push_all HistoricalRootsLimit (Err EListPush) historical
    (replicate (N.to_nat num_empty_slots) h256_zero);
  let last_materialized_slot := wsub (b_slot block) 1 in
  justified_slots ← extend_to_slot (st_justified_slots self)
    (cp_slot (st_latest_finalized self)) last_materialized_slot;
  let new_header := mkBlockHeader (b_slot block) (b_proposer_index block)
    (b_parent_root block) h256_zero (hash_tree_root (b_body block)) in
  Ok (mkState (st_config self) (st_slot self) new_header new_latest_justified
        new_latest_finalized historical justified_slots (st_validators self)
        (st_justifications_roots self) (st_justifications_validators self)).

(** ** Attestations *)

(** The variables the loop over the attestations of a block updates. *)
Record AttestationLoop := mkAttestationLoop {
  al_justifications : gmap H256 (list bool);
  al_latest_justified : Checkpoint;
  al_latest_finalized : Checkpoint;
  al_finalized_slot : Slot;
  al_justified_slots : JustifiedSlots
}.

(** [root_to_slot]: the largest slot after the finalized one with each root. *)
Definition build_root_to_slot (self : State) (finalized_slot : Slot)
    : outcome (gmap H256 Slot) :=
  let start_slot := wadd finalized_slot 1 in
  let end_slot := len_u64 (st_historical_block_hashes self) in
  foldM (fun m i =>
      root ← ok_or (get_nth (st_historical_block_hashes self) i) EIndexOutOfBounds;
      Ok (match m !! root with
          | Some slot => if slot <? i then <[root := i]> m else m
          | None => <[root := i]> m
          end))
    ∅ (nrange start_slot end_slot).

(** The vote vectors, cut out of the flattened bit list. *)
Definition load_justifications (self : State) : outcome (gmap H256 (list bool)) :=
  let n := len_u64 (st_validators self) in
  entries ← mapM (fun '(i, root) =>
      votes ← slice (st_justifications_validators self) (wmul i n) (wmul (wadd i 1) n);
      Ok (root, votes))
    (enumerate (st_justifications_roots self));
  Ok (collect_map entries).

(** Record the votes of one attestation for a target root. *)
Definition record_votes (justifications : gmap H256 (list bool)) (target_root : H256)
    (validator_ids : list u64) : outcome (gmap H256 (list bool)) :=
  foldM (fun js validator_id =>
      votes ← ok_or (js !! target_root) EUnknownTargetRoot;
      if validator_id <? len_u64 votes
      then Ok (<[target_root := <[N.to_nat validator_id := true]> votes]> js)
      else Err EValidatorIndexOutOfRange)
    justifications validator_ids.

(** The finalization branch: [source] becomes the finalized checkpoint. *)
Definition finalize (root_to_slot : gmap H256 Slot) (source : Checkpoint)
    (ls : AttestationLoop) : outcome AttestationLoop :=
  let old_finalized_slot := al_finalized_slot ls in
  let finalized_slot := cp_slot source in
  match checked_sub finalized_slot old_finalized_slot with
  | Some delta =>
      if 0 <? delta then
        justified_slots ← shift_window (al_justified_slots ls) delta;
        _ ← ensure (forallb (fun '(root, _) => bool_decide (is_Some (root_to_slot !! root)))
               (map_to_list (al_justifications ls))) EJustificationRootMissing;
        let justifications := filter
          (fun '(root, _) => finalized_slot < default 0 (root_to_slot !! root))
          (al_justifications ls) in
        Ok (mkAttestationLoop justifications (al_latest_justified ls) source finalized_slot
              justified_slots)
      else Ok (mkAttestationLoop (al_justifications ls) (al_latest_justified ls) source
                 finalized_slot (al_justified_slots ls))
  | None => Ok (mkAttestationLoop (al_justifications ls) (al_latest_justified ls) source
                  finalized_slot (al_justified_slots ls))
  end.

(** The justification branch, taken when the votes reach two thirds. *)
Definition justify (self : State) (root_to_slot : gmap H256 Slot)
    (source target : Checkpoint) (ls : AttestationLoop) : outcome AttestationLoop :=
  justified_slots ← with_justified (al_justified_slots ls) (al_finalized_slot ls)
    (cp_slot target) true;
  let ls := mkAttestationLoop (delete (cp_root target) (al_justifications ls)) target
    (al_latest_finalized ls) (al_finalized_slot ls) justified_slots in
  any ← anyM (fun slot => is_justifiable_after slot (cp_slot (st_latest_finalized self)))
    (nrange (wadd (cp_slot source) 1) (cp_slot target));
  if (any : bool) then Ok ls else finalize root_to_slot source ls.

(** The checks that skip an attestation, in order; [true] means it counts. *)
Definition attestation_counts (self : State) (ls : AttestationLoop)
    (source target : Checkpoint) : outcome bool :=
  source_justified ← is_slot_justified (al_justified_slots ls) (al_finalized_slot ls)
    (cp_slot source);
  if negb source_justified then Ok false else
  target_justified ← is_slot_justified (al_justified_slots ls) (al_finalized_slot ls)
    (cp_slot target);
  if (target_justified : bool) then Ok false else
  if is_zero (cp_root source) || is_zero (cp_root target) then Ok false else
  source_root ← ok_or (get_nth (st_historical_block_hashes self) (cp_slot source))
    EIndexOutOfBounds;
  if negb (cp_root source =? source_root) then Ok false else
  target_root ← ok_or (get_nth (st_historical_block_hashes self) (cp_slot target))
    EIndexOutOfBounds;
  if negb (cp_root target =? target_root) then Ok false else
  if cp_slot target <=? cp_slot source then Ok false else
  is_justifiable_after (cp_slot target) (cp_slot (st_latest_finalized self)).

(** The body of the loop over the attestations. *)
Definition process_attestation (self : State) (root_to_slot : gmap H256 Slot)
    (ls : AttestationLoop) (attestation : AggregatedAttestation)
    : outcome AttestationLoop :=
  let source := ad_source (aa_data attestation) in
  let target := ad_target (aa_data attestation) in
  counts ← attestation_counts self ls source target;
  if negb counts then Ok ls else
  let justifications :=
    match al_justifications ls !! cp_root target with
    | Some _ => al_justifications ls
    | None => <[cp_root target := replicate (length (st_validators self)) false]>
                (al_justifications ls)
    end in
  validator_ids ← to_validator_indices (aa_aggregation_bits attestation);
  justifications ← record_votes justifications (cp_root target) validator_ids;
  votes ← or_panic (justifications !! cp_root target) PIndex;
  let ls := mkAttestationLoop justifications (al_latest_justified ls)
    (al_latest_finalized ls) (al_finalized_slot ls) (al_justified_slots ls) in
  if wmul 2 (len_u64 (st_validators self)) <=? wmul 3 (count_true votes)
  then justify self root_to_slot source target ls
  else Ok ls.

(** Flatten the vote vectors in the order of the roots. *)
Definition store_justifications (self : State) (ls : AttestationLoop) : outcome State :=
  let sorted_roots := sorted_keys (al_justifications ls) in
  roots ← ok_or (pl_try_from_iter HistoricalRootsLimit sorted_roots) EListTooLong;
  rows ← mapM (fun root => or_panic (al_justifications ls !! root) PIndex) sorted_roots;
  let bits := mjoin rows in
  output ← or_panic (bl_with_length JustificationValidatorsLimit (len_u64 bits)) PAssert;
  validators ← copy_bits output bits;
  Ok (mkState (st_config self) (st_slot self) (st_latest_block_header self)
        (al_latest_justified ls) (al_latest_finalized ls)
        (st_historical_block_hashes self) (al_justified_slots ls) (st_validators self)
        roots validators).

Definition process_attestations (self : State) (attestations : list AggregatedAttestation)
    : outcome State :=
  _ ← ensure (forallb (fun root => negb (is_zero root)) (st_justifications_roots self))
    EZeroJustificationRoot;
  justifications ← load_justifications self;
  let finalized_slot := cp_slot (st_latest_finalized self) in
  root_to_slot ← build_root_to_slot self finalized_slot;
  ls ← foldM (process_attestation self root_to_slot)
    (mkAttestationLoop justifications (st_latest_justified self)
       (st_latest_finalized self) finalized_slot (st_justified_slots self))
    attestations;
  store_justifications self ls.

(** ** Blocks *)

Definition process_block (self : State) (block : Block) : outcome State :=
  state ← process_block_header self block;
  _ ← ensure (negb (has_duplicate_data (bb_attestations (b_body block))))
    EDuplicateAttestationData;
  process_attestations state (bb_attestations (b_body block)).

Definition state_transition (self : State) (signed_block : SignedBlockWithAttestation)
    (valid_signatures : bool) : outcome State :=
  _ ← ensure valid_signatures EInvalidBlockSignatures;
  let block := bwa_block (sb_message signed_block) in
  state ← process_slots self (b_slot block);
  state ← process_block state block;
  let state_root := hash_tree_root state in
  _ ← ensure (b_state_root block =? state_root) EInvalidStateRoot;
  Ok state.
End State.

(** Everything but the slot loop is free of unbounded loops. *)
Section Termination.
Context {C : SszContainers}.
Context {HState : SszHash State} {HHeader : SszHash BlockHeader}
  {HBody : SszHash BlockBody} {HData : SszHash AttestationData}.

Lemma terminates_is_justifiable_after s f : terminates (is_justifiable_after s f).
Proof. apply is_justifiable_after_not_diverge. Qed.

Lemma terminates_from_validator_indices l : terminates (from_validator_indices l).
Proof. unfold from_validator_indices. solve_terminates. Qed.

Lemma terminates_to_validator_indices l : terminates (to_validator_indices l).
Proof. unfold to_validator_indices. solve_terminates. Qed.

Lemma terminates_is_slot_justified js f t : terminates (is_slot_justified js f t).
Proof. unfold is_slot_justified. solve_terminates. Qed.

Lemma terminates_with_justified js f t b : terminates (with_justified js f t b).
Proof. unfold with_justified. solve_terminates. Qed.

Lemma terminates_copy_bits out bits : terminates (copy_bits out bits).
Proof. unfold copy_bits. solve_terminates. Qed.

#[local] Hint Resolve terminates_is_justifiable_after terminates_to_validator_indices
  terminates_is_slot_justified terminates_with_justified terminates_copy_bits : lean.

Lemma terminates_process_attestations s atts : terminates (process_attestations s atts).
Proof.
  unfold process_attestations, load_justifications, build_root_to_slot,
    store_justifications, process_attestation, attestation_counts, justify, finalize,
    record_votes, shift_window. solve_terminates.
Qed.

Lemma terminates_push_all {T} limit (e : outcome (list T)) l xs :
  terminates e -> terminates (push_all limit e l xs).
Proof. intros He. unfold push_all. solve_terminates. Qed.

Lemma terminates_process_block s b : terminates (process_block s b).
Proof.
  unfold process_block, process_block_header, is_proposer_for, extend_to_slot.
  pose proof (@terminates_push_all H256). pose proof terminates_process_attestations.
  solve_terminates.
Qed.
End Termination.

#[export] Hint Resolve terminates_from_validator_indices terminates_to_validator_indices
  terminates_process_block : lean.
