(* ===== verification/JustifiedSlots.v ===== *)
(** * The justified-slots window

    What the operations of [JustifiedSlots] (in [State]) do to the window of
    slots after the finalized one: extension, marking and shifting. *)

From S2P Require Import Prelude Slot Ssz Xmss Containers State.

#[local] Open Scope N_scope.

Lemma copy_bits_from pre out bits :
  (length bits <= length out)%nat ->
  foldM (fun out '(i, val) => bit_set out i val) (pre ++ out)
    (enumerate_from (len_u64 pre) bits) = Ok (pre ++ bits ++ drop (length bits) out).
Proof.
  revert pre out; induction bits as [|b bits IH]; intros pre out Hlen; cbn -[bit_set].
  { by rewrite drop_0. }
  destruct out as [|o out]; [cbn in Hlen; lia|].
  rewrite bit_set_Ok by (unfold len_u64; rewrite length_app; cbn; lia).
  cbn [mbind outcome_bind]. unfold len_u64 at 1. rewrite Nat2N.id.
  rewrite insert_app_r_alt by lia. rewrite Nat.sub_diag. cbn [list_insert insert].
  specialize (IH (pre ++ [b]) out ltac:(cbn in Hlen; lia)).
  rewrite <-app_assoc in IH. cbn in IH.
  replace (len_u64 (pre ++ [b])) with (N.succ (len_u64 pre)) in IH
    by (unfold len_u64; rewrite length_app; cbn; lia).
  rewrite IH. by rewrite <-app_assoc.
Qed.

Lemma copy_bits_Ok out bits :
  (length bits <= length out)%nat ->
  copy_bits out bits = Ok (bits ++ drop (length bits) out).
Proof. apply (copy_bits_from []). Qed.

Section Window.
Context {C : SszContainers} {HC : SszContainersLaws C}.

Lemma shift_window_Ok js delta :
  delta <= len_u64 js -> len_u64 js <= HistoricalRootsLimit ->
  shift_window js delta = Ok (drop (N.to_nat delta) js).
Proof.
  intros Hd Hl. unfold shift_window. destruct (N.eqb_spec delta 0) as [->|Hne].
  { by rewrite drop_0. }
  unfold slice_from. replace (delta <=? len_u64 js) with true by lia.
  cbn [mbind outcome_bind]. unfold len_u64 in *.
  rewrite bl_with_length_law by (rewrite length_drop; lia).
  cbn [or_panic mbind outcome_bind].
  rewrite copy_bits_Ok by (rewrite length_replicate; lia).
  rewrite (drop_ge (replicate _ _)) by (rewrite length_replicate; lia).
  by rewrite app_nil_r.
Qed.

Lemma extend_to_slot_Ok js f t :
  is_u64 (f + 1) -> is_u64 t -> t - f <= HistoricalRootsLimit ->
  extend_to_slot js f t = Ok (js ++ replicate (N.to_nat (t - f - len_u64 js)) false).
Proof.
  intros Hf Ht Hl. unfold extend_to_slot.
  destruct (justified_index_after t f) as [i|] eqn:E.
  - apply justified_index_after_Some in E as [Hlt ->]; [|done].
    rewrite wadd_small by (unfold is_u64, u64_modulus in *; lia).
    destruct (checked_sub _ _) as [g|] eqn:Eg.
    + apply checked_sub_Some in Eg as [Hge ->].
      rewrite bl_with_length_law by (unfold len_u64 in *; lia).
      cbn [or_panic mbind outcome_bind]. unfold len_u64 in *.
      rewrite copy_bits_Ok by (rewrite length_replicate; lia).
      rewrite drop_replicate. do 3 f_equal. lia.
    + apply checked_sub_None in Eg.
      replace (t - f - len_u64 js) with 0 by (unfold len_u64 in *; lia).
      by rewrite app_nil_r.
  - apply justified_index_after_None in E; [|done].
    replace (t - f - len_u64 js) with 0 by lia. by rewrite app_nil_r.
Qed.

(** ** Reading the window *)

Lemma is_slot_justified_le js f t :
  is_u64 (f + 1) -> t <= f -> is_slot_justified js f t = Ok true.
Proof.
  intros Hf Ht. unfold is_slot_justified.
  by rewrite (proj2 (justified_index_after_None t f Hf) Ht).
Qed.

Lemma is_slot_justified_gt js f t :
  is_u64 (f + 1) -> f < t ->
  is_slot_justified js f t = ok_or (get_nth js (t - f - 1)) EOutsideTrackedRange.
Proof.
  intros Hf Ht. unfold is_slot_justified.
  by rewrite (proj2 (justified_index_after_Some t f _ Hf) (conj Ht eq_refl)).
Qed.

(** A slot found unjustified lies after the finalized one, inside the window. *)
Lemma is_slot_justified_false js f t :
  is_u64 (f + 1) -> is_slot_justified js f t = Ok false ->
  f < t /\ t - f - 1 < len_u64 js /\ get_nth js (t - f - 1) = Some false.
Proof.
  intros Hf H. destruct (N.le_gt_cases t f) as [Hle|Hgt].
  - by rewrite is_slot_justified_le in H.
  - rewrite is_slot_justified_gt in H by done. ok_inv.
    pose proof (get_nth_lt _ _ _ H). auto.
Qed.

Lemma with_justified_Ok js f t b :
  is_u64 (f + 1) -> f < t -> t - f - 1 < len_u64 js ->
  with_justified js f t b = Ok (<[N.to_nat (t - f - 1) := b]> js).
Proof.
  intros Hf Ht Hl. unfold with_justified.
  rewrite (proj2 (justified_index_after_Some t f _ Hf) (conj Ht eq_refl)).
  by replace (t - f - 1 <? len_u64 js) with true by lia.
Qed.

Lemma with_justified_Ok_inv js f t b js' :
  is_u64 (f + 1) -> f < t -> with_justified js f t b = Ok js' ->
  t - f - 1 < len_u64 js /\ js' = <[N.to_nat (t - f - 1) := b]> js.
Proof.
  intros Hf Ht. unfold with_justified.
  rewrite (proj2 (justified_index_after_Some t f _ Hf) (conj Ht eq_refl)).
  destruct (N.ltb_spec (t - f - 1) (len_u64 js)); naive_solver.
Qed.

(** Marking a slot makes it justified and leaves the others alone. *)
Lemma is_slot_justified_mark js f t u :
  is_u64 (f + 1) -> f < t -> t - f - 1 < len_u64 js ->
  is_slot_justified (<[N.to_nat (t - f - 1) := true]> js) f u =
  if decide (u = t) then Ok true else is_slot_justified js f u.
Proof.
  intros Hf Ht Hl. destruct (N.le_gt_cases u f) as [Hle|Hgt].
  { rewrite !is_slot_justified_le by done. by case_decide. }
  rewrite !is_slot_justified_gt by done. unfold get_nth, len_u64 in *.
  case_decide as Hu.
  - subst. by rewrite list_lookup_insert_eq by lia.
  - by rewrite list_lookup_insert_ne by lia.
Qed.

(** Shifting the window to a later finalized slot keeps what is after it. *)
Lemma is_slot_justified_shift js f f' u :
  is_u64 (f + 1) -> is_u64 (f' + 1) -> f <= f' -> f' < u ->
  is_slot_justified (drop (N.to_nat (f' - f)) js) f' u = is_slot_justified js f u.
Proof.
  intros Hf Hf' Hle Hu. rewrite !is_slot_justified_gt by (done || lia).
  unfold get_nth. rewrite lookup_drop. do 2 f_equal. lia.
Qed.
End Window.
