(* ===== verification/StateInv.v ===== *)
(** * The state invariant

    Well-formedness of the state, and what one attestation does to the loop
    variables of [process_attestations]. *)

From S2P Require Import Prelude Slot Ssz Xmss Containers State JustifiedSlots.

#[local] Open Scope N_scope.

Abbreviation finalized_slot_of s := (cp_slot (st_latest_finalized s)) (only parsing).

(** The facts every state of a chain started from genesis has. *)
Record state_wf (s : State) : Prop := {
  wf_slot : is_u64 (st_slot s);
  wf_header_slot : bh_slot (st_latest_block_header s) <= st_slot s;
  wf_hist_len : len_u64 (st_historical_block_hashes s) = bh_slot (st_latest_block_header s);
  wf_hist_limit : len_u64 (st_historical_block_hashes s) <= HistoricalRootsLimit;
  wf_fin_slot : finalized_slot_of s = 0 \/
    finalized_slot_of s < bh_slot (st_latest_block_header s);
  wf_window_len : len_u64 (st_justified_slots s) =
    bh_slot (st_latest_block_header s) - 1 - finalized_slot_of s;
  wf_validators : len_u64 (st_validators s) <= ValidatorRegistryLimit;
  wf_roots_sorted : StronglySorted N.lt (st_justifications_roots s);
  wf_roots_nonzero : 0 ∉ st_justifications_roots s;
  wf_roots_hist : forall r, r ∈ st_justifications_roots s ->
    exists i, finalized_slot_of s < i /\ get_nth (st_historical_block_hashes s) i = Some r;
  wf_votes_len : len_u64 (st_justifications_validators s) =
    len_u64 (st_justifications_roots s) * len_u64 (st_validators s)
}.

Lemma NoDup_incl_len {A} (l k : list A) :
  NoDup l -> (forall x, x ∈ l -> x ∈ k) -> len_u64 l <= len_u64 k.
Proof.
  intros Hnd Hin. unfold len_u64.
  enough (length l <= length k)%nat by lia.
  apply submseteq_length, NoDup_submseteq; done.
Qed.

Lemma wf_roots_limit s : state_wf s ->
  len_u64 (st_justifications_roots s) <= HistoricalRootsLimit.
Proof.
  intros Hwf. transitivity (len_u64 (st_historical_block_hashes s)); [|apply Hwf].
  apply NoDup_incl_len; [apply StronglySorted_lt_NoDup, Hwf|].
  intros r (i & _ & Hi)%(wf_roots_hist _ Hwf). by eapply list_elem_of_lookup_2.
Qed.

Lemma wf_fin_u64 s : state_wf s -> is_u64 (finalized_slot_of s + 1).
Proof.
  intros Hwf. pose proof (wf_fin_slot _ Hwf). pose proof (wf_hist_len _ Hwf).
  pose proof (wf_hist_limit _ Hwf). unfold is_u64, u64_modulus, HistoricalRootsLimit in *. lia.
Qed.

(** ** Loading the vote vectors *)

Definition row (bits : list bool) (n i : N) : list bool :=
  take (N.to_nat n) (drop (N.to_nat (i * n)) bits).

Lemma load_justifications_Ok s :
  state_wf s ->
  load_justifications s = Ok (collect_map ((fun '(i, root) =>
    (root, row (st_justifications_validators s) (len_u64 (st_validators s)) i))
    <$> enumerate (st_justifications_roots s))).
Proof.
  intros Hwf. unfold load_justifications.
  assert (Hm : mapM (fun '(i, root) => votes ← slice (st_justifications_validators s)
      (wmul i (len_u64 (st_validators s)))
      (wmul (wadd i 1) (len_u64 (st_validators s))); Ok (root, votes))
    (enumerate (st_justifications_roots s)) =
    Ok ((fun '(i, root) =>
      (root, row (st_justifications_validators s) (len_u64 (st_validators s)) i))
      <$> enumerate (st_justifications_roots s))); [|by rewrite Hm].
  apply mapM_Ok, Forall2_fmap_r, Forall_Forall2_diag, Forall_forall.
  intros [i r] Hi%elem_of_enumerate%get_nth_lt.
  pose proof (wf_roots_limit _ Hwf). pose proof (wf_validators _ Hwf) as Hv.
  pose proof (wf_votes_len _ Hwf) as Hl.
  set (n := len_u64 (st_validators s)) in *.
  unfold HistoricalRootsLimit, ValidatorRegistryLimit in *.
  assert ((i + 1) * n <= len_u64 (st_justifications_validators s)) by nia.
  rewrite wadd_small by (unfold u64_modulus; lia).
  rewrite !wmul_small by (unfold u64_modulus; nia).
  unfold slice. replace (_ && _) with true by nia. cbn. do 3 f_equal. unfold row. f_equal. nia.
Qed.

Lemma load_justifications_lookup s js r v :
  state_wf s -> load_justifications s = Ok js -> js !! r = Some v ->
  r ∈ st_justifications_roots s /\ len_u64 v = len_u64 (st_validators s).
Proof.
  intros Hwf. rewrite load_justifications_Ok by done. intros [= <-].
  rewrite collect_map_lookup.
  - intros ([i r'] & [= -> ->] & Hi%elem_of_enumerate)%list_elem_of_fmap.
    split; [by eapply list_elem_of_lookup_2|].
    apply get_nth_lt in Hi. pose proof (wf_votes_len _ Hwf) as Hl.
    unfold row, len_u64 in *. rewrite length_take, length_drop. nia.
  - rewrite <-list_fmap_compose.
    replace (_ <$> _) with (st_justifications_roots s);
      [apply StronglySorted_lt_NoDup, Hwf|].
    rewrite <-(enumerate_from_snd (st_justifications_roots s) 0) at 1.
    apply list_fmap_ext. by intros ? [].
Qed.

(** ** The root-to-slot index *)

Lemma build_root_to_slot_spec s f :
  is_u64 (f + 1) ->
  exists m, build_root_to_slot s f = Ok m /\
    (forall r i, m !! r = Some i ->
       f < i /\ get_nth (st_historical_block_hashes s) i = Some r) /\
    (forall r i, f < i -> get_nth (st_historical_block_hashes s) i = Some r ->
       exists j, m !! r = Some j /\ i <= j).
Proof.
  intros Hf. unfold build_root_to_slot. rewrite wadd_small by done.
  set (hist := st_historical_block_hashes s).
  set (body := fun m i => root ← _; _).
  assert (Hgen : forall l : list N, (forall i, i ∈ l -> f < i < len_u64 hist) ->
    exists m, foldM body ∅ l = Ok m /\
      (forall r i, m !! r = Some i -> f < i /\ get_nth hist i = Some r) /\
      (forall r i, i ∈ l -> get_nth hist i = Some r -> exists j, m !! r = Some j /\ i <= j)).
  { induction l as [|i l IH] using rev_ind; intros Hl.
    { exists ∅. split; [done|]. split; [by intros ? ? ?%lookup_empty_Some|].
      by intros ? ? ?%not_elem_of_nil. }
    destruct IH as (m & Hm & Hm1 & Hm2); [intros; apply Hl, elem_of_app; by left|].
    destruct (Hl i) as [Hfi Hil]; [apply elem_of_app; right; left|].
    destruct (proj2 (get_nth_is_Some hist i) Hil) as [root Hroot].
    rewrite foldM_app, Hm. cbn [mbind outcome_bind foldM]. unfold body at 1.
    rewrite Hroot. cbn [ok_or mbind outcome_bind].
    eexists. split; [done|]. split.
    - intros r k. destruct (m !! root) as [slot|] eqn:Er; [destruct (slot <? i)|];
        rewrite ?lookup_insert; try case_decide; naive_solver.
    - intros r k Hk Hr. apply elem_of_app in Hk as [Hk| ->%list_elem_of_singleton].
      + destruct (Hm2 r k Hk Hr) as (j & Hj & Hle).
        destruct (m !! root) as [slot|] eqn:Er; [destruct (N.ltb_spec slot i)|];
          rewrite ?lookup_insert; try case_decide; simplify_eq; eauto with lia.
      + assert (r = root) as -> by congruence.
        destruct (m !! root) as [slot|] eqn:Er; [destruct (N.ltb_spec slot i)|];
          rewrite ?lookup_insert_eq, ?Er; eauto with lia. }
  destruct (Hgen (nrange (f + 1) (len_u64 hist))) as (m & Hm & Hm1 & Hm2).
  { intros i ?%elem_of_nrange. lia. }
  exists m. split; [done|]. split; [done|]. intros r i Hi Hr. apply Hm2; [|done].
  apply elem_of_nrange. apply get_nth_lt in Hr. lia.
Qed.

(** ** One attestation *)

(** When an attestation counts. *)
Definition vote_valid (s : State) (ls : AttestationLoop) (source target : Checkpoint) : Prop :=
  is_slot_justified (al_justified_slots ls) (al_finalized_slot ls) (cp_slot source) = Ok true /\
  is_slot_justified (al_justified_slots ls) (al_finalized_slot ls) (cp_slot target) = Ok false /\
  cp_root source <> 0 /\ cp_root target <> 0 /\
  get_nth (st_historical_block_hashes s) (cp_slot source) = Some (cp_root source) /\
  get_nth (st_historical_block_hashes s) (cp_slot target) = Some (cp_root target) /\
  cp_slot source < cp_slot target /\
  is_justifiable_after (cp_slot target) (finalized_slot_of s) = Ok true.

Lemma attestation_counts_true s ls source target :
  attestation_counts s ls source target = Ok true <-> vote_valid s ls source target.
Proof.
  unfold attestation_counts, vote_valid, is_zero. split.
  - intros H. ok_inv. destruct x; cbn in H; ok_inv; [|done].
    destruct x; ok_inv; [done|].
    destruct (N.eqb_spec (cp_root source) 0), (N.eqb_spec (cp_root target) 0);
      cbn in H; ok_inv; try done.
    destruct (N.eqb_spec (cp_root source) x); cbn in H; ok_inv; [|done].
    destruct (N.eqb_spec (cp_root target) x0); cbn in H; ok_inv; [|done].
    destruct (N.leb_spec (cp_slot target) (cp_slot source)); [by ok_inv|].
    subst. done.
  - intros (-> & -> & Hs & Ht & -> & -> & Hlt & ->). cbn.
    destruct (N.eqb_spec (cp_root source) 0), (N.eqb_spec (cp_root target) 0); try done.
    cbn. rewrite !N.eqb_refl. cbn.
    by replace (cp_slot target <=? cp_slot source) with false by lia.
Qed.

Lemma record_votes_cons js r i ids :
  record_votes js r (i :: ids) =
  (votes ← ok_or (js !! r) EUnknownTargetRoot;
   js' ← (if i <? len_u64 votes then Ok (<[r := <[N.to_nat i := true]> votes]> js)
          else Err EValidatorIndexOutOfRange);
   record_votes js' r ids).
Proof. unfold record_votes. cbn. by destruct (js !! r). Qed.

(** Recording votes updates one vector, in place and in range. *)
Lemma record_votes_Ok js r v ids js' :
  js !! r = Some v -> record_votes js r ids = Ok js' ->
  exists v', js' = <[r := v']> js /\ length v' = length v /\
    (forall i, i ∈ ids -> i < len_u64 v) /\
    forall i, get_nth v' i = if decide (i ∈ ids) then Some true else get_nth v i.
Proof.
  revert js v; induction ids as [|j ids IH]; intros js v Hv Hr.
  { cbn in Hr. ok_inv. subst. exists v. rewrite insert_id by done.
    split; [done|]. split; [done|]. split; [by intros ? ?%not_elem_of_nil|done]. }
  rewrite record_votes_cons, Hv in Hr. cbn in Hr.
  destruct (N.ltb_spec j (len_u64 v)) as [Hj|]; [|by ok_inv]. cbn in Hr.
  apply (IH _ (<[N.to_nat j := true]> v)) in Hr as (v' & -> & Hlen & Hids & Hget);
    [|by rewrite lookup_insert_eq].
  rewrite length_insert in Hlen. exists v'. rewrite insert_insert_eq.
  split; [done|]. split; [done|]. unfold len_u64 in *. rewrite length_insert in Hids. split.
  - intros i [->|Hi]%elem_of_cons; [done|by apply Hids].
  - intros i. rewrite Hget. destruct (decide (i ∈ ids)).
    { by rewrite decide_True by (by right). }
    unfold get_nth. destruct (decide (i = j)) as [->|].
    + rewrite list_lookup_insert_eq by lia. by rewrite decide_True by left.
    + rewrite list_lookup_insert_ne by lia. rewrite decide_False by set_solver. done.
Qed.

(** [None] of the slots strictly between [a] and [b] can be justified. *)
Definition no_justifiable_between (s : State) (a b : Slot) : Prop :=
  forall u, a < u < b -> is_justifiable_after u (finalized_slot_of s) = Ok false.

Lemma anyM_false {A} (f : A -> outcome bool) l :
  anyM f l = Ok false <-> forall x, x ∈ l -> f x = Ok false.
Proof.
  induction l as [|x l IH]; cbn.
  - split; [by intros _ ? ?%not_elem_of_nil|done].
  - rewrite bind_Ok. split.
    + intros ([] & Hx & Hl); [done|]. intros y [->|Hy]%elem_of_cons; [done|].
      by apply IH.
    + intros H. exists false. split; [apply H; left|]. apply IH. intros; apply H; by right.
Qed.

(** What finalizing through [source -> target] requires. *)
Lemma anyM_gap s source target :
  is_u64 (cp_slot source + 1) ->
  anyM (fun slot => is_justifiable_after slot (finalized_slot_of s))
    (nrange (wadd (cp_slot source) 1) (cp_slot target)) = Ok false <->
  no_justifiable_between s (cp_slot source) (cp_slot target).
Proof.
  intros Hu. rewrite wadd_small by done. rewrite anyM_false. unfold no_justifiable_between.
  setoid_rewrite elem_of_nrange. split; intros H u Hu'; apply H; lia.
Qed.

(** ** The loop invariant *)

Record loop_wf (s : State) (ls : AttestationLoop) : Prop := {
  lw_fin : cp_slot (al_latest_finalized ls) = al_finalized_slot ls;
  lw_mono : finalized_slot_of s <= al_finalized_slot ls;
  lw_fin_bound : al_finalized_slot ls = 0 \/
    al_finalized_slot ls < bh_slot (st_latest_block_header s);
  lw_window : len_u64 (al_justified_slots ls) =
    bh_slot (st_latest_block_header s) - 1 - al_finalized_slot ls;
  lw_votes : forall r v, al_justifications ls !! r = Some v ->
    r <> 0 /\ len_u64 v = len_u64 (st_validators s) /\
    exists i, al_finalized_slot ls < i /\ get_nth (st_historical_block_hashes s) i = Some r;
  (** once the finalized slot has moved, it is followed by a justified slot that
      is the next justifiable one *)
  lw_next : al_finalized_slot ls = finalized_slot_of s \/
    exists t, al_finalized_slot ls < t /\
      is_slot_justified (al_justified_slots ls) (al_finalized_slot ls) t = Ok true /\
      is_justifiable_after t (finalized_slot_of s) = Ok true /\
      no_justifiable_between s (al_finalized_slot ls) t
}.

Section Step.
Context {C : SszContainers} {HC : SszContainersLaws C}.
Context (s : State) (Hwf : state_wf s).

Lemma slot_bound i r :
  get_nth (st_historical_block_hashes s) i = Some r ->
  i < bh_slot (st_latest_block_header s) /\ is_u64 (i + 1).
Proof.
  intros Hi%get_nth_lt. pose proof (wf_hist_len _ Hwf). pose proof (wf_hist_limit _ Hwf).
  unfold is_u64, u64_modulus, HistoricalRootsLimit in *. lia.
Qed.

Lemma loop_fin_u64 ls : loop_wf s ls -> is_u64 (al_finalized_slot ls + 1).
Proof.
  intros Hl. pose proof (lw_fin_bound _ _ Hl). pose proof (wf_hist_len _ Hwf).
  pose proof (wf_hist_limit _ Hwf).
  unfold is_u64, u64_modulus, HistoricalRootsLimit in *. lia.
Qed.

(** Finalization cannot go backwards: a source before the finalized slot would
    leave a justifiable slot in between. *)
Lemma finalize_not_before ls source target :
  loop_wf s ls -> vote_valid s ls source target ->
  no_justifiable_between s (cp_slot source) (cp_slot target) ->
  al_finalized_slot ls <= cp_slot source.
Proof.
  intros Hl (Hsj & Htj & _ & _ & Hsh & Hth & Hst & Hjust) Hgap.
  apply N.nlt_ge. intros Hlt.
  pose proof (loop_fin_u64 _ Hl) as Hfu.
  apply is_slot_justified_false in Htj as Htj'; [|done]. destruct Htj' as (Hft & _ & _).
  assert (Hnext : is_justifiable_after (cp_slot source + 1) (finalized_slot_of s) = Ok false)
    by (apply Hgap; lia).
  pose proof (is_justifiable_after_Ok _ _ _ Hnext) as HF.
  destruct (N.eq_dec (cp_slot source + 1) (finalized_slot_of s)) as [E|E].
  { rewrite E in Hnext. by rewrite is_justifiable_after_le5 in Hnext by lia. }
  destruct (lw_next _ _ Hl) as [Heq|(t & Ht & Htrue & Htjust & Htgap)]; [lia|].
  destruct (N.lt_total t (cp_slot target)) as [H|[->|H]].
  - rewrite (Hgap t) in Htjust by lia. done.
  - congruence.
  - rewrite (Htgap (cp_slot target)) in Hjust by lia. done.
Qed.

(** The loop variables after recording votes, and after marking a target. *)
Definition with_votes (js : gmap H256 (list bool)) (ls : AttestationLoop) : AttestationLoop :=
  mkAttestationLoop js (al_latest_justified ls) (al_latest_finalized ls)
    (al_finalized_slot ls) (al_justified_slots ls).

Definition with_mark (target : Checkpoint) (ls : AttestationLoop) : AttestationLoop :=
  mkAttestationLoop (delete (cp_root target) (al_justifications ls)) target
    (al_latest_finalized ls) (al_finalized_slot ls)
    (<[N.to_nat (cp_slot target - al_finalized_slot ls - 1) := true]> (al_justified_slots ls)).

Definition with_finalized (rts : gmap H256 Slot) (source : Checkpoint)
    (ls : AttestationLoop) : AttestationLoop :=
  if decide (cp_slot source = al_finalized_slot ls)
  then mkAttestationLoop (al_justifications ls) (al_latest_justified ls) source
         (cp_slot source) (al_justified_slots ls)
  else mkAttestationLoop
         (filter (fun '(root, _) => cp_slot source < default 0 (rts !! root))
            (al_justifications ls))
         (al_latest_justified ls) source (cp_slot source)
         (drop (N.to_nat (cp_slot source - al_finalized_slot ls)) (al_justified_slots ls)).

Lemma vote_valid_votes js ls source target :
  vote_valid s (with_votes js ls) source target <-> vote_valid s ls source target.
Proof. done. Qed.

Lemma vote_valid_target_index ls source target :
  loop_wf s ls -> vote_valid s ls source target ->
  al_finalized_slot ls < cp_slot target /\
  cp_slot target - al_finalized_slot ls - 1 < len_u64 (al_justified_slots ls) /\
  is_u64 (cp_slot source + 1).
Proof.
  intros Hl (_ & Htj & _ & _ & Hsh & _).
  apply is_slot_justified_false in Htj as (? & ? & _); [|by apply loop_fin_u64].
  split; [done|]. split; [done|]. apply (slot_bound _ _ Hsh).
Qed.

Lemma window_limit ls : loop_wf s ls ->
  len_u64 (al_justified_slots ls) <= HistoricalRootsLimit.
Proof.
  intros Hl. pose proof (lw_window _ _ Hl). pose proof (wf_hist_len _ Hwf).
  pose proof (wf_hist_limit _ Hwf). lia.
Qed.

(** The root index covers every tracked root, so the check inside the
    finalization branch passes. *)
Definition rts_ok (rts : gmap H256 Slot) : Prop :=
  (forall r i, rts !! r = Some i ->
     finalized_slot_of s < i /\ get_nth (st_historical_block_hashes s) i = Some r) /\
  (forall r i, finalized_slot_of s < i ->
     get_nth (st_historical_block_hashes s) i = Some r ->
     exists j, rts !! r = Some j /\ i <= j).

Lemma tracked_roots_indexed rts ls :
  rts_ok rts -> loop_wf s ls ->
  forallb (fun '(root, _) => bool_decide (is_Some (rts !! root)))
    (map_to_list (al_justifications ls)) = true.
Proof.
  intros [_ Hrts] Hl. apply forallb_forall. intros [r v] Hr%list_elem_of_In.
  apply elem_of_map_to_list in Hr. apply bool_decide_eq_true_2.
  destruct (lw_votes _ _ Hl r v Hr) as (_ & _ & i & Hi & Hh).
  pose proof (lw_mono _ _ Hl).
  destruct (Hrts r i) as (j & -> & _); [lia|done|]. by eexists.
Qed.

Lemma finalize_Ok rts source ls :
  rts_ok rts -> loop_wf s ls ->
  al_finalized_slot ls <= cp_slot source ->
  cp_slot source - al_finalized_slot ls <= len_u64 (al_justified_slots ls) ->
  finalize rts source ls = Ok (with_finalized rts source ls).
Proof.
  intros Hrts Hl Hle Hlen. unfold finalize, with_finalized, checked_sub.
  replace (al_finalized_slot ls <=? cp_slot source) with true by lia.
  destruct (decide (cp_slot source = al_finalized_slot ls)) as [E|E].
  - replace (0 <? cp_slot source - al_finalized_slot ls) with false by lia. done.
  - replace (0 <? cp_slot source - al_finalized_slot ls) with true by lia.
    rewrite shift_window_Ok by (done || by apply window_limit).
    cbn [mbind outcome_bind]. by rewrite tracked_roots_indexed.
Qed.

(** ** Preservation *)

Lemma loop_wf_votes ls source target v :
  loop_wf s ls -> vote_valid s ls source target ->
  len_u64 v = len_u64 (st_validators s) ->
  loop_wf s (with_votes (<[cp_root target := v]> (al_justifications ls)) ls).
Proof.
  intros Hl Hv Hlen. pose proof (vote_valid_target_index _ _ _ Hl Hv) as (Hft & _).
  destruct Hv as (_ & _ & _ & Hnz & _ & Hth & _).
  destruct Hl as [H1 H2 H3 H4 H5 H6]. split; try done; cbn.
  intros r w. rewrite lookup_insert. case_decide as Hr; [|apply H5].
  intros [= <-]. subst r. split; [done|]. split; [done|]. eauto.
Qed.

Lemma loop_wf_mark ls source target :
  loop_wf s ls -> vote_valid s ls source target -> loop_wf s (with_mark target ls).
Proof.
  intros Hl Hv. pose proof (vote_valid_target_index _ _ _ Hl Hv) as (Hft & Hidx & _).
  pose proof (loop_fin_u64 _ Hl) as Hfu.
  destruct Hl as [H1 H2 H3 H4 H5 H6]. split; cbn; try done.
  - unfold len_u64 in *. by rewrite length_insert.
  - intros r v Hr. apply (H5 r v). by apply lookup_delete_Some in Hr as [_ ?].
  - destruct H6 as [?|(t & Ht & Hj & ? & ?)]; [by left|]. right. exists t.
    split; [done|]. split; [|done]. rewrite is_slot_justified_mark by done. by case_decide.
Qed.

Lemma loop_wf_finalized rts ls source target :
  rts_ok rts -> loop_wf s ls -> vote_valid s ls source target ->
  no_justifiable_between s (cp_slot source) (cp_slot target) ->
  loop_wf s (with_finalized rts source (with_mark target ls)).
Proof.
  intros Hrts Hl Hv Hgap. pose proof (finalize_not_before _ _ _ Hl Hv Hgap) as Hle.
  pose proof (vote_valid_target_index _ _ _ Hl Hv) as (Hft & Hidx & Hsu).
  pose proof (loop_wf_mark _ _ _ Hl Hv) as Hm. pose proof (loop_fin_u64 _ Hl) as Hfu.
  destruct Hv as (_ & _ & _ & _ & Hsh & Hth & Hst & Hjust).
  apply slot_bound in Hsh as [Hsb _].
  pose proof (lw_mono _ _ Hl) as Hmono. pose proof (lw_window _ _ Hl) as Hwin.
  assert (Hmarked : is_slot_justified (al_justified_slots (with_mark target ls))
    (al_finalized_slot ls) (cp_slot target) = Ok true).
  { cbn. rewrite is_slot_justified_mark by done. by rewrite decide_True. }
  unfold with_finalized. case_decide as E; cbn [with_mark al_finalized_slot] in *.
  - destruct Hm as [M1 M2 M3 M4 M5 M6]; cbn in *. rewrite <-E in *.
    split; cbn; done || lia.
  - split; cbn; try done; try lia.
    + unfold len_u64 in *. rewrite length_drop, length_insert. lia.
    + intros r v [Hr Hf]%map_lookup_filter_Some.
      destruct (lw_votes _ _ Hm r v Hr) as (? & ? & _). split; [done|]. split; [done|].
      destruct (rts !! r) as [j|] eqn:Ej; cbn in Hf; [|lia].
      exists j. split; [done|]. by apply Hrts.
    + right. exists (cp_slot target). split; [done|]. split; [|done].
      rewrite is_slot_justified_shift by (done || lia). exact Hmarked.
Qed.
End Step.
