(* ===== verification/AttestationSpec.v ===== *)
(** * Justification and finalization as a transition system

    [att_step] says in protocol terms what one aggregated attestation of a
    block may do to the loop variables of [process_attestations]: nothing, add
    votes, justify its target, or justify its target and finalize its source.
    The code refines it exactly on well-formed states. *)

From S2P Require Import Prelude Slot Ssz Xmss Containers State JustifiedSlots StateInv.

#[local] Open Scope N_scope.

(** The vote vector of a root: what is tracked, or no votes yet. *)
Definition tracked_votes (s : State) (ls : AttestationLoop) (root : H256) : list bool :=
  default (replicate (length (st_validators s)) false) (al_justifications ls !! root).

Definition add_votes (votes : list bool) (ids : list u64) : list bool :=
  foldl (fun v i => <[N.to_nat i := true]> v) votes ids.

(** Two thirds of the registry. *)
Definition quorum (s : State) (votes : list bool) : Prop :=
  2 * len_u64 (st_validators s) <= 3 * count_true votes.

(** The loop variables once the votes of [a] are in. *)
Definition voted (s : State) (ls : AttestationLoop) (a : AggregatedAttestation)
    : AttestationLoop :=
  let target := ad_target (aa_data a) in
  with_votes (<[cp_root target :=
    add_votes (tracked_votes s ls (cp_root target)) (set_bits (aa_aggregation_bits a))]>
    (al_justifications ls)) ls.

(** Every set bit belongs to a registered validator, and some bit is set. *)
Definition voters_ok (s : State) (a : AggregatedAttestation) : Prop :=
  set_bits (aa_aggregation_bits a) <> [] /\
  forall i, i ∈ set_bits (aa_aggregation_bits a) -> i < len_u64 (st_validators s).

Inductive att_step (s : State) (rts : gmap H256 Slot) (ls : AttestationLoop)
    (a : AggregatedAttestation) : AttestationLoop -> Prop :=
  | att_skip :
      attestation_counts s ls (ad_source (aa_data a)) (ad_target (aa_data a)) = Ok false ->
      att_step s rts ls a ls
  | att_vote :
      vote_valid s ls (ad_source (aa_data a)) (ad_target (aa_data a)) -> voters_ok s a ->
      ~ quorum s (tracked_votes s (voted s ls a) (cp_root (ad_target (aa_data a)))) ->
      att_step s rts ls a (voted s ls a)
  | att_justify :
      vote_valid s ls (ad_source (aa_data a)) (ad_target (aa_data a)) -> voters_ok s a ->
      quorum s (tracked_votes s (voted s ls a) (cp_root (ad_target (aa_data a)))) ->
      anyM (fun slot => is_justifiable_after slot (finalized_slot_of s))
        (nrange (cp_slot (ad_source (aa_data a)) + 1) (cp_slot (ad_target (aa_data a))))
        = Ok true ->
      att_step s rts ls a (with_mark (ad_target (aa_data a)) (voted s ls a))
  | att_finalize :
      vote_valid s ls (ad_source (aa_data a)) (ad_target (aa_data a)) -> voters_ok s a ->
      quorum s (tracked_votes s (voted s ls a) (cp_root (ad_target (aa_data a)))) ->
      no_justifiable_between s (cp_slot (ad_source (aa_data a)))
        (cp_slot (ad_target (aa_data a))) ->
      att_step s rts ls a (with_finalized rts (ad_source (aa_data a))
        (with_mark (ad_target (aa_data a)) (voted s ls a))).

(** ** Votes *)

Lemma length_add_votes v ids : length (add_votes v ids) = length v.
Proof.
  unfold add_votes. revert v; induction ids as [|i ids IH]; intros v; cbn; [done|].
  by rewrite IH, length_insert.
Qed.

Lemma get_nth_add_votes v ids i :
  (forall j, j ∈ ids -> j < len_u64 v) ->
  get_nth (add_votes v ids) i = if decide (i ∈ ids) then Some true else get_nth v i.
Proof.
  unfold add_votes. revert v; induction ids as [|j ids IH]; intros v Hr; cbn; [done|].
  assert (Hj : j < len_u64 v) by (apply Hr; left).
  rewrite IH by (intros; unfold len_u64; rewrite length_insert; apply Hr; by right).
  destruct (decide (i ∈ ids)); [by rewrite decide_True by (by right)|].
  unfold get_nth, len_u64 in *. destruct (decide (i = j)) as [->|].
  - rewrite list_lookup_insert_eq by lia. by rewrite decide_True by left.
  - rewrite list_lookup_insert_ne by lia. by rewrite decide_False by set_solver.
Qed.

Lemma record_votes_eq js r v ids :
  js !! r = Some v -> (forall i, i ∈ ids -> i < len_u64 v) ->
  record_votes js r ids = Ok (<[r := add_votes v ids]> js).
Proof.
  revert js v; induction ids as [|j ids IH]; intros js v Hv Hr.
  { cbn. by rewrite insert_id. }
  rewrite record_votes_cons, Hv. cbn [ok_or mbind outcome_bind].
  assert (Hj : j < len_u64 v) by (apply Hr; left).
  replace (j <? len_u64 v) with true by lia. cbn [mbind outcome_bind].
  rewrite (IH _ (<[N.to_nat j:=true]> v)).
  - by rewrite insert_insert_eq.
  - apply lookup_insert_eq.
  - intros; unfold len_u64; rewrite length_insert; apply Hr; by right.
Qed.

Section Refinement.
Context {C : SszContainers} {HC : SszContainersLaws C}.
Context (s : State) (Hwf : state_wf s).

Lemma tracked_votes_len ls r :
  loop_wf s ls -> len_u64 (tracked_votes s ls r) = len_u64 (st_validators s).
Proof.
  intros Hl. unfold tracked_votes. destruct (_ !! r) as [v|] eqn:E; cbn.
  - by apply (lw_votes _ _ Hl) in E as (_ & ? & _).
  - unfold len_u64. by rewrite length_replicate.
Qed.

Lemma tracked_votes_voted ls a :
  tracked_votes s (voted s ls a) (cp_root (ad_target (aa_data a))) =
  add_votes (tracked_votes s ls (cp_root (ad_target (aa_data a))))
    (set_bits (aa_aggregation_bits a)).
Proof. unfold tracked_votes at 1, voted. cbn. by rewrite lookup_insert_eq. Qed.

Lemma quorum_u64 v :
  len_u64 v = len_u64 (st_validators s) ->
  (wmul 2 (len_u64 (st_validators s)) <=? wmul 3 (count_true v)) = true <-> quorum s v.
Proof.
  intros Hl. pose proof (count_true_le v). pose proof (wf_validators _ Hwf).
  unfold quorum, ValidatorRegistryLimit in *.
  rewrite !wmul_small by (unfold u64_modulus; lia). lia.
Qed.

(** The part of the loop body before the quorum test. *)
Lemma process_attestation_voted rts ls a :
  loop_wf s ls ->
  vote_valid s ls (ad_source (aa_data a)) (ad_target (aa_data a)) -> voters_ok s a ->
  process_attestation s rts ls a =
  (if wmul 2 (len_u64 (st_validators s)) <=?
      wmul 3 (count_true (tracked_votes s (voted s ls a) (cp_root (ad_target (aa_data a)))))
   then justify s rts (ad_source (aa_data a)) (ad_target (aa_data a)) (voted s ls a)
   else Ok (voted s ls a)).
Proof.
  intros Hl Hv [Hne Hids]. unfold process_attestation.
  rewrite (proj2 (attestation_counts_true _ _ _ _) Hv). cbn [negb mbind outcome_bind].
  rewrite (proj2 (to_validator_indices_Ok _ _) (conj eq_refl Hne)).
  cbn [mbind outcome_bind]. set (r := cp_root (ad_target (aa_data a))).
  set (js := match al_justifications ls !! r with Some _ => _ | None => _ end).
  assert (Hjs : js !! r = Some (tracked_votes s ls r)).
  { unfold js, tracked_votes. destruct (al_justifications ls !! r) eqn:E; [done|].
    by rewrite lookup_insert_eq. }
  rewrite (record_votes_eq _ _ _ _ Hjs)
    by (intros; rewrite tracked_votes_len by done; by apply Hids).
  cbn [mbind outcome_bind]. rewrite lookup_insert_eq. cbn [or_panic mbind outcome_bind].
  replace (<[r := add_votes (tracked_votes s ls r) (set_bits (aa_aggregation_bits a))]> js)
    with (al_justifications (voted s ls a)).
  - by rewrite tracked_votes_voted.
  - cbn. fold r. unfold js. destruct (al_justifications ls !! r); [done|].
    by rewrite insert_insert_eq.
Qed.

Lemma voted_wf ls a :
  loop_wf s ls -> vote_valid s ls (ad_source (aa_data a)) (ad_target (aa_data a)) ->
  loop_wf s (voted s ls a).
Proof.
  intros Hl Hv. eapply loop_wf_votes; [done..|].
  unfold len_u64. rewrite length_add_votes. by apply tracked_votes_len.
Qed.

Lemma justify_eq rts source target ls :
  rts_ok s rts -> loop_wf s ls -> vote_valid s ls source target ->
  justify s rts source target ls =
  (any ← anyM (fun slot => is_justifiable_after slot (finalized_slot_of s))
           (nrange (cp_slot source + 1) (cp_slot target));
   if (any : bool) then Ok (with_mark target ls)
   else Ok (with_finalized rts source (with_mark target ls))).
Proof.
  intros Hrts Hl Hv. pose proof (vote_valid_target_index _ Hwf _ _ _ Hl Hv) as (Hft & Hi & Hsu).
  unfold justify. rewrite with_justified_Ok by (done || by eapply loop_fin_u64).
  cbn [mbind outcome_bind]. rewrite wadd_small by done.
  destruct (anyM _ _) as [[]| | |] eqn:Ea; cbn [mbind outcome_bind]; try done.
  assert (Hgap : no_justifiable_between s (cp_slot source) (cp_slot target)).
  { apply anyM_gap; [done|]. by rewrite wadd_small. }
  pose proof (finalize_not_before _ Hwf _ _ _ Hl Hv Hgap) as Hle.
  apply (finalize_Ok s Hwf); cbn; [done|by eapply loop_wf_mark|done|].
  destruct Hv as (_ & _ & _ & _ & _ & _ & Hst & _).
  unfold len_u64 in *. rewrite length_insert. lia.
Qed.

(** Success of the loop body is exactly the transition relation. *)
Lemma process_attestation_refines rts ls a ls' :
  rts_ok s rts -> loop_wf s ls ->
  process_attestation s rts ls a = Ok ls' <-> att_step s rts ls a ls'.
Proof.
  intros Hrts Hl. split.
  - intros H. destruct (attestation_counts s ls (ad_source (aa_data a))
      (ad_target (aa_data a))) as [[]| | |] eqn:Ec;
      try (unfold process_attestation in H; rewrite Ec in H; by ok_inv).
    + apply attestation_counts_true in Ec as Hv.
      assert (Hok : voters_ok s a).
      { unfold process_attestation in H. rewrite Ec in H. cbn [negb mbind outcome_bind] in H.
        ok_inv. apply to_validator_indices_Ok in Hx as [-> Hne]. split; [done|].
        set (js := match _ with Some _ => _ | None => _ end) in *.
        assert (Hjs : js !! cp_root (ad_target (aa_data a)) =
          Some (tracked_votes s ls (cp_root (ad_target (aa_data a))))).
        { unfold js, tracked_votes. destruct (al_justifications ls !! _) eqn:E; [done|].
          by rewrite lookup_insert_eq. }
        apply (record_votes_Ok _ _ _ _ _ Hjs) in Hx0 as (_ & _ & _ & Hids & _).
        by rewrite tracked_votes_len in Hids by done. }
      rewrite process_attestation_voted in H by done.
      pose proof (voted_wf ls a Hl Hv) as Hl1.
      destruct (wmul 2 _ <=? _) eqn:Eq.
      * apply quorum_u64 in Eq; [|by apply tracked_votes_len].
        rewrite justify_eq in H by done. ok_inv. destruct x; ok_inv; subst.
        -- by apply att_justify.
        -- apply att_finalize; try done. apply anyM_gap.
           { by apply (vote_valid_target_index _ Hwf _ _ _ Hl Hv). }
           by rewrite wadd_small by (by apply (vote_valid_target_index _ Hwf _ _ _ Hl Hv)).
      * ok_inv. subst. apply att_vote; try done.
        rewrite <-quorum_u64 by (by apply tracked_votes_len). by rewrite Eq.
    + unfold process_attestation in H. rewrite Ec in H. cbn in H. ok_inv. subst.
      by apply att_skip.
  - intros []; [unfold process_attestation; by rewrite H|..];
      rewrite process_attestation_voted by done;
      match goal with H : vote_valid _ _ _ _ |- _ =>
        pose proof (voted_wf ls a Hl H) as Hl1;
        pose proof (vote_valid_target_index _ Hwf _ _ _ Hl H) as (_ & _ & Hsu) end;
      match goal with
      | H : ~ quorum _ ?v |- _ => rewrite <-quorum_u64, not_true_iff_false in H
          by (by apply tracked_votes_len); by rewrite H
      | H : quorum _ ?v |- _ => rewrite <-quorum_u64 in H by (by apply tracked_votes_len);
          rewrite H, justify_eq by done
      end.
    + by rewrite H2.
    + apply anyM_gap in H2; [|done]. rewrite wadd_small in H2 by done. by rewrite H2.
Qed.

Lemma att_step_wf rts ls a ls' :
  rts_ok s rts -> loop_wf s ls -> att_step s rts ls a ls' -> loop_wf s ls'.
Proof.
  intros Hrts Hl []; [done|..]; pose proof (voted_wf ls a Hl H) as Hl1.
  - done.
  - by eapply loop_wf_mark.
  - by eapply loop_wf_finalized.
Qed.
End Refinement.
