(* ===== verification/Transition.v ===== *)
(** * Slots, headers and whole blocks

    What [process_slots], [process_block_header], [process_attestations] and
    [state_transition] do to a well-formed state. *)

From S2P Require Import Prelude Slot Ssz Xmss Containers State JustifiedSlots StateInv.
From S2P Require Import AttestationSpec.

#[local] Open Scope N_scope.

(** The fields no part of the transition function changes. *)
Definition same_registry (s s' : State) : Prop :=
  st_config s' = st_config s /\ st_validators s' = st_validators s.

#[export] Instance same_registry_preorder : PreOrder same_registry.
Proof. split; [done|]. intros x y z [] []. split; congruence. Qed.

Section Slots.
Context {HState : SszHash State}.

(** Everything [process_slots] leaves alone. *)
Definition same_but_slot (s s' : State) : Prop :=
  same_registry s s' /\
  bh_slot (st_latest_block_header s') = bh_slot (st_latest_block_header s) /\
  bh_proposer_index (st_latest_block_header s') =
    bh_proposer_index (st_latest_block_header s) /\
  bh_parent_root (st_latest_block_header s') = bh_parent_root (st_latest_block_header s) /\
  bh_body_root (st_latest_block_header s') = bh_body_root (st_latest_block_header s) /\
  st_latest_justified s' = st_latest_justified s /\
  st_latest_finalized s' = st_latest_finalized s /\
  st_historical_block_hashes s' = st_historical_block_hashes s /\
  st_justified_slots s' = st_justified_slots s /\
  st_justifications_roots s' = st_justifications_roots s /\
  st_justifications_validators s' = st_justifications_validators s.

#[export] Instance same_but_slot_preorder : PreOrder same_but_slot.
Proof.
  split.
  - intros s. unfold same_but_slot. repeat split.
  - intros x y z (Hr & ?) (Hr' & ?). split; [by etrans|]. naive_solver congruence.
Qed.

Lemma process_slot_step_same s : same_but_slot s (process_slot_step s).
Proof.
  unfold process_slot_step. destruct (is_zero _); unfold same_but_slot, same_registry; cbn;
    repeat split.
Qed.

Lemma process_slot_step_slot s : st_slot (process_slot_step s) = wadd (st_slot s) 1.
Proof. unfold process_slot_step. by destruct (is_zero _). Qed.

(** The state root of the header is filled in once, from the first state. *)
Lemma process_slot_step_root s :
  bh_state_root (st_latest_block_header (process_slot_step s)) =
  if is_zero (bh_state_root (st_latest_block_header s)) then hash_tree_root s
  else bh_state_root (st_latest_block_header s).
Proof. unfold process_slot_step. by destruct (is_zero _). Qed.

Lemma process_slots_loop_iter fuel t s :
  is_u64 t -> st_slot s + N.of_nat fuel = t ->
  process_slots_loop fuel t s = Ok (Nat.iter fuel process_slot_step s) /\
  st_slot (Nat.iter fuel process_slot_step s) = t.
Proof.
  revert s; induction fuel as [|fuel IH]; intros s Ht Hs; cbn [process_slots_loop].
  - replace (st_slot s <? t) with false by lia. split; [done|]. cbn. lia.
  - replace (st_slot s <? t) with true by lia. rewrite Nat.iter_succ_r. apply IH; [done|].
    rewrite process_slot_step_slot, wadd_small by (unfold is_u64 in *; lia). lia.
Qed.

Lemma process_slots_eq s t :
  is_u64 t -> st_slot s < t ->
  process_slots s t = Ok (Nat.iter (N.to_nat (t - st_slot s)) process_slot_step s) /\
  st_slot (Nat.iter (N.to_nat (t - st_slot s)) process_slot_step s) = t.
Proof.
  intros Ht Hlt. unfold process_slots. replace (st_slot s <? t) with true by lia.
  cbn [ensure mbind outcome_bind]. apply process_slots_loop_iter; [done|lia].
Qed.

Lemma iter_step_same n s : same_but_slot s (Nat.iter n process_slot_step s).
Proof.
  induction n as [|n IH]; [done|]. cbn. etrans; [done|]. apply process_slot_step_same.
Qed.

Lemma process_slots_Ok_inv s t s' :
  is_u64 t -> process_slots s t = Ok s' ->
  st_slot s < t /\ st_slot s' = t /\ same_but_slot s s'.
Proof.
  intros Ht H. assert (Hlt : st_slot s < t).
  { unfold process_slots in H. ok_inv. lia. }
  destruct (process_slots_eq s t Ht Hlt) as [Heq Hslot]. rewrite Heq in H. injection H as <-.
  split; [done|]. split; [done|]. apply iter_step_same.
Qed.

Lemma process_slots_wf s t s' :
  is_u64 t -> state_wf s -> process_slots s t = Ok s' -> state_wf s'.
Proof.
  intros Ht Hwf H. apply process_slots_Ok_inv in H as (Hlt & Hs & Hsame); [|done].
  destruct Hsame as ((_ & Hv) & Hh & _ & _ & _ & Hlj & Hlf & Hhist & Hjs & Hjr & Hjv).
  destruct Hwf. split; rewrite ?Hs, ?Hh, ?Hv, ?Hlf, ?Hhist, ?Hjs, ?Hjr, ?Hjv;
    done || lia.
Qed.

(** With a hash that is not zero, the header's state root is the root of the
    state before the first slot, however many slots are skipped. *)
Lemma iter_step_root n s :
  (forall x : State, hash_tree_root x <> 0) ->
  bh_state_root (st_latest_block_header (Nat.iter (S n) process_slot_step s)) =
  if is_zero (bh_state_root (st_latest_block_header s)) then hash_tree_root s
  else bh_state_root (st_latest_block_header s).
Proof.
  intros Hnz. induction n as [|n IH]; [apply process_slot_step_root|].
  rewrite Nat.iter_succ, process_slot_step_root, IH.
  unfold is_zero. destruct (N.eqb_spec (bh_state_root (st_latest_block_header s)) 0) as [E|E].
  - by destruct (N.eqb_spec (hash_tree_root s) 0) as [E'|]; [apply Hnz in E'|].
  - by destruct (N.eqb_spec (bh_state_root (st_latest_block_header s)) 0).
Qed.
End Slots.

(** ** Block headers *)

Section Header.
Context {C : SszContainers} {HC : SszContainersLaws C}.
Context {HHeader : SszHash BlockHeader} {HBody : SszHash BlockBody}.

(** What a block has to satisfy for its header to be accepted. *)
Record header_valid (s : State) (b : Block) : Prop := {
  hv_slot : b_slot b = st_slot s;
  hv_newer : bh_slot (st_latest_block_header s) < b_slot b;
  hv_registry : st_validators s <> [];
  hv_proposer : b_slot b `mod` len_u64 (st_validators s) = b_proposer_index b;
  hv_parent : b_parent_root b = hash_tree_root (st_latest_block_header s);
  hv_limit : b_slot b <= HistoricalRootsLimit
}.

Definition anchor_checkpoint (s : State) (cp : Checkpoint) : Checkpoint :=
  if bh_slot (st_latest_block_header s) =? 0
  then mkCheckpoint (hash_tree_root (st_latest_block_header s)) 0 else cp.

(** The state after the header: the parent's root and one zero root per skipped
    slot are appended to the history, the window grows with it. *)
Definition header_post (s : State) (b : Block) : State :=
  mkState (st_config s) (st_slot s)
    (mkBlockHeader (b_slot b) (b_proposer_index b) (b_parent_root b) 0
       (hash_tree_root (b_body b)))
    (anchor_checkpoint s (st_latest_justified s))
    (anchor_checkpoint s (st_latest_finalized s))
    (st_historical_block_hashes s ++ hash_tree_root (st_latest_block_header s) ::
       replicate (N.to_nat (b_slot b - bh_slot (st_latest_block_header s) - 1)) 0)
    (st_justified_slots s ++ replicate (N.to_nat
       (b_slot b - 1 - finalized_slot_of s - len_u64 (st_justified_slots s))) false)
    (st_validators s) (st_justifications_roots s) (st_justifications_validators s).

Lemma header_post_hist_len s b :
  state_wf s -> bh_slot (st_latest_block_header s) < b_slot b ->
  len_u64 (st_historical_block_hashes (header_post s b)) = b_slot b.
Proof.
  intros Hwf Hlt. pose proof (wf_hist_len _ Hwf). unfold len_u64 in *. cbn.
  rewrite length_app. cbn. rewrite length_replicate. lia.
Qed.

Lemma push_all_fits {T} limit (l xs r : list T) :
  push_all limit (Err EListPush) l xs = Ok r -> len_u64 l <= limit ->
  r = l ++ xs /\ len_u64 l + len_u64 xs <= limit.
Proof.
  intros H Hl. assert (r = l ++ xs) as -> by (eapply push_all_inv, H; done).
  split; [done|]. apply push_all_len in H; [|done..]. unfold len_u64 in *.
  rewrite length_app in H. lia.
Qed.

Lemma num_empty_slots_eq a b : a < b -> wsub (wsub b a) 1 = b - a - 1.
Proof. intros. by rewrite (wsub_small b a), wsub_small by lia. Qed.

Lemma process_block_header_iff s b s' :
  state_wf s ->
  process_block_header s b = Ok s' <-> header_valid s b /\ s' = header_post s b.
Proof.
  intros Hwf. pose proof (wf_slot _ Hwf) as Hu. pose proof (wf_hist_len _ Hwf) as Hhl.
  pose proof (wf_hist_limit _ Hwf) as Hhm. pose proof (wf_fin_u64 _ Hwf) as Hfu.
  assert (Hn : (len_u64 (st_validators s) =? 0) = bool_decide (st_validators s = [])).
  { unfold len_u64. destruct (st_validators s); [done|]. cbn [length].
    rewrite bool_decide_eq_false_2 by done. lia. }
  unfold process_block_header, is_proposer_for. rewrite Hn. split.
  - intros H. ok_inv. destruct (decide (st_validators s = [])) as [E|E].
    { by rewrite bool_decide_eq_true_2 in Hx1 by done. }
    rewrite bool_decide_eq_false_2 in Hx1 by done. ok_inv. subst x1.
    destruct (if bh_slot _ =? 0 then _ else _) as [nj nf] eqn:Enew.
    ok_inv. rename x into h1, x0 into h2, x1 into js.
    apply push_all_fits in Hx1 as [-> Hl1]; [|lia].
    apply push_all_fits in Hx4 as [-> Hl2]; [|unfold len_u64 in *; rewrite length_app; cbn [length] in *; lia].
    assert (Hlim : b_slot b <= HistoricalRootsLimit).
    { rewrite num_empty_slots_eq in Hl2 by lia. unfold len_u64 in *.
      rewrite length_app, length_replicate in Hl2. cbn [length] in *. lia. }
    split; [split; try done; first [lia|by replace (b_slot b) with (st_slot s) by lia; apply N.eqb_eq]|].
    rewrite num_empty_slots_eq in * by lia. rewrite wsub_small in Hx5 by lia.
    rewrite extend_to_slot_Ok in Hx5 by (done || unfold is_u64 in *; lia). ok_inv.
    rewrite <-H, <-Hx5. unfold header_post, anchor_checkpoint.
    rewrite <-app_assoc. cbn [app]. revert Enew.
    destruct (bh_slot (st_latest_block_header s) =? 0); by intros [= <- <-].
  - intros [[H1 H2 H3 H4 H5 H6] ->].
    replace (b_slot b =? st_slot s) with true by lia.
    replace (bh_slot _ <? b_slot b) with true by lia. cbn [ensure mbind outcome_bind].
    rewrite bool_decide_eq_false_2 by done. cbn [mbind outcome_bind].
    rewrite <-H1, H4, N.eqb_refl. cbn [ensure mbind outcome_bind].
    replace (b_parent_root b =? _) with true by lia. cbn [ensure mbind outcome_bind].
    rewrite num_empty_slots_eq, wsub_small by lia.
    destruct (if bh_slot _ =? 0 then _ else _) as [nj nf] eqn:Enew.
    rewrite push_all_Ok by (unfold len_u64 in *; cbn; lia). cbn [mbind outcome_bind].
    rewrite push_all_Ok
      by (unfold len_u64 in *; rewrite length_app, length_replicate; cbn; lia).
    cbn [mbind outcome_bind].
    rewrite extend_to_slot_Ok by (done || unfold is_u64 in *; lia). cbn [mbind outcome_bind].
    unfold header_post, anchor_checkpoint. rewrite <-app_assoc, H1. cbn [app].
    revert Enew.
    destruct (bh_slot (st_latest_block_header s) =? 0); by intros [= <- <-].
Qed.

Lemma anchor_checkpoint_fin s :
  state_wf s -> cp_slot (anchor_checkpoint s (st_latest_finalized s)) = finalized_slot_of s.
Proof.
  intros Hwf. pose proof (wf_fin_slot _ Hwf). unfold anchor_checkpoint.
  destruct (N.eqb_spec (bh_slot (st_latest_block_header s)) 0); cbn; lia.
Qed.

Lemma header_post_wf s b : state_wf s -> header_valid s b -> state_wf (header_post s b).
Proof.
  intros Hwf [H1 H2 H3 H4 H5 H6].
  pose proof (header_post_hist_len s b Hwf H2) as Hl.
  pose proof (anchor_checkpoint_fin s Hwf) as Hf.
  destruct Hwf as [W1 W2 W3 W4 W5 W6 W7 W8 W9 W10 W11].
  split; rewrite ?Hl; cbn -[len_u64]; rewrite ?Hf; try done; try lia.
  - unfold len_u64 in *. rewrite length_app, length_replicate. lia.
  - intros r (i & Hi & Hr)%W10. exists i. split; [done|].
    unfold get_nth in *. rewrite lookup_app_l; [done|]. by eapply lookup_lt_Some.
Qed.
End Header.
