(* ===== verification/Attestations.v ===== *)
(** * Processing all the attestations of a block

    The loop of [process_attestations] as a run of [att_step], loading and
    storing the vote vectors, and the safety of justification and
    finalization. *)

From S2P Require Import Prelude Slot Ssz Xmss Containers State JustifiedSlots StateInv.
From S2P Require Import AttestationSpec.

#[local] Open Scope N_scope.

(** ** Vote vectors in the flattened bit list *)

Lemma row_mjoin (n : N) rows (i : N) v :
  Forall (fun r => len_u64 r = n) rows -> get_nth rows i = Some v ->
  row (mjoin rows) n i = v.
Proof.
  unfold get_nth, row. intros Hall. remember (N.to_nat i) as k eqn:Hk.
  revert i Hk; induction Hall as [|r rows Hr Hall IH] in k, v |- *; intros i Hk Hv; [done|].
  unfold len_u64 in Hr. cbn. destruct k as [|k]; cbn in Hv.
  - injection Hv as ->. replace (N.to_nat (i * n)) with 0%nat by lia. rewrite drop_0.
    rewrite take_app_le by lia. by rewrite take_ge by lia.
  - replace (N.to_nat (i * n)) with (length r + N.to_nat ((i - 1) * n))%nat by nia.
    rewrite drop_app_add. apply (IH _ k); [lia|done].
Qed.

Lemma len_mjoin (n : N) (rows : list (list bool)) :
  Forall (fun r => len_u64 r = n) rows -> len_u64 (mjoin rows) = len_u64 rows * n.
Proof.
  unfold len_u64. induction 1 as [|r rows Hr _ IH]; [done|].
  change (mjoin (r :: rows)) with (r ++ mjoin rows).
  rewrite length_app, Nat2N.inj_add, IH, Hr. cbn [length]. lia.
Qed.

(** Vectors cut out of the concatenation, in the order of the roots. *)
Definition rows_of (js : gmap H256 (list bool)) : list (list bool) :=
  (fun r => default [] (js !! r)) <$> sorted_keys js.

Lemma rows_of_len js n :
  (forall r v, js !! r = Some v -> len_u64 v = n) ->
  Forall (fun v => len_u64 v = n) (rows_of js).
Proof.
  intros H. unfold rows_of. apply Forall_fmap, Forall_forall.
  intros r [v Hv]%sorted_keys_elem. cbn. rewrite Hv. by eapply H.
Qed.

Lemma mapM_rows_of js :
  mapM (fun root => or_panic (js !! root) PIndex) (sorted_keys js) = Ok (rows_of js).
Proof.
  apply mapM_Ok, Forall2_fmap_r, Forall_Forall2_diag, Forall_forall.
  intros r [v Hv]%sorted_keys_elem. cbn. by rewrite Hv.
Qed.

(** Collecting the rows back gives the map. *)
Lemma collect_rows_of (js : gmap H256 (list bool)) :
  collect_map ((fun '(i, root) => (root, default [] (get_nth (rows_of js) i)))
    <$> enumerate (sorted_keys js)) = js.
Proof.
  apply map_eq. intros r. apply option_eq. intros v. rewrite collect_map_lookup.
  - rewrite list_elem_of_fmap. split.
    + intros ([i r'] & [= -> ->] & Hi%elem_of_enumerate). unfold get_nth, rows_of in *.
      rewrite list_lookup_fmap, Hi. cbn. apply list_elem_of_lookup_2, sorted_keys_elem in Hi
        as [v Hv]. by rewrite Hv.
    + intros Hv. assert (Hr : r ∈ sorted_keys js) by (apply sorted_keys_elem; by eexists).
      apply list_elem_of_lookup in Hr as [k Hk]. exists (N.of_nat k, r). split.
      * unfold get_nth, rows_of. by rewrite Nat2N.id, list_lookup_fmap, Hk; cbn; rewrite Hv.
      * apply elem_of_enumerate. unfold get_nth. by rewrite Nat2N.id.
  - rewrite <-list_fmap_compose.
    replace (_ <$> _) with (sorted_keys js); [apply sorted_keys_NoDup|].
    rewrite <-(enumerate_from_snd (sorted_keys js) 0) at 1.
    apply list_fmap_ext. by intros ? [].
Qed.

(** ** The loop *)

Definition init_loop (s : State) (js : gmap H256 (list bool)) : AttestationLoop :=
  mkAttestationLoop js (st_latest_justified s) (st_latest_finalized s)
    (finalized_slot_of s) (st_justified_slots s).

Inductive att_steps (s : State) (rts : gmap H256 Slot)
    : AttestationLoop -> list AggregatedAttestation -> AttestationLoop -> Prop :=
  | att_steps_nil ls : att_steps s rts ls [] ls
  | att_steps_cons ls a ls1 atts ls2 :
      att_step s rts ls a ls1 -> att_steps s rts ls1 atts ls2 ->
      att_steps s rts ls (a :: atts) ls2.

(** The state the loop variables are written back into. *)
Definition stored (s : State) (ls : AttestationLoop) : State :=
  mkState (st_config s) (st_slot s) (st_latest_block_header s)
    (al_latest_justified ls) (al_latest_finalized ls)
    (st_historical_block_hashes s) (al_justified_slots ls) (st_validators s)
    (sorted_keys (al_justifications ls)) (mjoin (rows_of (al_justifications ls))).

Section Loop.
Context {C : SszContainers} {HC : SszContainersLaws C}.
Context (s : State) (Hwf : state_wf s).

Lemma init_loop_wf js : load_justifications s = Ok js -> loop_wf s (init_loop s js).
Proof.
  intros Hjs. split; cbn; try apply Hwf; try done; [|by left].
  intros r v Hv. eapply load_justifications_lookup in Hv as [Hr Hlen]; [|done..].
  split; [|split; [done|by apply (wf_roots_hist _ Hwf)]].
  intros ->. by apply (wf_roots_nonzero _ Hwf).
Qed.

Lemma foldM_att_steps rts ls atts ls' :
  rts_ok s rts -> loop_wf s ls ->
  foldM (process_attestation s rts) ls atts = Ok ls' <-> att_steps s rts ls atts ls'.
Proof.
  intros Hrts. revert ls; induction atts as [|a atts IH]; intros ls Hl; cbn.
  - split; [intros [= ->]; constructor|by inversion_clear 1].
  - rewrite bind_Ok. split.
    + intros (ls1 & H1 & H2). apply process_attestation_refines in H1; [|done..].
      econstructor; [done|]. apply IH; [|done]. by eapply att_step_wf.
    + inversion_clear 1 as [|? ? ls1 ? ? H1 H2]. exists ls1. split.
      * by apply process_attestation_refines.
      * apply IH; [|done]. by eapply att_step_wf.
Qed.

Lemma att_steps_inv (P : AttestationLoop -> Prop) rts ls atts ls' :
  rts_ok s rts -> loop_wf s ls -> P ls ->
  (forall ls a ls', a ∈ atts -> loop_wf s ls -> P ls -> att_step s rts ls a ls' -> P ls') ->
  att_steps s rts ls atts ls' -> P ls' /\ loop_wf s ls'.
Proof.
  intros Hrts Hl HP Hstep H. induction H as [|ls a ls1 atts ls2 H1 _ IH]; [done|].
  apply IH.
  - by eapply att_step_wf.
  - by eapply Hstep; [left|..].
  - intros; eapply Hstep; [by right|..]; done.
Qed.

Lemma tracked_limit ls :
  loop_wf s ls -> len_u64 (sorted_keys (al_justifications ls)) <= HistoricalRootsLimit.
Proof.
  intros Hl. transitivity (len_u64 (st_historical_block_hashes s)); [|apply Hwf].
  apply NoDup_incl_len; [apply sorted_keys_NoDup|].
  intros r [v Hv]%sorted_keys_elem. apply (lw_votes _ _ Hl) in Hv as (_ & _ & i & _ & Hi).
  by eapply list_elem_of_lookup_2.
Qed.

Lemma stored_votes_len ls :
  loop_wf s ls ->
  Forall (fun v => len_u64 v = len_u64 (st_validators s)) (rows_of (al_justifications ls)).
Proof. intros Hl. apply rows_of_len. intros r v Hv. by apply (lw_votes _ _ Hl) in Hv as (_ & ? & _). Qed.

Lemma store_justifications_Ok ls :
  loop_wf s ls -> store_justifications s ls = Ok (stored s ls).
Proof.
  intros Hl. unfold store_justifications. rewrite pl_try_from_iter_law.
  pose proof (tracked_limit ls Hl) as Hlim. pose proof (len_mjoin _ _ (stored_votes_len ls Hl)) as Hb.
  replace (len_u64 _ <=? _) with true by lia. cbn [ok_or mbind outcome_bind].
  rewrite mapM_rows_of. cbn [mbind outcome_bind].
  assert (Hrows : len_u64 (rows_of (al_justifications ls)) =
    len_u64 (sorted_keys (al_justifications ls))).
  { unfold len_u64, rows_of. by rewrite length_fmap. }
  rewrite bl_with_length_law.
  - cbn [or_panic mbind outcome_bind]. rewrite copy_bits_Ok.
    + cbn [mbind outcome_bind]. rewrite drop_ge, app_nil_r; [done|].
      rewrite length_replicate. unfold len_u64. lia.
    + rewrite length_replicate. unfold len_u64. lia.
  - rewrite Hb, Hrows. pose proof (wf_validators _ Hwf).
    unfold JustificationValidatorsLimit. nia.
Qed.

Lemma stored_wf ls : loop_wf s ls -> state_wf (stored s ls).
Proof.
  intros Hl. split; cbn -[len_u64]; try apply Hwf; rewrite ?(lw_fin _ _ Hl); try apply Hl.
  - apply sorted_keys_sorted.
  - intros [v Hv]%sorted_keys_elem. by apply (lw_votes _ _ Hl) in Hv as [? _].
  - intros r [v Hv]%sorted_keys_elem. by apply (lw_votes _ _ Hl) in Hv as (_ & _ & ?).
  - rewrite (len_mjoin (len_u64 (st_validators s))) by (by apply stored_votes_len).
    unfold len_u64, rows_of. by rewrite length_fmap.
Qed.

(** Loading what was stored gives the vote vectors back. *)
Lemma load_stored ls :
  loop_wf s ls -> load_justifications (stored s ls) = Ok (al_justifications ls).
Proof.
  intros Hl. rewrite load_justifications_Ok by (by apply stored_wf). f_equal.
  etrans; [|apply collect_rows_of]. cbn. f_equal.
  apply list_fmap_ext. intros k [i r] Hk. f_equal.
  rewrite lookup_enumerate in Hk.
  destruct (sorted_keys (al_justifications ls) !! k) as [r'|] eqn:E; cbn in Hk; [|done].
  injection Hk as <- ->.
  destruct (get_nth (rows_of (al_justifications ls)) (N.of_nat k)) as [v|] eqn:Ev.
  - cbn. apply row_mjoin; [by apply stored_votes_len|done].
  - unfold get_nth, rows_of in Ev. by rewrite Nat2N.id, list_lookup_fmap, E in Ev.
Qed.

Lemma nonzero_roots : forallb (fun root => negb (is_zero root)) (st_justifications_roots s) = true.
Proof.
  apply forallb_forall. intros r Hr%list_elem_of_In. unfold is_zero.
  destruct (N.eqb_spec r 0) as [->|]; [|done]. by apply (wf_roots_nonzero _ Hwf) in Hr.
Qed.

Lemma process_attestations_eq atts :
  exists js rts, load_justifications s = Ok js /\
    build_root_to_slot s (finalized_slot_of s) = Ok rts /\ rts_ok s rts /\
    loop_wf s (init_loop s js) /\
    process_attestations s atts =
    (ls ← foldM (process_attestation s rts) (init_loop s js) atts; store_justifications s ls).
Proof.
  pose proof (load_justifications_Ok s Hwf) as Hjs.
  destruct (build_root_to_slot_spec s (finalized_slot_of s)) as (rts & Hb & Hrts);
    [by apply wf_fin_u64|].
  eexists _, rts. split; [done|]. split; [done|]. split; [done|].
  split; [by apply init_loop_wf|].
  unfold process_attestations. rewrite nonzero_roots, Hjs. cbn [ensure mbind outcome_bind].
  by rewrite Hb.
Qed.

Lemma process_attestations_iff atts s' :
  process_attestations s atts = Ok s' <->
  exists js rts ls, load_justifications s = Ok js /\
    build_root_to_slot s (finalized_slot_of s) = Ok rts /\
    att_steps s rts (init_loop s js) atts ls /\ s' = stored s ls.
Proof.
  destruct (process_attestations_eq atts) as (js & rts & Hjs & Hb & Hrts & Hl & ->).
  rewrite bind_Ok. split.
  - intros (ls & Hf & Hst). apply foldM_att_steps in Hf; [|done..].
    exists js, rts, ls. do 3 (split; [done|]).
    eapply (att_steps_inv (fun _ => True)) in Hf as [_ Hw]; [|done..].
    rewrite store_justifications_Ok in Hst by done. by injection Hst.
  - intros (js' & rts' & ls & Hjs' & Hb' & Hst & ->).
    rewrite Hjs in Hjs'. rewrite Hb in Hb'. injection Hjs' as <-. injection Hb' as <-.
    exists ls. split; [by apply foldM_att_steps|].
    eapply (att_steps_inv (fun _ => True)) in Hst as [_ Hw]; [|done..].
    by apply store_justifications_Ok.
Qed.
End Loop.

(** ** Safety: what a justified or finalized checkpoint stands on *)

Lemma count_true_set_bits_from k bits :
  count_true bits = len_u64
    (omap (fun '(i, bit) => if (bit : bool) then Some i else None) (enumerate_from k bits)).
Proof.
  unfold len_u64. revert k; induction bits as [|b bits IH]; intros k; [done|].
  cbn [count_true enumerate_from]. rewrite (IH (N.succ k)). destruct b; csimpl; lia.
Qed.

Lemma count_true_set_bits bits : count_true bits = len_u64 (set_bits bits).
Proof. apply count_true_set_bits_from. Qed.

(** A vote for [r] by validator [i] already recorded in the state, or cast by an
    attestation of the block, whose target then is [r] at a slot where the chain has
    it. *)
Definition stored_vote (s : State) (r : H256) (i : u64) : Prop :=
  exists js v, load_justifications s = Ok js /\ js !! r = Some v /\ get_nth v i = Some true.

Definition block_vote (s : State) (atts : list AggregatedAttestation) (r : H256) (i : u64)
    : Prop :=
  exists a, a ∈ atts /\ cp_root (ad_target (aa_data a)) = r /\
    get_nth (st_historical_block_hashes s) (cp_slot (ad_target (aa_data a))) = Some r /\
    i ∈ set_bits (aa_aggregation_bits a).

(** Two thirds of the registry voted for [target], which is a block of the chain
    at a justifiable slot and the target of an attestation of the block. *)
Definition justified_by_quorum (s : State) (atts : list AggregatedAttestation)
    (target : Checkpoint) : Prop :=
  (exists a, a ∈ atts /\ ad_target (aa_data a) = target) /\
  cp_root target <> 0 /\
  get_nth (st_historical_block_hashes s) (cp_slot target) = Some (cp_root target) /\
  is_justifiable_after (cp_slot target) (finalized_slot_of s) = Ok true /\
  exists voters, NoDup voters /\ 2 * len_u64 (st_validators s) <= 3 * len_u64 voters /\
    forall i, i ∈ voters -> i < len_u64 (st_validators s) /\
      (stored_vote s (cp_root target) i \/ block_vote s atts (cp_root target) i).

(** A slot that was justified before the block, or is by the block. *)
Definition justified_slot (s : State) (atts : list AggregatedAttestation) (t : Slot) : Prop :=
  is_slot_justified (st_justified_slots s) (finalized_slot_of s) t = Ok true \/
  exists cp, cp_slot cp = t /\ justified_by_quorum s atts cp.

(** [source] is a justified block of the chain, and the next slot that can be
    justified after it is justified by the block. *)
Definition finalized_by_quorum (s : State) (atts : list AggregatedAttestation)
    (source : Checkpoint) : Prop :=
  cp_root source <> 0 /\
  get_nth (st_historical_block_hashes s) (cp_slot source) = Some (cp_root source) /\
  justified_slot s atts (cp_slot source) /\
  exists target, cp_slot source < cp_slot target /\ justified_by_quorum s atts target /\
    no_justifiable_between s (cp_slot source) (cp_slot target).

Record loop_safe (s : State) (atts : list AggregatedAttestation) (ls : AttestationLoop)
    : Prop := {
  ls_votes : forall r v i, al_justifications ls !! r = Some v -> get_nth v i = Some true ->
    stored_vote s r i \/ block_vote s atts r i;
  ls_justified : al_latest_justified ls = st_latest_justified s \/
    justified_by_quorum s atts (al_latest_justified ls);
  ls_slots : forall t, al_finalized_slot ls < t ->
    is_slot_justified (al_justified_slots ls) (al_finalized_slot ls) t = Ok true ->
    justified_slot s atts t;
  ls_fin_slot : justified_slot s atts (al_finalized_slot ls);
  ls_finalized : al_latest_finalized ls = st_latest_finalized s \/
    finalized_by_quorum s atts (al_latest_finalized ls)
}.

Section Safety.
Context {C : SszContainers} {HC : SszContainersLaws C}.
Context (s : State) (Hwf : state_wf s) (atts : list AggregatedAttestation).

Lemma init_loop_safe js :
  load_justifications s = Ok js -> loop_safe s atts (init_loop s js).
Proof.
  intros Hjs. split; cbn; [|by left|by left|left|by left].
  - intros r v i Hv Hi. left. by exists js, v.
  - apply is_slot_justified_le; [by apply wf_fin_u64|lia].
Qed.

Lemma voted_safe ls a :
  a ∈ atts -> loop_wf s ls ->
  vote_valid s ls (ad_source (aa_data a)) (ad_target (aa_data a)) -> voters_ok s a ->
  loop_safe s atts ls -> loop_safe s atts (voted s ls a).
Proof.
  intros Ha Hl (_ & _ & _ & _ & _ & Hh & _) [_ Hids] [S1 S2 S3 S4 S5]. split; [|done..].
  intros r v i. cbn. rewrite lookup_insert. case_decide as Hr; [|apply S1].
  intros [= <-]. subst r. rewrite get_nth_add_votes.
  - case_decide as Hi; intros Hv; [right; by exists a|].
    unfold tracked_votes in Hv. destruct (al_justifications ls !! _) as [w|] eqn:Ew.
    + by eapply S1.
    + exfalso. revert Hv. cbn. unfold get_nth. rewrite lookup_replicate. by intros [].
  - rewrite tracked_votes_len by done. done.
Qed.

(** The voters behind a quorum. *)
Lemma quorum_justifies ls a :
  a ∈ atts -> loop_wf s ls -> loop_safe s atts ls ->
  vote_valid s ls (ad_source (aa_data a)) (ad_target (aa_data a)) -> voters_ok s a ->
  quorum s (tracked_votes s (voted s ls a) (cp_root (ad_target (aa_data a)))) ->
  justified_by_quorum s atts (ad_target (aa_data a)).
Proof.
  intros Ha Hl Hs Hv Hok Hq. pose proof (voted_safe ls a Ha Hl Hv Hok Hs) as Hs'.
  pose proof (voted_wf s Hwf ls a Hl Hv) as Hl'.
  pose proof (tracked_votes_len s (voted s ls a) (cp_root (ad_target (aa_data a))) Hl') as Hlen.
  destruct Hv as (_ & _ & _ & Hnz & _ & Hth & _ & Hj).
  split; [by exists a|]. do 3 (split; [done|]).
  exists (set_bits (tracked_votes s (voted s ls a) (cp_root (ad_target (aa_data a))))).
  split; [apply set_bits_NoDup|]. split; [by rewrite <-count_true_set_bits|].
  intros i Hi%elem_of_set_bits. split; [rewrite <-Hlen; by eapply get_nth_lt|].
  eapply (ls_votes _ _ _ Hs'); [|done]. rewrite tracked_votes_voted. cbn.
  by rewrite lookup_insert_eq.
Qed.

Lemma mark_safe ls source target :
  loop_wf s ls -> vote_valid s ls source target -> justified_by_quorum s atts target ->
  loop_safe s atts ls -> loop_safe s atts (with_mark target ls).
Proof.
  intros Hl Hv Hq [S1 S2 S3 S4 S5].
  pose proof (vote_valid_target_index _ Hwf _ _ _ Hl Hv) as (Hft & Hidx & _).
  split; cbn; [|by right|..|done|done].
  - intros r v i [_ Hr]%lookup_delete_Some. by apply (S1 r v).
  - intros t Ht. rewrite is_slot_justified_mark by (done || by eapply loop_fin_u64).
    case_decide as E; [|by apply S3]. intros _. right. by exists target.
Qed.

Lemma finalized_safe rts ls source target :
  loop_wf s ls -> vote_valid s ls source target -> justified_by_quorum s atts target ->
  no_justifiable_between s (cp_slot source) (cp_slot target) ->
  loop_safe s atts ls -> loop_safe s atts (with_finalized rts source (with_mark target ls)).
Proof.
  intros Hl Hv Hq Hgap Hs. pose proof (finalize_not_before _ Hwf _ _ _ Hl Hv Hgap) as Hle.
  pose proof (mark_safe ls source target Hl Hv Hq Hs) as [M1 M2 M3 M4 M5].
  pose proof (loop_fin_u64 _ Hwf _ Hl) as Hfu.
  assert (Hsrc : justified_slot s atts (cp_slot source)).
  { destruct (N.eq_dec (cp_slot source) (al_finalized_slot ls)) as [->|].
    - apply (ls_fin_slot _ _ _ Hs).
    - apply (ls_slots _ _ _ Hs); [lia|apply Hv]. }
  assert (Hfin : finalized_by_quorum s atts source).
  { split; [apply Hv|]. split; [apply Hv|]. split; [done|]. exists target.
    split; [apply Hv|done]. }
  assert (Hsu : is_u64 (cp_slot source + 1))
    by (by apply (vote_valid_target_index _ Hwf _ _ _ Hl Hv)).
  unfold with_finalized. case_decide as E; cbn in E.
  - split; cbn; try done; [|by right]. rewrite E. done.
  - split; cbn; try done; [| |by right].
    + intros r v i [Hr _]%map_lookup_filter_Some. by apply (M1 r v).
    + intros t Ht. rewrite is_slot_justified_shift by (done || lia).
      apply M3. cbn. lia.
Qed.

Lemma att_step_safe rts ls a ls' :
  a ∈ atts -> loop_wf s ls -> loop_safe s atts ls -> att_step s rts ls a ls' ->
  loop_safe s atts ls'.
Proof.
  intros Ha Hl Hs []; [done|..].
  - by apply voted_safe.
  - eapply mark_safe; [by apply voted_wf|done|by eapply quorum_justifies|by apply voted_safe].
  - eapply finalized_safe;
      [by apply voted_wf|done|by eapply quorum_justifies|done|by apply voted_safe].
Qed.

Lemma process_attestations_loop s' :
  process_attestations s atts = Ok s' ->
  exists ls, s' = stored s ls /\ loop_wf s ls /\ loop_safe s atts ls.
Proof.
  intros (js & rts & ls & Hjs & Hb & Hst & ->)%process_attestations_iff; [|done].
  exists ls. split; [done|].
  destruct (build_root_to_slot_spec s (finalized_slot_of s)) as (rts' & Hb' & Hrts);
    [by apply wf_fin_u64|]. rewrite Hb in Hb'. injection Hb' as <-.
  eapply (att_steps_inv s Hwf (loop_safe s atts)) in Hst as [? ?];
    [done|done|by apply init_loop_wf|by apply init_loop_safe|].
  intros. by eapply att_step_safe.
Qed.
End Safety.

(** ** Errors and panics *)

(** The errors an attestation can cause. *)
Definition attestation_errors : list error :=
  [EOutsideTrackedRange; EIndexOutOfBounds; EValidatorIndexOutOfRange].

(** An attestation the loop can process without panicking: some validator is
    set, and the source is not further back than one slot before finality. *)
Definition attestation_safe (s : State) (a : AggregatedAttestation) : Prop :=
  set_bits (aa_aggregation_bits a) <> [] /\
  finalized_slot_of s <= cp_slot (ad_source (aa_data a)) + 1.

Section Errors.
Context {C : SszContainers} {HC : SszContainersLaws C}.
Context (s : State) (Hwf : state_wf s).

Lemma is_justifiable_after_total t f :
  f <= t -> exists b, is_justifiable_after t f = Ok b.
Proof.
  intros Ht. unfold is_justifiable_after. replace (f <=? t) with true by lia. cbn.
  repeat case_match; eauto.
Qed.

Lemma only_fails_justified js f t : only_fails attestation_errors (is_slot_justified js f t).
Proof.
  unfold is_slot_justified. case_match; [|done]. apply only_fails_ok_or. left.
Qed.

Lemma only_fails_hist i :
  only_fails attestation_errors (ok_or (get_nth (st_historical_block_hashes s) i)
    EIndexOutOfBounds).
Proof. apply only_fails_ok_or. right. left. Qed.

Lemma attestation_counts_fails ls source target :
  loop_wf s ls -> only_fails attestation_errors (attestation_counts s ls source target).
Proof.
  intros Hl. unfold attestation_counts.
  apply only_fails_bind; [apply only_fails_justified|]. intros sj Hsj.
  destruct (negb sj); [done|].
  apply only_fails_bind; [apply only_fails_justified|]. intros tj Htj.
  destruct tj; [done|]. destruct (_ || _); [done|].
  apply only_fails_bind; [apply only_fails_hist|]. intros sr _. destruct (negb _); [done|].
  apply only_fails_bind; [apply only_fails_hist|]. intros tr _. destruct (negb _); [done|].
  destruct (_ <=? _); [done|].
  apply is_slot_justified_false in Htj as (Hft & _); [|by eapply loop_fin_u64].
  pose proof (lw_mono _ _ Hl).
  destruct (is_justifiable_after_total (cp_slot target) (finalized_slot_of s)) as [b ->];
    [lia|done].
Qed.

Lemma record_votes_fails js r v ids :
  js !! r = Some v -> only_fails attestation_errors (record_votes js r ids).
Proof.
  revert js v; induction ids as [|i ids IH]; intros js v Hv; [done|].
  rewrite record_votes_cons, Hv. cbn [ok_or mbind outcome_bind].
  destruct (i <? len_u64 v); cbn [mbind outcome_bind]; [|right; right; left].
  eapply IH, lookup_insert_eq.
Qed.

Lemma process_attestation_fails rts ls a :
  rts_ok s rts -> loop_wf s ls -> attestation_safe s a ->
  only_fails attestation_errors (process_attestation s rts ls a).
Proof.
  intros Hrts Hl [Hne Hsrc].
  destruct (attestation_counts s ls (ad_source (aa_data a)) (ad_target (aa_data a)))
    as [[]|e| |] eqn:Ec;
    try (unfold process_attestation; rewrite Ec; pose proof (attestation_counts_fails ls
      (ad_source (aa_data a)) (ad_target (aa_data a)) Hl) as Hf; by rewrite Ec in Hf).
  apply attestation_counts_true in Ec as Hv.
  destruct (decide (Forall (fun i => i < len_u64 (st_validators s))
    (set_bits (aa_aggregation_bits a)))) as [Hids|Hids].
  - rewrite Forall_forall in Hids.
    rewrite process_attestation_voted by done. case_match; [|done].
    rewrite justify_eq by (done || by apply voted_wf).
    apply only_fails_bind.
    + set (l := nrange _ _). assert (Hl' : forall x, x ∈ l -> finalized_slot_of s <= x)
        by (intros x ?%elem_of_nrange; lia). clearbody l. clear -Hl'.
      induction l as [|x l IH]; [done|]. cbn.
      destruct (is_justifiable_after_total x (finalized_slot_of s)) as [b ->];
        [apply Hl'; left|]. cbn. destruct b; [done|]. apply IH. intros; apply Hl'; by right.
    + intros [] _; done.
  - unfold process_attestation. rewrite Ec. cbn [negb mbind outcome_bind].
    rewrite (proj2 (to_validator_indices_Ok _ _) (conj eq_refl Hne)). cbn [mbind outcome_bind].
    set (js := match _ with Some _ => _ | None => _ end).
    assert (Hjs : js !! cp_root (ad_target (aa_data a)) =
      Some (tracked_votes s ls (cp_root (ad_target (aa_data a))))).
    { unfold js, tracked_votes. destruct (al_justifications ls !! _) eqn:E; [done|].
      by rewrite lookup_insert_eq. }
    pose proof (record_votes_fails js _ _ (set_bits (aa_aggregation_bits a)) Hjs) as Hrf.
    apply only_fails_bind; [done|]. intros js' Hr. exfalso. apply Hids.
    eapply record_votes_Ok in Hr as (_ & _ & _ & Hlt & _); [|done].
    apply Forall_forall. intros i Hi. rewrite tracked_votes_len in Hlt by done. by apply Hlt.
Qed.

Lemma process_attestations_fails atts :
  (forall a, a ∈ atts -> attestation_safe s a) ->
  only_fails attestation_errors (process_attestations s atts).
Proof.
  intros Hsafe. destruct (process_attestations_eq s Hwf atts) as (js & rts & _ & _ & Hrts & Hl & ->).
  apply only_fails_bind.
  - apply (only_fails_foldM _ _ (loop_wf s)); [done|..].
    + intros. apply process_attestation_fails; auto.
    + intros ls a ls' _ Hlw H. apply process_attestation_refines in H; [|done..].
      by eapply att_step_wf.
  - intros ls Hf. apply foldM_att_steps in Hf; [|done..].
    eapply (att_steps_inv s Hwf (fun _ => True)) in Hf as [_ Hw]; [|done..].
    by rewrite store_justifications_Ok.
Qed.
End Errors.

(** ** The flattened vote map *)

Section Flatten.
Context {C : SszContainers} {HC : SszContainersLaws C}.

(** Writing the set bits of [v] over zeros, from index [k] of a row at [base]. *)
Lemma write_row (base k : N) pre (v : list bool) post :
  len_u64 pre = base + k -> is_u64 (base + k + len_u64 v) ->
  foldM (fun bits '(j, bit) =>
      if (bit : bool) then bit_set bits (wadd base j) true else Ok bits)
    (pre ++ replicate (length v) false ++ post) (enumerate_from k v) =
  Ok (pre ++ v ++ post).
Proof.
  revert k pre; induction v as [|b v IH]; intros k pre Hpre Hu; [done|].
  assert (Hstep : (if b then bit_set (pre ++ replicate (length (b :: v)) false ++ post)
      (wadd base k) true else Ok (pre ++ replicate (length (b :: v)) false ++ post)) =
    Ok ((pre ++ [b]) ++ replicate (length v) false ++ post)).
  { rewrite <-app_assoc. destruct b; [|done]. unfold len_u64 in *. cbn [length] in *.
    rewrite wadd_small by (unfold is_u64 in *; lia). rewrite bit_set_Ok.
    - replace (N.to_nat (base + k)) with (length pre + 0)%nat by lia.
      by rewrite insert_app_r.
    - unfold len_u64. rewrite length_app. cbn. lia. }
  cbn [enumerate_from foldM]. rewrite Hstep. cbn [mbind outcome_bind]. rewrite IH.
  - by rewrite <-app_assoc.
  - unfold len_u64 in *. rewrite length_app. cbn [length]. lia.
  - unfold is_u64, len_u64 in *. cbn [length] in Hu. lia.
Qed.

Lemma write_rows (m : gmap H256 (list bool)) (n k : N) pre roots :
  (forall r, r ∈ roots -> exists v, m !! r = Some v /\ len_u64 v = n) ->
  len_u64 pre = k * n -> is_u64 ((k + len_u64 roots) * n) ->
  foldM (fun bits '(i, r) =>
      v ← or_panic (m !! r) PUnwrap;
      _ ← assert_ (len_u64 v =? n) PAssert;
      let base := wmul i n in
      foldM (fun bits '(j, bit) =>
          if (bit : bool) then bit_set bits (wadd base j) true else Ok bits)
        bits (enumerate v))
    (pre ++ replicate (N.to_nat (len_u64 roots * n)) false) (enumerate_from k roots) =
  Ok (pre ++ mjoin ((fun r => default [] (m !! r)) <$> roots)).
Proof.
  revert k pre; induction roots as [|r roots IH]; intros k pre Hm Hpre Hu; [done|].
  destruct (Hm r) as (v & Hv & Hlen); [left|].
  assert (Hcons : len_u64 (r :: roots) = 1 + len_u64 roots) by (unfold len_u64; cbn [length]; lia).
  assert (Hz : replicate (N.to_nat (len_u64 (r :: roots) * n)) false =
    replicate (length v) false ++ replicate (N.to_nat (len_u64 roots * n)) false).
  { rewrite <-replicate_add. f_equal. unfold len_u64 in *. nia. }
  rewrite Hcons in Hu. unfold is_u64 in *.
  cbn [enumerate_from foldM]. rewrite Hz, Hv. cbn [or_panic mbind outcome_bind].
  replace (len_u64 v =? n) with true by lia. cbn [assert_ mbind outcome_bind].
  rewrite wmul_small by nia. unfold enumerate.
  rewrite (write_row (k * n) 0) by (unfold is_u64; nia). cbn [mbind outcome_bind].
  rewrite app_assoc, IH.
  - rewrite fmap_cons. cbn. rewrite Hv. cbn. by rewrite <-app_assoc.
  - intros r' Hr'. apply Hm. by right.
  - unfold len_u64 in *. rewrite length_app. lia.
  - nia.
Qed.

(** The maps that fit: one vote vector of registry length per root. *)
Definition votes_map_ok (s : State) (m : gmap H256 (list bool)) : Prop :=
  (forall r v, m !! r = Some v -> len_u64 v = len_u64 (st_validators s)) /\
  N.of_nat (size m) <= HistoricalRootsLimit.

Lemma len_sorted_keys {V} (m : gmap N V) : len_u64 (sorted_keys m) = N.of_nat (size m).
Proof.
  unfold len_u64, sorted_keys. f_equal.
  rewrite (Permutation_length (merge_sort_Permutation _ _)), length_fmap.
  apply length_map_to_list.
Qed.

Lemma with_justifications_Ok s m :
  len_u64 (st_validators s) <= ValidatorRegistryLimit -> votes_map_ok s m ->
  with_justifications s m =
  Ok (set_st_justifications (sorted_keys m) (mjoin (rows_of m)) s).
Proof.
  intros Hn [Hm Hsz]. unfold with_justifications.
  pose proof (len_sorted_keys m) as Hk.
  unfold HistoricalRootsLimit, ValidatorRegistryLimit in *.
  rewrite push_all_Ok by (unfold len_u64, HistoricalRootsLimit in *; cbn [length]; lia).
  cbn [app mbind outcome_bind].
  rewrite wmul_small by (unfold u64_modulus; nia).
  rewrite bl_new_law
    by (unfold JustificationValidatorsLimit, HistoricalRootsLimit, ValidatorRegistryLimit; nia).
  cbn [or_panic mbind outcome_bind]. 
  pose proof (write_rows m (len_u64 (st_validators s)) 0 [] (sorted_keys m)) as Hw.
  cbn [app] in Hw. unfold enumerate at 2. rewrite Hw; [done| |done|].
  - intros r [v Hv]%sorted_keys_elem. eauto.
  - unfold is_u64, u64_modulus. nia.
Qed.

Lemma nth_row (bits : list bool) (start n : N) :
  start + n <= len_u64 bits ->
  ((fun idx => default false (get_nth bits idx)) <$> nrange start (start + n)) =
  take (N.to_nat n) (drop (N.to_nat start) bits).
Proof.
  intros Hl. unfold nrange. rewrite <-list_fmap_compose.
  replace (N.to_nat (start + n - start)) with (N.to_nat n) by lia.
  apply list_eq. intros i. rewrite list_lookup_fmap.
  destruct (decide (i < N.to_nat n)%nat) as [Hi|Hi].
  - rewrite lookup_seq_lt, lookup_take_lt, lookup_drop by done. cbn. unfold get_nth.
    replace (N.to_nat (start + N.of_nat i)) with (N.to_nat start + i)%nat by lia.
    destruct (bits !! (N.to_nat start + i)%nat) eqn:E; [done|].
    apply lookup_ge_None in E. unfold len_u64 in Hl. lia.
  - rewrite lookup_seq_ge, lookup_take_ge by lia. done.
Qed.

(** The two routines that read the votes agree. *)
Lemma get_justifications_load s :
  state_wf s -> load_justifications s = Ok (get_justifications s).
Proof.
  intros Hwf. rewrite load_justifications_Ok by done. f_equal. unfold get_justifications.
  f_equal. apply list_fmap_ext. intros k [i r] Hk. f_equal.
  apply list_elem_of_lookup_2, elem_of_enumerate, get_nth_lt in Hk.
  pose proof (wf_roots_limit _ Hwf). pose proof (wf_validators _ Hwf).
  pose proof (wf_votes_len _ Hwf).
  unfold HistoricalRootsLimit, ValidatorRegistryLimit in *.
  rewrite wmul_small by (unfold u64_modulus; nia).
  rewrite wadd_small by (unfold u64_modulus; nia). rewrite nth_row by nia. done.
Qed.

(** Reading a flattened map gives the map back. *)
Lemma get_flattened s m :
  len_u64 (st_validators s) <= ValidatorRegistryLimit -> votes_map_ok s m ->
  get_justifications (set_st_justifications (sorted_keys m) (mjoin (rows_of m)) s) = m.
Proof.
  intros Hn [Hm Hsz]. etrans; [|apply collect_rows_of]. unfold get_justifications. cbn -[len_u64].
  f_equal. apply list_fmap_ext. intros k [i r] Hk. f_equal.
  apply list_elem_of_lookup_2, elem_of_enumerate in Hk.
  pose proof (get_nth_lt _ _ _ Hk) as Hi. pose proof (rows_of_len m _ Hm) as Hrows.
  pose proof (len_mjoin _ _ Hrows) as Hlen. pose proof (len_sorted_keys m) as Hsk.
  assert (Hlr : len_u64 (rows_of m) = len_u64 (sorted_keys m))
    by (unfold len_u64, rows_of; by rewrite length_fmap).
  unfold HistoricalRootsLimit, ValidatorRegistryLimit in *.
  rewrite wmul_small by (unfold u64_modulus; nia).
  rewrite wadd_small by (unfold u64_modulus; nia). rewrite nth_row by nia.
  destruct (get_nth (rows_of m) i) as [v|] eqn:Ev.
  - cbn. by apply row_mjoin.
  - apply get_nth_None in Ev. lia.
Qed.
End Flatten.
