(* ===== verification/Example.v ===== *)
(** * A concrete chain

    Small executable hashes in place of the SSZ ones, and a chain of four
    validators that justifies and finalizes.  The theorems are instantiated on
    it, so that every hypothesis they have is seen to hold somewhere. *)

From Stdlib Require Import Strings.Byte.
From S2P Require Import Prelude Slot Ssz Xmss Containers State.

#[local] Open Scope N_scope.

Module Toy.

Definition mix (l : list N) : N :=
  foldl (fun a x => (a * 1000003 + x + 1) `mod` 2305843009213693951) 17 l + 1.

Definition mix_cp (c : Checkpoint) : N := mix [cp_root c; cp_slot c].

Definition bits_N (l : list bool) : list N := (fun b : bool => if b then 2 else 1) <$> l.

#[export] Instance data_hash : SszHash AttestationData := fun d =>
  mix [ad_slot d; mix_cp (ad_head d); mix_cp (ad_target d); mix_cp (ad_source d)].

#[export] Instance body_hash : SszHash BlockBody := fun b =>
  mix ((fun a => mix (hash_tree_root (aa_data a) :: bits_N (aa_aggregation_bits a)))
    <$> bb_attestations b).

#[export] Instance header_hash : SszHash BlockHeader := fun h =>
  mix [bh_slot h; bh_proposer_index h; bh_parent_root h; bh_state_root h; bh_body_root h].

#[export] Instance block_hash : SszHash Block := fun b =>
  hash_tree_root (mkBlockHeader (b_slot b) (b_proposer_index b) (b_parent_root b)
    (b_state_root b) (hash_tree_root (b_body b))).

#[export] Instance state_hash : SszHash State := fun s =>
  mix [genesis_time (st_config s); st_slot s; hash_tree_root (st_latest_block_header s);
    mix_cp (st_latest_justified s); mix_cp (st_latest_finalized s);
    mix (st_historical_block_hashes s); mix (bits_N (st_justified_slots s));
    mix (v_index <$> st_validators s); mix (st_justifications_roots s);
    mix (bits_N (st_justifications_validators s))].

(** A signature library in which keys and signatures are their bytes, every
    well-formed signature verifies and an aggregate has no content. *)
#[export] Instance toy_sig : LeanSig := {|
  LeanSigPublicKey := list Byte.byte;
  LeanSigSecretKey := list Byte.byte;
  LeanSigSignature := list Byte.byte;
  XmssAggregateSignature := unit;
  pk_from_bytes := Some;
  pk_to_bytes := id;
  sk_from_bytes := Some;
  sk_to_bytes := id;
  sig_from_bytes := Some;
  sig_to_bytes := id;
  agg_from_ssz_bytes := fun _ => Some tt;
  agg_as_ssz_bytes := fun _ => [];
  lean_sign := fun _ _ _ => Some (sig_bytes Signature_default);
  lean_verify := fun _ _ _ _ => true;
  xmss_aggregate_signatures := fun _ _ _ _ => Some tt;
  xmss_verify_aggregated_signatures := fun _ _ _ _ => true
|}.

(** A result that is known to be there. *)
Definition get {A} (d : A) (m : outcome A) : A := match m with Ok a => a | _ => d end.

Definition genesis : State := Eval vm_compute in
  get (mkState (mkConfig 0) 0 (mkBlockHeader 0 0 0 0 0) Checkpoint_default Checkpoint_default
         [] [] [] [] []) (generate_genesis 1000 4).

(** A block on top of [s] with the right parent and state roots. *)
Definition propose (s : State) (slot : Slot) (atts : list AggregatedAttestation) : Block :=
  let s1 := get s (process_slots s slot) in
  let b := mkBlock slot (slot `mod` 4) (hash_tree_root (st_latest_block_header s1)) 0
    (mkBlockBody atts) in
  let s2 := get s1 (process_block s1 b) in
  mkBlock slot (slot `mod` 4) (b_parent_root b) (hash_tree_root s2) (mkBlockBody atts).

Definition sign_block (b : Block) (a : Attestation) : SignedBlockWithAttestation :=
  mkSignedBlockWithAttestation (mkBlockWithAttestation b a)
    (mkBlockSignatures [] Signature_default).

(** A vote of validator 0 with everything at genesis. *)
Definition vote0 : Attestation :=
  mkAttestation 0 (mkAttestationData 0 Checkpoint_default Checkpoint_default Checkpoint_default).

Definition after (s : State) (b : Block) : State :=
  get s (state_transition s (sign_block b vote0) true).

Definition three_of_four : list bool := [true; true; true; false].

Definition vote (slot : Slot) (source target : Checkpoint) (bits : list bool)
    : AggregatedAttestation :=
  mkAggregatedAttestation bits (mkAttestationData slot target target source).

Definition block1 : Block := Eval vm_compute in propose genesis 1 [].
Definition state1 : State := Eval vm_compute in after genesis block1.
Definition cp0 : Checkpoint := Eval vm_compute in
  mkCheckpoint (b_parent_root block1) 0.
Definition cp1 : Checkpoint := Eval vm_compute in
  mkCheckpoint (hash_tree_root block1) 1.
Definition vote1 : AggregatedAttestation := Eval vm_compute in vote 1 cp0 cp1 three_of_four.
Definition block2 : Block := Eval vm_compute in propose state1 2 [vote1].
Definition state2 : State := Eval vm_compute in after state1 block2.
Definition cp2 : Checkpoint := Eval vm_compute in
  mkCheckpoint (hash_tree_root block2) 2.
Definition vote2 : AggregatedAttestation := Eval vm_compute in vote 2 cp1 cp2 three_of_four.

(** Block 3 is at slot 4, after an empty slot. *)
Definition block3 : Block := Eval vm_compute in propose state2 4 [vote2].
Definition state3 : State := Eval vm_compute in after state2 block3.

(** [block3]'s state just before its attestations. *)
Definition mid3 : State := Eval vm_compute in
  get state2 (s ← process_slots state2 4; process_block_header s block3).

Example chain_runs :
  state_transition genesis (sign_block block1 vote0) true = Ok state1 /\
  state_transition state1 (sign_block block2 vote0) true = Ok state2 /\
  state_transition state2 (sign_block block3 vote0) true = Ok state3 /\
  st_latest_justified state2 = cp1 /\ st_latest_finalized state2 = cp0 /\
  st_latest_justified state3 = cp2 /\ st_latest_finalized state3 = cp1.
Proof. vm_compute. repeat split. Qed.
End Toy.
