(* ===== verification/StateTheorems.v ===== *)
(** * Theorems about the state transition function *)

From S2P Require Import Prelude Slot Ssz Xmss Containers State JustifiedSlots StateInv.
From S2P Require Import AttestationSpec Attestations Transition Example.

#[local] Open Scope N_scope.

Section Chain.
Context {C : SszContainers} {HC : SszContainersLaws C}.
Context {HState : SszHash State} {HHeader : SszHash BlockHeader}
  {HBody : SszHash BlockBody} {HData : SszHash AttestationData}.

(** ** Genesis *)

Lemma empty_state_wf t validators :
  len_u64 validators <= ValidatorRegistryLimit ->
  state_wf (mkState (mkConfig t) 0
    (mkBlockHeader 0 0 h256_zero h256_zero (hash_tree_root (mkBlockBody [])))
    (mkCheckpoint h256_zero 0) (mkCheckpoint h256_zero 0) [] [] validators [] []).
Proof.
  intros Hv. split; cbn; first [done | lia | by left
    | by intros ?%not_elem_of_nil | by intros ? ?%not_elem_of_nil | constructor].
Qed.

Lemma genesis_validators_wf t vs s :
  generate_genesis_with_validators t vs = Ok s -> state_wf s /\ st_validators s = vs.
Proof.
  unfold generate_genesis_with_validators. intros H. ok_inv. subst s. cbn.
  pose proof Hx as ->%push_all_inv; [|done]. split; [|done].
  apply empty_state_wf. by apply push_all_len in Hx.
Qed.

Lemma generate_genesis_wf t n s : generate_genesis t n = Ok s -> state_wf s.
Proof.
  unfold generate_genesis. intros H. ok_inv. subst s.
  apply empty_state_wf. by apply push_all_len in Hx.
Qed.

(** ** Blocks *)

(** Facts about one accepted block. *)
Record block_applied (s : State) (b : Block) (s' : State) : Prop := {
  ba_wf : state_wf s';
  ba_registry : same_registry s s';
  ba_slot : st_slot s < b_slot b /\ st_slot s' = b_slot b;
  ba_header : st_latest_block_header s' =
    mkBlockHeader (b_slot b) (b_proposer_index b) (b_parent_root b) 0
      (hash_tree_root (b_body b));
  ba_history : exists mid n, same_but_slot s mid /\
    b_parent_root b = hash_tree_root (st_latest_block_header mid) /\
    st_historical_block_hashes s' =
      st_historical_block_hashes s ++ b_parent_root b :: replicate n 0;
  ba_finalized : finalized_slot_of s <= finalized_slot_of s'
}.

Lemma process_block_mid s b s' :
  state_wf s -> process_block s b = Ok s' ->
  header_valid s b /\ state_wf (header_post s b) /\
  process_attestations (header_post s b) (bb_attestations (b_body b)) = Ok s'.
Proof.
  intros Hwf H. unfold process_block in H. ok_inv.
  apply process_block_header_iff in Hx as [Hv ->]; [|done].
  split; [done|]. split; [by apply header_post_wf|done].
Qed.

Lemma slots_block_applied s b s1 s' :
  state_wf s -> is_u64 (b_slot b) ->
  process_slots s (b_slot b) = Ok s1 -> process_block s1 b = Ok s' -> block_applied s b s'.
Proof.
  intros Hwf Hu Hs1 Hb. pose proof (process_slots_wf _ _ _ Hu Hwf Hs1) as Hwf1.
  apply process_slots_Ok_inv in Hs1 as (Hlt & Hslot & Hsame); [|done].
  apply process_block_mid in Hb as (Hv & Hwf2 & Ha); [|done].
  apply process_attestations_loop in Ha as (ls & -> & Hl & Hsafe); [|done].
  destruct Hsame as (Hreg & Hh & Hrest). split.
  - by apply stored_wf.
  - done.
  - done.
  - done.
  - exists s1. eexists. split; [by split|]. split; [apply Hv|].
    cbn. rewrite (hv_parent _ _ Hv). by destruct Hrest as (_ & _ & _ & _ & _ & -> & _).
  - cbn. rewrite (lw_fin _ _ Hl). pose proof (lw_mono _ _ Hl) as Hm. cbn in Hm.
    rewrite anchor_checkpoint_fin in Hm by done.
    destruct Hrest as (_ & _ & _ & _ & Hf & _). by rewrite Hf in Hm.
Qed.

Lemma state_transition_applied s sb v s' :
  state_wf s -> is_u64 (b_slot (bwa_block (sb_message sb))) ->
  state_transition s sb v = Ok s' ->
  block_applied s (bwa_block (sb_message sb)) s' /\
  v = true /\ b_state_root (bwa_block (sb_message sb)) = hash_tree_root s'.
Proof.
  intros Hwf Hu H. unfold state_transition in H. ok_inv. subst.
  split; [by eapply slots_block_applied|]. split; [done|lia].
Qed.

(** Where the checkpoints of the new state come from: the old state, the parent of
    the first block, or the history. *)
Definition checkpoint_step (s : State) (b : Block) (s' : State) (old new : Checkpoint) : Prop :=
  new = old \/
  (bh_slot (st_latest_block_header s) = 0 /\ new = mkCheckpoint (b_parent_root b) 0) \/
  (cp_root new <> 0 /\
   get_nth (st_historical_block_hashes s') (cp_slot new) = Some (cp_root new)).

Lemma anchor_checkpoint_step s s1 b s' cp cp' :
  header_valid s1 b -> bh_slot (st_latest_block_header s1) = bh_slot (st_latest_block_header s) ->
  cp' = anchor_checkpoint s1 cp -> checkpoint_step s b s' cp cp'.
Proof.
  intros Hv Hh ->. unfold checkpoint_step, anchor_checkpoint. rewrite Hh.
  destruct (N.eqb_spec (bh_slot (st_latest_block_header s)) 0); [|by left].
  right. left. by rewrite (hv_parent _ _ Hv).
Qed.

Lemma state_transition_checkpoints s sb v s' :
  state_wf s -> is_u64 (b_slot (bwa_block (sb_message sb))) ->
  state_transition s sb v = Ok s' ->
  checkpoint_step s (bwa_block (sb_message sb)) s' (st_latest_justified s)
    (st_latest_justified s') /\
  checkpoint_step s (bwa_block (sb_message sb)) s' (st_latest_finalized s)
    (st_latest_finalized s').
Proof.
  intros Hwf Hu H. unfold state_transition in H. ok_inv. subst x1.
  pose proof (process_slots_wf _ _ _ Hu Hwf Hx0) as Hwf1.
  apply process_slots_Ok_inv in Hx0 as (_ & _ & Hsame); [|done].
  apply process_block_mid in Hx1 as (Hv & Hwf2 & Ha); [|done].
  apply process_attestations_loop in Ha as (ls & -> & Hl & Hsafe); [|done].
  destruct Hsame as (_ & Hh & _ & _ & _ & Hlj & Hlf & _).
  split; [destruct (ls_justified _ _ _ Hsafe) as [E|(_ & Hnz & Hh' & _)]
    |destruct (ls_finalized _ _ _ Hsafe) as [E|(Hnz & Hh' & _)]];
    try (right; right; done);
    (eapply anchor_checkpoint_step; [done|done|]).
  - cbn in E |- *. by rewrite E, Hlj.
  - cbn in E |- *. by rewrite E, Hlf.
Qed.

(** ** Chains *)

(** The states a chain reaches from a genesis state. *)
Inductive chain_state : State -> Prop :=
  | chain_genesis t vs s :
      generate_genesis_with_validators t vs = Ok s -> chain_state s
  | chain_block s sb v s' :
      chain_state s -> is_u64 (b_slot (bwa_block (sb_message sb))) ->
      state_transition s sb v = Ok s' -> chain_state s'.

Lemma chain_state_is_wf s : chain_state s -> state_wf s.
Proof.
  induction 1 as [t vs s H|s sb v s' _ IH Hu H].
  - by apply genesis_validators_wf in H as [? _].
  - by apply state_transition_applied in H as [[] _].
Qed.

(** Every number fits its width and every list its SSZ limit; the last block is at
    most at the slot where the history is full. *)
Record state_typed (s : State) : Prop := {
  ty_slot : is_u64 (st_slot s);
  ty_header : bh_slot (st_latest_block_header s) <= HistoricalRootsLimit;
  ty_justified : cp_slot (st_latest_justified s) <= bh_slot (st_latest_block_header s);
  ty_finalized : cp_slot (st_latest_finalized s) <= bh_slot (st_latest_block_header s);
  ty_history : len_u64 (st_historical_block_hashes s) <= HistoricalRootsLimit;
  ty_window : len_u64 (st_justified_slots s) <= HistoricalRootsLimit;
  ty_registry : len_u64 (st_validators s) <= ValidatorRegistryLimit;
  ty_roots : len_u64 (st_justifications_roots s) <= HistoricalRootsLimit;
  ty_votes : len_u64 (st_justifications_validators s) <= JustificationValidatorsLimit
}.

Lemma state_wf_typed s :
  state_wf s -> cp_slot (st_latest_justified s) <= bh_slot (st_latest_block_header s) ->
  state_typed s.
Proof.
  intros Hwf Hj. pose proof (wf_hist_len _ Hwf). pose proof (wf_hist_limit _ Hwf).
  pose proof (wf_window_len _ Hwf). pose proof (wf_roots_limit _ Hwf).
  pose proof (wf_validators _ Hwf). pose proof (wf_votes_len _ Hwf) as Hv.
  pose proof (wf_fin_slot _ Hwf).
  split; try done; try lia; [apply Hwf|].
  rewrite Hv. unfold JustificationValidatorsLimit. nia.
Qed.

(** Justification never runs ahead of the last block. *)
Lemma chain_justified_slot s :
  chain_state s -> cp_slot (st_latest_justified s) <= bh_slot (st_latest_block_header s).
Proof.
  induction 1 as [t vs s H|s sb v s' Hs IH Hu H].
  - unfold generate_genesis_with_validators in H. ok_inv. by subst s.
  - apply chain_state_is_wf in Hs.
    pose proof (state_transition_checkpoints _ _ _ _ Hs Hu H) as [Hc _].
    apply state_transition_applied in H as [Ha _]; [|done..].
    pose proof (ba_header _ _ _ Ha) as Eh. pose proof (wf_header_slot _ Hs) as Hh.
    destruct (ba_slot _ _ _ Ha) as [Hlt _]. rewrite Eh. cbn.
    destruct Hc as [->|[[_ ->]|[_ Hi%get_nth_lt]]]; [lia|cbn; lia|].
    rewrite (wf_hist_len _ (ba_wf _ _ _ Ha)), Eh in Hi. cbn in Hi. lia.
Qed.
End Chain.

(** * Properties *)

Section Properties.
Context {C : SszContainers} {HC : SszContainersLaws C}.
Context {HState : SszHash State} {HHeader : SszHash BlockHeader}
  {HBody : SszHash BlockBody} {HData : SszHash AttestationData}.

(** C2: every state a chain reaches from genesis by accepted blocks is well
    formed: the history has one root per slot below the last block, the
    justification window covers exactly the slots between finality and the last
    block, the tracked roots are sorted, nonzero blocks of the chain after
    finality, each with one vote bit per validator. *)
Theorem chain_state_wf s : chain_state s -> state_wf s.
Proof. apply chain_state_is_wf. Qed.

(** C19: every state of a chain is within the limits of its SSZ type: each list within
    its limit, slots within 64 bits, and neither checkpoint after the last block,
    which is at most at slot [HistoricalRootsLimit]. *)
Theorem chain_state_typed s : chain_state s -> state_typed s.
Proof.
  intros Hs. apply state_wf_typed; [by apply chain_state_is_wf|by apply chain_justified_slot].
Qed.

(** C14: an accepted block moves the state to its slot, keeps the registry, the
    configuration and the well-formedness invariant, records the block's header,
    appends its parent's root and zeros to the history, never moves finality
    back, and carries the root of the state it produces. *)
Theorem state_transition_correct s sb v s' :
  state_wf s -> is_u64 (b_slot (bwa_block (sb_message sb))) ->
  state_transition s sb v = Ok s' ->
  block_applied s (bwa_block (sb_message sb)) s' /\
  v = true /\ b_state_root (bwa_block (sb_message sb)) = hash_tree_root s'.
Proof. apply state_transition_applied. Qed.

(** C1: on a well-formed state, processing the attestations of a block succeeds
    with a result exactly when a run of the protocol's transition relation
    (skip, vote, justify, finalize) from the stored votes ends in it. *)
Theorem process_attestations_refines s atts s' :
  state_wf s ->
  process_attestations s atts = Ok s' <->
  exists js rts ls, load_justifications s = Ok js /\
    build_root_to_slot s (finalized_slot_of s) = Ok rts /\
    att_steps s rts (init_loop s js) atts ls /\ s' = stored s ls.
Proof. intros Hwf. by apply process_attestations_iff. Qed.

(** C10: a checkpoint or slot that is justified after a block was justified before
    it, or distinct validators making up two thirds of the registry voted for
    it, each in an attestation of this block or in a vote the state had recorded;
    its root is the root of a block of the chain, at a justifiable slot. *)
Theorem justification_safety s atts s' :
  state_wf s -> process_attestations s atts = Ok s' ->
  (st_latest_justified s' = st_latest_justified s \/
   justified_by_quorum s atts (st_latest_justified s')) /\
  forall t, finalized_slot_of s' < t ->
    is_slot_justified (st_justified_slots s') (finalized_slot_of s') t = Ok true ->
    justified_slot s atts t.
Proof.
  intros Hwf (ls & -> & Hl & Hs)%process_attestations_loop; [|done].
  split; [apply Hs|]. cbn. rewrite (lw_fin _ _ Hl). apply Hs.
Qed.

(** C11: finality never moves back within a block, and a newly finalized
    checkpoint is a justified block of the chain such that no justifiable slot
    lies between it and a later slot that two thirds of the registry justified. *)
Theorem finalization_safety s atts s' :
  state_wf s -> process_attestations s atts = Ok s' ->
  finalized_slot_of s <= finalized_slot_of s' /\
  (st_latest_finalized s' = st_latest_finalized s \/
   finalized_by_quorum s atts (st_latest_finalized s')).
Proof.
  intros Hwf (ls & -> & Hl & Hs)%process_attestations_loop; [|done].
  split; [cbn; rewrite (lw_fin _ _ Hl); apply Hl|apply Hs].
Qed.

(** C20: on a well-formed state, when every attestation has a voter and a source
    no further back than one slot before finality, processing terminates without
    a panic and fails only for a slot outside the window or the history or an
    unknown validator; the internal root check never fires. *)
Theorem process_attestations_total s atts :
  state_wf s -> (forall a, a ∈ atts -> attestation_safe s a) ->
  only_fails [EOutsideTrackedRange; EIndexOutOfBounds; EValidatorIndexOutOfRange]
    (process_attestations s atts).
Proof. intros Hwf. by apply process_attestations_fails. Qed.

(** An attestation that passes every check of the loop but has no aggregation
    bit set makes processing panic instead of returning an error. *)
Theorem attestation_without_voters_panics s js a atts :
  state_wf s -> load_justifications s = Ok js ->
  vote_valid s (init_loop s js) (ad_source (aa_data a)) (ad_target (aa_data a)) ->
  set_bits (aa_aggregation_bits a) = [] ->
  process_attestations s (a :: atts) = Panic PAssert.
Proof.
  intros Hwf Hjs Hv Hb.
  destruct (process_attestations_eq s Hwf (a :: atts)) as (js' & rts & Hjs' & _ & _ & _ & ->).
  rewrite Hjs in Hjs'. injection Hjs' as <-. cbn [foldM]. unfold process_attestation.
  rewrite (proj2 (attestation_counts_true _ _ _ _) Hv). cbn [negb mbind outcome_bind].
  by rewrite to_validator_indices_panic.
Qed.

(** C26: the header of a block is accepted exactly when its slot is the state's
    and after the last block's, the proposer is the slot's turn in a nonempty
    registry, the parent root is the last header's and the history has room; the
    result appends the parent root and a zero per skipped slot, extends the
    window, and anchors both checkpoints at the parent of the first block. *)
Theorem process_block_header_spec s b s' :
  state_wf s ->
  process_block_header s b = Ok s' <-> header_valid s b /\ s' = header_post s b.
Proof. apply process_block_header_iff. Qed.

(** Advancing to a later slot always succeeds, whatever the distance, in one
    go or through a slot in between with the same result; it changes only the
    slot and the state root of the header. *)
Theorem process_slots_compose s t u :
  is_u64 u -> st_slot s < t -> t < u ->
  exists s1 s2, process_slots s t = Ok s1 /\ process_slots s1 u = Ok s2 /\
    process_slots s u = Ok s2 /\ st_slot s2 = u /\ same_but_slot s s2.
Proof.
  intros Hu Hst Htu.
  destruct (process_slots_eq s t) as [H1 S1]; [unfold is_u64 in *; lia|done|].
  destruct (process_slots_eq s u Hu) as [H2 S2]; [lia|].
  eexists _, _. split; [done|]. rewrite <-S1 in Htu.
  destruct (process_slots_eq _ u Hu Htu) as [H3 _]. rewrite H3, H2.
  split; [done|]. rewrite S1 in *. rewrite <-Nat.iter_add.
  replace (N.to_nat (u - t) + N.to_nat (t - st_slot s))%nat
    with (N.to_nat (u - st_slot s)) by lia.
  split; [done|]. split; [done|]. apply iter_step_same.
Qed.

(** C36: flattening a map of vote vectors into the state and reading it back gives
    the map, and the reader of [get_justifications] and the one inside
    [process_attestations] agree on every well-formed state. *)
Theorem justifications_roundtrip s m :
  state_wf s -> votes_map_ok s m ->
  (exists s', with_justifications s m = Ok s' /\ get_justifications s' = m) /\
  load_justifications s = Ok (get_justifications s).
Proof.
  intros Hwf Hm. split; [|by apply get_justifications_load].
  eexists. split; [apply with_justifications_Ok|apply get_flattened]; done || apply Hwf.
Qed.

(** The votes a block leaves pending are exactly the ones the next block
    starts from. *)
Theorem pending_votes_persist s rts js ls atts s' :
  state_wf s -> load_justifications s = Ok js ->
  build_root_to_slot s (finalized_slot_of s) = Ok rts ->
  foldM (process_attestation s rts) (init_loop s js) atts = Ok ls ->
  store_justifications s ls = Ok s' ->
  load_justifications s' = Ok (al_justifications ls).
Proof.
  intros Hwf Hjs Hb Hf Hst.
  destruct (process_attestations_eq s Hwf atts) as (js' & rts' & Hjs' & Hb' & Hrts & Hl & _).
  rewrite Hjs in Hjs'. rewrite Hb in Hb'. injection Hjs' as <-. injection Hb' as <-.
  apply foldM_att_steps in Hf; [|done..].
  eapply (att_steps_inv s Hwf (fun _ => True)) in Hf as [_ Hw]; [|done..].
  rewrite store_justifications_Ok in Hst by done. injection Hst as <-. by apply load_stored.
Qed.
End Properties.

(** C28: the floating-point test for a justifiable slot is exact: up to a distance
    of [2^62] from finality it returns whether the distance is at most five, a
    square or a product of two consecutive numbers. *)
Theorem is_justifiable_after_correct s f :
  is_u64 s -> f <= s -> s - f < 4611686018427387904 ->
  is_justifiable_after s f = Ok (bool_decide (justifiable_after s f)).
Proof. apply is_justifiable_after_exact. Qed.

(** * The concrete chain *)

Section Concrete.
Import Toy.

Lemma toy_genesis_chain : chain_state genesis.
Proof.
  apply (chain_genesis 1000 (mkValidator PublicKey_default <$> nrange 0 4)). reflexivity.
Qed.

Lemma toy_state1_chain : chain_state state1.
Proof.
  apply (chain_block genesis (sign_block block1 vote0) true);
    [apply toy_genesis_chain|done|apply chain_runs].
Qed.

Lemma toy_state2_chain : chain_state state2.
Proof.
  apply (chain_block state1 (sign_block block2 vote0) true);
    [apply toy_state1_chain|done|apply chain_runs].
Qed.

Lemma toy_state2_wf : state_wf state2.
Proof. apply chain_state_is_wf, toy_state2_chain. Qed.

Lemma toy_mid3_wf : state_wf mid3.
Proof.
  assert (Hs : exists s1, process_slots state2 4 = Ok s1 /\
    process_block_header s1 block3 = Ok mid3) 
    by (exists (get state2 (process_slots state2 4)); split; vm_compute; reflexivity).
  destruct Hs as (s1 & Hs & Hh).
  pose proof (process_slots_wf state2 4 s1 eq_refl toy_state2_wf Hs) as Hw.
  apply process_block_header_iff in Hh as [Hv ->]; [|done]. by apply header_post_wf.
Qed.

(** Justifying slot 2 and finalizing slot 1. *)
Lemma toy_mid3_runs : process_attestations mid3 [vote2] = Ok state3.
Proof. vm_compute. reflexivity. Qed.

Lemma chain_state_wf_witness : state_wf state2.
Proof. apply chain_state_wf. exact toy_state2_chain. Defined.

Lemma chain_state_typed_witness : state_typed state2.
Proof. apply (chain_state_typed state2 toy_state2_chain). Defined.

Lemma state_transition_correct_witness :
  block_applied state2 block3 state3 /\ true = true /\
  b_state_root block3 = hash_tree_root state3.
Proof.
  apply (state_transition_correct state2 (sign_block block3 vote0) true state3);
    [exact toy_state2_wf|reflexivity|apply chain_runs].
Defined.

Lemma process_attestations_refines_witness :
  exists js rts ls, load_justifications mid3 = Ok js /\
    build_root_to_slot mid3 0 = Ok rts /\
    att_steps mid3 rts (init_loop mid3 js) [vote2] ls /\ state3 = stored mid3 ls.
Proof.
  apply (process_attestations_refines mid3 [vote2] state3 toy_mid3_wf). exact toy_mid3_runs.
Defined.

Lemma justification_safety_witness :
  justified_by_quorum mid3 [vote2] (st_latest_justified state3).
Proof.
  destruct (justification_safety mid3 [vote2] state3 toy_mid3_wf toy_mid3_runs)
    as [[H|H] _]; [vm_compute in H; discriminate H|exact H].
Defined.

Lemma finalization_safety_witness :
  finalized_slot_of mid3 <= finalized_slot_of state3 /\
  finalized_by_quorum mid3 [vote2] (st_latest_finalized state3).
Proof.
  destruct (finalization_safety mid3 [vote2] state3 toy_mid3_wf toy_mid3_runs)
    as [H1 [H|H]]; [vm_compute in H; discriminate H|exact (conj H1 H)].
Defined.

Lemma process_attestations_total_witness :
  only_fails [EOutsideTrackedRange; EIndexOutOfBounds; EValidatorIndexOutOfRange]
    (process_attestations mid3 [vote2]).
Proof.
  apply (process_attestations_total mid3 [vote2] toy_mid3_wf).
  intros a ->%list_elem_of_singleton. split; vm_compute; discriminate.
Defined.

(** The attestation of [block3], with its voters removed. *)
Definition voteless : AggregatedAttestation := vote 2 cp1 cp2 [false; false; false; false].

Lemma attestation_without_voters_panics_witness :
  process_attestations mid3 [voteless] = Panic PAssert.
Proof.
  apply (attestation_without_voters_panics mid3 ∅ voteless []);
    [exact toy_mid3_wf|vm_compute; reflexivity| |vm_compute; reflexivity].
  repeat split; vm_compute; (reflexivity || discriminate).
Defined.

(** The same attestation inside a block of the chain. *)
Example voteless_block_panics :
  state_transition state2 (sign_block (mkBlock 4 0 (b_parent_root block3) 0
    (mkBlockBody [voteless])) vote0) true = Panic PAssert.
Proof. vm_compute. reflexivity. Qed.

(** Three blocks later slot 4 is final; a quorum for slot 6 with source slot 1,
    which the loop takes for justified, then asks whether slot 2 is justifiable
    after slot 4. *)
Definition cp4 : Checkpoint := Eval vm_compute in mkCheckpoint (hash_tree_root block3) 4.
Definition block4 : Block := Eval vm_compute in propose state3 5 [vote 4 cp2 cp4 three_of_four].
Definition state4 : State := Eval vm_compute in after state3 block4.
Definition cp5 : Checkpoint := Eval vm_compute in mkCheckpoint (hash_tree_root block4) 5.
Definition block5 : Block := Eval vm_compute in propose state4 6 [vote 5 cp4 cp5 three_of_four].
Definition state5 : State := Eval vm_compute in after state4 block5.
Definition cp6 : Checkpoint := Eval vm_compute in mkCheckpoint (hash_tree_root block5) 6.

Example old_source_panics :
  st_latest_finalized state5 = cp4 /\
  state_transition state5 (sign_block (mkBlock 7 3 (cp_root cp6) 0
    (mkBlockBody [vote 6 cp1 cp6 three_of_four])) vote0) true = Panic PAssert.
Proof. vm_compute. split; reflexivity. Qed.

Lemma process_block_header_spec_witness :
  process_block_header (get state2 (process_slots state2 4)) block3 =
  Ok (header_post (get state2 (process_slots state2 4)) block3).
Proof.
  apply (process_block_header_spec (get state2 (process_slots state2 4)) block3).
  - assert (H : process_slots state2 4 = Ok (get state2 (process_slots state2 4)))
      by (vm_compute; reflexivity).
    exact (process_slots_wf state2 4 _ eq_refl toy_state2_wf H).
  - split; [|reflexivity]. split; vm_compute; (reflexivity || discriminate).
Defined.

Lemma process_slots_compose_witness :
  exists s1 s2, process_slots state2 3 = Ok s1 /\ process_slots s1 5 = Ok s2 /\
    process_slots state2 5 = Ok s2 /\ st_slot s2 = 5 /\ same_but_slot state2 s2.
Proof. apply (process_slots_compose state2 3 5); reflexivity. Defined.

Lemma justifications_roundtrip_witness :
  (exists s', with_justifications mid3 {[77 := three_of_four]} = Ok s' /\
     get_justifications s' = {[77 := three_of_four]}) /\
  load_justifications mid3 = Ok (get_justifications mid3).
Proof.
  apply (justifications_roundtrip mid3 {[77 := three_of_four]} toy_mid3_wf). split.
  - intros r v [<- <-]%lookup_singleton_Some. reflexivity.
  - vm_compute. discriminate.
Defined.

(** One vote of four: pending for the next block. *)
Definition lone_vote : AggregatedAttestation := vote 2 cp1 cp2 [true; false; false; false].

Lemma pending_votes_persist_witness :
  load_justifications (get mid3 (process_attestations mid3 [lone_vote])) =
  Ok {[cp_root cp2 := [true; false; false; false]]}.
Proof.
  set (rts := get ∅ (build_root_to_slot mid3 (finalized_slot_of mid3))).
  set (ls := get (init_loop mid3 ∅)
    (foldM (process_attestation mid3 rts) (init_loop mid3 ∅) [lone_vote])).
  apply (pending_votes_persist mid3 rts ∅ ls [lone_vote]);
    [exact toy_mid3_wf|vm_compute; reflexivity..].
Defined.

Lemma is_justifiable_after_correct_witness : is_justifiable_after 30 0 = Ok true.
Proof.
  rewrite (is_justifiable_after_correct 30 0) by (vm_compute; (reflexivity || discriminate)).
  vm_compute. reflexivity.
Defined.
End Concrete.
