(* ===== verification/Liveness.v ===== *)
(** * Liveness of justification

    The converse of the safety of [Attestations]: when the attestations of a block,
    with the votes the state had recorded, make up two thirds of the registry for a
    block that can be justified, it is justified after the block, in whatever order
    the attestations come and whatever else the block attests. *)

From S2P Require Import Prelude Slot Ssz Xmss Containers State JustifiedSlots StateInv.
From S2P Require Import AttestationSpec Transition Attestations Example StateTheorems.

#[local] Open Scope N_scope.

(** The slot is justified in the loop variables. *)
Abbreviation loop_justified ls t :=
  (is_slot_justified (al_justified_slots ls) (al_finalized_slot ls) t) (only parsing).

(** A block of the chain that can be justified, and whose root is at one slot only. *)
Record votable (s : State) (target : Checkpoint) : Prop := {
  vt_nonzero : cp_root target <> 0;
  vt_hist : get_nth (st_historical_block_hashes s) (cp_slot target) = Some (cp_root target);
  vt_once : forall i, get_nth (st_historical_block_hashes s) i = Some (cp_root target) ->
    i = cp_slot target;
  vt_justifiable : is_justifiable_after (cp_slot target) (finalized_slot_of s) = Ok true
}.

Definition votableb (s : State) (target : Checkpoint) : bool :=
  negb (cp_root target =? 0) &&
  bool_decide (get_nth (st_historical_block_hashes s) (cp_slot target) = Some (cp_root target)) &&
  forallb (fun '(i, r) => implb (r =? cp_root target) (i =? cp_slot target))
    (enumerate (st_historical_block_hashes s)) &&
  match is_justifiable_after (cp_slot target) (finalized_slot_of s) with Ok b => b | _ => false end.

Lemma votableb_ok s target : votableb s target = true -> votable s target.
Proof.
  unfold votableb. intros [[[H1 H2%bool_decide_eq_true]%andb_prop H3]%andb_prop H4]%andb_prop.
  split; [lia|done| |by destruct (is_justifiable_after _ _) as [[]| | |]].
  intros i Hi%elem_of_enumerate. rewrite forallb_forall in H3.
  specialize (H3 (i, cp_root target) (proj1 (list_elem_of_In _ _) Hi)). cbn in H3.
  rewrite N.eqb_refl in H3. by apply N.eqb_eq.
Qed.

(** An attestation for [target] whose source is a justified block of the chain
    before it. *)
Record valid_vote (s : State) (target : Checkpoint) (a : AggregatedAttestation) : Prop := {
  vv_target : ad_target (aa_data a) = target;
  vv_source : is_slot_justified (st_justified_slots s) (finalized_slot_of s)
    (cp_slot (ad_source (aa_data a))) = Ok true;
  vv_nonzero : cp_root (ad_source (aa_data a)) <> 0;
  vv_hist : get_nth (st_historical_block_hashes s) (cp_slot (ad_source (aa_data a))) =
    Some (cp_root (ad_source (aa_data a)));
  vv_before : cp_slot (ad_source (aa_data a)) < cp_slot target
}.

Section Quorum.
Context {C : SszContainers} {HC : SszContainersLaws C}.
Context (s : State) (Hwf : state_wf s) (rts : gmap H256 Slot) (Hrts : rts_ok s rts).

(** ** Justified slots stay justified *)

Lemma mark_justified ls source target t :
  loop_wf s ls -> vote_valid s ls source target ->
  t = cp_slot target \/ loop_justified ls t = Ok true ->
  loop_justified (with_mark target ls) t = Ok true.
Proof.
  intros Hl Hv Ht. pose proof (vote_valid_target_index _ Hwf _ _ _ Hl Hv) as (Hft & Hidx & _).
  cbn. rewrite is_slot_justified_mark by (done || by eapply loop_fin_u64).
  case_decide; naive_solver.
Qed.

Lemma finalized_justified ls source target t :
  loop_wf s ls -> vote_valid s ls source target ->
  no_justifiable_between s (cp_slot source) (cp_slot target) ->
  t = cp_slot target \/ loop_justified ls t = Ok true ->
  loop_justified (with_finalized rts source (with_mark target ls)) t = Ok true.
Proof.
  intros Hl Hv Hgap Ht. pose proof (finalize_not_before _ Hwf _ _ _ Hl Hv Hgap) as Hle.
  pose proof (mark_justified ls source target t Hl Hv Ht) as Hm.
  pose proof (vote_valid_target_index _ Hwf _ _ _ Hl Hv) as (_ & _ & Hsu).
  pose proof (loop_fin_u64 _ Hwf _ Hl) as Hfu.
  unfold with_finalized. case_decide as E; cbn in *; [by rewrite E|].
  destruct (N.le_gt_cases t (cp_slot source)); [by apply is_slot_justified_le|].
  by rewrite is_slot_justified_shift by (done || lia).
Qed.

Lemma att_step_justified ls a ls' t :
  loop_wf s ls -> att_step s rts ls a ls' -> loop_justified ls t = Ok true ->
  loop_justified ls' t = Ok true.
Proof.
  intros Hl Hst Ht. destruct Hst; [done|done|..].
  - eapply mark_justified; [by apply voted_wf|done|by right].
  - eapply finalized_justified; [by apply voted_wf|done..|by right].
Qed.

(** Every slot of the chain is inside the window. *)
Lemma window_total ls t r :
  loop_wf s ls -> get_nth (st_historical_block_hashes s) t = Some r ->
  exists b, loop_justified ls t = Ok b.
Proof.
  intros Hl [Ht _]%(slot_bound _ Hwf). pose proof (loop_fin_u64 _ Hwf _ Hl) as Hfu.
  destruct (N.le_gt_cases t (al_finalized_slot ls)) as [Hle|Hgt].
  { exists true. by apply is_slot_justified_le. }
  rewrite is_slot_justified_gt by done. pose proof (lw_window _ _ Hl) as Hw.
  destruct (get_nth (al_justified_slots ls) (t - al_finalized_slot ls - 1)) as [b|] eqn:E;
    [by exists b|]. unfold get_nth, len_u64 in *. apply lookup_ge_None in E. lia.
Qed.

(** ** Votes for the target are kept until it is justified *)

Context (target : Checkpoint) (Ht : votable s target).

Lemma target_unique a ls source :
  vote_valid s ls source (ad_target (aa_data a)) ->
  cp_root (ad_target (aa_data a)) = cp_root target -> ad_target (aa_data a) = target.
Proof.
  intros (_ & _ & _ & _ & _ & Hh & _) Er. rewrite Er in Hh. apply (vt_once _ _ Ht) in Hh.
  destruct (ad_target (aa_data a)), target. cbn in *. congruence.
Qed.

Record collecting (done : list AggregatedAttestation) (ls : AttestationLoop) : Prop := {
  co_stored : forall i, stored_vote s (cp_root target) i ->
    get_nth (tracked_votes s ls (cp_root target)) i = Some true;
  co_cast : forall a i, a ∈ done -> valid_vote s target a ->
    i ∈ set_bits (aa_aggregation_bits a) ->
    get_nth (tracked_votes s ls (cp_root target)) i = Some true;
  co_short : (exists a, a ∈ done /\ valid_vote s target a) ->
    ~ quorum s (tracked_votes s ls (cp_root target))
}.

Definition justified_or_collecting (done : list AggregatedAttestation) (ls : AttestationLoop)
    : Prop :=
  loop_justified ls (cp_slot target) = Ok true \/ collecting done ls.

(** A step that leaves the target's votes alone. *)
Lemma collecting_other done ls a ls' :
  tracked_votes s ls' (cp_root target) = tracked_votes s ls (cp_root target) ->
  ~ valid_vote s target a -> collecting done ls -> collecting (a :: done) ls'.
Proof.
  intros E Hn [C1 C2 C3]. split; rewrite E; [done|..].
  - intros a' i [->|Ha]%elem_of_cons; [done|by apply C2].
  - intros (a' & [->|Ha]%elem_of_cons & Hv); [done|]. by apply C3; exists a'.
Qed.

Lemma collecting_voted done ls a :
  loop_wf s ls -> voters_ok s a -> ad_target (aa_data a) = target ->
  ~ quorum s (tracked_votes s (voted s ls a) (cp_root (ad_target (aa_data a)))) ->
  collecting done ls -> collecting (a :: done) (voted s ls a).
Proof.
  intros Hl [_ Hids] Et Hq [C1 C2 C3]. rewrite tracked_votes_voted, Et in Hq.
  assert (Hnth : forall i, get_nth (tracked_votes s (voted s ls a) (cp_root target)) i =
    if decide (i ∈ set_bits (aa_aggregation_bits a)) then Some true
    else get_nth (tracked_votes s ls (cp_root target)) i).
  { intros i. rewrite <-Et, tracked_votes_voted. apply get_nth_add_votes.
    rewrite tracked_votes_len by done. done. }
  split.
  - intros i Hi. rewrite Hnth. case_decide; [done|by apply C1].
  - intros a' i [->|Ha]%elem_of_cons Hv Hi; rewrite Hnth; case_decide; try done. by eapply C2.
  - intros _. rewrite <-Et, tracked_votes_voted, Et. done.
Qed.

(** The votes for another root are not the target's. *)
Lemma tracked_voted_ne ls a :
  cp_root (ad_target (aa_data a)) <> cp_root target ->
  tracked_votes s (voted s ls a) (cp_root target) = tracked_votes s ls (cp_root target).
Proof. intros Hne. unfold tracked_votes, voted. cbn. by rewrite lookup_insert_ne. Qed.

Lemma tracked_mark_ne ls t :
  cp_root t <> cp_root target ->
  tracked_votes s (with_mark t ls) (cp_root target) = tracked_votes s ls (cp_root target).
Proof. intros Hne. unfold tracked_votes. cbn. by rewrite lookup_delete_ne. Qed.

(** Finalization drops the target's votes only with the target behind it. *)
Lemma tracked_finalized ls source :
  finalized_slot_of s <= cp_slot source ->
  is_u64 (cp_slot source + 1) ->
  loop_justified (with_finalized rts source ls) (cp_slot target) = Ok true \/
  tracked_votes s (with_finalized rts source ls) (cp_root target) =
    tracked_votes s ls (cp_root target).
Proof.
  intros Hf Hsu. unfold with_finalized. case_decide as E; [by right|].
  destruct (N.le_gt_cases (cp_slot target) (cp_slot source)) as [Hle|Hgt];
    [left; by apply is_slot_justified_le|right].
  unfold tracked_votes. cbn. f_equal.
  destruct (al_justifications ls !! cp_root target) as [v|] eqn:Ev.
  - apply map_lookup_filter_Some. split; [done|].
    destruct (proj2 Hrts (cp_root target) (cp_slot target)) as (j & -> & Hj); [lia|apply Ht|].
    cbn. lia.
  - apply map_lookup_filter_None. by left.
Qed.

Lemma att_step_collects done ls a ls' :
  loop_wf s ls -> att_step s rts ls a ls' ->
  (valid_vote s target a -> loop_justified ls (cp_slot (ad_source (aa_data a))) = Ok true) ->
  justified_or_collecting done ls -> justified_or_collecting (a :: done) ls'.
Proof.
  intros Hl Hst Hsrc [Hj|Hc]; [left; by eapply att_step_justified|].
  destruct Hst as [Hskip|Hv Hok Hq|Hv Hok Hq Hany|Hv Hok Hq Hgap].
  - destruct (window_total ls (cp_slot target) _ Hl (vt_hist _ _ Ht)) as [[] Hb]; [by left|].
    right. apply collecting_other with ls; [done| |done]. intros Hvv.
    assert (Hv : vote_valid s ls (ad_source (aa_data a)) target).
    { specialize (Hsrc Hvv). destruct Hvv, Ht. by unfold vote_valid. }
    rewrite <-(vv_target _ _ _ Hvv) in Hv. apply attestation_counts_true in Hv. congruence.
  - right. destruct (decide (cp_root (ad_target (aa_data a)) = cp_root target)) as [Er|Er].
    + apply collecting_voted; try done. by eapply target_unique.
    + apply collecting_other with ls; [by apply tracked_voted_ne| |done].
      intros Hvv. by rewrite (vv_target _ _ _ Hvv) in Er.
  - destruct (decide (cp_root (ad_target (aa_data a)) = cp_root target)) as [Er|Er].
    + left. eapply mark_justified; [by apply voted_wf|done|left].
      by rewrite (target_unique _ _ _ Hv Er).
    + right. apply collecting_other with ls; [|intros Hvv; by rewrite (vv_target _ _ _ Hvv) in Er|done].
      by rewrite tracked_mark_ne, tracked_voted_ne.
  - destruct (decide (cp_root (ad_target (aa_data a)) = cp_root target)) as [Er|Er].
    + left. eapply finalized_justified; [by apply voted_wf|done..|left].
      by rewrite (target_unique _ _ _ Hv Er).
    + pose proof (finalize_not_before _ Hwf _ _ _ Hl Hv Hgap) as Hle.
      pose proof (lw_mono _ _ Hl) as Hmono.
      pose proof (vote_valid_target_index _ Hwf _ _ _ Hl Hv) as (_ & _ & Hsu).
      destruct (tracked_finalized (with_mark (ad_target (aa_data a)) (voted s ls a))
        (ad_source (aa_data a))) as [?|E]; [lia|done|by left|right].
      apply collecting_other with ls; [|intros Hvv; by rewrite (vv_target _ _ _ Hvv) in Er|done].
      by rewrite E, tracked_mark_ne, tracked_voted_ne.
Qed.

Lemma att_steps_collect seen_atts ls atts ls' :
  loop_wf s ls -> att_steps s rts ls atts ls' ->
  (forall t, is_slot_justified (st_justified_slots s) (finalized_slot_of s) t = Ok true ->
     loop_justified ls t = Ok true) ->
  justified_or_collecting seen_atts ls -> justified_or_collecting (rev atts ++ seen_atts) ls'.
Proof.
  intros Hl H. revert seen_atts. induction H as [|ls a ls1 atts ls2 Hst _ IH]; intros seen_atts Hs Hd; [done|].
  cbn. rewrite <-app_assoc. apply IH.
  - by eapply att_step_wf.
  - intros t Hj. eapply att_step_justified; [done..|by apply Hs].
  - eapply att_step_collects; [done..| |done]. intros Hv. apply Hs, Hv.
Qed.
End Quorum.

Section Properties.
Context {C : SszContainers} {HC : SszContainersLaws C}.

Lemma quorum_reached s atts s' target (voters : list u64) :
  state_wf s -> process_attestations s atts = Ok s' -> votable s target ->
  (exists a, a ∈ atts /\ valid_vote s target a) ->
  NoDup voters -> 2 * len_u64 (st_validators s) <= 3 * len_u64 voters ->
  (forall i, i ∈ voters -> stored_vote s (cp_root target) i \/
     exists a, a ∈ atts /\ valid_vote s target a /\ i ∈ set_bits (aa_aggregation_bits a)) ->
  is_slot_justified (st_justified_slots s') (finalized_slot_of s') (cp_slot target) = Ok true.
Proof.
  intros Hwf (js & rts & ls & Hjs & Hb & Hst & ->)%process_attestations_iff Ht (a0 & Ha0 & Hv0)
    Hnd Hq Hvot; [|done].
  destruct (build_root_to_slot_spec s (finalized_slot_of s)) as (rts' & Hb' & Hrts);
    [by apply wf_fin_u64|]. rewrite Hb in Hb'. injection Hb' as <-.
  pose proof (init_loop_wf s Hwf js Hjs) as Hl0.
  assert (Hl : loop_wf s ls) by (eapply (att_steps_inv s Hwf (fun _ => True)) in Hst as [_ ?]; done).
  cbn. rewrite (lw_fin _ _ Hl).
  destruct (att_steps_collect s Hwf rts Hrts target Ht [] _ _ _ Hl0 Hst) as [?|[C1 C2 C3]];
    [done| |done|].
  { right. split.
    - intros i (js' & v & Hjs' & Hr & Hi). rewrite Hjs in Hjs'. injection Hjs' as <-.
      unfold tracked_votes. cbn. by rewrite Hr.
    - by intros ? ? ?%not_elem_of_nil.
    - by intros (? & ?%not_elem_of_nil & _). }
  rewrite app_nil_r in *. assert (Hin : forall a, a ∈ atts -> a ∈ rev atts).
  { intros a. rewrite !list_elem_of_In. apply in_rev. }
  exfalso. apply C3; [exists a0; auto|]. unfold quorum. rewrite count_true_set_bits.
  etrans; [exact Hq|]. apply N.mul_le_mono_l, NoDup_incl_len; [done|].
  intros i Hi. apply elem_of_set_bits. destruct (Hvot i Hi) as [?|(a & Ha & Hv & Hbit)];
    [by apply C1|by eapply C2; [apply Hin|..]].
Qed.

(** C12: once distinct validators making up two thirds of the registry have voted
    for a block that can be justified, in votes the state had recorded or in
    attestations of this block with a justified source, and one of these
    attestations is in this block, the block's slot is justified afterwards. *)
Theorem quorum_justifies_target s atts s' target (voters : list u64) :
  state_wf s -> process_attestations s atts = Ok s' -> votable s target ->
  (exists a, a ∈ atts /\ valid_vote s target a) ->
  NoDup voters -> 2 * len_u64 (st_validators s) <= 3 * len_u64 voters ->
  (forall i, i ∈ voters -> stored_vote s (cp_root target) i \/
     exists a, a ∈ atts /\ valid_vote s target a /\ i ∈ set_bits (aa_aggregation_bits a)) ->
  is_slot_justified (st_justified_slots s') (finalized_slot_of s') (cp_slot target) = Ok true.
Proof. apply quorum_reached. Qed.
End Properties.

(** * A concrete quorum *)

Section Concrete.
Import Toy.

(** One vote, then two more. *)
Definition split_votes : list AggregatedAttestation :=
  [lone_vote; vote 2 cp1 cp2 [false; true; true; false]].

Definition after_split : State := get mid3 (process_attestations mid3 split_votes).

Lemma split_votes_valid a : a ∈ split_votes -> valid_vote mid3 cp2 a.
Proof.
  unfold split_votes. rewrite !elem_of_cons, elem_of_nil.
  intros [->|[->|[]]]; split; vm_compute; (reflexivity || discriminate).
Qed.

Lemma cp2_votable : votable mid3 cp2.
Proof. apply votableb_ok. vm_compute. reflexivity. Qed.

Lemma quorum_justifies_target_witness :
  is_slot_justified (st_justified_slots mid3) (finalized_slot_of mid3) 2 = Ok false /\
  is_slot_justified (st_justified_slots after_split) (finalized_slot_of after_split) 2 = Ok true.
Proof.
  split; [vm_compute; reflexivity|].
  apply (quorum_justifies_target mid3 split_votes after_split cp2 [0; 1; 2] toy_mid3_wf).
  - vm_compute. reflexivity.
  - exact cp2_votable.
  - exists lone_vote. split; [left|apply split_votes_valid; left].
  - apply (bool_decide_unpack _). vm_compute. reflexivity.
  - vm_compute. discriminate.
  - intros i. rewrite !elem_of_cons, elem_of_nil. intros Hi. right.
    destruct Hi as [->|Hi]; [exists lone_vote|exists (vote 2 cp1 cp2 [false; true; true; false])].
    + split; [left|]. split; [apply split_votes_valid; left|]. vm_compute. left.
    + split; [right; left|]. split; [apply split_votes_valid; right; left|].
      destruct Hi as [->|[->|[]]]; vm_compute; [left|right; left].
Defined.
End Concrete.
