(* ===== verification/Signatures.v ===== *)
(** * Verifying the signatures of a block

    [SignedBlockWithAttestation::verify_signatures] of
    [containers/src/block.rs]. *)

From S2P Require Import Prelude Slot Ssz Xmss Containers State Example.

#[local] Open Scope N_scope.

Section Verify.
Context {LS : LeanSig} {HData : SszHash AttestationData}.

(** The body of the loop over the attestations and their proofs. *)
Definition verify_attestation (validators : list Validator)
    (aggregated_attestation : AggregatedAttestation)
    (aggregated_signature : AggregatedSignatureProof) : outcome unit :=
  validator_ids ← to_validator_indices (aa_aggregation_bits aggregated_attestation);
  _ ← foldM (fun _ validator_id =>
        ensure (validator_id <? len_u64 validators) EValidatorIndexOutOfRange)
      tt validator_ids;
  public_keys ← mapM (fun id =>
      v ← ok_or (get_nth validators id) EIndexOutOfBounds; Ok (v_pubkey v)) validator_ids;
  AggregatedSignatureProof_verify aggregated_signature public_keys
    (hash_tree_root (aa_data aggregated_attestation))
    (as_u32 (ad_slot (aa_data aggregated_attestation))).

Definition verify_signatures (self : SignedBlockWithAttestation) (parent_state : State)
    : outcome unit :=
  let block := bwa_block (sb_message self) in
  let signatures := sb_signature self in
  let aggregated_attestations := bb_attestations (b_body block) in
  let attestation_signatures := bs_attestation_signatures signatures in
  _ ← ensure (len_u64 aggregated_attestations =? len_u64 attestation_signatures)
    ESignatureCountMismatch;
  let validators := st_validators parent_state in
  _ ← foldM (fun _ '(a, p) => verify_attestation validators a p) tt
    (zip aggregated_attestations attestation_signatures);
  let proposer_attestation := bwa_proposer_attestation (sb_message self) in
  _ ← ensure (at_validator_id proposer_attestation <? len_u64 validators) EProposerOutOfRange;
  proposer ← ok_or (get_nth validators (at_validator_id proposer_attestation))
    EProposerOutOfRange;
  Signature_verify (bs_proposer_signature signatures) (v_pubkey proposer)
    (as_u32 (ad_slot (at_data proposer_attestation)))
    (hash_tree_root (at_data proposer_attestation)).

(** ** What a verified block guarantees *)

(** The proof verifies under the registered keys of exactly the voters. *)
Definition attestation_verified (validators : list Validator)
    (a : AggregatedAttestation) (p : AggregatedSignatureProof) : Prop :=
  let voters := set_bits (aa_aggregation_bits a) in
  voters <> [] /\
  exists keys, Forall2 (fun i k => exists v, get_nth validators i = Some v /\ k = v_pubkey v)
    voters keys /\
  AggregatedSignature_verify (asp_proof_data p) keys (hash_tree_root (aa_data a))
    (as_u32 (ad_slot (aa_data a))) = Ok tt.

Lemma foldM_unit {A} (f : A -> outcome unit) l :
  foldM (fun _ x => f x) tt l = Ok tt <-> Forall (fun x => f x = Ok tt) l.
Proof.
  induction l as [|x l IH]; cbn; [done|]. rewrite bind_Ok, Forall_cons, <-IH. split.
  - by intros ([] & ? & ?).
  - intros [? ?]. by exists tt.
Qed.

Lemma verify_attestation_iff validators a p :
  verify_attestation validators a p = Ok tt <-> attestation_verified validators a p.
Proof.
  unfold verify_attestation, attestation_verified, AggregatedSignatureProof_verify. split.
  - intros H. apply bind_Ok in H as (ids & [-> Hne]%to_validator_indices_Ok & H).
    apply bind_Ok in H as ([] & _ & (keys & Hk%mapM_Ok & H)%bind_Ok).
    split; [done|]. exists keys. split; [|done]. eapply Forall2_impl; [done|].
    intros i k Hik. cbn in Hik. ok_inv. eauto.
  - intros (Hne & keys & Hk & H).
    rewrite (proj2 (to_validator_indices_Ok _ _) (conj eq_refl Hne)). cbn [mbind outcome_bind].
    rewrite (proj2 (foldM_unit _ _)); cbn [mbind outcome_bind].
    + rewrite (proj2 (mapM_Ok _ _ keys)); [done|]. eapply Forall2_impl; [done|].
      intros i k (v & Hv & ->). cbn. by rewrite Hv.
    + apply Forall_forall. intros i Hi. apply list_elem_of_lookup in Hi as [n Hn].
      eapply Forall2_lookup_l in Hk as (k & _ & v & Hv & _); [|done].
      apply get_nth_lt in Hv. apply ensure_Ok. lia.
Qed.

Lemma verify_all_iff vs atts proofs :
  length atts = length proofs ->
  foldM (fun _ '(a, p) => verify_attestation vs a p) tt (zip atts proofs) = Ok tt <->
  Forall2 (attestation_verified vs) atts proofs.
Proof.
  intros Hlen. rewrite (foldM_unit (fun '(a, p) => verify_attestation vs a p)), Forall2_same_length_lookup.
  rewrite Forall_lookup. split.
  - intros H. split; [done|]. intros i a p Ha Hp. apply verify_attestation_iff, (H i (a, p)).
    by apply lookup_zip_Some.
  - intros [_ H] i [a p] [Ha Hp]%lookup_zip_Some. apply verify_attestation_iff. by eapply H.
Qed.

(** With all proofs verified, what is left is the proposer's signature. *)
Lemma verify_signatures_proposer sb s :
  let proposer := bwa_proposer_attestation (sb_message sb) in
  Forall2 (attestation_verified (st_validators s)) (bb_attestations (b_body (bwa_block (sb_message sb))))
    (bs_attestation_signatures (sb_signature sb)) ->
  verify_signatures sb s =
    match get_nth (st_validators s) (at_validator_id proposer) with
    | Some v => Signature_verify (bs_proposer_signature (sb_signature sb)) (v_pubkey v)
        (as_u32 (ad_slot (at_data proposer))) (hash_tree_root (at_data proposer))
    | None => Err EProposerOutOfRange
    end.
Proof.
  intros proposer Hall. pose proof (Forall2_length _ _ _ Hall) as Hlen. unfold verify_signatures.
  replace (_ =? _) with true by (unfold len_u64; lia). cbn [ensure mbind outcome_bind].
  rewrite (proj2 (verify_all_iff _ _ _ Hlen) Hall). cbn [mbind outcome_bind]. fold proposer.
  destruct (get_nth _ _) as [v|] eqn:Hv; [|by destruct (_ <? _)].
  pose proof (get_nth_lt _ _ _ Hv). by replace (_ <? _) with true by lia.
Qed.

(** C29: verification of a signed block succeeds exactly when there is one proof
    per attestation, every attestation has at least one voter, all registered,
    and its proof verifies under their registered keys for the attestation's data
    root and slot, and the proposer's signature verifies under the registered key
    of a registered validator.  The signatures are checked in every build: the comment
    on [verify_signatures] says that without a feature [xmss-verify] only the structure
    is, but there is no such feature. *)
Theorem verify_signatures_correct sb s :
  verify_signatures sb s = Ok tt <->
  let atts := bb_attestations (b_body (bwa_block (sb_message sb))) in
  let proofs := bs_attestation_signatures (sb_signature sb) in
  let proposer := bwa_proposer_attestation (sb_message sb) in
  Forall2 (attestation_verified (st_validators s)) atts proofs /\
  exists v, get_nth (st_validators s) (at_validator_id proposer) = Some v /\
    Signature_verify (bs_proposer_signature (sb_signature sb)) (v_pubkey v)
      (as_u32 (ad_slot (at_data proposer))) (hash_tree_root (at_data proposer)) = Ok tt.
Proof.
  cbn zeta. split.
  - intros H. pose proof H as H'. unfold verify_signatures in H'. ok_inv.
    unfold len_u64 in Hx. apply N.eqb_eq, Nat2N.inj in Hx.
    split; [by apply verify_all_iff|by eauto].
  - intros (Hall & v & Hv & Hsig). by rewrite verify_signatures_proposer, Hv.
Qed.

(** A block that does not verify is refused with an error where the comment on
    [verify_signatures] announces a panic: another number of proofs than attestations,
    a proposer out of range, a proposer's signature that does not verify. *)
Theorem verify_signatures_refuses sb s :
  let atts := bb_attestations (b_body (bwa_block (sb_message sb))) in
  let proofs := bs_attestation_signatures (sb_signature sb) in
  let proposer := bwa_proposer_attestation (sb_message sb) in
  (length atts <> length proofs -> verify_signatures sb s = Err ESignatureCountMismatch) /\
  (Forall2 (attestation_verified (st_validators s)) atts proofs ->
   (get_nth (st_validators s) (at_validator_id proposer) = None ->
    verify_signatures sb s = Err EProposerOutOfRange) /\
   forall v k sig, get_nth (st_validators s) (at_validator_id proposer) = Some v ->
     PublicKey_as_lean (v_pubkey v) = Ok k ->
     Signature_as_lean (bs_proposer_signature (sb_signature sb)) = Ok sig ->
     lean_verify k (as_u32 (ad_slot (at_data proposer))) (hash_tree_root (at_data proposer)) sig = false ->
     verify_signatures sb s = Err EVerify).
Proof.
  cbn zeta. split.
  - intros Hlen. unfold verify_signatures.
    replace (_ =? _) with false by (symmetry; apply N.eqb_neq; unfold len_u64; lia). done.
  - intros Hall. rewrite verify_signatures_proposer by done. split; [by intros ->|].
    intros v k sig -> Hk Hs Hf. unfold Signature_verify. rewrite Hk, Hs. cbn. by rewrite Hf.
Qed.
End Verify.
