(* ===== verification/BuildBlock.v ===== *)
(** * Building a block

    [State::build_block] and [State::compute_aggregated_signatures] of
    [containers/src/state.rs]: collecting attestations up to a fixed point,
    covering them with signature proofs, and sealing the block. *)

From S2P Require Import Prelude Slot Ssz Xmss Containers State StateInv Transition.

#[local] Open Scope N_scope.

Abbreviation SignatureMap := (gmap SignatureKey Signature) (only parsing).
Abbreviation PayloadMap := (gmap SignatureKey (list AggregatedSignatureProof)) (only parsing).

(** Iterating over a [HashSet<u64>] yields some element first; which one is not
    specified. *)
Class SetOrder := first_of : gset u64 -> option u64.

Class SetOrderLaws (SO : SetOrder) : Prop := {
  first_of_Some : forall s x, first_of s = Some x -> x ∈ s;
  first_of_None : forall s, first_of s = None -> s = ∅
}.

#[export] Instance elements_order : SetOrder := fun s => head (elements s).

#[export] Instance elements_order_laws : SetOrderLaws elements_order.
Proof.
  split; unfold first_of, elements_order.
  - intros s x H. apply elem_of_elements. destruct (elements s); [done|].
    injection H as ->. left.
  - intros s H. apply leibniz_equiv, elements_empty_iff. by destruct (elements s).
Qed.

Section Build.
Context {C : SszContainers} {LS : LeanSig} {SO : SetOrder}.
Context {HState : SszHash State} {HHeader : SszHash BlockHeader}
  {HBody : SszHash BlockBody} {HData : SszHash AttestationData}.

(** ** Signature aggregation *)

(** Phase 1: the signatures, keys and ids found in the gossip map, and the
    validators left over. *)
Definition gossip_collect (self : State) (data_root : H256)
    (gossip_signatures : option SignatureMap) (validator_ids : list u64)
    : outcome (list Signature * list PublicKey * list u64 * gset u64) :=
  match gossip_signatures with
  | None => Ok ([], [], [], list_to_set validator_ids)
  | Some sigs =>
      foldM (fun '(gsigs, gkeys, gids, remaining) vid =>
          match sigs !! mkSignatureKey vid data_root with
          | Some sig =>
              v ← ok_or (get_nth (st_validators self) vid) EInvalidValidatorId;
              Ok (gsigs ++ [sig], gkeys ++ [v_pubkey v], gids ++ [vid], remaining)
          | None => Ok (gsigs, gkeys, gids, {[vid]} ∪ remaining)
          end)
        ([], [], [], ∅) validator_ids
  end.

(** Phase 2: cover the rest with proofs seen in blocks, the one that covers most
    first; [fuel] bounds the rounds, each of which covers a new validator. *)
Fixpoint greedy_cover (fuel : nat) (data : AttestationData) (data_root : H256)
    (payloads : PayloadMap) (remaining : gset u64)
    (results : list (AggregatedAttestation * AggregatedSignatureProof))
    : outcome (list (AggregatedAttestation * AggregatedSignatureProof)) :=
  match first_of remaining with
  | None => Ok results
  | Some target_id =>
      match payloads !! mkSignatureKey target_id data_root with
      | None => Ok results
      | Some candidates =>
          if bool_decide (candidates = []) then Ok results else
          covers ← mapM (fun proof =>
              ids ← get_participant_indices proof;
              Ok (proof, remaining ∩ list_to_set ids)) candidates;
          '(best_proof, covered_set) ←
            ok_or (max_by (fun x y => N.compare (N.of_nat (size x.2)) (N.of_nat (size y.2)))
                     covers) EGreedyFailure;
          if bool_decide (covered_set = ∅) then Ok results else
          covered_validators ← get_participant_indices best_proof;
          participants ← from_validator_indices covered_validators;
          match fuel with
          | O => Diverge
          | S fuel =>
              greedy_cover fuel data data_root payloads (remaining ∖ covered_set)
                (results ++ [(mkAggregatedAttestation participants data, best_proof)])
          end
      end
  end.

(** One group of attestations with the same data. *)
Definition aggregate_group (self : State) (gossip_signatures : option SignatureMap)
    (aggregated_payloads : option PayloadMap)
    (results : list (AggregatedAttestation * AggregatedSignatureProof))
    (aggregated : AggregatedAttestation)
    : outcome (list (AggregatedAttestation * AggregatedSignatureProof)) :=
  let data := aa_data aggregated in
  let data_root := hash_tree_root data in
  validator_ids ← to_validator_indices (aa_aggregation_bits aggregated);
  '(gossip_sigs, gossip_keys, gossip_ids, remaining) ←
    gossip_collect self data_root gossip_signatures validator_ids;
  results ←
    (if bool_decide (gossip_ids = []) then Ok results else
     participants ← from_validator_indices gossip_ids;
     proof ← AggregatedSignatureProof_aggregate participants gossip_keys gossip_sigs
               data_root (as_u32 (ad_slot data));
     Ok (results ++ [(mkAggregatedAttestation participants data, proof)]));
  match aggregated_payloads with
  | None => Ok results
  | Some payloads => greedy_cover (size remaining) data data_root payloads remaining results
  end.

Definition compute_aggregated_signatures (self : State) (attestations : list Attestation)
    (gossip_signatures : option SignatureMap) (aggregated_payloads : option PayloadMap)
    : outcome (list AggregatedAttestation * list AggregatedSignatureProof) :=
  groups ← aggregate_by_data attestations;
  results ← foldM (aggregate_group self gossip_signatures aggregated_payloads) [] groups;
  if bool_decide (results = []) then Ok ([], []) else Ok (results.*1, results.*2).

(** ** The block *)

(** [self.process_slots(slot)?.process_block(&block)?] *)
Definition apply_block (self : State) (block : Block) : outcome State :=
  state ← process_slots self (b_slot block);
  process_block state block.

(** Whether an available attestation can go into the block. *)
Definition can_include (known_block_roots : gset H256) (latest_justified : Checkpoint)
    (attestations : list Attestation) (gossip_signatures : option SignatureMap)
    (aggregated_payloads : option PayloadMap) (attestation : Attestation) : bool :=
  let data := at_data attestation in
  let sig_key := mkSignatureKey (at_validator_id attestation) (hash_tree_root data) in
  bool_decide (cp_root (ad_head data) ∈ known_block_roots) &&
  bool_decide (ad_source data = latest_justified) &&
  negb (bool_decide (attestation ∈ attestations)) &&
  ((match gossip_signatures with
    | Some sigs => bool_decide (is_Some (sigs !! sig_key)) | None => false end) ||
   (match aggregated_payloads with
    | Some payloads => bool_decide (is_Some (payloads !! sig_key)) | None => false end)).

(** The candidate block of one round. *)
Definition candidate (slot : Slot) (proposer_index : u64) (parent_root : H256)
    (attestations : list AggregatedAttestation) : outcome Block :=
  atts ← ok_or (pl_try_from_iter ValidatorRegistryLimit attestations) EListTooLong;
  Ok (mkBlock slot proposer_index parent_root h256_zero (mkBlockBody atts)).

(** The fixed-point loop; a round that goes on adds an available attestation, so
    there are at most as many as there are of these. *)
Fixpoint collect_loop (fuel : nat) (self : State) (slot : Slot) (proposer_index : u64)
    (parent_root : H256) (available : option (list Attestation))
    (known_block_roots : option (gset H256)) (gossip_signatures : option SignatureMap)
    (aggregated_payloads : option PayloadMap) (attestations : list Attestation)
    : outcome (list Attestation) :=
  aggregated ← aggregate_by_data attestations;
  candidate_block ← candidate slot proposer_index parent_root aggregated;
  post_state ← apply_block self candidate_block;
  match available, known_block_roots with
  | Some available_attestations, Some known =>
      let new_attestations := filter (fun a => can_include known
        (st_latest_justified post_state) attestations gossip_signatures
        aggregated_payloads a = true) available_attestations in
      if bool_decide (new_attestations = []) then Ok attestations else
      match fuel with
      | O => Diverge
      | S fuel => collect_loop fuel self slot proposer_index parent_root available
          known_block_roots gossip_signatures aggregated_payloads
          (attestations ++ new_attestations)
      end
  | _, _ => Ok attestations
  end.

Definition set_block_state_root (r : H256) (b : Block) : Block :=
  mkBlock (b_slot b) (b_proposer_index b) (b_parent_root b) r (b_body b).

Definition build_block (self : State) (slot : Slot) (proposer_index : u64)
    (parent_root : H256) (initial_attestations available_attestations
      : option (list Attestation))
    (known_block_roots : option (gset H256)) (gossip_signatures : option SignatureMap)
    (aggregated_payloads : option PayloadMap)
    : outcome (Block * State * list AggregatedAttestation * list AggregatedSignatureProof) :=
  attestations ← collect_loop (length (default [] available_attestations)) self slot
    proposer_index parent_root available_attestations known_block_roots gossip_signatures
    aggregated_payloads (default [] initial_attestations);
  '(aggregated_attestations, aggregated_signatures) ←
    compute_aggregated_signatures self attestations gossip_signatures aggregated_payloads;
  final_block ← candidate slot proposer_index parent_root aggregated_attestations;
  post_state ← apply_block self final_block;
  Ok (set_block_state_root (hash_tree_root post_state) final_block, post_state,
      aggregated_attestations, aggregated_signatures).
End Build.

(** * Termination of the two loops *)

Lemma max_by_from_elem {A} (cmp : A -> A -> comparison) b l :
  max_by_from cmp b l = b \/ max_by_from cmp b l ∈ l.
Proof.
  revert b; induction l as [|x l IH]; intros b; cbn; [by left|].
  destruct (IH (match cmp b x with Gt => b | _ => x end)) as [->|H].
  - destruct (cmp b x); [right; left|right; left|by left].
  - right. by right.
Qed.

Lemma max_by_elem {A} (cmp : A -> A -> comparison) l x :
  max_by cmp l = Some x -> x ∈ l.
Proof.
  destruct l as [|y l]; [done|]. cbn. intros [= <-].
  destruct (max_by_from_elem cmp y l) as [->|H]; [left|by right].
Qed.

Section Termination.
Context {C : SszContainers} {LS : LeanSig} {SO : SetOrder} {HO : SetOrderLaws SO}.
Context {HState : SszHash State} {HHeader : SszHash BlockHeader}
  {HBody : SszHash BlockBody} {HData : SszHash AttestationData}.

(** The chosen proof, with what it covers. *)
Lemma best_cover (candidates : list AggregatedSignatureProof) (remaining : gset u64)
    (covers : list (AggregatedSignatureProof * gset u64)) cmp p cov :
  mapM (fun proof => ids ← get_participant_indices proof;
    Ok (proof, remaining ∩ list_to_set ids)) candidates = Ok covers ->
  max_by cmp covers = Some (p, cov) ->
  p ∈ candidates /\ cov = remaining ∩ list_to_set (set_bits (asp_participants p)).
Proof.
  intros Hm%mapM_Ok Hb%max_by_elem. apply list_elem_of_lookup in Hb as [k Hk].
  eapply Forall2_lookup_r in Hm as (q & Hq & Hqp); [|done]. cbn in Hqp.
  apply bind_Ok in Hqp as (ids & Hx & [= -> <-]). split; [by eapply list_elem_of_lookup_2|].
  unfold get_participant_indices in Hx. by apply to_validator_indices_Ok in Hx as [-> _].
Qed.

(** A round covers something that was left. *)
Lemma covered_shrinks (remaining covered other : gset u64) :
  covered = remaining ∩ other -> covered <> ∅ ->
  (size (remaining ∖ covered) < size remaining)%nat.
Proof.
  intros -> Hne. apply subset_size. apply set_choose_L in Hne as [x Hx]. set_solver.
Qed.

Lemma greedy_cover_terminates fuel data root payloads remaining results :
  (size remaining <= fuel)%nat ->
  terminates (greedy_cover fuel data root payloads remaining results).
Proof.
  revert remaining results; induction fuel as [|fuel IH]; intros remaining results Hsz; cbn;
    destruct (first_of remaining) as [t|] eqn:Et; try done;
    apply first_of_Some in Et;
    destruct (payloads !! _) as [cands|]; try done; case_bool_decide; try done.
  - exfalso. assert (remaining = ∅) as -> by (apply leibniz_equiv, size_empty_iff; lia).
    set_solver.
  - apply terminates_bind; [solve_terminates; apply terminates_to_validator_indices|].
    intros covers Hc. apply terminates_bind; [solve_terminates|]. intros [p cov] Hb.
    case_bool_decide as Hcov; [done|].
    apply terminates_bind; [apply terminates_to_validator_indices|]. intros ids _.
    apply terminates_bind; [solve_terminates|]. intros bits _. apply IH. ok_inv.
    eapply best_cover in Hb as [_ Hb]; [|done]. apply covered_shrinks in Hb; [lia|done].
Qed.

(** The available attestations that are not in the block yet. *)
Definition missing (available attestations : list Attestation) : list Attestation :=
  filter (fun a => a ∉ attestations) available.

Lemma missing_shrinks available attestations new :
  new <> [] -> (forall a, a ∈ new -> a ∈ available /\ a ∉ attestations) ->
  (length (missing available (attestations ++ new)) < length (missing available attestations))%nat.
Proof.
  intros Hne Hnew. destruct new as [|x new]; [done|].
  destruct (Hnew x) as [Hx Hxn]; [left|].
  unfold missing. clear Hne Hnew. induction available as [|a av IH]; [by apply not_elem_of_nil in Hx|].
  assert (Hle : forall av : list Attestation,
    (length (filter (fun b => b ∉ attestations ++ x :: new) av) <=
     length (filter (fun b => b ∉ attestations) av))%nat).
  { clear. induction av as [|b av IH]; [done|]. rewrite !filter_cons.
    repeat case_decide; cbn; try lia. exfalso. set_solver. }
  specialize (Hle av). rewrite !filter_cons. apply elem_of_cons in Hx as [->|Hx].
  - rewrite decide_False by set_solver. rewrite decide_True by done. cbn. lia.
  - specialize (IH Hx). repeat case_decide; cbn; try lia. exfalso. set_solver.
Qed.

Lemma can_include_new known lj atts gs ps a :
  can_include known lj atts gs ps a = true -> a ∉ atts.
Proof.
  unfold can_include. intros (((_ & _)%andb_prop & H)%andb_prop & _)%andb_prop.
  by apply negb_true_iff, bool_decide_eq_false in H.
Qed.

Lemma terminates_process_slots s t : is_u64 t -> terminates (process_slots s t).
Proof.
  intros Ht. destruct (N.lt_ge_cases (st_slot s) t) as [H|H].
  - by rewrite (proj1 (process_slots_eq s t Ht H)).
  - unfold process_slots. by replace (st_slot s <? t) with false by lia.
Qed.

Lemma terminates_apply_block s b : is_u64 (b_slot b) -> terminates (apply_block s b).
Proof.
  intros Hb. apply terminates_bind; [by apply terminates_process_slots|].
  intros. apply terminates_process_block.
Qed.

Lemma terminates_aggregate_by_data l : terminates (aggregate_by_data l).
Proof. unfold aggregate_by_data. solve_terminates. Qed.

Lemma collect_loop_terminates fuel s slot p parent av known gs ps atts :
  is_u64 slot -> (length (missing (default [] av) atts) <= fuel)%nat ->
  terminates (collect_loop fuel s slot p parent av known gs ps atts).
Proof.
  intros Hslot. revert atts; induction fuel as [|fuel IH]; intros atts Hm; cbn;
    (apply terminates_bind; [apply terminates_aggregate_by_data|]; intros agg _);
    (apply terminates_bind; [unfold candidate; solve_terminates|]; intros b Hb);
    (apply terminates_bind; [|intros post _; destruct av as [av|], known as [known|]; try done;
       case_bool_decide as Hnew; try done]);
    try (apply terminates_apply_block; unfold candidate in Hb; ok_inv; by subst b).
  - exfalso. apply Hnew. apply Nat.le_0_r, nil_length_inv in Hm.
    apply elem_of_nil_inv. intros a [Hc%can_include_new Ha]%list_elem_of_filter.
    assert (Hin : a ∈ missing av atts) by (apply list_elem_of_filter; done).
    cbn [default from_option] in Hm. unfold id in Hm. rewrite Hm in Hin.
    by apply not_elem_of_nil in Hin.
  - apply IH. cbn [default from_option] in *. unfold id in *. enough (length (missing av (atts ++
      filter (fun a => can_include known (st_latest_justified post) atts gs ps a = true) av))
      < length (missing av atts))%nat by lia.
    apply missing_shrinks; [done|]. intros a [Hc%can_include_new Ha]%list_elem_of_filter. done.
Qed.

Lemma compute_aggregated_signatures_terminates s atts gs ps :
  terminates (compute_aggregated_signatures s atts gs ps).
Proof.
  assert (Hpk : forall k : PublicKey, terminates (PublicKey_as_lean k))
    by (intros; unfold PublicKey_as_lean; solve_terminates).
  assert (Hsig : forall k : Signature, terminates (Signature_as_lean k))
    by (intros; unfold Signature_as_lean; solve_terminates).
  assert (Hg : forall r ids, terminates (gossip_collect s r gs ids))
    by (intros; unfold gossip_collect; solve_terminates).
  unfold compute_aggregated_signatures, aggregate_group, AggregatedSignatureProof_aggregate,
    AggregatedSignature_aggregate.
  apply terminates_bind; [apply terminates_aggregate_by_data|]. intros groups _.
  apply terminates_bind; [|intros; solve_terminates].
  apply terminates_foldM. intros res agg.
  apply terminates_bind; [solve_terminates|]. intros ids _.
  apply terminates_bind; [apply Hg|]. intros [[[gsigs gkeys] gids] rem] _.
  apply terminates_bind; [solve_terminates|]. intros res' _.
  destruct ps; [|done]. by apply greedy_cover_terminates.
Qed.
End Termination.

(** * What is collected and what backs it *)

Section Backing.
Context {C : SszContainers} {HC : SszContainersLaws C} {LS : LeanSig}.
Context {SO : SetOrder} {HO : SetOrderLaws SO}.
Context {HState : SszHash State} {HHeader : SszHash BlockHeader}
  {HBody : SszHash BlockBody} {HData : SszHash AttestationData}.

Definition has_gossip (gs : option SignatureMap) (root : H256) (i : u64) : Prop :=
  exists sigs, gs = Some sigs /\ is_Some (sigs !! mkSignatureKey i root).

#[export] Instance has_gossip_dec gs root i : Decision (has_gossip gs root i).
Proof.
  destruct gs as [sigs|].
  - destruct (decide (is_Some (sigs !! mkSignatureKey i root))) as [H|H]; [left|right].
    + by exists sigs.
    + by intros (? & [= <-] & ?).
  - right. by intros (? & ? & ?).
Defined.

Lemma gossip_collect_inv s root gs ids gsigs gkeys gids remaining :
  gossip_collect s root gs ids = Ok (gsigs, gkeys, gids, remaining) ->
  gids = filter (has_gossip gs root) ids /\
  forall i, i ∈ remaining <-> i ∈ ids /\ ~ has_gossip gs root i.
Proof.
  unfold gossip_collect. destruct gs as [sigs|].
  - revert gsigs gkeys gids remaining. induction ids as [|v ids IH] using rev_ind;
      intros gsigs gkeys gids remaining.
    { intros [= <- <- <- <-]. split; [done|]. set_solver. }
    rewrite foldM_app. intros ([[[gs1 gk1] gi1] rem1] & H1 & H2)%bind_Ok.
    apply IH in H1 as [-> Hrem]. cbn [foldM] in H2.
    apply bind_Ok in H2 as (r2 & H2 & [= ->]). rewrite filter_app, filter_cons, filter_nil.
    destruct (sigs !! mkSignatureKey v root) as [sig|] eqn:Es.
    + rewrite decide_True by (exists sigs; rewrite Es; eauto).
      apply bind_Ok in H2 as (val & _ & [= <- <- <- <-]). split; [done|].
      intros i. rewrite Hrem, elem_of_app, list_elem_of_singleton. split; [naive_solver|].
      intros [[?| ->] Hn]; [done|]. exfalso. apply Hn. exists sigs. rewrite Es. eauto.
    + assert (Hv : ~ has_gossip (Some sigs) root v).
      { intros (? & [= <-] & [? Hsig]). by rewrite Es in Hsig. }
      rewrite decide_False by done. injection H2 as <- <- <- <-.
      rewrite app_nil_r. split; [done|].
      intros i. rewrite elem_of_union, Hrem, elem_of_singleton, elem_of_app,
        list_elem_of_singleton. naive_solver.
  - intros [= <- <- <- <-]. split.
    + symmetry. apply elem_of_nil_inv. by intros i [(? & ? & ?) _]%list_elem_of_filter.
    + intros i. rewrite elem_of_list_to_set. split; [|by intros []]. intros. split; [done|].
      by intros (? & ? & ?).
Qed.

(** An aggregated attestation and the proof next to it: the same validators,
    either all with gossip signatures and votes of their own, or the proof is one a
    block had for a collected vote and covers a collected vote. *)
Definition backed (atts : list Attestation) (gs : option SignatureMap)
    (ps : option PayloadMap) (r : AggregatedAttestation * AggregatedSignatureProof) : Prop :=
  let voters := set_bits (aa_aggregation_bits r.1) in
  let data := aa_data r.1 in
  voters <> [] /\ voters = set_bits (asp_participants r.2) /\
  ((forall i, i ∈ voters ->
      mkAttestation i data ∈ atts /\ has_gossip gs (hash_tree_root data) i) \/
   (exists i payloads cands, ps = Some payloads /\
      payloads !! mkSignatureKey i (hash_tree_root data) = Some cands /\ r.2 ∈ cands /\
      mkAttestation i data ∈ atts /\
      exists j, j ∈ voters /\ mkAttestation j data ∈ atts)).

Lemma from_sorted_indices l bits :
  StronglySorted N.lt l -> from_validator_indices l = Ok bits ->
  set_bits bits = l /\ set_bits bits <> [].
Proof.
  intros Hs [Hne Hin]%from_validator_indices_inv.
  assert (set_bits bits = l) as ->; [|done].
  apply StronglySorted_lt_unique; [apply set_bits_sorted|done|done].
Qed.

Lemma greedy_cover_backed fuel atts gs payloads data remaining results results' :
  (forall i, i ∈ remaining -> mkAttestation i data ∈ atts) ->
  Forall (backed atts gs (Some payloads)) results ->
  greedy_cover fuel data (hash_tree_root data) payloads remaining results = Ok results' ->
  Forall (backed atts gs (Some payloads)) results'.
Proof.
  revert remaining results; induction fuel as [|fuel IH]; intros remaining results Hrem Hres; cbn;
    destruct (first_of remaining) as [t|] eqn:Et; try (by intros [= <-]);
    apply first_of_Some in Et;
    destruct (payloads !! _) as [cands|] eqn:Ec; try (by intros [= <-]);
    case_bool_decide; try (by intros [= <-]);
    intros (covers & Hm & ([p cov] & Hb%ok_or_Ok & H1)%bind_Ok)%bind_Ok; cbn in H1;
    (case_bool_decide as Hcov; [by injection H1 as <-|]);
    apply bind_Ok in H1 as (ids & Hids & (bits & Hbits & H1)%bind_Ok); [done|].
  eapply best_cover in Hb as [Hp Hcv]; [|done]. subst cov.
  unfold get_participant_indices in Hids. apply to_validator_indices_Ok in Hids as [-> Hne].
  apply from_sorted_indices in Hbits as [Hbits _]; [|apply set_bits_sorted].
  eapply IH, H1; [set_solver|].
  apply Forall_app. split; [done|]. apply Forall_singleton. unfold backed.
  cbn [fst snd aa_aggregation_bits aa_data].
  rewrite Hbits. split; [done|]. split; [done|]. right.
    exists t, payloads, cands. do 3 (split; [done|]). split; [by apply Hrem|].
    apply set_choose_L in Hcov as [x [Hxr Hx]%elem_of_intersection].
    exists x. split; [by apply elem_of_list_to_set in Hx|by apply Hrem].
Qed.

Lemma greedy_cover_grows fuel data root payloads remaining results results' :
  greedy_cover fuel data root payloads remaining results = Ok results' ->
  results `prefix_of` results'.
Proof.
  revert remaining results; induction fuel as [|fuel IH]; intros remaining results; cbn;
    destruct (first_of remaining); try (by intros [= <-]);
    destruct (payloads !! _); try (by intros [= <-]);
    case_bool_decide; try (by intros [= <-]);
    intros (covers & Hm & ([p cov] & Hb & H1)%bind_Ok)%bind_Ok; cbn in H1;
    (case_bool_decide; [by injection H1 as <-|]);
    apply bind_Ok in H1 as (ids & Hids & (bits & Hbits & H1)%bind_Ok); [done|].
  apply IH in H1. etrans; [|done]. by apply prefix_app_r.
Qed.

Lemma StronglySorted_filter (P : N -> Prop) `{!forall x, Decision (P x)} l :
  StronglySorted N.lt l -> StronglySorted N.lt (filter P l).
Proof.
  induction 1 as [|x l _ IH Hx]; [constructor|]. rewrite filter_cons. case_decide; [|done].
  constructor; [done|]. rewrite Forall_forall in Hx |- *. intros y [_ Hy]%list_elem_of_filter.
  by apply Hx.
Qed.

(** The votes of a group that have a gossip signature end up in the results. *)
Definition gossip_covered (gs : option SignatureMap)
    (results : list (AggregatedAttestation * AggregatedSignatureProof))
    (g : AggregatedAttestation) : Prop :=
  forall i, i ∈ set_bits (aa_aggregation_bits g) ->
    has_gossip gs (hash_tree_root (aa_data g)) i ->
    exists r, r ∈ results /\ aa_data r.1 = aa_data g /\
      i ∈ set_bits (aa_aggregation_bits r.1).

Lemma gossip_phase s atts gs ps g ids gsigs gkeys gids remaining results results' :
  Forall (backed atts gs ps) results ->
  (forall i, i ∈ ids -> mkAttestation i (aa_data g) ∈ atts) ->
  ids = set_bits (aa_aggregation_bits g) ->
  gossip_collect s (hash_tree_root (aa_data g)) gs ids = Ok (gsigs, gkeys, gids, remaining) ->
  (if bool_decide (gids = []) then Ok results else
   participants ← from_validator_indices gids;
   proof ← AggregatedSignatureProof_aggregate participants gkeys gsigs
             (hash_tree_root (aa_data g)) (as_u32 (ad_slot (aa_data g)));
   Ok (results ++ [(mkAggregatedAttestation participants (aa_data g), proof)])) = Ok results' ->
  Forall (backed atts gs ps) results' /\ results `prefix_of` results' /\
  gossip_covered gs results' g.
Proof.
  intros Hres Hids -> [-> Hrem]%gossip_collect_inv H. case_bool_decide as Hg.
  - injection H as <-. split; [done|]. split; [done|]. intros i Hi Hgi. exfalso.
    assert (Hin : i ∈ filter (has_gossip gs (hash_tree_root (aa_data g)))
      (set_bits (aa_aggregation_bits g))) by (by apply list_elem_of_filter).
    rewrite Hg in Hin. by apply not_elem_of_nil in Hin.
  - ok_inv. subst results'. unfold AggregatedSignatureProof_aggregate in Hx0. ok_inv. subst x0.
    apply from_sorted_indices in Hx as [Hbits Hne];
      [|apply StronglySorted_filter, set_bits_sorted].
    split; [|split; [by apply prefix_app_r|]].
    + apply Forall_app. split; [done|]. apply Forall_singleton. unfold backed.
      cbn [fst snd aa_aggregation_bits aa_data asp_participants].
      split; [done|]. split; [done|]. left. rewrite Hbits.
      intros i [Hgi Hi]%list_elem_of_filter. auto.
    + intros i Hi Hgi. eexists. split; [apply elem_of_app; right; left|].
      cbn [fst aa_data aa_aggregation_bits]. split; [done|]. rewrite Hbits.
      by apply list_elem_of_filter.
Qed.

Lemma aggregate_group_backed s atts gs ps g results results' :
  Forall (backed atts gs ps) results ->
  (forall i, i ∈ set_bits (aa_aggregation_bits g) -> mkAttestation i (aa_data g) ∈ atts) ->
  aggregate_group s gs ps results g = Ok results' ->
  Forall (backed atts gs ps) results' /\ results `prefix_of` results' /\
  gossip_covered gs results' g.
Proof.
  intros Hres Hids H. unfold aggregate_group in H.
  apply bind_Ok in H as (ids & [-> _]%to_validator_indices_Ok & H).
  apply bind_Ok in H as ([[[gsigs gkeys] gids] remaining] & Hg & H).
  apply bind_Ok in H as (results1 & H1 & H).
  pose proof (gossip_phase s atts gs ps g _ gsigs gkeys gids remaining _ _
    Hres Hids eq_refl Hg H1) as (Hb & Hp & Hc).
  destruct ps as [payloads|]; [|injection H as <-; done].
  pose proof H as Hgrow. apply greedy_cover_grows in Hgrow.
  split; [|split; [by etrans|]].
  - eapply greedy_cover_backed, H; [|done].
    apply gossip_collect_inv in Hg as [_ Hrem]. intros i [Hi _]%Hrem. auto.
  - intros i Hi Hgi. destruct (Hc i Hi Hgi) as (r & Hr & ?). exists r. split; [|done].
    destruct Hgrow as [k ->]. apply elem_of_app. by left.
Qed.

Lemma foldM_groups_backed s atts gs ps groups results results' :
  Forall (backed atts gs ps) results ->
  (forall g i, g ∈ groups -> i ∈ set_bits (aa_aggregation_bits g) ->
     mkAttestation i (aa_data g) ∈ atts) ->
  foldM (aggregate_group s gs ps) results groups = Ok results' ->
  Forall (backed atts gs ps) results' /\ results `prefix_of` results' /\
  forall g, g ∈ groups -> gossip_covered gs results' g.
Proof.
  revert results; induction groups as [|g groups IH]; intros results Hres Hids H.
  { injection H as <-. split; [done|]. split; [done|]. by intros ? ?%not_elem_of_nil. }
  cbn in H. apply bind_Ok in H as (r1 & H1 & H).
  apply (aggregate_group_backed s atts) in H1 as (Hb1 & Hp1 & Hc1);
    [|done|intros; apply Hids; [left|done]].
  apply IH in H as (Hb & Hp & Hc); [|done|intros; apply Hids; [by right|done]].
  split; [done|]. split; [by etrans|]. intros g' [->|Hg']%elem_of_cons; [|by apply Hc].
  intros i Hi Hgi. destruct (Hc1 i Hi Hgi) as (r & Hr & ?). exists r. split; [|done].
  destruct Hp as [k ->]. apply elem_of_app. by left.
Qed.

Lemma compute_aggregated_signatures_inv s atts gs ps aggs proofs :
  compute_aggregated_signatures s atts gs ps = Ok (aggs, proofs) ->
  length aggs = length proofs /\ Forall (backed atts gs ps) (zip aggs proofs) /\
  forall i d, mkAttestation i d ∈ atts -> has_gossip gs (hash_tree_root d) i ->
    exists a, a ∈ aggs /\ aa_data a = d /\ i ∈ set_bits (aa_aggregation_bits a).
Proof.
  unfold compute_aggregated_signatures. intros H.
  apply bind_Ok in H as (groups & Hg & H). apply bind_Ok in H as (results & Hr & H).
  apply aggregate_by_data_inv in Hg as [_ Hin].
  apply (foldM_groups_backed s atts) in Hr as (Hb & _ & Hc);
    [|done|intros g i Hg Hi; apply Hin; eauto].
  assert (aggs = results.*1 /\ proofs = results.*2) as [-> ->].
  { case_bool_decide; [subst|]; by injection H as <- <-. }
  rewrite !length_fmap, zip_fst_snd. split; [done|]. split; [done|].
  intros i d Hi Hgi. apply Hin in Hi as (g & Hg & <- & Hi).
  destruct (Hc g Hg i Hi Hgi) as (r & Hr & Hd & Hri). exists r.1.
  split; [by apply list_elem_of_fmap_2|done].
Qed.

(** ** The fixed point *)

(** Nothing available can be added to what was collected. *)
Lemma collect_loop_fixpoint fuel s slot p parent av known gs ps atts atts' :
  collect_loop fuel s slot p parent (Some av) (Some known) gs ps atts = Ok atts' ->
  exists agg b post, aggregate_by_data atts' = Ok agg /\ candidate slot p parent agg = Ok b /\
    apply_block s b = Ok post /\
    (forall a, a ∈ av -> can_include known (st_latest_justified post) atts' gs ps a = false) /\
    (forall a, a ∈ atts' -> a ∈ atts \/ a ∈ av) /\ atts `prefix_of` atts'.
Proof.
  revert atts; induction fuel as [|fuel IH]; intros atts; cbn;
    intros (agg & Hagg & (b & Hb & (post & Hpost & H)%bind_Ok)%bind_Ok)%bind_Ok;
    (case_bool_decide as Hnew;
      [injection H as <-; exists agg, b, post; do 3 (split; [done|]); split; [|auto]|]);
    try done.
  1, 2: intros a Ha; apply not_true_iff_false; intros Hc;
    assert (Hin : a ∈ filter (fun a => can_include known (st_latest_justified post) atts
      gs ps a = true) av) by (by apply list_elem_of_filter);
    rewrite Hnew in Hin; by apply not_elem_of_nil in Hin.
  apply IH in H as (agg' & b' & post' & ? & ? & ? & ? & Hfrom & Hpre).
  exists agg', b', post'. do 4 (split; [done|]). split.
  - intros a [[Ha|Ha%list_elem_of_filter]%elem_of_app|Ha]%Hfrom; naive_solver.
  - etrans; [|done]. by apply prefix_app_r.
Qed.
End Backing.
