(* ===== verification/BuildTheorems.v ===== *)
(** * Theorems about block building *)

From S2P Require Import Prelude Slot Ssz Xmss Containers State StateInv Transition BuildBlock.
From S2P Require Import Signatures Example.

#[local] Open Scope N_scope.

Section Properties.
Context {C : SszContainers} {HC : SszContainersLaws C} {LS : LeanSig}.
Context {SO : SetOrder} {HO : SetOrderLaws SO}.
Context {HState : SszHash State} {HHeader : SszHash BlockHeader}
  {HBody : SszHash BlockBody} {HData : SszHash AttestationData}.

Lemma candidate_inv slot p parent aggs b :
  candidate slot p parent aggs = Ok b ->
  b = mkBlock slot p parent 0 (mkBlockBody aggs) /\ len_u64 aggs <= ValidatorRegistryLimit.
Proof.
  unfold candidate. rewrite pl_try_from_iter_law. intros H.
  destruct (N.leb_spec (len_u64 aggs) ValidatorRegistryLimit); ok_inv; [|done].
  by injection Hx as <-.
Qed.

Lemma build_block_inv s slot p parent initial av known gs ps b post aggs proofs :
  build_block s slot p parent initial av known gs ps = Ok (b, post, aggs, proofs) ->
  exists atts, collect_loop (length (default [] av)) s slot p parent av known gs ps
      (default [] initial) = Ok atts /\
    compute_aggregated_signatures s atts gs ps = Ok (aggs, proofs) /\
    b = mkBlock slot p parent (hash_tree_root post) (mkBlockBody aggs) /\
    apply_block s (mkBlock slot p parent 0 (mkBlockBody aggs)) = Ok post.
Proof.
  unfold build_block. intros H. apply bind_Ok in H as (atts & Hc & H).
  apply bind_Ok in H as ([aggs' proofs'] & Hs & H). apply bind_Ok in H as (fb & Hfb & H).
  apply bind_Ok in H as (post' & Hp & [= <- <- <- <-]).
  apply candidate_inv in Hfb as [-> _]. eauto.
Qed.

(** Sealing a block with its state root does not change what it does. *)
Lemma sealed_transition s b post a sig :
  apply_block s b = Ok post ->
  state_transition s (mkSignedBlockWithAttestation (mkBlockWithAttestation
    (set_block_state_root (hash_tree_root post) b) a) sig) true = Ok post.
Proof.
  unfold apply_block, state_transition. intros H. cbn [ensure mbind outcome_bind].
  apply bind_Ok in H as (s1 & H1 & H2). cbn [sb_message bwa_block set_block_state_root b_slot].
  rewrite H1. cbn [mbind outcome_bind].
  change (process_block s1 (set_block_state_root (hash_tree_root post) b))
    with (process_block s1 b). rewrite H2. cbn [mbind outcome_bind b_state_root].
  by rewrite N.eqb_refl.
Qed.

(** C16: a block that [build_block] returns is for the given slot, proposer and
    parent, carries the aggregated attestations it returns next to it, with one
    proof each and no two with the same data root, and is accepted by the state
    transition of the same state, with the post-state it returns. *)
Theorem build_block_accepted s slot p parent initial av known gs ps b post aggs proofs a sig :
  build_block s slot p parent initial av known gs ps = Ok (b, post, aggs, proofs) ->
  b_slot b = slot /\ b_proposer_index b = p /\ b_parent_root b = parent /\
  bb_attestations (b_body b) = aggs /\ length aggs = length proofs /\
  NoDup ((fun a => hash_tree_root (aa_data a)) <$> aggs) /\
  state_transition s (mkSignedBlockWithAttestation (mkBlockWithAttestation b a) sig) true
    = Ok post.
Proof.
  intros (atts & _ & Hs & -> & Hp)%build_block_inv.
  apply compute_aggregated_signatures_inv in Hs as (Hlen & _).
  pose proof (sealed_transition _ _ _ a sig Hp) as Ht.
  do 4 (split; [done|]). split; [done|]. split; [|exact Ht].
  unfold apply_block, process_block in Hp. ok_inv. cbn in Hx1.
  apply has_duplicate_data_spec. by apply negb_true_iff.
Qed.


(** Collection of attestations stops at a fixed point: every collected vote
    was given or available, and no available vote with a known head, the source
    that the candidate block justifies and a signature or proof is left out. *)
Theorem collect_fixpoint fuel s slot p parent av known gs ps atts atts' :
  collect_loop fuel s slot p parent (Some av) (Some known) gs ps atts = Ok atts' ->
  exists agg b post, aggregate_by_data atts' = Ok agg /\ candidate slot p parent agg = Ok b /\
    apply_block s b = Ok post /\ (forall a, a ∈ atts' -> a ∈ atts \/ a ∈ av) /\
    forall a, a ∈ av -> cp_root (ad_head (at_data a)) ∈ known ->
      ad_source (at_data a) = st_latest_justified post ->
      has_gossip gs (hash_tree_root (at_data a)) (at_validator_id a) -> a ∈ atts'.
Proof.
  intros (agg & b & post & ? & ? & ? & Hno & Hfrom & _)%collect_loop_fixpoint.
  exists agg, b, post. do 4 (split; [done|]).
  intros a Ha Hk Hsrc (sigs & -> & Hsig). specialize (Hno a Ha). unfold can_include in Hno.
  rewrite (bool_decide_eq_true_2 _ Hk), (bool_decide_eq_true_2 _ Hsrc),
    (bool_decide_eq_true_2 _ Hsig) in Hno. cbn in Hno.
  destruct (decide (a ∈ atts')) as [|Hn]; [done|].
  by rewrite (bool_decide_eq_false_2 _ Hn) in Hno.
Qed.

(** C35: block building terminates: the rounds of the attestation loop and of the
    greedy cover are bounded by the available votes and the uncovered validators. *)
Theorem build_block_terminates s slot p parent initial av known gs ps :
  is_u64 slot -> terminates (build_block s slot p parent initial av known gs ps).
Proof.
  intros Hslot. apply terminates_bind.
  - apply collect_loop_terminates; [done|]. apply length_filter.
  - intros atts _. apply terminates_bind; [apply compute_aggregated_signatures_terminates|].
    intros [aggs proofs] _. apply terminates_bind; [unfold candidate; solve_terminates|].
    intros fb [-> _]%candidate_inv. apply terminates_bind; [by apply terminates_apply_block|].
    intros; done.
Qed.
End Properties.

(** * The concrete chain *)

Section Concrete.
Import Toy.

Definition data2 : AttestationData := aa_data vote2.

Definition parent3 : H256 := Eval vm_compute in
  b_parent_root (propose state2 3 []).

Definition available2 : list Attestation :=
  [mkAttestation 2 data2; mkAttestation 0 data2; mkAttestation 1 data2].

(** Signatures of validators 0, 1 and 2 on [data2]. *)
Definition gossip2 : SignatureMap :=
  list_to_map ((fun i => (mkSignatureKey i (hash_tree_root data2), Signature_default))
    <$> [0; 1; 2]).

Definition known2 : gset H256 := {[cp_root cp2]}.

Definition build3 (gs : SignatureMap) (ps : PayloadMap) :=
  build_block state2 3 3 parent3 None (Some available2) (Some known2) (Some gs) (Some ps).

(** The components of the result, computed once. *)
Definition built3 : Block * State * list AggregatedAttestation * list AggregatedSignatureProof :=
  Eval vm_compute in get (block1, genesis, [], []) (build3 gossip2 ∅).

Lemma build3_runs : build3 gossip2 ∅ =
  Ok (built3.1.1.1, built3.1.1.2, built3.1.2, built3.2).
Proof. vm_compute. reflexivity. Qed.

Lemma build_block_accepted_witness :
  length built3.2 = 1%nat /\
  state_transition state2 (sign_block built3.1.1.1 vote0) true = Ok built3.1.1.2.
Proof.
  destruct (build_block_accepted _ _ _ _ _ _ _ _ _ _ _ _ _ vote0
    (mkBlockSignatures [] Signature_default) build3_runs) as (_ & _ & _ & _ & _ & _ & H).
  split; [reflexivity|exact H].
Defined.


Lemma collect_fixpoint_witness :
  exists agg b post, aggregate_by_data available2 = Ok agg /\
    candidate 3 3 parent3 agg = Ok b /\ apply_block state2 b = Ok post /\
    (forall a, a ∈ available2 -> a ∈ [] \/ a ∈ available2) /\
    forall a, a ∈ available2 -> cp_root (ad_head (at_data a)) ∈ known2 ->
      ad_source (at_data a) = st_latest_justified post ->
      has_gossip (Some gossip2) (hash_tree_root (at_data a)) (at_validator_id a) ->
      a ∈ available2.
Proof.
  apply (collect_fixpoint 3 state2 3 3 parent3 available2 known2 (Some gossip2) (Some ∅) []).
  vm_compute. reflexivity.
Defined.

Lemma build_block_terminates_witness : terminates (build3 gossip2 ∅).
Proof. apply build_block_terminates. reflexivity. Defined.

(** Votes with the same data, one signed in gossip and two only covered by the
    proof of an earlier block, make two attestations with the same data, which
    the block then refuses: no block is built. *)
Definition proof12 : AggregatedSignatureProof :=
  mkAggregatedSignatureProof [false; true; true] (mkAggregatedSignature []).

Definition gossip0 : SignatureMap :=
  {[mkSignatureKey 0 (hash_tree_root data2) := Signature_default]}.

Definition payloads12 : PayloadMap :=
  list_to_map ((fun i => (mkSignatureKey i (hash_tree_root data2), [proof12])) <$> [1; 2]).

Example mixed_sources_build_no_block :
  build3 gossip0 payloads12 = Err EDuplicateAttestationData.
Proof. vm_compute. reflexivity. Qed.
End Concrete.
