(* ===== verification/ForkChoice.v ===== *)
(** * The fork-choice store and its handlers

    [fork_choice/src/store.rs] and [fork_choice/src/handlers.rs].  Functions that
    take [&mut Store] are computations of the state monad [stM Store], whose final
    store is there after an error too.  Logging and metrics are left out. *)

From S2P Require Import Prelude Slot Ssz Xmss Containers State BuildBlock.

#[local] Open Scope N_scope.

(** Iterating over a [HashMap]: every entry once, in an order that is not
    specified. *)
Class MapOrder := hm_iter : forall {K V} `{Countable K}, gmap K V -> list (K * V).

Class MapOrderLaws (MO : MapOrder) : Prop :=
  hm_iter_perm : forall {K V} `{Countable K} (m : gmap K V), hm_iter m ≡ₚ map_to_list m.

#[export] Instance map_to_list_order : MapOrder := fun K V _ _ m => map_to_list m.

#[export] Instance map_to_list_order_laws : MapOrderLaws map_to_list_order.
Proof. intros K V ? ? m. reflexivity. Qed.

Abbreviation Interval := N (only parsing).

Definition INTERVALS_PER_SLOT : Interval := 4.
Definition SECONDS_PER_SLOT : u64 := 4.
Definition SECONDS_PER_INTERVAL : u64 := SECONDS_PER_SLOT / INTERVALS_PER_SLOT.
Definition JUSTIFICATION_LOOKBACK_SLOTS : nat := 3.

Record Store := mkStore {
  s_time : Interval;
  s_config : Config;
  s_head : H256;
  s_safe_target : H256;
  s_latest_justified : Checkpoint;
  s_latest_finalized : Checkpoint;
  s_blocks : gmap H256 Block;
  s_states : gmap H256 State;
  s_latest_known_attestations : gmap u64 AttestationData;
  s_latest_new_attestations : gmap u64 AttestationData;
  s_blocks_queue : gmap H256 (list SignedBlockWithAttestation);
  s_gossip_signatures : gmap SignatureKey Signature;
  s_aggregated_payloads : gmap SignatureKey (list AggregatedSignatureProof)
}.

Definition set_time (v : Interval) (s : Store) : Store :=
  mkStore v (s_config s) (s_head s) (s_safe_target s) (s_latest_justified s)
    (s_latest_finalized s) (s_blocks s) (s_states s) (s_latest_known_attestations s)
    (s_latest_new_attestations s) (s_blocks_queue s) (s_gossip_signatures s)
    (s_aggregated_payloads s).

Definition set_head (v : H256) (s : Store) : Store :=
  mkStore (s_time s) (s_config s) v (s_safe_target s) (s_latest_justified s)
    (s_latest_finalized s) (s_blocks s) (s_states s) (s_latest_known_attestations s)
    (s_latest_new_attestations s) (s_blocks_queue s) (s_gossip_signatures s)
    (s_aggregated_payloads s).

Definition set_safe_target (v : H256) (s : Store) : Store :=
  mkStore (s_time s) (s_config s) (s_head s) v (s_latest_justified s)
    (s_latest_finalized s) (s_blocks s) (s_states s) (s_latest_known_attestations s)
    (s_latest_new_attestations s) (s_blocks_queue s) (s_gossip_signatures s)
    (s_aggregated_payloads s).

Definition set_latest_justified (v : Checkpoint) (s : Store) : Store :=
  mkStore (s_time s) (s_config s) (s_head s) (s_safe_target s) v (s_latest_finalized s)
    (s_blocks s) (s_states s) (s_latest_known_attestations s)
    (s_latest_new_attestations s) (s_blocks_queue s) (s_gossip_signatures s)
    (s_aggregated_payloads s).

Definition set_latest_finalized (v : Checkpoint) (s : Store) : Store :=
  mkStore (s_time s) (s_config s) (s_head s) (s_safe_target s) (s_latest_justified s) v
    (s_blocks s) (s_states s) (s_latest_known_attestations s)
    (s_latest_new_attestations s) (s_blocks_queue s) (s_gossip_signatures s)
    (s_aggregated_payloads s).

Definition set_blocks (v : gmap H256 Block) (s : Store) : Store :=
  mkStore (s_time s) (s_config s) (s_head s) (s_safe_target s) (s_latest_justified s)
    (s_latest_finalized s) v (s_states s) (s_latest_known_attestations s)
    (s_latest_new_attestations s) (s_blocks_queue s) (s_gossip_signatures s)
    (s_aggregated_payloads s).

Definition set_states (v : gmap H256 State) (s : Store) : Store :=
  mkStore (s_time s) (s_config s) (s_head s) (s_safe_target s) (s_latest_justified s)
    (s_latest_finalized s) (s_blocks s) v (s_latest_known_attestations s)
    (s_latest_new_attestations s) (s_blocks_queue s) (s_gossip_signatures s)
    (s_aggregated_payloads s).

Definition set_latest_known_attestations (v : gmap u64 AttestationData) (s : Store) : Store :=
  mkStore (s_time s) (s_config s) (s_head s) (s_safe_target s) (s_latest_justified s)
    (s_latest_finalized s) (s_blocks s) (s_states s) v (s_latest_new_attestations s)
    (s_blocks_queue s) (s_gossip_signatures s) (s_aggregated_payloads s).

Definition set_latest_new_attestations (v : gmap u64 AttestationData) (s : Store) : Store :=
  mkStore (s_time s) (s_config s) (s_head s) (s_safe_target s) (s_latest_justified s)
    (s_latest_finalized s) (s_blocks s) (s_states s) (s_latest_known_attestations s) v
    (s_blocks_queue s) (s_gossip_signatures s) (s_aggregated_payloads s).

Definition set_blocks_queue (v : gmap H256 (list SignedBlockWithAttestation)) (s : Store) : Store :=
  mkStore (s_time s) (s_config s) (s_head s) (s_safe_target s) (s_latest_justified s)
    (s_latest_finalized s) (s_blocks s) (s_states s) (s_latest_known_attestations s)
    (s_latest_new_attestations s) v (s_gossip_signatures s) (s_aggregated_payloads s).

Definition set_gossip_signatures (v : gmap SignatureKey Signature) (s : Store) : Store :=
  mkStore (s_time s) (s_config s) (s_head s) (s_safe_target s) (s_latest_justified s)
    (s_latest_finalized s) (s_blocks s) (s_states s) (s_latest_known_attestations s)
    (s_latest_new_attestations s) (s_blocks_queue s) v (s_aggregated_payloads s).

Definition set_aggregated_payloads (v : gmap SignatureKey (list AggregatedSignatureProof)) (s : Store) : Store :=
  mkStore (s_time s) (s_config s) (s_head s) (s_safe_target s) (s_latest_justified s)
    (s_latest_finalized s) (s_blocks s) (s_states s) (s_latest_known_attestations s)
    (s_latest_new_attestations s) (s_blocks_queue s) (s_gossip_signatures s) v.


(** The votes of a block in a weight map. *)
Abbreviation weight w r := (default 0%N (w !! r)) (only parsing).

Section ForkChoice.
Context {C : SszContainers} {LS : LeanSig} {SO : SetOrder} {MO : MapOrder}.
Context {HState : SszHash State} {HHeader : SszHash BlockHeader} {HBlock : SszHash Block}
  {HBody : SszHash BlockBody} {HData : SszHash AttestationData}.

(** [store.blocks[&root]] *)
Definition block_at (store : Store) (root : H256) : outcome Block :=
  or_panic (s_blocks store !! root) PIndex.

(** ** Attestation target *)

(** The walk toward the safe target, at most [n] steps. *)
Fixpoint walk_to_safe (n : nat) (store : Store) (safe_slot : Slot) (target : H256)
    : outcome H256 :=
  match n with
  | O => Ok target
  | S n =>
      b ← block_at store target;
      if safe_slot <? b_slot b then walk_to_safe n store safe_slot (b_parent_root b)
      else Ok target
  end.

(** The walk to a justifiable slot. *)
Fixpoint walk_to_justifiable (fuel : nat) (store : Store) (final_slot : Slot)
    (target : H256) : outcome H256 :=
  b ← block_at store target;
  j ← is_justifiable_after (b_slot b) final_slot;
  if (j : bool) then Ok target else
  match fuel with
  | O => Diverge
  | S fuel => walk_to_justifiable fuel store final_slot (b_parent_root b)
  end.

Definition get_attestation_target (store : Store) : outcome Checkpoint :=
  safe_block ← block_at store (s_safe_target store);
  target ← walk_to_safe JUSTIFICATION_LOOKBACK_SLOTS store (b_slot safe_block) (s_head store);
  target ← walk_to_justifiable (size (s_blocks store)) store
    (cp_slot (s_latest_finalized store)) target;
  block_target ← block_at store target;
  Ok (mkCheckpoint target (b_slot block_target)).

Definition produce_attestation_data (store : Store) (slot : Slot) : outcome AttestationData :=
  head_block ← ok_or (s_blocks store !! s_head store) EHeadBlockUnknown;
  target_checkpoint ← get_attestation_target store;
  Ok (mkAttestationData slot (mkCheckpoint (s_head store) (b_slot head_block))
        target_checkpoint (s_latest_justified store)).

(** ** Anchor *)

Definition anchor_or_default (cp : Checkpoint) (root : H256) (slot : Slot) : Checkpoint :=
  if is_zero (cp_root cp) then mkCheckpoint root slot else cp.

Definition get_forkchoice_store (anchor_state : State)
    (anchor_block : SignedBlockWithAttestation) (config : Config) : Store :=
  let block := bwa_block (sb_message anchor_block) in
  let block_root := hash_tree_root block in
  mkStore (wmul (b_slot block) INTERVALS_PER_SLOT) config block_root block_root
    (anchor_or_default (st_latest_justified anchor_state) block_root (b_slot block))
    (anchor_or_default (st_latest_finalized anchor_state) block_root (b_slot block))
    {[block_root := block]} {[block_root := anchor_state]} ∅ ∅ ∅ ∅ ∅.

(** ** Head *)

(** [*vote_weights.entry(r).or_insert(0) += 1] *)
Definition bump (r : H256) (w : gmap H256 N) : gmap H256 N := <[r := weight w r + 1]> w.

(** Stage 1, for one vote: every block from the voted head up to the root's slot
    gets the vote. *)
Fixpoint walk_vote (fuel : nat) (blocks : gmap H256 Block) (root_slot : Slot)
    (curr : H256) (curr_slot : Slot) (w : gmap H256 N) : outcome (gmap H256 N) :=
  if root_slot <? curr_slot then
    let w := bump curr w in
    match blocks !! curr with
    | None => Ok w
    | Some parent_block =>
        let curr := b_parent_root parent_block in
        if is_zero curr then Ok w else
        match blocks !! curr with
        | None => Ok w
        | Some next_block =>
            match fuel with
            | O => Diverge
            | S fuel => walk_vote fuel blocks root_slot curr (b_slot next_block) w
            end
        end
    end
  else Ok w.

Definition vote_weights (blocks : gmap H256 Block) (root_slot : Slot)
    (latest_attestations : list AttestationData) : outcome (gmap H256 N) :=
  foldM (fun w d =>
      let curr := cp_root (ad_head d) in
      match blocks !! curr with
      | Some block => walk_vote (size blocks) blocks root_slot curr (b_slot block) w
      | None => Ok w
      end)
    ∅ latest_attestations.

(** Stage 2: the children of each block that have enough votes. *)
Definition child_map (w : gmap H256 N) (min_votes : N) (blocks : list (H256 * Block))
    : gmap H256 (list H256) :=
  foldl (fun m '(block_hash, block) =>
      if is_zero (b_parent_root block) then m
      else if min_votes <=? weight w block_hash
      then <[b_parent_root block :=
             default [] (m !! b_parent_root block) ++ [block_hash]]> m
      else m)
    ∅ blocks.

(** Most votes first, then the larger hash. *)
Definition better (w : gmap H256 N) (a b : H256) : comparison :=
  match N.compare (weight w a) (weight w b) with
  | Eq => N.compare a b
  | c => c
  end.

(** Stage 3 *)
Fixpoint descend (fuel : nat) (children : gmap H256 (list H256)) (w : gmap H256 N)
    (curr : H256) : outcome H256 :=
  match max_by (better w) (default [] (children !! curr)) with
  | None => Ok curr
  | Some next =>
      match fuel with
      | O => Diverge
      | S fuel => descend fuel children w next
      end
  end.

Definition get_fork_choice_head (store : Store) (root : H256)
    (latest_attestations : gmap u64 AttestationData) (min_votes : N) : outcome H256 :=
  root ← (if is_zero root
          then or_panic (fst <$> min_by_key (fun rb => b_slot rb.2) (hm_iter (s_blocks store)))
                 PUnwrap
          else Ok root);
  root_block ← block_at store root;
  w ← vote_weights (s_blocks store) (b_slot root_block) (hm_iter latest_attestations).*2;
  descend (size (s_blocks store)) (child_map w min_votes (hm_iter (s_blocks store))) w root.

(** [max_by_key(|checkpoint| checkpoint.slot)] *)
Definition get_latest_justified (states : gmap H256 State) : option Checkpoint :=
  max_by (fun a b => N.compare (cp_slot a) (cp_slot b))
    ((fun rs => st_latest_justified rs.2) <$> hm_iter states).

(** ** Updates *)

Definition update_head : stM Store unit :=
  update_st (fun store =>
    new_head ← get_fork_choice_head store (cp_root (s_latest_justified store))
      (s_latest_known_attestations store) 0;
    Ok (set_head new_head store)).

Definition update_safe_target : stM Store unit :=
  update_st (fun store =>
    let n_validators := match s_states store !! s_head store with
      | Some state => len_u64 (st_validators state)
      | None => 0
      end in
    let min_score := wadd (wmul n_validators 2) 2 / 3 in
    new_safe_target ← get_fork_choice_head store (cp_root (s_latest_justified store))
      (s_latest_new_attestations store) min_score;
    Ok (set_safe_target new_safe_target store)).

(** [extend] overwrites, [drain] empties. *)
Definition accept_new_attestations : stM Store unit :=
  _ ← modify_st (fun store => set_latest_new_attestations ∅
        (set_latest_known_attestations
          (s_latest_new_attestations store ∪ s_latest_known_attestations store) store));
  update_head.

Definition tick_interval (has_proposal : bool) : stM Store unit :=
  _ ← modify_st (fun store => set_time (wadd (s_time store) 1) store);
  store ← get_st;
  let curr_interval := s_time store `mod` INTERVALS_PER_SLOT in
  if (curr_interval =? 0) && has_proposal then accept_new_attestations
  else if curr_interval =? 2 then update_safe_target
  else if curr_interval =? 3 then accept_new_attestations
  else mret tt.

(** ** Handlers *)

Fixpoint tick_loop (fuel : nat) (tick_interval_time : u64) (has_proposal : bool)
    : stM Store unit :=
  store ← get_st;
  if s_time store <? tick_interval_time then
    match fuel with
    | O => lift_st Diverge
    | S fuel =>
        let should_signal_proposal :=
          has_proposal && (wadd (s_time store) 1 =? tick_interval_time) in
        _ ← tick_interval should_signal_proposal;
        tick_loop fuel tick_interval_time has_proposal
    end
  else mret tt.

Definition on_tick (time : u64) (has_proposal : bool) : stM Store unit :=
  store ← get_st;
  let tick_interval_time :=
    saturating_sub time (genesis_time (s_config store)) / SECONDS_PER_INTERVAL in
  tick_loop (N.to_nat (tick_interval_time - s_time store)) tick_interval_time has_proposal.

Definition validate_attestation_data (store : Store) (data : AttestationData)
    : outcome unit :=
  _ ← ensure (bool_decide (is_Some (s_blocks store !! cp_root (ad_source data))))
    EUnknownSource;
  _ ← ensure (bool_decide (is_Some (s_blocks store !! cp_root (ad_target data))))
    EUnknownTarget;
  _ ← ensure (bool_decide (is_Some (s_blocks store !! cp_root (ad_head data))))
    EUnknownHead;
  _ ← ensure (cp_slot (ad_source data) <=? cp_slot (ad_target data)) ESourceAfterTarget;
  source_block ← block_at store (cp_root (ad_source data));
  target_block ← block_at store (cp_root (ad_target data));
  _ ← ensure (b_slot source_block =? cp_slot (ad_source data)) ESourceSlotMismatch;
  _ ← ensure (b_slot target_block =? cp_slot (ad_target data)) ETargetSlotMismatch;
  let current_slot := s_time store / INTERVALS_PER_SLOT in
  ensure (ad_slot data <=? wadd current_slot 1) EAttestationInFuture.

(** [map_or(true, |existing| existing.slot < slot)] *)
Definition newer_than (existing : option AttestationData) (slot : Slot) : bool :=
  match existing with Some d => ad_slot d <? slot | None => true end.

Definition on_attestation_internal (validator_id : u64) (data : AttestationData)
    (is_from_block : bool) : stM Store unit :=
  if is_from_block then
    _ ← modify_st (fun store =>
          if newer_than (s_latest_known_attestations store !! validator_id) (ad_slot data)
          then set_latest_known_attestations
                 (<[validator_id := data]> (s_latest_known_attestations store)) store
          else store);
    modify_st (fun store =>
      match s_latest_new_attestations store !! validator_id with
      | Some existing_new =>
          if ad_slot existing_new <=? ad_slot data
          then set_latest_new_attestations
                 (delete validator_id (s_latest_new_attestations store)) store
          else store
      | None => store
      end)
  else
    modify_st (fun store =>
      if newer_than (s_latest_new_attestations store !! validator_id) (ad_slot data)
      then set_latest_new_attestations
             (<[validator_id := data]> (s_latest_new_attestations store)) store
      else store).

Definition insert_gossip (validator_id : u64) (data : AttestationData) (sig : Signature)
    (store : Store) : Store :=
  set_gossip_signatures
    (<[mkSignatureKey validator_id (hash_tree_root data) := sig]>
       (s_gossip_signatures store)) store.

Definition on_gossip_attestation (signed_attestation : SignedAttestation)
    : stM Store unit :=
  let validator_id := sa_validator_id signed_attestation in
  let data := sa_message signed_attestation in
  store ← get_st;
  _ ← lift_st (validate_attestation_data store data);
  _ ← modify_st (insert_gossip validator_id data (sa_signature signed_attestation));
  on_attestation_internal validator_id data false.

Definition on_attestation (signed_attestation : SignedAttestation) (is_from_block : bool)
    : stM Store unit :=
  let validator_id := sa_validator_id signed_attestation in
  let data := sa_message signed_attestation in
  store ← get_st;
  _ ← lift_st (validate_attestation_data store data);
  _ ← (if is_from_block then mret tt
       else modify_st (insert_gossip validator_id data (sa_signature signed_attestation)));
  on_attestation_internal validator_id data is_from_block.

(** ** Blocks *)

(** Index the proofs of a block by validator and data root. *)
Definition store_proofs (atts : list AggregatedAttestation)
    (proofs : list AggregatedSignatureProof) (store : Store) : Store :=
  set_aggregated_payloads
    (foldl (fun m '(att_idx, a) =>
        match get_nth proofs att_idx with
        | Some proof_data =>
            foldl (fun m '(bit_idx, bit) =>
                if (bit : bool) then
                  let key := mkSignatureKey bit_idx (hash_tree_root (aa_data a)) in
                  <[key := default [] (m !! key) ++ [proof_data]]> m
                else m)
              m (enumerate (aa_aggregation_bits a))
        | None => m
        end)
      (s_aggregated_payloads store) (enumerate atts)) store.

(** The block and its state, and the checkpoints if they are ahead. *)
Definition insert_block (block_root : H256) (block : Block) (new_state : State)
    (store : Store) : Store :=
  let store := set_states (<[block_root := new_state]> (s_states store))
    (set_blocks (<[block_root := block]> (s_blocks store)) store) in
  let justified_updated :=
    cp_slot (s_latest_justified store) <? cp_slot (st_latest_justified new_state) in
  let finalized_updated :=
    cp_slot (s_latest_finalized store) <? cp_slot (st_latest_finalized new_state) in
  let store := if justified_updated
    then set_latest_justified (st_latest_justified new_state) store else store in
  if finalized_updated
  then set_latest_finalized (st_latest_finalized new_state) store else store.

Definition process_block_internal (signed_block : SignedBlockWithAttestation)
    (block_root : H256) : stM Store unit :=
  let block := bwa_block (sb_message signed_block) in
  store ← get_st;
  state ← lift_st (ok_or (s_states store !! b_parent_root block) ENoParentState);
  new_state ← lift_st (state_transition state signed_block true);
  _ ← modify_st (insert_block block_root block new_state);
  let signatures := sb_signature signed_block in
  let aggregated_attestations := bb_attestations (b_body block) in
  let proposer_attestation := bwa_proposer_attestation (sb_message signed_block) in
  _ ← modify_st (store_proofs aggregated_attestations (bs_attestation_signatures signatures));
  _ ← iterM (fun a => iterM (fun validator_id =>
          on_attestation_internal validator_id (aa_data a) true)
        (set_bits (aa_aggregation_bits a))) aggregated_attestations;
  _ ← update_head;
  _ ← modify_st (insert_gossip (at_validator_id proposer_attestation)
        (at_data proposer_attestation) (bs_proposer_signature signatures));
  on_attestation_internal (at_validator_id proposer_attestation)
    (at_data proposer_attestation) false.

(** [if let Ok(()) = m { .. }]: an error is dropped, a panic is not. *)
Definition try_st {S A} (m : stM S A) : stM S bool := fun s =>
  match m s with
  | (s', Ok _) => (s', Ok true)
  | (s', Err _) => (s', Ok false)
  | (s', Panic p) => (s', Panic p)
  | (s', Diverge) => (s', Diverge)
  end.

(** The blocks that waited for one parent; the accepted ones are pushed. *)
Fixpoint process_purgatory (purgatory : list SignedBlockWithAttestation)
    (roots : list H256) : stM Store (list H256) :=
  match purgatory with
  | [] => mret roots
  | block :: purgatory =>
      let block_origins := hash_tree_root (bwa_block (sb_message block)) in
      ok ← try_st (process_block_internal block block_origins);
      process_purgatory purgatory (if (ok : bool) then block_origins :: roots else roots)
  end.

(** The stack of roots, top first. *)
Fixpoint pending_loop (fuel : nat) (roots : list H256) : stM Store unit :=
  match roots with
  | [] => mret tt
  | parent_root :: roots =>
      match fuel with
      | O => lift_st Diverge
      | S fuel =>
          store ← get_st;
          match s_blocks_queue store !! parent_root with
          | Some purgatory =>
              _ ← modify_st (fun store =>
                    set_blocks_queue (delete parent_root (s_blocks_queue store)) store);
              roots ← process_purgatory purgatory roots;
              pending_loop fuel roots
          | None => pending_loop fuel roots
          end
      end
  end.

(** [store.blocks_queue.values().map(|v| v.len()).sum()] *)
Definition queued (store : Store) : nat :=
  sum_list (length <$> (hm_iter (s_blocks_queue store)).*2).

Definition process_pending_blocks (roots : list H256) : stM Store unit :=
  store ← get_st;
  pending_loop (length roots + queued store) roots.

Definition on_block (signed_block : SignedBlockWithAttestation) : stM Store unit :=
  let block := bwa_block (sb_message signed_block) in
  let block_root := hash_tree_root block in
  store ← get_st;
  if bool_decide (is_Some (s_blocks store !! block_root)) then mret tt else
  let parent_root := b_parent_root block in
  if bool_decide (s_states store !! parent_root = None) && negb (is_zero parent_root) then
    _ ← modify_st (fun store => set_blocks_queue
          (<[parent_root := default [] (s_blocks_queue store !! parent_root) ++
               [signed_block]]> (s_blocks_queue store)) store);
    store ← get_st;
    lift_st (Err (EBlockQueued parent_root (queued store)))
  else
    _ ← process_block_internal signed_block block_root;
    process_pending_blocks [block_root].

(** ** Proposing *)

Definition get_proposal_head (slot : Slot) : stM Store H256 :=
  store ← get_st;
  let slot_time := wadd (genesis_time (s_config store)) (wmul slot SECONDS_PER_SLOT) in
  _ ← on_tick slot_time true;
  _ ← accept_new_attestations;
  store ← get_st;
  mret (s_head store).

Definition produce_block_with_signatures (slot : Slot) (validator_index : u64)
    : stM Store (H256 * Block * list AggregatedSignatureProof) :=
  head_root ← get_proposal_head slot;
  store ← get_st;
  head_state ← lift_st (ok_or (s_states store !! head_root) EHeadStateNotFound);
  let num_validators := len_u64 (st_validators head_state) in
  _ ← lift_st (assert_ (negb (num_validators =? 0)) PDivisionByZero);
  let expected_proposer := slot `mod` num_validators in
  _ ← lift_st (ensure (validator_index =? expected_proposer) ENotProposer);
  let available_attestations :=
    (fun '(validator_idx, data) => mkAttestation validator_idx data)
      <$> hm_iter (s_latest_known_attestations store) in
  let known_block_roots : gset H256 := dom (s_blocks store) in
  '(final_block, final_post_state, _, signatures) ← lift_st
    (build_block head_state slot validator_index head_root None
       (Some available_attestations) (Some known_block_roots)
       (Some (s_gossip_signatures store)) (Some (s_aggregated_payloads store)));
  let block_root := hash_tree_root final_block in
  _ ← modify_st (fun store => set_states (<[block_root := final_post_state]> (s_states store))
        (set_blocks (<[block_root := final_block]> (s_blocks store)) store));
  mret (block_root, final_block, signatures).
End ForkChoice.
