(* ===== verification/ForkChoiceHead.v ===== *)
(** * LMD-GHOST

    [get_fork_choice_head] computes the head of the heaviest chain: the weight of
    a block is the number of validators whose latest vote descends from it, and
    from the root the walk takes the heaviest child, the larger hash on a tie,
    until no child has enough votes.  The result does not depend on the iteration
    order of the maps. *)

From S2P Require Import Prelude Slot Ssz Xmss Containers State BuildBlock ForkChoice.

#[local] Open Scope N_scope.

Abbreviation blocks_t := (gmap H256 Block) (only parsing).

(** A tree of blocks: no block has the zero root, and parents are older. *)
Record blocks_ok (bs : blocks_t) : Prop := {
  bo_zero : bs !! 0 = None;
  bo_older : forall r b p, bs !! r = Some b -> bs !! b_parent_root b = Some p ->
    b_slot p < b_slot b
}.

(** [h] is [a] or a descendant of it. *)
Inductive descends (bs : blocks_t) : H256 -> H256 -> Prop :=
  | desc_refl r b : bs !! r = Some b -> descends bs r r
  | desc_up r b a : bs !! r = Some b -> descends bs (b_parent_root b) a -> descends bs r a.

(** ** Measures *)

Definition below (bs : blocks_t) (s : Slot) : nat :=
  size (filter (fun rb : H256 * Block => b_slot rb.2 < s) bs).

Definition above (bs : blocks_t) (s : Slot) : nat :=
  size (filter (fun rb : H256 * Block => s < b_slot rb.2) bs).

Lemma size_filter_lt (P Q : H256 * Block -> Prop) `{!forall x, Decision (P x)}
    `{!forall x, Decision (Q x)} (bs : blocks_t) r b :
  (forall x, P x -> Q x) -> bs !! r = Some b -> Q (r, b) -> ~ P (r, b) ->
  (size (filter P bs) < size (filter Q bs))%nat.
Proof.
  intros HPQ Hr Hq Hp. rewrite <-!size_dom. apply subset_size. split.
  - intros x. rewrite !elem_of_dom. intros [b' [Hb' HP]%map_lookup_filter_Some].
    exists b'. apply map_lookup_filter_Some. auto.
  - intros Hsub. assert (Hin : r ∈ dom (filter Q bs)).
    { apply elem_of_dom. exists b. by apply map_lookup_filter_Some. }
    apply Hsub, elem_of_dom in Hin as [b' [Hb' HP]%map_lookup_filter_Some].
    rewrite Hr in Hb'. injection Hb' as <-. done.
Qed.

Lemma below_lt bs r b s : bs !! r = Some b -> b_slot b < s -> (below bs (b_slot b) < below bs s)%nat.
Proof.
  intros Hr Hs. apply (size_filter_lt _ _ bs r b); cbn; [|done|done|lia].
  intros [] ?; cbn in *. lia.
Qed.

Lemma above_lt bs r b s : bs !! r = Some b -> s < b_slot b -> (above bs (b_slot b) < above bs s)%nat.
Proof.
  intros Hr Hs. apply (size_filter_lt _ _ bs r b); cbn; [|done|done|lia].
  intros [] ?; cbn in *. lia.
Qed.

Lemma size_filter_le (P : H256 * Block -> Prop) `{!forall x, Decision (P x)} (bs : blocks_t) :
  (size (filter P bs) <= size bs)%nat.
Proof.
  rewrite <-!size_dom. apply subseteq_size. intros x. rewrite !elem_of_dom.
  intros [b [Hb _]%map_lookup_filter_Some]. eauto.
Qed.

(** ** Votes *)

(** A vote for [h] counts for [r] when [h] descends from [r], a block after the
    root's slot. *)
Definition counted (bs : blocks_t) (root_slot : Slot) (h r : H256) : Prop :=
  descends bs h r /\ exists b, bs !! r = Some b /\ root_slot < b_slot b.

(** [n] validators have a latest vote that counts for [r]. *)
Definition votes_for (bs : blocks_t) (root_slot : Slot) (atts : gmap u64 AttestationData)
    (r : H256) (n : N) : Prop :=
  exists voters, NoDup voters /\ len_u64 voters = n /\
    forall v, v ∈ voters <->
      exists d, atts !! v = Some d /\ counted bs root_slot (cp_root (ad_head d)) r.

Lemma votes_for_unique bs rs atts r n n' :
  votes_for bs rs atts r n -> votes_for bs rs atts r n' -> n = n'.
Proof.
  intros (vs & Hnd & <- & Hv) (vs' & Hnd' & <- & Hv'). unfold len_u64. f_equal.
  apply Permutation_length, NoDup_Permutation; [done..|].
  intros v. by rewrite Hv, Hv'.
Qed.

Lemma weight_bump w r r' :
  weight (bump r w) r' = weight w r' + (if decide (r' = r) then 1 else 0).
Proof.
  unfold bump. destruct (decide (r' = r)) as [->|Hne].
  - by rewrite lookup_insert_eq.
  - rewrite lookup_insert_ne by done. lia.
Qed.

Section Tree.
Context (bs : blocks_t) (Hbs : blocks_ok bs).

Lemma descends_slot h a bh ba :
  descends bs h a -> bs !! h = Some bh -> bs !! a = Some ba ->
  (h = a \/ b_slot ba < b_slot bh).
Proof.
  intros Hd. revert bh ba. induction Hd as [r b Hr|r b a Hr Hd IH]; intros bh ba Hh Ha;
    [by left|]. right. rewrite Hr in Hh. injection Hh as <-.
  assert (exists p, bs !! b_parent_root b = Some p) as [p Hp]
    by (inversion Hd; eauto).
  pose proof (bo_older _ Hbs _ _ _ Hr Hp).
  destruct (IH p ba Hp Ha) as [<-|]; [|lia]. rewrite Hp in Ha. injection Ha as <-. done.
Qed.

Lemma descends_self_parent r b : bs !! r = Some b -> ~ descends bs (b_parent_root b) r.
Proof.
  intros Hr Hd. assert (exists p, bs !! b_parent_root b = Some p) as [p Hp]
    by (inversion Hd; eauto).
  pose proof (bo_older _ Hbs _ _ _ Hr Hp) as Hlt.
  destruct (descends_slot _ _ p b Hd Hp Hr) as [E|]; [|lia].
  rewrite E, Hr in Hp. injection Hp as <-. lia.
Qed.

(** What one vote adds. *)
Definition adds_vote (rs : Slot) (h : H256) (w w' : gmap H256 N) : Prop :=
  forall r, (counted bs rs h r /\ weight w' r = weight w r + 1) \/
            (~ counted bs rs h r /\ weight w' r = weight w r).

Lemma counted_step rs r b : bs !! r = Some b -> rs < b_slot b ->
  forall x, counted bs rs r x <-> x = r \/ counted bs rs (b_parent_root b) x.
Proof.
  intros Hr Hs x. split.
  - intros [Hd Hx]. inversion Hd as [? b' Hb'|? b' ? Hb' Hd']; subst; [by left|].
    right. rewrite Hr in Hb'. injection Hb' as <-. by split.
  - intros [->|[Hd Hx]]; [split; [by econstructor|eauto]|].
    split; [by eapply desc_up|done].
Qed.

Lemma adds_vote_leaf rs r b w :
  bs !! r = Some b -> rs < b_slot b ->
  (forall x, ~ counted bs rs (b_parent_root b) x) -> adds_vote rs r w (bump r w).
Proof.
  intros Hr Hs Hno x. rewrite weight_bump, (counted_step rs r b Hr Hs).
  destruct (decide (x = r)) as [->|Hne]; [left; auto|right]. split; [|lia].
  intros [?|?]; [done|]. by eapply Hno.
Qed.

Lemma adds_vote_bump rs r b w w' :
  bs !! r = Some b -> rs < b_slot b ->
  adds_vote rs (b_parent_root b) (bump r w) w' -> adds_vote rs r w w'.
Proof.
  intros Hr Hs Hadd x. specialize (Hadd x). rewrite weight_bump in Hadd.
  rewrite (counted_step rs r b Hr Hs).
  destruct (decide (x = r)) as [->|Hne].
  - left. split; [by left|]. destruct Hadd as [[[Hd _] _]|[_ Hw]]; [|done].
    exfalso. by eapply descends_self_parent.
  - destruct Hadd as [[? Hw]|[? Hw]]; [left|right]; (split; [|lia]); [by right|].
    by intros [?|?].
Qed.

Lemma walk_vote_spec fuel rs h b w :
  bs !! h = Some b -> (below bs (b_slot b) <= fuel)%nat ->
  exists w', walk_vote fuel bs rs h (b_slot b) w = Ok w' /\ adds_vote rs h w w'.
Proof.
  revert h b w; induction fuel as [|fuel IH]; intros h b w Hh Hfuel; cbn [walk_vote];
    (destruct (N.ltb_spec rs (b_slot b)) as [Hs|Hs];
      [|exists w; split; [done|]; intros x; right; split; [|done];
        intros [Hd (bx & Hx & Hsx)];
        destruct (descends_slot _ _ b bx Hd Hh Hx) as [<-|]; [|lia];
        rewrite Hh in Hx; injection Hx as <-; lia]);
    rewrite Hh; destruct (bs !! b_parent_root b) as [p|] eqn:Hp.
  - pose proof (below_lt bs _ p (b_slot b) Hp (bo_older _ Hbs _ _ _ Hh Hp)). lia.
  - eexists. split; [by destruct (is_zero _)|]. apply (adds_vote_leaf rs h b); [done..|].
    intros x [Hd _]. inversion Hd; congruence.
  - unfold is_zero. destruct (N.eqb_spec (b_parent_root b) 0) as [E|_].
    { rewrite E, (bo_zero _ Hbs) in Hp. done. }
    destruct (IH (b_parent_root b) p (bump h w)) as (w' & -> & Hadd); [done| |].
    + pose proof (below_lt bs _ p (b_slot b) Hp (bo_older _ Hbs _ _ _ Hh Hp)). lia.
    + exists w'. split; [done|]. by eapply adds_vote_bump.
  - eexists. split; [by destruct (is_zero _)|]. apply (adds_vote_leaf rs h b); [done..|].
    intros x [Hd _]. inversion Hd; congruence.
Qed.

Lemma vote_weights_list rs (l : list (u64 * AttestationData)) w0 :
  NoDup l.*1 ->
  exists w, foldM (fun w d =>
      let curr := cp_root (ad_head d) in
      match bs !! curr with
      | Some block => walk_vote (size bs) bs rs curr (b_slot block) w
      | None => Ok w
      end) w0 l.*2 = Ok w /\
  forall r, exists vs, NoDup vs /\ weight w r = weight w0 r + len_u64 vs /\
    forall v, v ∈ vs <-> exists d, (v, d) ∈ l /\ counted bs rs (cp_root (ad_head d)) r.
Proof.
  revert w0; induction l as [|[v d] l IH]; intros w0 Hnd.
  { exists w0. split; [done|]. intros r. exists []. split; [constructor|]. split; [by rewrite N.add_0_r|].
    intros v. split; [by intros ?%not_elem_of_nil|by intros (? & ?%not_elem_of_nil & _)]. }
  cbn in Hnd. apply NoDup_cons in Hnd as [Hv Hnd].
  assert (exists w1, match bs !! cp_root (ad_head d) with
      | Some block => walk_vote (size bs) bs rs (cp_root (ad_head d)) (b_slot block) w0
      | None => Ok w0 end = Ok w1 /\ adds_vote rs (cp_root (ad_head d)) w0 w1)
    as (w1 & Hw1 & Hadd).
  { destruct (bs !! cp_root (ad_head d)) as [b|] eqn:Hb.
    - apply walk_vote_spec; [done|]. apply size_filter_le.
    - exists w0. split; [done|]. intros r. right. split; [|done].
      intros [Hd _]. inversion Hd; congruence. }
  destruct (IH w1 Hnd) as (w & Hw & Hspec). exists w. csimpl. rewrite Hw1.
  cbn [mbind outcome_bind]. split; [done|]. intros r.
  destruct (Hspec r) as (vs & Hvs & Hwr & Hin). destruct (Hadd r) as [[Hc H1]|[Hc H1]].
  - exists (v :: vs). split; [|split].
    + constructor; [|done]. rewrite Hin. intros (d' & Hd' & _). apply Hv.
      apply list_elem_of_fmap. by exists (v, d').
    + unfold len_u64 in *. cbn [length]. lia.
    + intros x. rewrite elem_of_cons, Hin. setoid_rewrite elem_of_cons. naive_solver.
  - exists vs. split; [done|]. split; [lia|]. intros x. rewrite Hin.
    setoid_rewrite elem_of_cons. naive_solver.
Qed.
End Tree.

(** ** The walk *)

(** A child of [r] with at least [min_votes] votes. *)
Definition eligible (bs : blocks_t) (wt : H256 -> N) (min_votes : N) (r c : H256) : Prop :=
  exists b, bs !! c = Some b /\ b_parent_root b = r /\ min_votes <= wt c.

(** [c] has more votes than [c'], or as many and not the smaller hash. *)
Definition not_worse (wt : H256 -> N) (c c' : H256) : Prop :=
  wt c' < wt c \/ (wt c' = wt c /\ c' <= c).

Inductive ghost (bs : blocks_t) (wt : H256 -> N) (min_votes : N) : H256 -> H256 -> Prop :=
  | ghost_head r : (forall c, ~ eligible bs wt min_votes r c) -> ghost bs wt min_votes r r
  | ghost_child r c h :
      eligible bs wt min_votes r c ->
      (forall c', eligible bs wt min_votes r c' -> not_worse wt c c') ->
      ghost bs wt min_votes c h -> ghost bs wt min_votes r h.

Lemma ghost_deterministic bs wt mv r h h' :
  ghost bs wt mv r h -> ghost bs wt mv r h' -> h = h'.
Proof.
  intros H. revert h'. induction H as [r Hno|r c h Hc Hbest _ IH]; intros h' H'.
  - inversion H' as [|? c' ? Hc']; [done|]. by apply Hno in Hc'.
  - inversion H' as [? Hno|? c' ? Hc' Hbest' Hg']; subst; [by apply Hno in Hc|].
    apply IH. assert (c = c') as ->; [|done].
    specialize (Hbest c' Hc'). specialize (Hbest' c Hc). unfold not_worse in *. lia.
Qed.

Lemma ghost_ext bs wt wt' mv r h :
  (forall x, wt x = wt' x) -> ghost bs wt mv r h -> ghost bs wt' mv r h.
Proof.
  intros Hext H. induction H as [r Hno|r c h Hc Hbest _ IH].
  - constructor. intros c (b & ? & ? & Hw). rewrite <-Hext in Hw. apply (Hno c). by exists b.
  - apply ghost_child with c; [|..|done].
    + destruct Hc as (b & ? & ? & Hw). rewrite Hext in Hw. by exists b.
    + intros c' (b & ? & ? & Hw). unfold not_worse. rewrite <-!Hext. apply Hbest.
      rewrite <-Hext in Hw. by exists b.
Qed.

(** The head descends from the root. *)
Lemma ghost_descends bs wt mv r h b :
  bs !! r = Some b -> ghost bs wt mv r h -> descends bs h r.
Proof.
  intros Hr H. revert b Hr. induction H as [r _|r c h (bc & Hc & Hp & _) _ _ IH]; intros b Hr.
  - by econstructor.
  - specialize (IH bc Hc). clear -Hr Hc Hp IH.
    induction IH as [x bx Hx|x bx a Hx _ IH].
    + eapply desc_up; [done|]. rewrite Hx in Hc. injection Hc as <-. rewrite Hp.
      by econstructor.
    + eapply desc_up; [done|]. by apply IH.
Qed.

#[export] Instance better_total w : TotalCmp (better w).
Proof.
  split; unfold better.
  - intros a b. rewrite (N.compare_antisym (weight w a)), (N.compare_antisym a).
    by destruct (N.compare (weight w a) (weight w b)).
  - intros a b c.
    destruct (N.compare_spec (weight w a) (weight w b)), (N.compare_spec (weight w b) (weight w c)),
      (N.compare_spec (weight w a) (weight w c)); try lia;
    destruct (N.compare_spec a b), (N.compare_spec b c), (N.compare_spec a c); try lia; done.
  - intros a b. destruct (N.compare_spec (weight w a) (weight w b)); try done.
    by apply N.compare_eq.
Qed.

Lemma better_not_worse w c c' :
  better w c' c <> Gt <-> not_worse (fun r => weight w r) c c'.
Proof.
  unfold better, not_worse.
  destruct (N.compare_spec (weight w c') (weight w c)) as [E|E|E].
  - rewrite N.compare_le_iff. split; [right; auto|]. intros [?|[_ ?]]; [lia|done].
  - split; [by left|done].
  - split; [done|]. intros [?|[? _]]; lia.
Qed.

Lemma child_map_lookup w mv (l : list (H256 * Block)) r c :
  c ∈ default [] (child_map w mv l !! r) <->
  r <> 0 /\ exists b, (c, b) ∈ l /\ b_parent_root b = r /\ mv <= weight w c.
Proof.
  unfold child_map. induction l as [|[x bx] l IH] using rev_ind.
  { cbn. rewrite lookup_empty. cbn. split; [by intros ?%not_elem_of_nil|].
    by intros (_ & ? & ?%not_elem_of_nil & _). }
  rewrite foldl_app. cbn -[N.leb]. setoid_rewrite elem_of_app.
  setoid_rewrite list_elem_of_singleton. unfold is_zero.
  destruct (N.eqb_spec (b_parent_root bx) 0) as [E|E];
    [|destruct (N.leb_spec mv (weight w x)) as [Hw|Hw]].
  - rewrite IH. naive_solver.
  - destruct (decide (r = b_parent_root bx)) as [->|Hne].
    + rewrite lookup_insert_eq. cbn. rewrite elem_of_app, IH, list_elem_of_singleton.
      naive_solver.
    + rewrite lookup_insert_ne by done. rewrite IH. naive_solver.
  - rewrite IH. naive_solver lia.
Qed.

Section Head.
Context (bs : blocks_t) (Hbs : blocks_ok bs) (w : gmap H256 N) (mv : N).
Context (l : list (H256 * Block)) (Hl : l ≡ₚ map_to_list bs).

Lemma children_eligible r b :
  bs !! r = Some b ->
  forall c, c ∈ default [] (child_map w mv l !! r) <-> eligible bs (fun r => weight w r) mv r c.
Proof.
  intros Hr c. rewrite child_map_lookup. unfold eligible. setoid_rewrite Hl.
  setoid_rewrite elem_of_map_to_list. split; [naive_solver|]. intros (b' & ? & ? & ?).
  split; [|eauto]. intros ->. by rewrite (bo_zero _ Hbs) in Hr.
Qed.

Lemma descend_ghost fuel r b :
  bs !! r = Some b -> (above bs (b_slot b) <= fuel)%nat ->
  exists h, descend fuel (child_map w mv l) w r = Ok h /\
    ghost bs (fun r => weight w r) mv r h.
Proof.
  revert r b; induction fuel as [|fuel IH]; intros r b Hr Hfuel; cbn [descend];
    pose proof (children_eligible r b Hr) as Hch;
    destruct (max_by (better w) (default [] (child_map w mv l !! r))) as [c|] eqn:Em;
    try (apply max_by_None in Em; exists r; split; [done|]; constructor; intros c Hc;
         rewrite <-Hch, Em in Hc; by apply not_elem_of_nil in Hc);
    apply (max_by_Some (better w)) in Em as [Hc Hmax]; apply Hch in Hc as Helig;
    destruct Helig as (bc & Hbc & Hp & Hw);
    assert (Hlt : b_slot b < b_slot bc)
      by (apply (bo_older _ Hbs _ _ _ Hbc); by rewrite Hp);
    pose proof (above_lt bs c bc (b_slot b) Hbc Hlt) as Habove; [lia|].
  destruct (IH c bc Hbc) as (h & Hd & Hg); [lia|]. exists h. split; [done|].
  apply ghost_child with c; [by exists bc| |done].
  intros c' Hc'%Hch. by apply better_not_worse, Hmax.
Qed.
End Head.

(** Where the walk starts: at the given root, or for the zero root at a block with
    the smallest slot. *)
Definition start_root (bs : blocks_t) (root r : H256) : Prop :=
  (root <> 0 /\ r = root) \/
  (root = 0 /\ exists b, bs !! r = Some b /\
     forall r' b', bs !! r' = Some b' -> b_slot b <= b_slot b').

Lemma min_by_key_from_spec {A} (key : A -> N) b l :
  let m := min_by_key_from key b l in
  (m = b \/ m ∈ l) /\ key m <= key b /\ forall x, x ∈ l -> key m <= key x.
Proof.
  revert b; induction l as [|y l IH]; intros b; cbn.
  { split; [by left|]. split; [lia|]. by intros ? ?%not_elem_of_nil. }
  destruct (IH (if key y <? key b then y else b)) as (Hin & Hle & Hl).
  destruct (N.ltb_spec (key y) (key b)); (split; [|split]); try lia.
  - right. destruct Hin as [->|]; [left|by right].
  - intros x [->|Hx]%elem_of_cons; [lia|by apply Hl].
  - destruct Hin as [->|]; [by left|right; by right].
  - intros x [->|Hx]%elem_of_cons; [lia|by apply Hl].
Qed.

Lemma min_by_key_Some {A} (key : A -> N) l :
  l <> [] -> exists m, min_by_key key l = Some m /\ m ∈ l /\ forall x, x ∈ l -> key m <= key x.
Proof.
  destruct l as [|y l]; [done|]. intros _. eexists. split; [done|].
  destruct (min_by_key_from_spec key y l) as (Hin & Hle & Hl). split.
  - destruct Hin as [->|]; [left|by right].
  - intros x [->|Hx]%elem_of_cons; [done|by apply Hl].
Qed.

Section Result.
Context {MO : MapOrder} {HM : MapOrderLaws MO}.

Lemma hm_iter_elem {K V} `{Countable K} (m : gmap K V) k v :
  (k, v) ∈ hm_iter m <-> m !! k = Some v.
Proof. rewrite hm_iter_perm. apply elem_of_map_to_list. Qed.

Lemma vote_weights_votes (bs : blocks_t) rs atts :
  blocks_ok bs ->
  exists w, vote_weights bs rs (hm_iter atts).*2 = Ok w /\
    forall r, votes_for bs rs atts r (weight w r).
Proof.
  intros Hbs. destruct (vote_weights_list bs Hbs rs (hm_iter atts) ∅) as (w & Hw & Hspec).
  { rewrite hm_iter_perm. apply NoDup_fst_map_to_list. }
  exists w. split; [done|]. intros r. destruct (Hspec r) as (vs & Hnd & Hwr & Hin).
  rewrite lookup_empty in Hwr. exists vs. split; [done|]. split; [by rewrite Hwr|].
  intros v. rewrite Hin. by setoid_rewrite hm_iter_elem.
Qed.

Lemma get_fork_choice_head_spec store root atts mv :
  blocks_ok (s_blocks store) ->
  (root <> 0 -> is_Some (s_blocks store !! root)) -> s_blocks store <> ∅ ->
  exists r rb wt h, start_root (s_blocks store) root r /\ s_blocks store !! r = Some rb /\
    (forall x, votes_for (s_blocks store) (b_slot rb) atts x (wt x)) /\
    get_fork_choice_head store root atts mv = Ok h /\
    ghost (s_blocks store) wt mv r h.
Proof.
  intros Hbs Hroot Hne. unfold get_fork_choice_head.
  assert (exists r rb, start_root (s_blocks store) root r /\ s_blocks store !! r = Some rb /\
    (if is_zero root then or_panic (fst <$> min_by_key (fun rb => b_slot rb.2)
       (hm_iter (s_blocks store))) PUnwrap else Ok root) = Ok r)
    as (r & rb & Hstart & Hr & ->).
  { unfold is_zero. destruct (N.eqb_spec root 0) as [->|Hz].
    - destruct (min_by_key_Some (fun rb : H256 * Block => b_slot rb.2)
        (hm_iter (s_blocks store))) as ([r b] & Hm & Hin & Hmin).
      { intros E. apply Hne, map_to_list_empty_iff, Permutation_nil_r. by rewrite <-E, hm_iter_perm. }
      apply hm_iter_elem in Hin. exists r, b. rewrite Hm. split; [|done]. right.
      split; [done|]. exists b. split; [done|]. intros r' b' Hb'.
      by apply (Hmin (r', b')), hm_iter_elem.
    - destruct (Hroot Hz) as [b Hb]. exists root, b. split; [by left|done]. }
  cbn [mbind outcome_bind]. unfold block_at. rewrite Hr. cbn [or_panic mbind outcome_bind].
  destruct (vote_weights_votes (s_blocks store) (b_slot rb) atts Hbs) as (w & -> & Hw).
  cbn [mbind outcome_bind].
  destruct (descend_ghost (s_blocks store) Hbs w mv (hm_iter (s_blocks store))
    (hm_iter_perm _) (size (s_blocks store)) r rb Hr) as (h & Hd & Hg);
    [apply size_filter_le|].
  by exists r, rb, (fun x => weight w x), h.
Qed.

Lemma get_fork_choice_head_in store root atts mv h :
  blocks_ok (s_blocks store) -> s_blocks store !! root <> None -> root <> 0 ->
  get_fork_choice_head store root atts mv = Ok h ->
  descends (s_blocks store) h root /\ is_Some (s_blocks store !! h).
Proof.
  intros Hbs Hroot Hz Hh.
  destruct (get_fork_choice_head_spec store root atts mv) as (r & rb & wt & h' & Hs & Hr & _ & Hh' & Hg);
    [done|by intros; apply not_eq_None_Some|by intros E; rewrite E in Hroot|].
  rewrite Hh in Hh'. injection Hh' as <-. destruct Hs as [[_ ->]|[? _]]; [|done].
  apply ghost_descends with (b := rb) in Hg; [|done]. split; [done|].
  by inversion Hg; eexists.
Qed.
End Result.
