(* ===== verification/StoreInv.v ===== *)
(** * The store invariant

    The blocks of the store form a tree rooted at the anchor, every block has its
    post-state, the states' histories and checkpoints name blocks of the store,
    and so do the head, the safe target and the store's checkpoints.  Every
    handler preserves this. *)

From S2P Require Import Prelude Slot Ssz Xmss Containers State JustifiedSlots StateInv.
From S2P Require Import Transition StateTheorems BuildBlock ForkChoice ForkChoiceHead.

#[local] Open Scope N_scope.

(** The checkpoint names a block of the store, at its slot. *)
Definition checkpoint_ok (bs : blocks_t) (cp : Checkpoint) : Prop :=
  exists b, bs !! cp_root cp = Some b /\ b_slot b = cp_slot cp.

(** Or it is the empty checkpoint of the genesis state. *)
Definition checkpoint_ok0 (bs : blocks_t) (cp : Checkpoint) : Prop :=
  cp = mkCheckpoint 0 0 \/ checkpoint_ok bs cp.

Record state_in_store (bs : blocks_t) (r : H256) (st : State) : Prop := {
  sis_wf : state_wf st;
  sis_block : exists b, bs !! r = Some b /\ bh_slot (st_latest_block_header st) = b_slot b;
  sis_hist : forall i x, get_nth (st_historical_block_hashes st) i = Some x -> x <> 0 ->
    checkpoint_ok bs (mkCheckpoint x i);
  sis_just : checkpoint_ok0 bs (st_latest_justified st);
  sis_fin : checkpoint_ok0 bs (st_latest_finalized st)
}.

Lemma checkpoint_ok_mono bs bs' cp : bs ⊆ bs' -> checkpoint_ok bs cp -> checkpoint_ok bs' cp.
Proof. intros Hsub (b & Hb & ?). exists b. split; [|done]. by eapply lookup_weaken. Qed.

Lemma checkpoint_ok0_mono bs bs' cp : bs ⊆ bs' -> checkpoint_ok0 bs cp -> checkpoint_ok0 bs' cp.
Proof. intros Hsub [?|?]; [by left|right]. by eapply checkpoint_ok_mono. Qed.

Lemma state_in_store_mono bs bs' r st :
  bs ⊆ bs' -> state_in_store bs r st -> state_in_store bs' r st.
Proof.
  intros Hsub [H1 (b & Hb & ?) H3 H4 H5]. split; [done|..].
  - exists b. split; [by eapply lookup_weaken|done].
  - intros i x Hx Hnz. eapply checkpoint_ok_mono; eauto.
  - by eapply checkpoint_ok0_mono.
  - by eapply checkpoint_ok0_mono.
Qed.

(** The blocks the node has seen: their roots are nonzero and do not collide. *)
Record no_collisions {HBlock : SszHash Block} (B : Block -> Prop) : Prop := {
  nc_inj : forall b b', B b -> B b' -> hash_tree_root b = hash_tree_root b' -> b = b';
  nc_nonzero : forall b, B b -> hash_tree_root b <> 0;
  nc_u64 : forall b, B b -> is_u64 (b_slot b)
}.

(** A list of blocks with distinct, nonzero roots. *)
Definition listed (l : list Block) (b : Block) : Prop := b ∈ l.

Lemma listed_no_collisions {HBlock : SszHash Block} (l : list Block) :
  bool_decide (NoDup (hash_tree_root <$> l)) = true ->
  forallb (fun b => negb (hash_tree_root b =? 0) && (b_slot b <? u64_modulus)) l = true ->
  no_collisions (listed l).
Proof.
  intros Hnd%bool_decide_eq_true_1 Hall. unfold listed.
  assert (Hb : forall b, b ∈ l -> hash_tree_root b <> 0 /\ is_u64 (b_slot b)).
  { intros b Hb%list_elem_of_In. eapply forallb_forall in Hall; [|exact Hb].
    unfold is_u64. lia. }
  split; [|by intros b [? _]%Hb|by intros b [_ ?]%Hb].
  intros b b' [i Hi]%list_elem_of_lookup [j Hj]%list_elem_of_lookup E.
  assert (i = j) as ->; [|congruence].
  apply (NoDup_lookup _ i j (hash_tree_root b) Hnd).
  - by rewrite list_lookup_fmap, Hi.
  - by rewrite list_lookup_fmap, Hj, E.
Qed.

Record store_ok {HBlock : SszHash Block} (B : Block -> Prop) (s : Store) : Prop := {
  so_blocks : blocks_ok (s_blocks s);
  so_seen : forall r b, s_blocks s !! r = Some b -> B b /\ hash_tree_root b = r;
  so_parent : forall r b, s_blocks s !! r = Some b ->
    b_parent_root b = 0 \/ is_Some (s_blocks s !! b_parent_root b);
  so_dom : forall r, is_Some (s_blocks s !! r) <-> is_Some (s_states s !! r);
  so_states : forall r st, s_states s !! r = Some st -> state_in_store (s_blocks s) r st;
  so_just : checkpoint_ok (s_blocks s) (s_latest_justified s);
  so_fin : checkpoint_ok (s_blocks s) (s_latest_finalized s);
  so_head : is_Some (s_blocks s !! s_head s);
  so_safe : is_Some (s_blocks s !! s_safe_target s);
  so_queue : forall p l sb, s_blocks_queue s !! p = Some l -> sb ∈ l ->
    B (bwa_block (sb_message sb)) /\ b_parent_root (bwa_block (sb_message sb)) = p
}.

Section Store.
Context {C : SszContainers} {HC : SszContainersLaws C} {LS : LeanSig} {SO : SetOrder}.
Context {MO : MapOrder} {HM : MapOrderLaws MO}.
Context {HState : SszHash State} {HHeader : SszHash BlockHeader} {HBlock : SszHash Block}
  {HBody : SszHash BlockBody} {HData : SszHash AttestationData}.
Context (B : Block -> Prop) (HB : no_collisions B).

Lemma store_nonzero s r : store_ok B s -> is_Some (s_blocks s !! r) -> r <> 0.
Proof. intros Hs [b Hb] ->. by rewrite (bo_zero _ (so_blocks _ _ Hs)) in Hb. Qed.

(** ** Fields the invariant does not mention *)

Lemma store_ok_votes s known new :
  store_ok B s ->
  store_ok B (set_latest_new_attestations new (set_latest_known_attestations known s)).
Proof. intros []. by split. Qed.

Lemma store_ok_new s new : store_ok B s -> store_ok B (set_latest_new_attestations new s).
Proof. intros []. by split. Qed.

Lemma store_ok_known s known : store_ok B s -> store_ok B (set_latest_known_attestations known s).
Proof. intros []. by split. Qed.

Lemma store_ok_time s t : store_ok B s -> store_ok B (set_time t s).
Proof. intros []. by split. Qed.

Lemma store_ok_gossip s g : store_ok B s -> store_ok B (set_gossip_signatures g s).
Proof. intros []. by split. Qed.

Lemma store_ok_payloads s p : store_ok B s -> store_ok B (set_aggregated_payloads p s).
Proof. intros []. by split. Qed.

#[local] Hint Resolve store_ok_votes store_ok_new store_ok_known store_ok_time store_ok_gossip
  store_ok_payloads : lean.

(** ** Head and safe target *)

Lemma store_head_spec s atts mv :
  store_ok B s -> exists h,
    get_fork_choice_head s (cp_root (s_latest_justified s)) atts mv = Ok h /\
    descends (s_blocks s) h (cp_root (s_latest_justified s)) /\ is_Some (s_blocks s !! h).
Proof.
  intros Hs. destruct (so_just _ _ Hs) as (jb & Hjb & _).
  pose proof (store_nonzero s _ Hs (mk_is_Some _ _ Hjb)) as Hnz.
  destruct (get_fork_choice_head_spec s (cp_root (s_latest_justified s)) atts mv)
    as (_ & _ & _ & h & _ & _ & _ & Hh & _);
    [apply Hs|by eexists|by intros E; rewrite E in Hjb|].
  exists h. split; [done|]. eapply get_fork_choice_head_in; [apply Hs|by rewrite Hjb|done|done].
Qed.

Lemma update_head_eq s :
  store_ok B s -> exists h, update_head s = (set_head h s, Ok tt) /\
    get_fork_choice_head s (cp_root (s_latest_justified s)) (s_latest_known_attestations s) 0
      = Ok h /\
    descends (s_blocks s) h (cp_root (s_latest_justified s)) /\ is_Some (s_blocks s !! h).
Proof.
  intros Hs. destruct (store_head_spec s (s_latest_known_attestations s) 0 Hs)
    as (h & Hh & Hd & Hin).
  exists h. split; [|done]. unfold update_head, update_st. by rewrite Hh.
Qed.

Lemma store_ok_head s h : store_ok B s -> is_Some (s_blocks s !! h) -> store_ok B (set_head h s).
Proof. intros [] ?. by split. Qed.

Lemma store_ok_safe s h :
  store_ok B s -> is_Some (s_blocks s !! h) -> store_ok B (set_safe_target h s).
Proof. intros [] ?. by split. Qed.

Lemma update_head_keeps : keeps (store_ok B) update_head.
Proof.
  intros s Hs. destruct (update_head_eq s Hs) as (h & -> & _ & _ & Hin). by apply store_ok_head.
Qed.

Lemma update_head_succeeds : succeeds (store_ok B) update_head.
Proof. intros s Hs. destruct (update_head_eq s Hs) as (h & -> & _). by exists tt. Qed.

Lemma update_safe_target_eq s :
  store_ok B s -> exists h, update_safe_target s = (set_safe_target h s, Ok tt) /\
    descends (s_blocks s) h (cp_root (s_latest_justified s)) /\ is_Some (s_blocks s !! h).
Proof.
  intros Hs. unfold update_safe_target, update_st. set (mv := _ / 3).
  destruct (store_head_spec s (s_latest_new_attestations s) mv Hs) as (h & -> & ? & ?). eauto.
Qed.

Lemma update_safe_target_keeps : keeps (store_ok B) update_safe_target.
Proof.
  intros s Hs. destruct (update_safe_target_eq s Hs) as (h & -> & _ & Hin).
  by apply store_ok_safe.
Qed.

Lemma update_safe_target_succeeds : succeeds (store_ok B) update_safe_target.
Proof. intros s Hs. destruct (update_safe_target_eq s Hs) as (h & -> & _). by exists tt. Qed.

#[local] Hint Resolve update_head_keeps update_head_succeeds update_safe_target_keeps
  update_safe_target_succeeds : lean.

Lemma accept_new_keeps : keeps (store_ok B) accept_new_attestations.
Proof. unfold accept_new_attestations. eauto 10 with lean. Qed.

Lemma accept_new_succeeds : succeeds (store_ok B) accept_new_attestations.
Proof. unfold accept_new_attestations. apply succeeds_bind; eauto 10 with lean. Qed.

#[local] Hint Resolve accept_new_keeps accept_new_succeeds : lean.

(** ** Time *)

Lemma tick_interval_keeps p : keeps (store_ok B) (tick_interval p).
Proof.
  unfold tick_interval. apply keeps_bind; [eauto with lean|]. intros _.
  apply keeps_bind; [eauto with lean|]. intros s. repeat case_match; eauto with lean.
Qed.

Lemma tick_interval_succeeds p : succeeds (store_ok B) (tick_interval p).
Proof.
  unfold tick_interval. apply succeeds_bind; [eauto with lean..|]. intros _.
  apply succeeds_bind; [eauto with lean..|]. intros s. repeat case_match; eauto with lean.
Qed.

(** The handlers below change neither the clock nor each other's fields. *)
Lemma update_head_time s : s_time (update_head s).1 = s_time s.
Proof.
  unfold update_head, update_st. by destruct (get_fork_choice_head _ _ _ _).
Qed.

Lemma update_safe_target_time s : s_time (update_safe_target s).1 = s_time s.
Proof.
  unfold update_safe_target, update_st. set (mv := _ / 3).
  by destruct (get_fork_choice_head _ _ _ _).
Qed.

Lemma tick_interval_time p s : s_time (tick_interval p s).1 = wadd (s_time s) 1.
Proof.
  unfold tick_interval, mbind, stM_bind, modify_st, get_st. cbn.
  repeat case_match; cbn; rewrite ?update_safe_target_time; try done;
    unfold accept_new_attestations, mbind, stM_bind, modify_st; cbn;
    by rewrite update_head_time.
Qed.

Lemma tick_loop_spec fuel t p s :
  store_ok B s -> is_u64 t -> N.of_nat fuel = t - s_time s ->
  exists s', tick_loop fuel t p s = (s', Ok tt) /\ store_ok B s' /\
    s_time s' = N.max t (s_time s).
Proof.
  revert s; induction fuel as [|fuel IH]; intros s Hs Ht Hfuel; cbn [tick_loop];
    unfold get_st, mbind at 1, stM_bind at 1; cbn beta iota.
  - replace (s_time s <? t) with false by lia. exists s. split; [done|]. split; [done|]. lia.
  - replace (s_time s <? t) with true by lia.
    pose proof (tick_interval_keeps (p && (wadd (s_time s) 1 =? t)) s Hs) as Hk.
    pose proof (tick_interval_time (p && (wadd (s_time s) 1 =? t)) s) as Htime.
    destruct (tick_interval_succeeds (p && (wadd (s_time s) 1 =? t)) s Hs) as [[] Hok].
    unfold mbind, stM_bind.
    destruct (tick_interval _ s) as [s1 r1]; cbn in Hk, Htime, Hok. subst r1.
    unfold is_u64 in *. rewrite wadd_small in Htime by lia.
    destruct (IH s1) as (s' & -> & Hs' & Ht'); [done|done|lia|].
    exists s'. split; [done|]. split; [done|]. lia.
Qed.

Lemma on_tick_spec time p s :
  store_ok B s -> is_u64 time ->
  exists s', on_tick time p s = (s', Ok tt) /\ store_ok B s' /\
    s_time s' = N.max (time - genesis_time (s_config s)) (s_time s).
Proof.
  intros Hs Ht. unfold on_tick, get_st, mbind, stM_bind. cbn beta iota.
  unfold saturating_sub, SECONDS_PER_INTERVAL, SECONDS_PER_SLOT, INTERVALS_PER_SLOT.
  change (4 / 4) with 1. rewrite N.div_1_r. apply tick_loop_spec; [done| |lia].
  unfold is_u64 in *. lia.
Qed.
End Store.
