(* ===== verification/StoreBlocks.v ===== *)
(** * Processing blocks in the store

    Attestation handlers, [process_block_internal], the queue of waiting blocks
    and [on_block], on stores that satisfy the invariant. *)

From S2P Require Import Prelude Slot Ssz Xmss Containers State JustifiedSlots StateInv.
From S2P Require Import Transition StateTheorems BuildBlock ForkChoice ForkChoiceHead StoreInv.

#[local] Open Scope N_scope.

(** What processing blocks can change: blocks are added, checkpoints advance. *)
Record store_grows (s s' : Store) : Prop := {
  sg_blocks : s_blocks s ⊆ s_blocks s';
  sg_just : cp_slot (s_latest_justified s) <= cp_slot (s_latest_justified s');
  sg_fin : cp_slot (s_latest_finalized s) <= cp_slot (s_latest_finalized s');
  sg_time : s_time s' = s_time s;
  sg_config : s_config s' = s_config s
}.

#[export] Instance store_grows_preorder : PreOrder store_grows.
Proof.
  split; [by split|]. intros x y z [A1 A2 A3 A4 A5] [B1 B2 B3 B4 B5].
  split; [by etrans|lia|lia|congruence|congruence].
Qed.

Section Blocks.
Context {C : SszContainers} {HC : SszContainersLaws C} {LS : LeanSig} {SO : SetOrder}.
Context {MO : MapOrder} {HM : MapOrderLaws MO}.
Context {HState : SszHash State} {HHeader : SszHash BlockHeader} {HBlock : SszHash Block}
  {HBody : SszHash BlockBody} {HData : SszHash AttestationData}.
Context (B : Block -> Prop) (HB : no_collisions B).

(** The invariant together with growth from a fixed store. *)
Definition ok_from (s0 s : Store) : Prop :=
  store_ok B s /\ store_grows s0 s /\ s_blocks_queue s = s_blocks_queue s0.

Lemma ok_from_refl s : store_ok B s -> ok_from s s.
Proof. by split. Qed.

(** ** Votes and signatures *)

Lemma ok_from_step s0 s s' :
  ok_from s0 s -> store_ok B s' -> s_blocks s' = s_blocks s ->
  s_latest_justified s' = s_latest_justified s ->
  s_latest_finalized s' = s_latest_finalized s -> s_time s' = s_time s ->
  s_config s' = s_config s -> s_blocks_queue s' = s_blocks_queue s -> ok_from s0 s'.
Proof.
  intros (Hs & [] & Hq) Hs' Eb Ej Ef Et Ec Eq. split; [done|].
  split; [split|]; rewrite ?Eb, ?Ej, ?Ef, ?Et, ?Ec, ?Eq; done.
Qed.

Lemma on_attestation_internal_keeps s0 v d fb :
  keeps (ok_from s0) (on_attestation_internal v d fb).
Proof.
  unfold on_attestation_internal. destruct fb.
  - apply keeps_bind; [apply keeps_modify|intros _; apply keeps_modify];
      intros s Hs; repeat case_match; try done; eapply ok_from_step; try done;
      apply store_ok_known || apply store_ok_new; apply Hs.
  - apply keeps_modify. intros s Hs. case_match; [|done].
    eapply ok_from_step; [done| |done..]. apply store_ok_new, Hs.
Qed.

Lemma on_attestation_internal_succeeds P v d fb :
  succeeds P (on_attestation_internal v d fb).
Proof.
  intros s _. exists tt. unfold on_attestation_internal, mbind, stM_bind, modify_st.
  destruct fb; cbn; repeat case_match; done.
Qed.

Lemma insert_gossip_ok s0 v d sig s : ok_from s0 s -> ok_from s0 (insert_gossip v d sig s).
Proof. intros Hs. eapply ok_from_step; [done| |done..]. apply store_ok_gossip, Hs. Qed.

Lemma store_proofs_ok s0 atts proofs s : ok_from s0 s -> ok_from s0 (store_proofs atts proofs s).
Proof. intros Hs. eapply ok_from_step; [done| |done..]. apply store_ok_payloads, Hs. Qed.

Lemma update_head_ok s0 : keeps (ok_from s0) update_head.
Proof.
  intros s Hs. pose proof (update_head_keeps B s (proj1 Hs)) as Hk.
  destruct (update_head_eq B s (proj1 Hs)) as (h & E & _). rewrite E in *.
  by eapply ok_from_step.
Qed.

(** The part of [process_block_internal] after the block is in. *)
Definition block_votes (sb : SignedBlockWithAttestation) : stM Store unit :=
  let signatures := sb_signature sb in
  let atts := bb_attestations (b_body (bwa_block (sb_message sb))) in
  let proposer_attestation := bwa_proposer_attestation (sb_message sb) in
  _ ← modify_st (store_proofs atts (bs_attestation_signatures signatures));
  _ ← iterM (fun a => iterM (fun validator_id =>
          on_attestation_internal validator_id (aa_data a) true)
        (set_bits (aa_aggregation_bits a))) atts;
  _ ← update_head;
  _ ← modify_st (insert_gossip (at_validator_id proposer_attestation)
        (at_data proposer_attestation) (bs_proposer_signature signatures));
  on_attestation_internal (at_validator_id proposer_attestation)
    (at_data proposer_attestation) false.

Lemma block_votes_keeps s0 sb : keeps (ok_from s0) (block_votes sb).
Proof.
  unfold block_votes. apply keeps_bind; [apply keeps_modify, store_proofs_ok|]. intros _.
  apply keeps_bind.
  { apply keeps_iterM. intros a _. apply keeps_iterM. intros.
    apply on_attestation_internal_keeps. }
  intros _. apply keeps_bind; [apply update_head_ok|]. intros _.
  apply keeps_bind; [apply keeps_modify, insert_gossip_ok|]. intros _.
  apply on_attestation_internal_keeps.
Qed.

Lemma block_votes_succeeds s0 sb : succeeds (ok_from s0) (block_votes sb).
Proof.
  unfold block_votes.
  apply succeeds_bind; [apply keeps_modify, store_proofs_ok|apply succeeds_modify|]. intros _.
  apply succeeds_bind.
  { apply keeps_iterM. intros a _. apply keeps_iterM. intros.
    apply on_attestation_internal_keeps. }
  { apply succeeds_iterM; intros; [apply keeps_iterM|apply succeeds_iterM]; intros;
      apply on_attestation_internal_keeps || apply on_attestation_internal_succeeds. }
  intros _. apply succeeds_bind; [apply update_head_ok| |].
  { intros s (Hs & _). by apply (update_head_succeeds B). }
  intros _. apply succeeds_bind; [apply keeps_modify, insert_gossip_ok|apply succeeds_modify|].
  intros _. apply on_attestation_internal_succeeds.
Qed.

(** ** Inserting a block *)

Lemma insert_known (s : Store) b :
  store_ok B s -> B b -> s_blocks s ⊆ <[hash_tree_root b := b]> (s_blocks s).
Proof.
  intros Hs Hb. destruct (s_blocks s !! hash_tree_root b) as [b0|] eqn:E.
  - apply (so_seen _ _ Hs) in E as E'. destruct E' as [Hb0 Hh].
    apply (nc_inj _ HB) in Hh as ->; [|done..]. by rewrite insert_id.
  - by apply insert_subseteq.
Qed.

Lemma blocks_ok_insert s sb st st' :
  store_ok B s -> B (bwa_block (sb_message sb)) ->
  s_states s !! b_parent_root (bwa_block (sb_message sb)) = Some st ->
  state_transition st sb true = Ok st' ->
  blocks_ok (<[hash_tree_root (bwa_block (sb_message sb)) := bwa_block (sb_message sb)]>
    (s_blocks s)).
Proof.
  intros Hs HBb Hst Ht. set (b := bwa_block (sb_message sb)) in *.
  pose proof (insert_known s b Hs HBb) as Hsub.
  apply (so_states _ _ Hs) in Hst as [Hwf (pb & Hpb & Hslot) _ _ _].
  apply state_transition_applied in Ht as [Ha _]; [|done|by apply (nc_u64 _ HB)].
  assert (Hlt : b_slot pb < b_slot b).
  { pose proof (ba_slot _ _ _ Ha) as [Hlt _]. pose proof (wf_header_slot _ Hwf).
    fold b in Hlt. lia. }
  split.
  - rewrite lookup_insert_ne; [apply Hs|]. by apply (nc_nonzero _ HB).
  - intros r b' p Hr Hp. rewrite lookup_insert in Hr. case_decide as E.
    + injection Hr as <-. eapply lookup_weaken in Hpb; [|exact Hsub].
      rewrite Hpb in Hp. by injection Hp as <-.
    + destruct (so_parent _ _ Hs r b' Hr) as [Hz|[p' Hp']].
      * rewrite Hz, lookup_insert_ne in Hp by (by apply (nc_nonzero _ HB)).
        by rewrite (bo_zero _ (so_blocks _ _ Hs)) in Hp.
      * pose proof (lookup_weaken _ _ _ _ Hp' Hsub) as Hp2. rewrite Hp2 in Hp.
        injection Hp as <-. by eapply (bo_older _ (so_blocks _ _ Hs)).
Qed.

Lemma checkpoint_step_ok bs b s s' old new :
  checkpoint_step s b s' old new -> checkpoint_ok0 bs old ->
  (exists pb, bs !! b_parent_root b = Some pb /\
     b_slot pb = bh_slot (st_latest_block_header s)) ->
  (forall i x, get_nth (st_historical_block_hashes s') i = Some x -> x <> 0 ->
     checkpoint_ok bs (mkCheckpoint x i)) ->
  checkpoint_ok0 bs new.
Proof.
  intros [->|[[Hz ->]|[Hnz Hh]]] Hold (pb & Hpb & Hslot) Hhist; [done|right..].
  - exists pb. cbn. split; [done|congruence].
  - apply Hhist in Hh; [|done]. by destruct new.
Qed.

(** The new state belongs next to its block. *)
Lemma new_state_in_store s sb st st' :
  store_ok B s -> B (bwa_block (sb_message sb)) ->
  s_states s !! b_parent_root (bwa_block (sb_message sb)) = Some st ->
  state_transition st sb true = Ok st' ->
  state_in_store (<[hash_tree_root (bwa_block (sb_message sb)) := bwa_block (sb_message sb)]>
    (s_blocks s)) (hash_tree_root (bwa_block (sb_message sb))) st'.
Proof.
  intros Hs HBb Hst Ht. set (b := bwa_block (sb_message sb)) in *.
  pose proof (insert_known s b Hs HBb) as Hsub. set (bs := <[_ := _]> _) in *.
  apply (so_states _ _ Hs) in Hst as Hin. apply (state_in_store_mono _ bs) in Hin; [|done].
  destruct Hin as [Hwf (pb & Hpb & Hslot) Hhist Hj Hf].
  pose proof (state_transition_checkpoints _ _ _ _ Hwf (nc_u64 _ HB _ HBb) Ht) as [Cj Cf].
  apply state_transition_applied in Ht as [Ha _]; [|done|by apply (nc_u64 _ HB)].
  destruct Ha as [W _ _ Hh (mid & n & _ & Hpr & Hhist') _].
  assert (Hparent : exists pb, bs !! b_parent_root b = Some pb /\
    b_slot pb = bh_slot (st_latest_block_header st)) by eauto.
  assert (Hnew : forall i x, get_nth (st_historical_block_hashes st') i = Some x -> x <> 0 ->
    checkpoint_ok bs (mkCheckpoint x i)).
  { intros i x Hx Hnz. rewrite Hhist' in Hx. unfold get_nth in Hx.
    apply lookup_app_Some in Hx as [Hx|[Hlen Hx]]; [by apply Hhist|].
    destruct (N.to_nat i - length (st_historical_block_hashes st))%nat as [|k] eqn:Ek; cbn in Hx.
    - injection Hx as <-. exists pb. split; [exact Hpb|]. cbn.
      pose proof (wf_hist_len _ Hwf) as Hl. unfold len_u64 in Hl. lia.
    - apply lookup_replicate in Hx as [-> _]. done. }
  split; [done| |done|by eapply checkpoint_step_ok|by eapply checkpoint_step_ok].
  exists b. split; [apply lookup_insert_eq|]. by rewrite Hh.
Qed.

Lemma checkpoint_updated bs (cp cp' : Checkpoint) :
  checkpoint_ok0 bs cp' -> cp_slot cp < cp_slot cp' -> checkpoint_ok bs cp'.
Proof. intros [->|?] ?; [cbn in *; lia|done]. Qed.

(** The block and its post-state, without the checkpoints. *)
Definition insert_plain (b : Block) (st' : State) (s : Store) : Store :=
  set_states (<[hash_tree_root b := st']> (s_states s))
    (set_blocks (<[hash_tree_root b := b]> (s_blocks s)) s).

Lemma insert_plain_ok s sb st st' :
  store_ok B s -> B (bwa_block (sb_message sb)) ->
  s_states s !! b_parent_root (bwa_block (sb_message sb)) = Some st ->
  state_transition st sb true = Ok st' ->
  ok_from s (insert_plain (bwa_block (sb_message sb)) st' s).
Proof.
  intros Hs HBb Hst Ht. pose proof (blocks_ok_insert s sb st st' Hs HBb Hst Ht) as Hbs.
  pose proof (new_state_in_store s sb st st' Hs HBb Hst Ht) as Hnew.
  set (b := bwa_block (sb_message sb)) in *. pose proof (insert_known s b Hs HBb) as Hsub.
  set (bs := <[hash_tree_root b := b]> (s_blocks s)) in *.
  assert (Hmono : forall r, is_Some (s_blocks s !! r) -> is_Some (bs !! r))
    by (intros r [x Hx]; eexists; by eapply lookup_weaken).
  split; [|by split; [split|]]. split; cbn; fold bs; try done.
  - intros r b0. unfold bs. rewrite lookup_insert. case_decide as E;
      [by intros [= <-]|apply Hs].
  - intros r b0 Hr. unfold bs in Hr. rewrite lookup_insert in Hr. case_decide as E.
    + injection Hr as <-. right. apply (so_states _ _ Hs) in Hst as [_ (pb & Hpb & _) _ _ _].
      apply Hmono. by eexists.
    + destruct (so_parent _ _ Hs r b0 Hr) as [?|?]; [by left|right]. by apply Hmono.
  - intros r. unfold bs. rewrite !lookup_insert_is_Some. pose proof (so_dom _ _ Hs r). tauto.
  - intros r x. rewrite lookup_insert. case_decide as E; [by intros [= <-]; subst r|].
    intros Hx%(so_states _ _ Hs). by eapply state_in_store_mono.
  - eapply checkpoint_ok_mono; [exact Hsub|apply Hs].
  - eapply checkpoint_ok_mono; [exact Hsub|apply Hs].
  - exact (Hmono _ (so_head _ _ Hs)).
  - exact (Hmono _ (so_safe _ _ Hs)).
  - apply Hs.
Qed.

Lemma store_ok_just s cp :
  store_ok B s -> checkpoint_ok (s_blocks s) cp -> store_ok B (set_latest_justified cp s).
Proof. intros [] ?. by split. Qed.

Lemma store_ok_fin s cp :
  store_ok B s -> checkpoint_ok (s_blocks s) cp -> store_ok B (set_latest_finalized cp s).
Proof. intros [] ?. by split. Qed.

Lemma insert_block_ok s sb st st' :
  store_ok B s -> B (bwa_block (sb_message sb)) ->
  s_states s !! b_parent_root (bwa_block (sb_message sb)) = Some st ->
  state_transition st sb true = Ok st' ->
  ok_from s (insert_block (hash_tree_root (bwa_block (sb_message sb)))
    (bwa_block (sb_message sb)) st' s).
Proof.
  intros Hs HBb Hst Ht. pose proof (new_state_in_store s sb st st' Hs HBb Hst Ht) as Hnew.
  destruct (insert_plain_ok s sb st st' Hs HBb Hst Ht) as (Hp & Hg & Hq).
  pose proof (sis_just _ _ _ Hnew) as Nj. pose proof (sis_fin _ _ _ Hnew) as Nf.
  set (b := bwa_block (sb_message sb)) in *.
  unfold insert_block. fold (insert_plain b st' s). destruct Hg as [G1 G2 G3 G4 G5].
  destruct (N.ltb_spec (cp_slot (s_latest_justified (insert_plain b st' s)))
      (cp_slot (st_latest_justified st'))) as [Ej|Ej];
    destruct (N.ltb_spec (cp_slot (s_latest_finalized (insert_plain b st' s)))
      (cp_slot (st_latest_finalized st'))) as [Ef|Ef]; cbn in Ej, Ef;
    (split; [|split; [split; cbn; done || lia|done]]);
    repeat first [ apply store_ok_fin; [|by eapply checkpoint_updated]
                 | apply store_ok_just; [|by eapply checkpoint_updated] | done ].
Qed.

(** ** One block *)

(** Either nothing happens but an error, or the block goes in and its votes are
    processed; a panic can only come from the state transition. *)
Lemma process_block_internal_cases s sb r :
  process_block_internal sb r s =
  match s_states s !! b_parent_root (bwa_block (sb_message sb)) with
  | None => (s, Err ENoParentState)
  | Some st =>
      match state_transition st sb true with
      | Ok st' => block_votes sb (insert_block r (bwa_block (sb_message sb)) st' s)
      | Err e => (s, Err e)
      | Panic p => (s, Panic p)
      | Diverge => (s, Diverge)
      end
  end.
Proof.
  unfold process_block_internal, get_st, lift_st, mbind at 1 2 3 4, stM_bind at 1 2 3 4.
  cbn beta iota. destruct (s_states s !! _) as [st|]; cbn [ok_or]; [|done].
  by destruct (state_transition st sb true).
Qed.

(** How a computation on the store that processes the blocks of [blocks] may end: a
    panic is that of applying one of these blocks to the state that the store [s] it
    leaves has for the block's parent. *)
Definition crash_of_transition {A} (blocks : SignedBlockWithAttestation -> Prop) (s : Store)
    (r : outcome A) : Prop :=
  match r with
  | Ok _ | Err _ => True
  | Panic p => exists sb st, blocks sb /\
      s_states s !! b_parent_root (bwa_block (sb_message sb)) = Some st /\
      state_transition st sb true = Panic p
  | Diverge => False
  end.

Lemma crash_mono {A} (P Q : SignedBlockWithAttestation -> Prop) s (r : outcome A) :
  (forall sb, P sb -> Q sb) -> crash_of_transition P s r -> crash_of_transition Q s r.
Proof. intros H. destruct r; try done. intros (sb & st & ? & ?). exists sb, st. auto. Qed.

(** The blocks that wait for their parents. *)
Definition waiting (s : Store) (sb : SignedBlockWithAttestation) : Prop :=
  exists root l, s_blocks_queue s !! root = Some l /\ sb ∈ l.

Lemma terminates_state_transition st sb v :
  is_u64 (b_slot (bwa_block (sb_message sb))) -> terminates (state_transition st sb v).
Proof.
  intros Hu. apply terminates_bind; [solve_terminates|]. intros _ _.
  apply terminates_bind; [by apply terminates_process_slots|]. intros.
  apply terminates_bind; [apply terminates_process_block|]. intros. solve_terminates.
Qed.

Lemma process_block_internal_spec s sb :
  store_ok B s -> B (bwa_block (sb_message sb)) ->
  let '(s', r) := process_block_internal sb (hash_tree_root (bwa_block (sb_message sb))) s in
  ok_from s s' /\ crash_of_transition (eq sb) s' r /\
  match r with
  | Ok _ => s_blocks s' !! hash_tree_root (bwa_block (sb_message sb)) =
      Some (bwa_block (sb_message sb))
  | _ => s' = s
  end.
Proof.
  intros Hs HBb. rewrite process_block_internal_cases.
  destruct (s_states s !! _) as [st|] eqn:Est; [|by split; [apply ok_from_refl|]].
  pose proof (terminates_state_transition st sb true (nc_u64 _ HB _ HBb)) as Hterm.
  destruct (state_transition st sb true) as [st'|e|p|] eqn:Et.
  - pose proof (insert_block_ok s sb st st' Hs HBb Est Et) as Hins.
    set (s1 := insert_block _ _ _ _) in *.
    pose proof (ok_from_refl s1 (proj1 Hins)) as Hrefl.
    pose proof (block_votes_keeps s1 sb s1 Hrefl) as Hk.
    destruct (block_votes_succeeds s1 sb s1 Hrefl) as [a Ha].
    destruct (block_votes sb s1) as [s2 r2]; cbn in *. subst r2.
    destruct Hk as (Hs2 & Hg2 & Hq2), Hins as (_ & Hg1 & Hq1).
    split; [split; [done|]; split; [by etrans|congruence]|]. split; [done|].
    eapply lookup_weaken; [|apply Hg2]. unfold s1, insert_block.
    repeat case_match; cbn; apply lookup_insert_eq.
  - by split; [apply ok_from_refl|].
  - split; [by apply ok_from_refl|]. split; [|done]. by exists sb, st.
  - done.
Qed.

(** ** Waiting blocks *)

Lemma process_purgatory_spec l roots s :
  store_ok B s -> (forall sb, sb ∈ l -> B (bwa_block (sb_message sb))) ->
  let '(s', r) := process_purgatory l roots s in
  ok_from s s' /\ crash_of_transition (.∈ l) s' r /\
  match r with
  | Ok roots' => (length roots' <= length roots + length l)%nat
  | Err _ => False
  | _ => True
  end.
Proof.
  revert roots s; induction l as [|sb l IH]; intros roots s Hs Hl; cbn [process_purgatory].
  { cbn. split; [by apply ok_from_refl|]. split; [done|]. cbn. lia. }
  unfold mbind, stM_bind, try_st.
  pose proof (process_block_internal_spec s sb Hs (Hl sb (list_elem_of_here _ _))) as Hsp.
  destruct (process_block_internal sb _ s) as [s1 r1]. destruct Hsp as (Hok1 & Hc1 & _).
  assert (Hgo : forall roots1, (length roots1 <= S (length roots))%nat ->
    let '(s', r) := process_purgatory l roots1 s1 in
    ok_from s s' /\ crash_of_transition (.∈ sb :: l) s' r /\
    match r with Ok roots' => (length roots' <= length roots + length (sb :: l))%nat
    | Err _ => False | _ => True end).
  { intros roots1 Hlen. specialize (IH roots1 s1 (proj1 Hok1)).
    destruct (process_purgatory l roots1 s1) as [s2 r2].
    destruct IH as (Hok2 & Hc2 & Hr2); [intros; apply Hl; by right|].
    destruct Hok1 as (_ & Hg1 & Hq1), Hok2 as (Hs2 & Hg2 & Hq2).
    split; [split; [done|]; split; [by etrans|congruence]|].
    split; [eapply crash_mono; [|exact Hc2]; intros; by right|].
    destruct r2; try done. cbn. lia. }
  destruct r1; cbn beta iota; [apply Hgo; cbn; lia|apply Hgo; lia| |done].
  split; [done|]. split; [|done]. eapply crash_mono; [|exact Hc1]. intros ? <-. left.
Qed.

(** Invariant and growth, without the queue. *)
Definition ok_grow (s0 s : Store) : Prop := store_ok B s /\ store_grows s0 s.

Lemma ok_from_grow s0 s : ok_from s0 s -> ok_grow s0 s.
Proof. by intros (? & ? & _). Qed.

Lemma store_ok_queue s q :
  store_ok B s ->
  (forall p l sb, q !! p = Some l -> sb ∈ l ->
    B (bwa_block (sb_message sb)) /\ b_parent_root (bwa_block (sb_message sb)) = p) ->
  store_ok B (set_blocks_queue q s).
Proof. intros [] ?. by split. Qed.

Definition queue_size (q : gmap H256 (list SignedBlockWithAttestation)) : nat :=
  sum_list (length <$> (map_to_list q).*2).

Lemma queued_size s : queued s = queue_size (s_blocks_queue s).
Proof.
  unfold queued, queue_size. assert (Hp : forall l k : list nat, l ≡ₚ k -> sum_list l = sum_list k).
  { induction 1; cbn in *; lia. }
  apply Hp. by rewrite hm_iter_perm.
Qed.

Lemma queue_size_delete q p l :
  q !! p = Some l -> queue_size q = (length l + queue_size (delete p q))%nat.
Proof.
  intros Hp. unfold queue_size. assert (Hperm : forall l k : list nat, l ≡ₚ k -> sum_list l = sum_list k).
  { induction 1; cbn in *; lia. }
  rewrite <-(insert_delete_id q p l) at 1 by done.
  rewrite (Hperm _ (length <$> ((p, l) :: map_to_list (delete p q)).*2)); [done|].
  rewrite map_to_list_insert by apply lookup_delete_eq. done.
Qed.

Lemma pending_loop_spec fuel roots s :
  store_ok B s -> (length roots + queue_size (s_blocks_queue s) <= fuel)%nat ->
  let '(s', r) := pending_loop fuel roots s in
  ok_grow s s' /\ crash_of_transition (waiting s) s' r /\ (forall e, r <> Err e).
Proof.
  revert roots s; induction fuel as [|fuel IH]; intros roots s Hs Hfuel;
    (destruct roots as [|root roots]; [cbn; split; [by split|by split]|]); cbn [pending_loop length] in *;
    [lia|]. unfold mbind at 1, stM_bind at 1, get_st. cbn beta iota.
  destruct (s_blocks_queue s !! root) as [l|] eqn:El.
  2:{ apply IH; [done|lia]. }
  pose proof (queue_size_delete _ _ _ El) as Hsz.
  unfold mbind at 1, stM_bind at 1, modify_st. cbn beta iota.
  set (s1 := set_blocks_queue _ s).
  assert (Hs1 : store_ok B s1).
  { apply store_ok_queue; [done|]. intros p l' sb Hl'.
    apply lookup_delete_Some in Hl' as [_ Hl']. by apply (so_queue _ _ Hs). }
  unfold mbind, stM_bind.
  pose proof (process_purgatory_spec l roots s1 Hs1) as Hpp.
  destruct (process_purgatory l roots s1) as [s2 r2].
  destruct Hpp as ((Hs2 & Hg2 & Hq2) & Hc2 & Hr2).
  { intros sb Hsb. by apply (so_queue _ _ Hs root l). }
  assert (Hgrow : store_grows s s2) by (etrans; [|exact Hg2]; by split).
  destruct r2 as [roots2| |p|]; try done.
  2:{ split; [by split|]. split; [|done]. eapply crash_mono; [|exact Hc2]. intros sb Hsb.
      by exists root, l. }
  specialize (IH roots2 s2 Hs2). destruct (pending_loop fuel roots2 s2) as [s3 r3].
  destruct IH as ((Hs3 & Hg3) & Hc3 & He3).
  { rewrite Hq2. cbn. lia. }
  split; [split; [done|by etrans]|]. split; [|done]. eapply crash_mono; [|exact Hc3].
  intros sb (root' & l' & Hl' & Hsb). rewrite Hq2 in Hl'. cbn in Hl'. apply lookup_delete_Some in Hl' as [_ Hl'].
  by exists root', l'.
Qed.

(** ** [on_block] *)

Lemma on_block_spec s sb :
  store_ok B s -> B (bwa_block (sb_message sb)) ->
  let '(s', r) := on_block sb s in
  ok_grow s s' /\ crash_of_transition (fun sb' => sb' = sb \/ waiting s sb') s' r.
Proof.
  intros Hs HBb. unfold on_block, mbind at 1, stM_bind at 1, get_st. cbn beta iota.
  case_bool_decide; [by split; [split|]|].
  destruct (bool_decide _ && negb _) eqn:Eq.
  - cbn. split; [|done]. split; [|by split]. apply store_ok_queue; [done|].
    intros p l sb'. rewrite lookup_insert. case_decide as Ep; [|apply Hs].
    intros [= <-] Hin. apply elem_of_app in Hin as [Hin| ->%list_elem_of_singleton];
      [|done]. destruct (s_blocks_queue s !! _) as [l'|] eqn:El; [|by apply not_elem_of_nil in Hin].
    subst p. by apply (so_queue _ _ Hs _ l').
  - unfold mbind, stM_bind. pose proof (process_block_internal_spec s sb Hs HBb) as Hsp.
    destruct (process_block_internal sb _ s) as [s1 r1]. destruct Hsp as (Hok1 & Hc1 & _).
    assert (Hq1 : s_blocks_queue s1 = s_blocks_queue s) by apply Hok1.
    apply ok_from_grow in Hok1 as [Hs1 Hg1].
    destruct r1; try done.
    2:{ split; [done|]. eapply crash_mono; [|exact Hc1]. intros ? <-. by left. }
    unfold process_pending_blocks, mbind, stM_bind, get_st. cbn beta iota.
    pose proof (pending_loop_spec (length [hash_tree_root (bwa_block (sb_message sb))] + queued s1)
      [hash_tree_root (bwa_block (sb_message sb))] s1 Hs1) as Hp.
    rewrite queued_size in *. destruct (pending_loop _ _ s1) as [s2 r2].
    destruct Hp as ((Hs2 & Hg2) & Hc2 & _); [lia|]. split; [split; [done|by etrans]|].
    eapply crash_mono; [|exact Hc2]. intros sb' (root & l & Hl & Hsb). right.
    exists root, l. by rewrite <-Hq1.
Qed.
End Blocks.

Section Chain.
Context {C : SszContainers} {LS : LeanSig} {SO : SetOrder} {MO : MapOrder}.
Context {HState : SszHash State} {HHeader : SszHash BlockHeader} {HBlock : SszHash Block}
  {HBody : SszHash BlockBody} {HData : SszHash AttestationData}.

(** ** Blocks, states, waiting blocks and checkpoints *)

(** The handlers below touch none of them. *)
Definition chain_is (s0 s : Store) : Prop :=
  s_blocks s = s_blocks s0 /\ s_states s = s_states s0 /\ s_blocks_queue s = s_blocks_queue s0 /\
  s_latest_justified s = s_latest_justified s0 /\ s_latest_finalized s = s_latest_finalized s0.

Lemma update_head_chain s0 : keeps (chain_is s0) update_head.
Proof.
  apply keeps_update. intros s s' Hs H. apply bind_Ok in H as (h & _ & [= <-]). done.
Qed.

Lemma update_safe_target_chain s0 : keeps (chain_is s0) update_safe_target.
Proof.
  apply keeps_update. intros s s' Hs H. apply bind_Ok in H as (h & _ & [= <-]). done.
Qed.

Lemma accept_new_chain s0 : keeps (chain_is s0) accept_new_attestations.
Proof.
  apply keeps_bind; [by apply keeps_modify|]. intros _. apply update_head_chain.
Qed.

Lemma tick_interval_chain s0 p : keeps (chain_is s0) (tick_interval p).
Proof.
  unfold tick_interval. apply keeps_bind; [by apply keeps_modify|]. intros _.
  apply keeps_bind; [apply keeps_get|]. intros s.
  repeat case_match; try apply accept_new_chain; [apply update_safe_target_chain|apply keeps_ret].
Qed.

(** What every interval keeps, a tick keeps. *)
Lemma on_tick_lift (P : Store -> Prop) now p :
  (forall q, keeps P (tick_interval q)) -> keeps P (on_tick now p).
Proof.
  intros HP. unfold on_tick. apply keeps_bind; [apply keeps_get|]. intros s1.
  generalize (N.to_nat (saturating_sub now (genesis_time (s_config s1)) / SECONDS_PER_INTERVAL -
    s_time s1)) as fuel. intros fuel.
  induction fuel as [|fuel IH]; cbn [tick_loop];
    (apply keeps_bind; [apply keeps_get|]); intros s2; case_match;
    try apply keeps_ret; try apply keeps_lift.
  apply keeps_bind; [apply HP|]. intros _. apply IH.
Qed.

Lemma on_tick_chain s0 now p : keeps (chain_is s0) (on_tick now p).
Proof. apply on_tick_lift. intros. apply tick_interval_chain. Qed.

Lemma on_attestation_internal_chain s0 v d fb :
  keeps (chain_is s0) (on_attestation_internal v d fb).
Proof.
  unfold on_attestation_internal. destruct fb;
    [apply keeps_bind; [|intros _]|]; apply keeps_modify; intros s Hs; repeat case_match; done.
Qed.

Lemma on_attestation_chain s0 sa fb : keeps (chain_is s0) (on_attestation sa fb).
Proof.
  unfold on_attestation. apply keeps_bind; [apply keeps_get|]. intros s1.
  apply keeps_bind; [apply keeps_lift|]. intros _. apply keeps_bind.
  - destruct fb; [apply keeps_ret|by apply keeps_modify].
  - intros _. apply on_attestation_internal_chain.
Qed.

Lemma block_votes_chain s0 sb : keeps (chain_is s0) (block_votes sb).
Proof.
  unfold block_votes. apply keeps_bind; [by apply keeps_modify|]. intros _.
  apply keeps_bind.
  { apply keeps_iterM. intros a _. apply keeps_iterM. intros.
    apply on_attestation_internal_chain. }
  intros _. apply keeps_bind; [apply update_head_chain|]. intros _.
  apply keeps_bind; [by apply keeps_modify|]. intros _. apply on_attestation_internal_chain.
Qed.

(** ** The known and the pending votes together *)

(** The latest votes, once the pending ones are accepted: nothing below loses one. *)
Definition votes_are (votes : gmap u64 AttestationData) (s : Store) : Prop :=
  s_latest_new_attestations s ∪ s_latest_known_attestations s = votes.

Lemma update_head_votes votes : keeps (votes_are votes) update_head.
Proof. apply keeps_update. intros s s' Hs H. by apply bind_Ok in H as (h & _ & [= <-]). Qed.

Lemma accept_new_votes votes : keeps (votes_are votes) accept_new_attestations.
Proof.
  apply keeps_bind; [apply keeps_modify|intros _; apply update_head_votes].
  intros s Hs. unfold votes_are. cbn. by rewrite (left_id_L ∅ (∪)).
Qed.

Lemma tick_interval_votes votes p : keeps (votes_are votes) (tick_interval p).
Proof.
  unfold tick_interval. apply keeps_bind; [by apply keeps_modify|]. intros _.
  apply keeps_bind; [apply keeps_get|]. intros s.
  repeat case_match; try apply accept_new_votes; [|apply keeps_ret].
  apply keeps_update. intros s1 s2 Hs Hu. by apply bind_Ok in Hu as (h & _ & [= <-]).
Qed.

Lemma on_tick_votes votes now p : keeps (votes_are votes) (on_tick now p).
Proof. apply on_tick_lift. intros. apply tick_interval_votes. Qed.

Lemma get_proposal_head_chain s0 slot : keeps (chain_is s0) (get_proposal_head slot).
Proof.
  unfold get_proposal_head. apply keeps_bind; [apply keeps_get|]. intros s1.
  apply keeps_bind; [apply on_tick_chain|]. intros _.
  apply keeps_bind; [apply accept_new_chain|]. intros _.
  apply keeps_bind; [apply keeps_get|]. intros s2. apply keeps_ret.
Qed.
End Chain.
