(* ===== verification/StoreTheorems.v ===== *)
(** * Theorems about the fork-choice store *)

From S2P Require Import Prelude Slot Ssz Xmss Containers State JustifiedSlots StateInv.
From S2P Require Import Transition StateTheorems BuildBlock BuildTheorems ForkChoice.
From S2P Require Import ForkChoiceHead StoreInv StoreBlocks Example.

#[local] Open Scope N_scope.

Section Lemmas.
Context {C : SszContainers} {HC : SszContainersLaws C} {LS : LeanSig}.
Context {SO : SetOrder} {HO : SetOrderLaws SO} {MO : MapOrder} {HM : MapOrderLaws MO}.
Context {HState : SszHash State} {HHeader : SszHash BlockHeader} {HBlock : SszHash Block}
  {HBody : SszHash BlockBody} {HData : SszHash AttestationData}.
Context (B : Block -> Prop) (HB : no_collisions B).

(** ** The anchor *)

(** A genesis pair: no parent, slot zero, and the state just before its first
    block. *)
Definition genesis_anchor (st : State) (b : Block) : Prop :=
  state_wf st /\ b_parent_root b = 0 /\ b_slot b = 0 /\
  bh_slot (st_latest_block_header st) = 0 /\
  st_latest_justified st = mkCheckpoint 0 0 /\ st_latest_finalized st = mkCheckpoint 0 0.

Lemma anchor_store_ok st sb cfg :
  genesis_anchor st (bwa_block (sb_message sb)) -> B (bwa_block (sb_message sb)) ->
  store_ok B (get_forkchoice_store st sb cfg).
Proof.
  intros (Hwf & Hp & Hz & Hh & Hj & Hf) HBb. set (b := bwa_block (sb_message sb)) in *.
  pose proof (nc_nonzero _ HB _ HBb) as Hnz.
  assert (Hhist : st_historical_block_hashes st = []).
  { pose proof (wf_hist_len _ Hwf) as Hl. rewrite Hh in Hl. unfold len_u64 in Hl.
    destruct (st_historical_block_hashes st); [done|]. cbn in Hl. lia. }
  unfold get_forkchoice_store. fold b. rewrite Hj, Hf. cbn.
  split; cbn.
  - split; [by rewrite lookup_singleton_ne|].
    intros r x p [<- <-]%lookup_singleton_Some Hx. rewrite Hp in Hx.
    by rewrite lookup_singleton_ne in Hx.
  - by intros r x [<- <-]%lookup_singleton_Some.
  - intros r x [<- <-]%lookup_singleton_Some. by left.
  - intros r. rewrite !lookup_singleton_is_Some. done.
  - intros r x [<- <-]%lookup_singleton_Some. split.
    + done.
    + exists b. rewrite lookup_singleton_eq. split; [done|congruence].
    + rewrite Hhist. by intros i x Hx.
    + rewrite Hj. by left.
    + rewrite Hf. by left.
  - exists b. by rewrite lookup_singleton_eq.
  - exists b. by rewrite lookup_singleton_eq.
  - by rewrite lookup_singleton_eq.
  - by rewrite lookup_singleton_eq.
  - intros p l sb' Hl. by rewrite lookup_empty in Hl.
Qed.

(** ** Gossip *)

Lemma on_gossip_attestation_keeps sa : keeps (store_ok B) (on_gossip_attestation sa).
Proof.
  unfold on_gossip_attestation. apply keeps_bind; [apply keeps_get|]. intros s.
  apply keeps_bind; [apply keeps_lift|]. intros _.
  apply keeps_bind; [apply keeps_modify; intros; by apply store_ok_gossip|]. intros _ s1 Hs1.
  pose proof (on_attestation_internal_keeps B s1 (sa_validator_id sa) (sa_message sa) false s1
    (ok_from_refl B s1 Hs1)) as Hk. apply Hk.
Qed.

(** ** Proposing *)

(** The head depends on the blocks of the store only. *)
Lemma get_fork_choice_head_blocks s s' root votes n :
  s_blocks s' = s_blocks s ->
  get_fork_choice_head s' root votes n = get_fork_choice_head s root votes n.
Proof. intros E. unfold get_fork_choice_head, block_at. by rewrite E. Qed.

(** The store a proposal is made from: the clock is at the slot, the pending votes are
    accepted, the head is chosen with them, and the chain is as it was. *)
Record at_proposal (slot : Slot) (s s1 : Store) : Prop := mkAtProposal {
  ap_chain : chain_is s s1;
  ap_time : s_time s1 = N.max (wadd (genesis_time (s_config s)) (wmul slot SECONDS_PER_SLOT) -
    genesis_time (s_config s)) (s_time s);
  ap_new : s_latest_new_attestations s1 = ∅;
  ap_known : s_latest_known_attestations s1 =
    s_latest_new_attestations s ∪ s_latest_known_attestations s;
  ap_head : get_fork_choice_head s (cp_root (s_latest_justified s))
    (s_latest_new_attestations s ∪ s_latest_known_attestations s) 0 = Ok (s_head s1)
}.

Lemma proposal_head_spec slot s :
  store_ok B s ->
  exists s1, get_proposal_head slot s = (s1, Ok (s_head s1)) /\ store_ok B s1 /\
    at_proposal slot s s1.
Proof.
  intros Hs. unfold get_proposal_head, mbind at 1, stM_bind at 1, get_st. cbn beta iota.
  set (now := wadd _ _).
  destruct (on_tick_spec B now true s Hs) as (s1 & E1 & Hs1 & Ht).
  { unfold is_u64, now, wadd. apply N.mod_upper_bound. done. }
  pose proof (on_tick_chain s now true s) as Hc. pose proof (on_tick_votes _ now true s eq_refl) as Hv.
  rewrite E1 in Hc, Hv. cbn in Hc, Hv. destruct Hc as (Cb & Cs & Cq & Cj & Cf); [done|].
  unfold mbind at 1, stM_bind at 1. rewrite E1. cbn beta iota.
  unfold accept_new_attestations, mbind, stM_bind, modify_st. rewrite Hv.
  set (s2 := set_latest_new_attestations ∅ _).
  assert (Hs2 : store_ok B s2) by (by apply store_ok_votes).
  destruct (update_head_eq B s2 Hs2) as (h & -> & Hh & Hd & Hin).
  exists (set_head h s2). split; [done|]. split; [by apply store_ok_head|]. split; try done.
  rewrite <-Cj, <-(get_fork_choice_head_blocks s s2) by done. exact Hh.
Qed.

Lemma get_proposal_head_spec slot s :
  store_ok B s ->
  exists s1, get_proposal_head slot s = (s1, Ok (s_head s1)) /\ store_ok B s1.
Proof. intros (s1 & E1 & Hs1 & _)%(proposal_head_spec slot). by exists s1. Qed.

(** The wrapping of a block in an envelope does not matter to the transition. *)
Lemma state_transition_block st b a sig a' sig' :
  state_transition st (mkSignedBlockWithAttestation (mkBlockWithAttestation b a) sig) true =
  state_transition st (mkSignedBlockWithAttestation (mkBlockWithAttestation b a') sig') true.
Proof. done. Qed.

(** A successful proposal builds a block on the head, from the known votes. *)
Lemma produce_block_build slot v s s' root b proofs :
  store_ok B s ->
  produce_block_with_signatures slot v s = (s', Ok (root, b, proofs)) ->
  exists s1 hst post aggs, get_proposal_head slot s = (s1, Ok (s_head s1)) /\ store_ok B s1 /\
    s_states s1 !! s_head s1 = Some hst /\ v = slot `mod` len_u64 (st_validators hst) /\
    build_block hst slot v (s_head s1) None
      (Some ((fun '(i, data) => mkAttestation i data) <$> hm_iter (s_latest_known_attestations s1)))
      (Some (dom (s_blocks s1))) (Some (s_gossip_signatures s1)) (Some (s_aggregated_payloads s1))
      = Ok (b, post, aggs, proofs) /\
    s' = insert_plain b post s1 /\ root = hash_tree_root b.
Proof.
  intros Hs H. destruct (get_proposal_head_spec slot s Hs) as (s1 & E1 & Hs1).
  unfold produce_block_with_signatures, mbind at 1, stM_bind at 1 in H. rewrite E1 in H.
  unfold get_st, mbind at 1 2, stM_bind at 1 2, lift_st at 1 in H. cbn beta iota in H.
  destruct (s_states s1 !! s_head s1) as [hst|] eqn:Eh; cbn [ok_or] in H; [|done].
  unfold mbind at 1, stM_bind at 1, lift_st at 1 in H.
  destruct (N.eqb_spec (len_u64 (st_validators hst)) 0); cbn [negb assert_] in H; [done|].
  unfold mbind at 1, stM_bind at 1, lift_st at 1 in H.
  destruct (N.eqb_spec v (slot `mod` len_u64 (st_validators hst))) as [Ev|];
    cbn [ensure] in H; [|done].
  unfold mbind, stM_bind, lift_st, modify_st, mret, stM_ret in H.
  destruct (build_block hst slot v (s_head s1) None _ _ _ _) as [[[[fb post] aggs] prs]| | |]
    eqn:Eb; try done.
  injection H as <- <- <- <-. by exists s1, hst, post, aggs.
Qed.

(** What a successful proposal leaves behind. *)
Lemma produce_block_spec slot v s s' root b proofs :
  store_ok B s ->
  produce_block_with_signatures slot v s = (s', Ok (root, b, proofs)) ->
  exists s1 hst post, get_proposal_head slot s = (s1, Ok (s_head s1)) /\ store_ok B s1 /\
    s' = insert_plain b post s1 /\ root = hash_tree_root b /\
    b_slot b = slot /\ b_proposer_index b = v /\ b_parent_root b = s_head s1 /\
    v = slot `mod` len_u64 (st_validators hst) /\
    length (bb_attestations (b_body b)) = length proofs /\
    s_states s1 !! s_head s1 = Some hst /\
    forall a sig, state_transition hst (mkSignedBlockWithAttestation
      (mkBlockWithAttestation b a) sig) true = Ok post.
Proof.
  intros Hs H. apply produce_block_build in H as (s1 & hst & post & aggs & E1 & Hs1 & Eh & Ev &
    Eb & -> & ->); [|done].
  exists s1, hst, post. apply build_block_inv in Eb as (atts & _ & Hcs & -> & Hap).
  apply compute_aggregated_signatures_inv in Hcs as (Hlen & _).
  do 10 (split; [done|]). intros a sig. exact (sealed_transition _ _ _ a sig Hap).
Qed.

Lemma produce_block_keeps slot v s s' r :
  store_ok B s -> produce_block_with_signatures slot v s = (s', r) ->
  (forall root b proofs, r = Ok (root, b, proofs) -> B b) -> store_ok B s'.
Proof.
  intros Hs H HBb. destruct r as [[[root b] proofs]| | |].
  { apply produce_block_spec in H as (s1 & hst & post & _ & Hs1 & -> & _ & _ & _ & Hpar & _ &
      _ & Hst & Ht); [|done].
    specialize (HBb _ _ _ eq_refl). rewrite <-Hpar in Hst.
    specialize (Ht (mkAttestation 0 (mkAttestationData 0 Checkpoint_default Checkpoint_default
      Checkpoint_default)) (mkBlockSignatures [] Signature_default)).
    exact (proj1 (insert_plain_ok B HB s1 (mkSignedBlockWithAttestation
      (mkBlockWithAttestation b _) _) hst post Hs1 HBb Hst Ht)). }
  all: destruct (get_proposal_head_spec slot s Hs) as (s1 & E1 & Hs1);
    unfold produce_block_with_signatures, mbind, stM_bind, get_st, lift_st, modify_st in H;
    rewrite E1 in H; repeat case_match; by simplify_eq/=.
Qed.

(** ** Attestation target *)

Lemma walk_to_safe_descends n s safe t r b :
  s_blocks s !! t = Some b -> walk_to_safe n s safe t = Ok r ->
  r = t \/ (is_Some (s_blocks s !! r) -> descends (s_blocks s) t r).
Proof.
  revert t b; induction n as [|n IH]; intros t b Ht H; cbn in H; [left; by injection H|].
  unfold block_at in H. rewrite Ht in H. cbn in H.
  destruct (safe <? b_slot b); [|left; by injection H].
  right. intros [rb Hr]. destruct (s_blocks s !! b_parent_root b) as [pb|] eqn:Ep.
  - destruct (IH _ pb Ep H) as [->|Hd]; [|eapply desc_up; [done|by apply Hd]].
    eapply desc_up; [done|]. by econstructor.
  - destruct n as [|n]; cbn in H; [injection H as <-; congruence|].
    unfold block_at in H. by rewrite Ep in H.
Qed.

Lemma walk_to_justifiable_spec fuel s fin t r :
  walk_to_justifiable fuel s fin t = Ok r ->
  descends (s_blocks s) t r /\
  exists b, s_blocks s !! r = Some b /\ is_justifiable_after (b_slot b) fin = Ok true.
Proof.
  revert t; induction fuel as [|fuel IH]; intros t H; cbn in H; unfold block_at in H;
    destruct (s_blocks s !! t) as [b|] eqn:Et; cbn in H; try done;
    destruct (is_justifiable_after (b_slot b) fin) as [[]| | |] eqn:Ej; cbn in H; try done.
  - injection H as <-. split; [by econstructor|eauto].
  - injection H as <-. split; [by econstructor|eauto].
  - apply IH in H as [Hd Hb]. split; [by eapply desc_up|done].
Qed.

Lemma below_size (bs : blocks_t) r b : bs !! r = Some b -> (below bs (b_slot b) < size bs)%nat.
Proof.
  intros Hr. eapply Nat.lt_le_trans; [|apply (size_filter_le (fun _ => True))].
  apply (size_filter_lt _ _ bs r b); cbn; [done..|lia].
Qed.

Lemma walk_to_justifiable_terminates fuel s fin t :
  blocks_ok (s_blocks s) ->
  (forall b, s_blocks s !! t = Some b -> below (s_blocks s) (b_slot b) < fuel)%nat ->
  terminates (walk_to_justifiable fuel s fin t).
Proof.
  intros Hbs. revert t; induction fuel as [|fuel IH]; intros t Hf; cbn; unfold block_at;
    destruct (s_blocks s !! t) as [b|] eqn:Et; cbn; try done;
    pose proof (is_justifiable_after_not_diverge (b_slot b) fin) as Hnd;
    destruct (is_justifiable_after (b_slot b) fin) as [[]| | |]; cbn; try done.
  - specialize (Hf b eq_refl). lia.
  - apply IH. intros p Hp. specialize (Hf b eq_refl).
    pose proof (below_lt _ _ p (b_slot b) Hp (bo_older _ Hbs _ _ _ Et Hp)). lia.
Qed.

Lemma get_attestation_target_terminates s :
  blocks_ok (s_blocks s) -> terminates (get_attestation_target s).
Proof.
  intros Hbs. assert (Hat : forall r, terminates (block_at s r))
    by (intros; unfold block_at; solve_terminates).
  apply terminates_bind; [apply Hat|]. intros sb _. apply terminates_bind.
  { generalize (s_head s). generalize JUSTIFICATION_LOOKBACK_SLOTS.
    induction n as [|n IH]; intros t; cbn; [done|].
    apply terminates_bind; [apply Hat|]. intros b _. by case_match. }
  intros t _. apply terminates_bind.
  { apply walk_to_justifiable_terminates; [done|]. intros b Hb. by eapply below_size. }
  intros r _. apply terminates_bind; [apply Hat|]. done.
Qed.

Lemma get_attestation_target_inv s cp :
  store_ok B s -> get_attestation_target s = Ok cp ->
  checkpoint_ok (s_blocks s) cp /\ descends (s_blocks s) (s_head s) (cp_root cp) /\
  is_justifiable_after (cp_slot cp) (cp_slot (s_latest_finalized s)) = Ok true.
Proof.
  intros Hs H. unfold get_attestation_target in H. ok_inv.
  destruct (so_head _ _ Hs) as [hb Hhb].
  apply (walk_to_safe_descends _ _ _ _ _ hb Hhb) in Hx0.
  pose proof Hx1 as [Hd (b & Hb & Hj)]%walk_to_justifiable_spec.
  unfold block_at in Hx2. rewrite Hb in Hx2. injection Hx2 as <-. subst cp. cbn.
  split; [by exists b|]. split; [|done].
  assert (Htr : forall x y z, descends (s_blocks s) x y -> descends (s_blocks s) y z ->
    descends (s_blocks s) x z).
  { intros y z w Hyz. induction Hyz as [|y by_ z Hy _ IH]; [done|].
    intros Hz. eapply desc_up; [done|]. by apply IH. }
  destruct Hx0 as [->|Hto]; [done|]. eapply Htr; [|exact Hd]. apply Hto.
  inversion Hd; by eexists.
Qed.

(** ** Validation *)

Lemma validate_attestation_data_iff s d :
  validate_attestation_data s d = Ok tt <->
  checkpoint_ok (s_blocks s) (ad_source d) /\ checkpoint_ok (s_blocks s) (ad_target d) /\
  is_Some (s_blocks s !! cp_root (ad_head d)) /\
  cp_slot (ad_source d) <= cp_slot (ad_target d) /\
  ad_slot d <= wadd (s_time s / INTERVALS_PER_SLOT) 1.
Proof.
  unfold validate_attestation_data, block_at, checkpoint_ok. split.
  - intros H. ok_inv. apply bool_decide_eq_true in Hx, Hx0, Hx1.
    rewrite Hx3, Hx4 in *. repeat split; [| |done|lia|lia].
    + exists x3. split; [done|lia].
    + exists x4. split; [done|lia].
  - intros ((sb & Hs & Es) & (tb & Ht & Et) & Hh & Hle & Hslot).
    rewrite Hs, Ht, !bool_decide_eq_true_2 by (done || by eexists). cbn.
    replace (_ <=? cp_slot (ad_target d)) with true by lia. cbn.
    replace (b_slot sb =? _) with true by lia. replace (b_slot tb =? _) with true by lia. cbn.
    by replace (ad_slot d <=? _) with true by lia.
Qed.

(** ** Reachable stores *)

(** The stores a node goes through: it starts from a genesis anchor, receives
    blocks and attestations, its clock ticks, and it proposes. *)
Inductive store_reachable : Store -> Prop :=
  | reach_anchor st sb cfg :
      genesis_anchor st (bwa_block (sb_message sb)) -> B (bwa_block (sb_message sb)) ->
      store_reachable (get_forkchoice_store st sb cfg)
  | reach_block s sb s' r :
      store_reachable s -> B (bwa_block (sb_message sb)) -> on_block sb s = (s', r) ->
      store_reachable s'
  | reach_attestation s sa s' r :
      store_reachable s -> on_gossip_attestation sa s = (s', r) -> store_reachable s'
  | reach_tick s time p s' r :
      store_reachable s -> is_u64 time -> on_tick time p s = (s', r) -> store_reachable s'
  | reach_proposal s slot v s' r :
      store_reachable s -> produce_block_with_signatures slot v s = (s', r) ->
      (forall root b proofs, r = Ok (root, b, proofs) -> B b) -> store_reachable s'.

Lemma store_reachable_is_ok s : store_reachable s -> store_ok B s.
Proof.
  induction 1 as [st sb cfg Ha HBb|s sb s' r _ IH HBb H|s sa s' r _ IH H|s time p s' r _ IH Ht H
    |s slot v s' r _ IH H HBb].
  - by apply anchor_store_ok.
  - pose proof (on_block_spec B HB s sb IH HBb) as Hk. rewrite H in Hk. apply Hk.
  - pose proof (on_gossip_attestation_keeps sa s IH) as Hk. by rewrite H in Hk.
  - destruct (on_tick_spec B time p s IH Ht) as (s1 & E & Hs1 & _). rewrite E in H.
    by injection H as <- <-.
  - by eapply produce_block_keeps.
Qed.
End Lemmas.

(** * Properties *)

Section Properties.
Context {C : SszContainers} {HC : SszContainersLaws C} {LS : LeanSig}.
Context {SO : SetOrder} {HO : SetOrderLaws SO} {MO : MapOrder} {HM : MapOrderLaws MO}.
Context {HState : SszHash State} {HHeader : SszHash BlockHeader} {HBlock : SszHash Block}
  {HBody : SszHash BlockBody} {HData : SszHash AttestationData}.

(** C4: on a tree of blocks the head computation terminates with the LMD-GHOST
    head: the weight of a block is the number of validators whose latest vote
    descends from it, and from the starting root the walk follows the heaviest
    child with enough votes, the larger hash on a tie, until there is none.  The
    zero root stands for a block with the smallest slot. *)
Theorem fork_choice_head_correct store root atts min_votes :
  blocks_ok (s_blocks store) ->
  (root <> 0 -> is_Some (s_blocks store !! root)) -> s_blocks store <> ∅ ->
  exists r rb wt h, start_root (s_blocks store) root r /\ s_blocks store !! r = Some rb /\
    (forall x, votes_for (s_blocks store) (b_slot rb) atts x (wt x)) /\
    get_fork_choice_head store root atts min_votes = Ok h /\
    ghost (s_blocks store) wt min_votes r h /\ descends (s_blocks store) h r.
Proof.
  intros Hbs Hr Hne.
  destruct (get_fork_choice_head_spec store root atts min_votes Hbs Hr Hne)
    as (r & rb & wt & h & ? & ? & ? & ? & Hg).
  exists r, rb, wt, h. do 5 (split; [done|]). by eapply ghost_descends.
Qed.

(** Two nodes with the same blocks and votes choose the same head, whatever
    the iteration order of their hash maps. *)
Theorem fork_choice_head_deterministic {MO' : MapOrder} {HM' : MapOrderLaws MO'}
    store root atts min_votes :
  blocks_ok (s_blocks store) -> is_Some (s_blocks store !! root) ->
  get_fork_choice_head (MO := MO) store root atts min_votes =
  get_fork_choice_head (MO := MO') store root atts min_votes.
Proof.
  intros Hbs Hr. assert (Hnz : root <> 0).
  { intros ->. rewrite (bo_zero _ Hbs) in Hr. by destruct Hr. }
  assert (Hne : s_blocks store <> ∅).
  { intros E. rewrite E, lookup_empty in Hr. by destruct Hr. }
  destruct (get_fork_choice_head_spec (MO := MO) store root atts min_votes Hbs (fun _ => Hr) Hne)
    as (r & rb & wt & h & Hs & Hrb & Hv & -> & Hg).
  destruct (get_fork_choice_head_spec (MO := MO') store root atts min_votes Hbs (fun _ => Hr) Hne)
    as (r' & rb' & wt' & h' & Hs' & Hrb' & Hv' & -> & Hg').
  destruct Hs as [[_ ->]|[? _]], Hs' as [[_ ->]|[? _]]; [|done..].
  rewrite Hrb in Hrb'. injection Hrb' as <-. f_equal.
  eapply ghost_deterministic; [exact Hg|]. eapply ghost_ext; [|exact Hg'].
  intros x. by eapply votes_for_unique.
Qed.

(** C3: every store the node reaches from a genesis anchor by blocks,
    attestations, ticks and proposals satisfies the invariant: a tree of blocks
    with nonzero roots, one well-formed post-state per block whose history and
    checkpoints name blocks of the store, and head, safe target, justified and
    finalized checkpoints in it, at the right slots. *)
Theorem store_reachable_ok (B : Block -> Prop) s :
  no_collisions B -> store_reachable B s -> store_ok B s.
Proof. intros HB. by apply store_reachable_is_ok. Qed.

(** C15: processing a block, together with all waiting descendants it releases,
    terminates; it panics only with the panic of the state transition of the block
    itself or of a block that was waiting, applied to the state that the store has for
    its parent; it keeps the store invariant whatever the result, loses no block, and
    never moves the justified or the finalized checkpoint of the store back. *)
Theorem on_block_correct (B : Block -> Prop) s sb :
  no_collisions B -> store_ok B s -> B (bwa_block (sb_message sb)) ->
  store_ok B (on_block sb s).1 /\ store_grows s (on_block sb s).1 /\
  crash_of_transition (fun sb' => sb' = sb \/ waiting s sb') (on_block sb s).1 (on_block sb s).2.
Proof.
  intros HB Hs HBb. pose proof (on_block_spec B HB s sb Hs HBb) as H.
  by destruct (on_block sb s) as [s' r]; destruct H as [[] ?].
Qed.

(** A block that is already known changes nothing; a block whose parent state
    is missing is queued under its parent, reported with the number of waiting
    blocks, and changes nothing else. *)
Theorem on_block_known_or_orphan s sb :
  let b := bwa_block (sb_message sb) in
  (is_Some (s_blocks s !! hash_tree_root b) -> on_block sb s = (s, Ok tt)) /\
  (s_blocks s !! hash_tree_root b = None -> s_states s !! b_parent_root b = None ->
   b_parent_root b <> 0 ->
   let s' := set_blocks_queue (<[b_parent_root b :=
     default [] (s_blocks_queue s !! b_parent_root b) ++ [sb]]> (s_blocks_queue s)) s in
   on_block sb s = (s', Err (EBlockQueued (b_parent_root b)
     (S (queue_size (s_blocks_queue s)))))).
Proof.
  cbn zeta. set (b := bwa_block (sb_message sb)). split.
  - intros Hk. unfold on_block, mbind, stM_bind, get_st. fold b.
    by rewrite bool_decide_eq_true_2.
  - intros Hn Hp Hz. unfold on_block, mbind, stM_bind, get_st, modify_st, lift_st. fold b.
    rewrite Hn, bool_decide_eq_false_2 by (by intros []). cbn beta iota.
    rewrite (bool_decide_eq_true_2 _ Hp). unfold is_zero.
    destruct (N.eqb_spec (b_parent_root b) 0); [done|]. cbn. do 3 f_equal.
    rewrite queued_size. cbn. set (l := default [] _).
    set (q := s_blocks_queue s) in *.
    rewrite (queue_size_delete _ (b_parent_root b) (l ++ [sb])) by apply lookup_insert_eq.
    rewrite delete_insert_eq, length_app. cbn. unfold l.
    destruct (q !! b_parent_root b) as [l'|] eqn:El; cbn.
    + rewrite (queue_size_delete q _ _ El). unfold id. lia.
    + by rewrite delete_id.
Qed.

(** A block that is refused leaves the store exactly as it was, and an
    accepted one is in the store. *)
Theorem process_block_internal_atomic (B : Block -> Prop) s sb s' r :
  no_collisions B -> store_ok B s -> B (bwa_block (sb_message sb)) ->
  process_block_internal sb (hash_tree_root (bwa_block (sb_message sb))) s = (s', r) ->
  match r with
  | Ok _ => store_ok B s' /\ s_blocks s' !! hash_tree_root (bwa_block (sb_message sb)) =
      Some (bwa_block (sb_message sb))
  | _ => s' = s
  end.
Proof.
  intros HB Hs HBb E. pose proof (process_block_internal_spec B HB s sb Hs HBb) as H.
  rewrite E in H. destruct H as ((Hs' & _) & _ & H), r; try done.
Qed.

(** C30: a clock tick always succeeds, keeps the invariant and brings the store's
    time to the later of its own and the intervals since genesis. *)
Theorem on_tick_correct (B : Block -> Prop) s time has_proposal :
  store_ok B s -> is_u64 time ->
  exists s', on_tick time has_proposal s = (s', Ok tt) /\ store_ok B s' /\
    s_time s' = N.max (time - genesis_time (s_config s)) (s_time s).
Proof. apply on_tick_spec. Qed.

(** An attestation passes validation exactly when its three blocks are known,
    the source is not after the target, both checkpoints carry their block's slot
    and it is at most one slot ahead of the clock. *)
Theorem validate_attestation_data_correct s d :
  validate_attestation_data s d = Ok tt <->
  checkpoint_ok (s_blocks s) (ad_source d) /\ checkpoint_ok (s_blocks s) (ad_target d) /\
  is_Some (s_blocks s !! cp_root (ad_head d)) /\
  cp_slot (ad_source d) <= cp_slot (ad_target d) /\
  ad_slot d <= wadd (s_time s / INTERVALS_PER_SLOT) 1.
Proof.
  apply validate_attestation_data_iff.
Qed.

(** The vote that stays: the later one, the old one on a tie. *)
Definition later_vote (old : option AttestationData) (d : AttestationData) : AttestationData :=
  match old with
  | Some e => if ad_slot e <? ad_slot d then d else e
  | None => d
  end.

(** A vote replaces the validator's latest vote of its stage only if its slot
    is later: a vote from a block goes to the known ones and removes a pending
    vote that is not later, a gossiped one goes to the pending ones; nothing else
    in the store changes. *)
Theorem on_attestation_internal_correct s v d :
  on_attestation_internal v d true s =
    (set_latest_new_attestations
       (match s_latest_new_attestations s !! v with
        | Some e => if ad_slot e <=? ad_slot d
                    then delete v (s_latest_new_attestations s)
                    else s_latest_new_attestations s
        | None => s_latest_new_attestations s
        end)
       (set_latest_known_attestations (<[v := later_vote (s_latest_known_attestations s !! v) d]>
          (s_latest_known_attestations s)) s), Ok tt) /\
  on_attestation_internal v d false s =
    (set_latest_new_attestations (<[v := later_vote (s_latest_new_attestations s !! v) d]>
       (s_latest_new_attestations s)) s, Ok tt).
Proof.
  unfold on_attestation_internal, mbind, stM_bind, modify_st, newer_than, later_vote.
  destruct s as [? ? ? ? ? ? ? ? known new ? ? ?]. cbn. split.
  - destruct (known !! v) as [e|] eqn:Ek; [destruct (ad_slot e <? ad_slot d)|]; cbn;
      rewrite ?(insert_id known v e) by done;
      destruct (new !! v) as [e'|]; try destruct (ad_slot e' <=? ad_slot d); done.
  - destruct (new !! v) as [e|] eqn:Ek; [destruct (ad_slot e <? ad_slot d)|]; cbn;
      rewrite ?(insert_id new v e) by done; done.
Qed.

(** A gossiped attestation that fails validation leaves the store unchanged;
    one that passes stores its signature under validator and data root and its
    vote among the pending ones, and never touches the votes fork choice uses. *)
Theorem on_gossip_attestation_correct s sa :
  let v := sa_validator_id sa in
  let d := sa_message sa in
  on_gossip_attestation sa s =
  match validate_attestation_data s d with
  | Ok _ => (set_latest_new_attestations
      (<[v := later_vote (s_latest_new_attestations s !! v) d]> (s_latest_new_attestations s))
      (set_gossip_signatures (<[mkSignatureKey v (hash_tree_root d) := sa_signature sa]>
         (s_gossip_signatures s)) s), Ok tt)
  | Err e => (s, Err e)
  | Panic p => (s, Panic p)
  | Diverge => (s, Diverge)
  end.
Proof.
  cbn zeta. unfold on_gossip_attestation, get_st, lift_st, mbind, stM_bind.
  destruct (validate_attestation_data s (sa_message sa)); [|done..]. cbn.
  unfold on_attestation_internal, modify_st, newer_than, later_vote, insert_gossip.
  destruct s as [? ? ? ? ? ? ? ? known new ? ? ?]. cbn.
  destruct (new !! _) as [e|] eqn:Ek; [destruct (ad_slot e <? ad_slot _)|]; cbn;
    rewrite ?(insert_id new _ e) by done; done.
Qed.

(** Accepting pending votes moves all of them to the known ones, where they
    replace the validator's earlier entry, leaves none pending, and sets the head
    to the fork choice on the result, a descendant of the justified block. *)
Theorem accept_new_attestations_correct (B : Block -> Prop) s :
  store_ok B s ->
  exists h s', accept_new_attestations s = (s', Ok tt) /\ store_ok B s' /\
    s_latest_known_attestations s' =
      s_latest_new_attestations s ∪ s_latest_known_attestations s /\
    s_latest_new_attestations s' = ∅ /\ s_head s' = h /\
    get_fork_choice_head s (cp_root (s_latest_justified s))
      (s_latest_known_attestations s') 0 = Ok h /\
    descends (s_blocks s) h (cp_root (s_latest_justified s)).
Proof.
  intros Hs. unfold accept_new_attestations, mbind, stM_bind, modify_st.
  set (s1 := set_latest_new_attestations ∅ _).
  assert (Hs1 : store_ok B s1) by (by apply store_ok_votes).
  destruct (update_head_eq B s1 Hs1) as (h & -> & Hh & Hd & Hin).
  exists h. eexists. split; [done|]. split; [by apply store_ok_head|]. done.
Qed.

(** C27: a proposal that succeeds has advanced the clock to its slot and accepted the
    pending votes; its block extends the head that fork choice gives on the blocks the
    node had and all its votes, known and pending; it is by the validator whose turn it
    is in the registry of the head's state, has one proof per attestation, and is in the
    store, as the only new block, with exactly the post-state that the state transition
    of the head's state gives to it. *)
Theorem produce_block_correct (B : Block -> Prop) slot v s s' root b proofs :
  no_collisions B -> store_ok B s ->
  produce_block_with_signatures slot v s = (s', Ok (root, b, proofs)) -> B b ->
  let votes := s_latest_new_attestations s ∪ s_latest_known_attestations s in
  store_ok B s' /\ root = hash_tree_root b /\ s_blocks s' = <[root := b]> (s_blocks s) /\
  (genesis_time (s_config s) + slot * SECONDS_PER_SLOT < u64_modulus ->
   s_time s' = N.max (slot * INTERVALS_PER_SLOT) (s_time s)) /\
  s_latest_known_attestations s' = votes /\ s_latest_new_attestations s' = ∅ /\
  get_fork_choice_head s (cp_root (s_latest_justified s)) votes 0 = Ok (b_parent_root b) /\
  s_head s' = b_parent_root b /\ b_slot b = slot /\ b_proposer_index b = v /\
  length (bb_attestations (b_body b)) = length proofs /\
  exists hst post, s_states s !! b_parent_root b = Some hst /\
    s_states s' = <[root := post]> (s_states s) /\
    v = slot `mod` len_u64 (st_validators hst) /\
    forall a sig, state_transition hst (mkSignedBlockWithAttestation
      (mkBlockWithAttestation b a) sig) true = Ok post.
Proof.
  intros HB Hs H HBb. cbn zeta. split; [eapply produce_block_keeps; [done..|]; naive_solver|].
  apply (produce_block_spec B) in H as (s1 & hst & post & E1 & Hs1 & -> & -> & Hsl & Hpi & Hpar &
    Hv & Hlen & Hst & Ht); [|done].
  destruct (proposal_head_spec B slot s Hs) as (s1' & E1' & _ & [(Cb & Cs & _) Htime Hnew Hknown Hh]).
  rewrite E1 in E1'. injection E1' as <-. cbn. rewrite Cb, Cs, Hpar. rewrite Cs in Hst.
  split; [done|]. split; [done|]. split; [|by eauto 20].
  intros Hsmall. rewrite Htime. unfold SECONDS_PER_SLOT, INTERVALS_PER_SLOT in *.
  rewrite wmul_small, wadd_small by (unfold is_u64; lia). f_equal. lia.
Qed.

(** The attestation target, when there is one, is a block on the chain of the
    head, at its slot, that can be justified after the finalized slot; looking
    for it terminates. *)
Theorem attestation_target_correct (B : Block -> Prop) s :
  store_ok B s ->
  terminates (get_attestation_target s) /\
  forall cp, get_attestation_target s = Ok cp ->
    checkpoint_ok (s_blocks s) cp /\ descends (s_blocks s) (s_head s) (cp_root cp) /\
    is_justifiable_after (cp_slot cp) (cp_slot (s_latest_finalized s)) = Ok true.
Proof.
  intros Hs. split; [apply get_attestation_target_terminates, Hs|].
  intros cp. by apply (get_attestation_target_inv B).
Qed.
End Properties.

(** * The concrete store *)

Section Concrete.
Import Toy.

Definition gblock : Block := Eval vm_compute in
  mkBlock 0 0 0 (hash_tree_root genesis) (mkBlockBody []).

Definition store0 : Store :=
  get_forkchoice_store genesis (sign_block gblock vote0) (mkConfig 1000).

Definition store1 : Store := (on_block (sign_block block1 vote0) store0).1.

(** The block validator 2 proposes for slot 2. *)
Definition pblock : Block := Eval vm_compute in
  match (produce_block_with_signatures 2 2 store1).2 with Ok (_, b, _) => b | _ => gblock end.

(** The blocks of the example. *)
Definition seen : Block -> Prop := listed [gblock; block1; block2; block3; pblock].

Lemma seen_no_collisions : no_collisions seen.
Proof. apply listed_no_collisions; vm_compute; reflexivity. Qed.

Ltac is_seen := unfold seen, listed; rewrite !elem_of_cons; tauto.

Lemma toy_anchor : genesis_anchor genesis gblock.
Proof.
  split; [apply chain_state_is_wf, toy_genesis_chain|]. repeat split; reflexivity.
Qed.

Lemma store0_reachable : store_reachable seen store0.
Proof. apply reach_anchor; [exact toy_anchor|is_seen]. Qed.

Lemma store0_ok : store_ok seen store0.
Proof. apply store_reachable_is_ok; [exact seen_no_collisions|exact store0_reachable]. Qed.

Lemma store1_reachable : store_reachable seen store1.
Proof.
  apply (reach_block seen store0 (sign_block block1 vote0) store1
    (on_block (sign_block block1 vote0) store0).2); [exact store0_reachable|is_seen|].
  apply surjective_pairing.
Qed.

Lemma store1_ok : store_ok seen store1.
Proof. apply store_reachable_is_ok; [exact seen_no_collisions|exact store1_reachable]. Qed.

Lemma fork_choice_head_correct_witness :
  exists r rb wt h, start_root (s_blocks store1) 0 r /\ s_blocks store1 !! r = Some rb /\
    (forall x, votes_for (s_blocks store1) (b_slot rb) ∅ x (wt x)) /\
    get_fork_choice_head store1 0 ∅ 0 = Ok h /\
    ghost (s_blocks store1) wt 0 r h /\ descends (s_blocks store1) h r.
Proof.
  apply (fork_choice_head_correct store1 0 ∅ 0 (so_blocks _ _ store1_ok)).
  - intros H. exfalso. apply H. reflexivity.
  - intros E. assert (H : size (s_blocks store1) = 0%nat) by (rewrite E; reflexivity).
    vm_compute in H. discriminate H.
Defined.

Lemma fork_choice_head_deterministic_witness :
  get_fork_choice_head (MO := map_to_list_order) store1 (hash_tree_root gblock) ∅ 0 =
  get_fork_choice_head (MO := fun _ _ _ _ m => reverse (map_to_list m)) store1
    (hash_tree_root gblock) ∅ 0.
Proof.
  assert (HM' : MapOrderLaws (fun _ _ _ _ m => reverse (map_to_list m)))
    by (intros K V ? ? m; apply reverse_Permutation).
  apply (fork_choice_head_deterministic store1 (hash_tree_root gblock) ∅ 0
    (so_blocks _ _ store1_ok)).
  exists gblock. vm_compute. reflexivity.
Defined.

Lemma store_reachable_ok_witness : store_ok seen store1.
Proof. apply (store_reachable_ok seen store1 seen_no_collisions store1_reachable). Defined.

Lemma on_block_correct_witness :
  store_ok seen (on_block (sign_block block1 vote0) store0).1 /\
  store_grows store0 (on_block (sign_block block1 vote0) store0).1 /\
  crash_of_transition (fun sb' => sb' = sign_block block1 vote0 \/ waiting store0 sb')
    (on_block (sign_block block1 vote0) store0).1 (on_block (sign_block block1 vote0) store0).2.
Proof. apply (on_block_correct seen store0 _ seen_no_collisions store0_ok). is_seen. Defined.

(** Block 2 before block 1: it waits, then both are processed. *)
Example orphan_is_released :
  let s := (on_block (sign_block block2 vote0) store0).1 in
  let s' := (on_block (sign_block block1 vote0) s).1 in
  queue_size (s_blocks_queue s) = 1%nat /\ queue_size (s_blocks_queue s') = 0%nat /\
  s_head s' = hash_tree_root block2.
Proof. vm_compute. repeat split. Qed.

Lemma on_block_known_or_orphan_witness :
  on_block (sign_block gblock vote0) store0 = (store0, Ok tt) /\
  (on_block (sign_block block2 vote0) store0).2 = Err (EBlockQueued (cp_root cp1) 1).
Proof.
  split.
  - apply (proj1 (on_block_known_or_orphan store0 (sign_block gblock vote0))).
    exists gblock. vm_compute. reflexivity.
  - rewrite (proj2 (on_block_known_or_orphan store0 (sign_block block2 vote0)));
      vm_compute; (reflexivity || discriminate).
Defined.

Lemma process_block_internal_atomic_witness :
  (process_block_internal (sign_block block2 vote0) (hash_tree_root block2) store0).1 = store0.
Proof.
  pose proof (process_block_internal_atomic seen store0 (sign_block block2 vote0)
    (process_block_internal (sign_block block2 vote0) (hash_tree_root block2) store0).1
    (Err ENoParentState) seen_no_collisions store0_ok) as H.
  apply H; [is_seen|].
  assert (E : (process_block_internal (sign_block block2 vote0) (hash_tree_root block2) store0).2
    = Err ENoParentState) by (vm_compute; reflexivity).
  rewrite <-E. apply surjective_pairing.
Defined.

Lemma on_tick_correct_witness :
  exists s', on_tick 1007 false store1 = (s', Ok tt) /\ store_ok seen s' /\ s_time s' = 7.
Proof. apply (on_tick_correct seen store1 1007 false store1_ok). reflexivity. Defined.

Lemma accept_new_attestations_correct_witness :
  exists h s', accept_new_attestations store1 = (s', Ok tt) /\ store_ok seen s' /\
    s_latest_known_attestations s' =
      s_latest_new_attestations store1 ∪ s_latest_known_attestations store1 /\
    s_latest_new_attestations s' = ∅ /\ s_head s' = h /\
    get_fork_choice_head store1 (cp_root (s_latest_justified store1))
      (s_latest_known_attestations s') 0 = Ok h /\
    descends (s_blocks store1) h (cp_root (s_latest_justified store1)).
Proof. apply (accept_new_attestations_correct seen store1 store1_ok). Defined.

Definition produced : Store * outcome (H256 * Block * list AggregatedSignatureProof) :=
  produce_block_with_signatures 2 2 store1.

Lemma produce_block_correct_witness :
  store_ok seen produced.1 /\
  s_blocks produced.1 = <[hash_tree_root pblock := pblock]> (s_blocks store1) /\
  s_time produced.1 = 8 /\ b_parent_root pblock = hash_tree_root block1.
Proof.
  destruct (produce_block_correct seen 2 2 store1 produced.1 (hash_tree_root pblock) pblock []
    seen_no_collisions store1_ok) as (H1 & _ & H2 & Ht & _).
  - assert (E : produced.2 = Ok (hash_tree_root pblock, pblock, []))
      by (vm_compute; reflexivity).
    rewrite <-E. exact (surjective_pairing produced).
  - is_seen.
  - split; [exact H1|]. split; [exact H2|]. split; [exact (Ht eq_refl)|]. vm_compute. reflexivity.
Defined.

Lemma attestation_target_correct_witness :
  checkpoint_ok (s_blocks store1) cp1 /\ descends (s_blocks store1) (s_head store1) (cp_root cp1) /\
  is_justifiable_after (cp_slot cp1) 0 = Ok true.
Proof.
  apply (proj2 (attestation_target_correct seen
    (set_safe_target (hash_tree_root block1) store1)
    (store_ok_safe seen store1 (hash_tree_root block1) store1_ok
       (mk_is_Some _ block1 ltac:(vm_compute; reflexivity)))) cp1).
  vm_compute. reflexivity.
Defined.

(** Blocks that arrive faster than the clock: with slot 1 final and the safe
    target still at genesis, the walk back ends before the finalized slot and the
    justifiability test panics. *)
Definition store3 : Store :=
  (on_block (sign_block block3 vote0) (on_block (sign_block block2 vote0) store1).1).1.

Example attestation_target_panics :
  s_latest_finalized store3 = cp1 /\ get_attestation_target store3 = Panic PAssert.
Proof. vm_compute. split; reflexivity. Qed.

(** A pending vote for slot 3 replaces a known one for slot 5. *)
Definition vote_at (slot : Slot) : AttestationData :=
  mkAttestationData slot cp1 cp1 cp0.

Example accept_replaces_later_vote :
  let s := set_latest_known_attestations {[0 := vote_at 5]}
    (set_latest_new_attestations {[0 := vote_at 3]} store1) in
  s_latest_known_attestations (accept_new_attestations s).1 !! 0 = Some (vote_at 3).
Proof. vm_compute. reflexivity. Qed.
End Concrete.
