(* ===== verification/Derivation.v ===== *)
(** * States are derived from the genesis state

    What the node relies on from the store: an invariant that every handler keeps,
    as the class [StoreInvariant].  Its instances are the store invariant of
    [StoreInv], and the stronger one proved here: every state of the store is the
    result of the state transitions along its block's chain from genesis.  Such a
    state is determined by its block. *)

From S2P Require Import Prelude Slot Ssz Xmss Containers State JustifiedSlots StateInv.
From S2P Require Import Transition StateTheorems BuildBlock BuildTheorems ForkChoice.
From S2P Require Import ForkChoiceHead StoreInv StoreBlocks StoreTheorems.

#[local] Open Scope N_scope.

Section Interface.
Context {C : SszContainers} {HC : SszContainersLaws C} {LS : LeanSig}.
Context {SO : SetOrder} {HO : SetOrderLaws SO} {MO : MapOrder} {HM : MapOrderLaws MO}.
Context {HState : SszHash State} {HHeader : SszHash BlockHeader} {HBlock : SszHash Block}
  {HBody : SszHash BlockBody} {HData : SszHash AttestationData}.

(** The computation keeps [P] and every block. *)
Definition keeps_growing {A} (P : Store -> Prop) (m : stM Store A) : Prop :=
  forall s, P s -> P (m s).1 /\ s_blocks s ⊆ s_blocks (m s).1.

(** An invariant of the store that includes [store_ok] and that the handlers keep,
    without dropping a block; block production need keep it on nodes that propose only. *)
Class StoreInvariant (B : Block -> Prop) (P : Store -> Prop) (proposes : Prop) : Prop := {
  si_ok : forall s, P s -> store_ok B s;
  si_tick : forall now p, is_u64 now -> keeps_growing P (on_tick now p);
  si_block : forall sb, B (bwa_block (sb_message sb)) -> keeps_growing P (on_block sb);
  si_attestation : forall sa fb, keeps_growing P (on_attestation sa fb);
  si_produce : proposes -> forall slot v s, P s ->
    (forall root b proofs, (produce_block_with_signatures slot v s).2 = Ok (root, b, proofs) -> B b) ->
    P (produce_block_with_signatures slot v s).1 /\
    s_blocks s ⊆ s_blocks (produce_block_with_signatures slot v s).1
}.

Lemma on_attestation_keeps B sa fb : keeps (store_ok B) (on_attestation sa fb).
Proof.
  unfold on_attestation. apply keeps_bind; [apply keeps_get|]. intros s1.
  apply keeps_bind; [apply keeps_lift|]. intros _.
  apply keeps_bind; [destruct fb; [apply keeps_ret|apply keeps_modify; intros;
    by apply store_ok_gossip]|]. intros _ s Hs.
  apply (on_attestation_internal_keeps B s _ _ fb s (ok_from_refl B s Hs)).
Qed.

Lemma on_block_keeps B sb :
  no_collisions B -> B (bwa_block (sb_message sb)) -> keeps (store_ok B) (on_block sb).
Proof.
  intros HB HBb s Hs. pose proof (on_block_spec B HB s sb Hs HBb) as H.
  by destruct (on_block sb s) as [s' r]; destruct H as [[? _] _].
Qed.

Lemma on_tick_keeps B now p : is_u64 now -> keeps (store_ok B) (on_tick now p).
Proof.
  intros Hu s Hs. by destruct (on_tick_spec B now p s Hs Hu) as (s' & -> & Hs' & _).
Qed.

End Interface.

(** * Derived states *)

Section Derivation.
Context {C : SszContainers} {HC : SszContainersLaws C} {LS : LeanSig}.
Context {SO : SetOrder} {HO : SetOrderLaws SO} {MO : MapOrder} {HM : MapOrderLaws MO}.
Context {HState : SszHash State} {HHeader : SszHash BlockHeader} {HBlock : SszHash Block}
  {HBody : SszHash BlockBody} {HData : SszHash AttestationData}.
Context (B : Block -> Prop) (HB : no_collisions B).

(** The state after a block: the genesis state, or a transition from the state
    after the parent. *)
Inductive derives (gb : Block) (gst : State) : Block -> State -> Prop :=
  | derives_genesis : derives gb gst gb gst
  | derives_child pb pst sb st :
      derives gb gst pb pst -> B pb -> b_parent_root (bwa_block (sb_message sb)) = hash_tree_root pb ->
      state_transition pst sb true = Ok st ->
      derives gb gst (bwa_block (sb_message sb)) st.

Lemma transition_envelope st sb sb' :
  bwa_block (sb_message sb) = bwa_block (sb_message sb') ->
  state_transition st sb true = state_transition st sb' true.
Proof.
  destruct sb as [[b a] sig], sb' as [[b' a'] sig']. cbn. intros <-.
  reflexivity.
Qed.

Lemma derives_unique gb gst b st st' :
  b_parent_root gb = 0 -> derives gb gst b st -> derives gb gst b st' -> st = st'.
Proof.
  intros Hg H. revert st'.
  induction H as [|pb pst sb st Hp IH HBp Hpar Ht]; intros st' H'.
  - inversion H' as [|pb pst sb ? _ HBp Hpar _ Eb]; [done|]. subst.
    rewrite Hg in Hpar. by destruct (nc_nonzero _ HB pb HBp).
  - remember (bwa_block (sb_message sb)) as b eqn:Eb.
    destruct H' as [|pb' pst' sb' st' Hp' HBp' Hpar' Ht'].
    + rewrite Hg in Hpar. by destruct (nc_nonzero _ HB pb HBp).
    + rewrite Hpar in Hpar'. apply (nc_inj _ HB) in Hpar' as <-; [|done..].
      apply IH in Hp' as <-. rewrite (transition_envelope _ sb' sb) in Ht' by done.
      congruence.
Qed.

Context (gb : Block) (gst : State).

Definition derived (s : Store) : Prop :=
  forall r b st, s_blocks s !! r = Some b -> s_states s !! r = Some st -> derives gb gst b st.

(** The store invariant with derived states. *)
Definition chain_ok (s : Store) : Prop := store_ok B s /\ derived s.

Lemma derived_chain {A} (m : stM Store A) s :
  (forall s0, keeps (chain_is s0) m) -> derived s -> derived (m s).1.
Proof.
  intros Hm Hs. destruct (Hm s s) as (Eb & Es & _); [done|].
  unfold derived. by rewrite Eb, Es.
Qed.

Lemma derived_insert s sb pst st :
  chain_ok s -> s_states s !! b_parent_root (bwa_block (sb_message sb)) = Some pst ->
  state_transition pst sb true = Ok st ->
  derived (insert_plain (bwa_block (sb_message sb)) st s).
Proof.
  intros [Hs Hd] Hp Ht r b x. unfold insert_plain. cbn. rewrite !lookup_insert.
  case_decide as E; [|apply Hd]. intros [= <-] [= <-].
  destruct (so_dom _ _ Hs (b_parent_root (bwa_block (sb_message sb)))) as [_ [pb Hpb]];
    [by eexists|].
  destruct (so_seen _ _ Hs _ _ Hpb) as [HBp Hr].
  eapply derives_child; [by eapply Hd|done|done|done].
Qed.

Lemma process_block_internal_chain sb :
  B (bwa_block (sb_message sb)) ->
  keeps chain_ok (process_block_internal sb (hash_tree_root (bwa_block (sb_message sb)))).
Proof.
  intros HBb s Hs. pose proof (process_block_internal_spec B HB s sb (proj1 Hs) HBb) as Hsp.
  rewrite process_block_internal_cases in *.
  destruct (s_states s !! _) as [st|] eqn:Est; [|done].
  destruct (state_transition st sb true) as [st'|e|p|] eqn:Et; [|done..].
  split; [by destruct (block_votes sb _); apply Hsp|].
  apply derived_chain; [intros; apply block_votes_chain|].
  pose proof (derived_insert s sb st st' Hs Est Et) as Hi.
  unfold insert_block. by repeat case_match.
Qed.

(** ** Invariants of block processing *)

Section BlockInvariant.
Context (P : Store -> Prop) (Pok : forall s, P s -> store_ok B s).
Context (Pqueue : forall q s, P s -> store_ok B (set_blocks_queue q s) -> P (set_blocks_queue q s)).
Context (Pblock : forall sb, B (bwa_block (sb_message sb)) ->
  keeps P (process_block_internal sb (hash_tree_root (bwa_block (sb_message sb))))).

Lemma process_purgatory_lift l roots :
  (forall sb, sb ∈ l -> B (bwa_block (sb_message sb))) ->
  keeps P (process_purgatory l roots).
Proof.
  revert roots; induction l as [|sb l IH]; intros roots Hl; cbn [process_purgatory];
    [apply keeps_ret|].
  apply keeps_bind; [|intros ok; apply IH; intros; apply Hl; by right].
  intros s Hs. pose proof (Pblock sb (Hl _ (list_elem_of_here _ _)) s Hs).
  unfold try_st. by destruct (process_block_internal sb _ s) as [s1 []].
Qed.

Lemma pending_loop_lift fuel roots : keeps P (pending_loop fuel roots).
Proof.
  revert roots; induction fuel as [|fuel IH]; intros [|root roots]; cbn [pending_loop];
    try apply keeps_ret; [apply keeps_lift|].
  intros s Hs. unfold mbind at 1, stM_bind at 1, get_st. cbn beta iota.
  destruct (s_blocks_queue s !! root) as [l|] eqn:El; [|by apply IH].
  unfold mbind at 1, stM_bind at 1, modify_st. cbn beta iota.
  apply keeps_bind; [|intros; apply IH|].
  - apply process_purgatory_lift. intros sb Hsb. by apply (so_queue _ _ (Pok s Hs) root l).
  - apply Pqueue; [done|]. apply store_ok_queue; [by apply Pok|]. intros p l' sb Hl'.
    apply lookup_delete_Some in Hl' as [_ Hl']. by apply (so_queue _ _ (Pok s Hs)).
Qed.

(** What processing one block keeps, receiving a block keeps. *)
Lemma on_block_lift sb : B (bwa_block (sb_message sb)) -> keeps P (on_block sb).
Proof.
  intros HBb s Hs. pose proof (on_block_keeps B sb HB HBb s (Pok s Hs)) as Hk.
  unfold on_block, mbind at 1, stM_bind at 1, get_st in Hk. cbn beta iota in Hk.
  unfold on_block, mbind at 1, stM_bind at 1, get_st. cbn beta iota.
  case_bool_decide; [done|]. destruct (bool_decide _ && negb _).
  { cbn. by apply Pqueue. }
  apply keeps_bind; [by apply Pblock| |exact Hs].
  intros _. unfold process_pending_blocks. apply keeps_bind; [apply keeps_get|]. intros.
  apply pending_loop_lift.
Qed.
End BlockInvariant.

Lemma on_block_chain sb : B (bwa_block (sb_message sb)) -> keeps chain_ok (on_block sb).
Proof.
  apply on_block_lift; [by intros s []|by intros q s [_ Hd] Hs|apply process_block_internal_chain].
Qed.

Lemma produce_block_chain slot v s :
  chain_ok s ->
  (forall root b proofs, (produce_block_with_signatures slot v s).2 = Ok (root, b, proofs) -> B b) ->
  chain_ok (produce_block_with_signatures slot v s).1.
Proof.
  intros [Hs Hd] HBb. split.
  { destruct (produce_block_with_signatures slot v s) as [s' r] eqn:E.
    by eapply produce_block_keeps. }
  destruct (get_proposal_head_spec B slot s Hs) as (s1 & E1 & Hs1).
  assert (Hd1 : derived s1).
  { pose proof (derived_chain (get_proposal_head slot) s) as Hk. rewrite E1 in Hk. apply Hk; [|done].
    intros. apply get_proposal_head_chain. }
  destruct (produce_block_with_signatures slot v s) as [s' [[[root b] proofs]| | |]] eqn:E.
  { pose proof (HBb _ _ _ eq_refl) as HBx. cbn [fst].
    apply (produce_block_spec B) in E as (s1' & hst & post & E1' & _ & -> & _ & _ & _ & Hpar & _ &
      _ & Hst & Ht); [|done].
    rewrite E1 in E1'. injection E1' as <- _. rewrite <-Hpar in Hst.
    specialize (Ht (mkAttestation 0 (mkAttestationData 0 Checkpoint_default Checkpoint_default
      Checkpoint_default)) (mkBlockSignatures [] Signature_default)).
    exact (derived_insert s1 (mkSignedBlockWithAttestation (mkBlockWithAttestation b _) _) hst post
      (conj Hs1 Hd1) Hst Ht). }
  all: unfold produce_block_with_signatures, mbind, stM_bind, get_st, lift_st, modify_st in E;
    rewrite E1 in E; repeat case_match; by simplify_eq/=.
Qed.

Lemma produce_block_grows slot v s :
  store_ok B s ->
  (forall root b proofs, (produce_block_with_signatures slot v s).2 = Ok (root, b, proofs) -> B b) ->
  s_blocks s ⊆ s_blocks (produce_block_with_signatures slot v s).1.
Proof.
  intros Hs HBb. destruct (get_proposal_head_spec B slot s Hs) as (s1 & E1 & Hs1).
  destruct (get_proposal_head_chain s slot s) as (Eb & _); [done|]. rewrite E1 in Eb. cbn in Eb.
  destruct (produce_block_with_signatures slot v s) as [s' [[[root b] proofs]| | |]] eqn:E.
  { apply (produce_block_spec B) in E as (s1' & hst & post & E1' & _ & -> & _); [|done].
    rewrite E1 in E1'. injection E1' as <- _. cbn. rewrite <-Eb.
    apply (insert_known B HB); [done|]. by eapply HBb. }
  all: unfold produce_block_with_signatures, mbind, stM_bind, get_st, lift_st, modify_st in E;
    rewrite E1 in E; repeat case_match; simplify_eq/=; by rewrite ?Eb.
Qed.

(** A handler that leaves blocks and states alone. *)
Lemma growing_is {A} (P : Store -> Prop) (m : stM Store A) :
  keeps P m -> (forall s0, keeps (chain_is s0) m) -> keeps_growing P m.
Proof. intros Hk Hm s Hs. split; [by apply Hk|]. by destruct (Hm s s) as [-> _]. Qed.

Lemma on_block_grows (P : Store -> Prop) sb :
  (forall s, P s -> store_ok B s) -> B (bwa_block (sb_message sb)) -> keeps P (on_block sb) ->
  keeps_growing P (on_block sb).
Proof.
  intros HP HBb Hk s Hs. split; [by apply Hk|].
  pose proof (on_block_spec B HB s sb (HP s Hs) HBb) as H.
  destruct (on_block sb s) as [s' r]. destruct H as [[_ Hg] _]. apply Hg.
Qed.

(** The store invariant, and the one with derived states. *)
Lemma store_ok_invariant proposes : StoreInvariant B (store_ok B) proposes.
Proof.
  split.
  - done.
  - intros. apply growing_is; [by apply on_tick_keeps|intros; apply on_tick_chain].
  - intros. apply on_block_grows; [done..|by apply on_block_keeps].
  - intros. apply growing_is; [by apply on_attestation_keeps|intros; apply on_attestation_chain].
  - intros _ slot v s Hs HBb. split; [|by apply produce_block_grows].
    destruct (produce_block_with_signatures slot v s) as [s' r] eqn:E.
    by eapply produce_block_keeps.
Qed.

Lemma chain_ok_invariant proposes : StoreInvariant B chain_ok proposes.
Proof.
  split.
  - by intros s [].
  - intros now p Hu. apply growing_is; [|intros; apply on_tick_chain].
    intros s [Hs Hd]. split; [by apply on_tick_keeps|].
    apply derived_chain; [|done]. intros. apply on_tick_chain.
  - intros. apply on_block_grows; [by intros s []|done|by apply on_block_chain].
  - intros sa fb. apply growing_is; [|intros; apply on_attestation_chain].
    intros s [Hs Hd]. split; [by apply on_attestation_keeps|].
    apply derived_chain; [|done]. intros. apply on_attestation_chain.
  - intros _ slot v s Hs HBb. split; [by apply produce_block_chain|].
    apply produce_block_grows; [apply Hs|done].
Qed.

Lemma anchor_chain_ok sb cfg :
  genesis_anchor gst gb -> B gb -> bwa_block (sb_message sb) = gb ->
  chain_ok (get_forkchoice_store gst sb cfg).
Proof.
  intros Ha HBg Eb. split; [apply anchor_store_ok; by rewrite ?Eb|].
  intros r b st. cbn. intros [<- <-]%lookup_singleton_Some [_ <-]%lookup_singleton_Some.
  rewrite Eb. apply derives_genesis.
Qed.
End Derivation.
