(* ===== verification/Validator.v ===== *)
(** * The validator client

    [validator/src/lib.rs] and [validator/src/keys.rs]: which validators a node
    runs, their keys, block proposals and attestations.  The file system is the
    class [FileSystem]. *)

From stdpp Require Import strings pretty.
From Stdlib Require Import Strings.Byte.
From S2P Require Import Prelude Slot Ssz Xmss Containers State JustifiedSlots StateInv.
From S2P Require Import Transition StateTheorems BuildBlock ForkChoice ForkChoiceHead StoreInv.
From S2P Require Import StoreBlocks StoreTheorems Example.

#[local] Open Scope N_scope.

(** [std::fs] and [std::path]. *)
Class FileSystem := {
  fs_exists : string -> bool;
  fs_read : string -> option (list Byte.byte);
  path_join : string -> string -> string
}.

(** [HashMap<String, Vec<u64>>] *)
Abbreviation ValidatorRegistry := (gmap string (list u64)) (only parsing).

Record ValidatorConfig := mkValidatorConfig {
  node_id : string;
  validator_indices : list u64
}.

Record KeyManager := mkKeyManager {
  km_keys : gmap u64 SecretKey;
  km_keys_dir : string
}.

Record ValidatorService := mkValidatorService {
  vs_config : ValidatorConfig;
  vs_num_validators : u64;
  vs_key_manager : option KeyManager
}.

Definition ENodeNotInRegistry : error := EExternal 10.
Definition EKeysDirMissing : error := EExternal 11.
Definition EKeyFileUnreadable : error := EExternal 12.

(** [ValidatorConfig::load_from_file], once the YAML file is read. *)
Definition load_from_registry (registry : ValidatorRegistry) (id : string)
    : outcome ValidatorConfig :=
  indices ← ok_or (registry !! id) ENodeNotInRegistry;
  Ok (mkValidatorConfig id indices).

Definition is_assigned (self : ValidatorConfig) (index : u64) : bool :=
  bool_decide (index ∈ validator_indices self).

Section Keys.
Context {LS : LeanSig} {FS : FileSystem}.

Definition KeyManager_new (keys_dir : string) : outcome KeyManager :=
  _ ← ensure (fs_exists keys_dir) EKeysDirMissing;
  Ok (mkKeyManager ∅ keys_dir).

(** [format!("validator_{}_sk.ssz", validator_index)] *)
Definition key_file (validator_index : u64) : string :=
  ("validator_" +:+ pretty validator_index +:+ "_sk.ssz")%string.

Definition load_key (self : KeyManager) (validator_index : u64) : outcome KeyManager :=
  key_bytes ← ok_or (fs_read (path_join (km_keys_dir self) (key_file validator_index)))
    EKeyFileUnreadable;
  key ← SecretKey_try_from key_bytes;
  Ok (mkKeyManager (<[validator_index := key]> (km_keys self)) (km_keys_dir self)).

Definition KeyManager_sign (self : KeyManager) (validator_index : u64) (epoch : N)
    (message : H256) : outcome Signature :=
  key ← ok_or (km_keys self !! validator_index) ENoKeyForValidator;
  SecretKey_sign key message epoch.

Definition has_key (self : KeyManager) (validator_index : u64) : bool :=
  bool_decide (is_Some (km_keys self !! validator_index)).

Definition ValidatorService_new (config : ValidatorConfig) (num_validators : u64)
    : ValidatorService :=
  mkValidatorService config num_validators None.

Definition new_with_keys (config : ValidatorConfig) (num_validators : u64)
    (keys_dir : string) : outcome ValidatorService :=
  key_manager ← KeyManager_new keys_dir;
  key_manager ← foldM load_key key_manager (validator_indices config);
  Ok (mkValidatorService config num_validators (Some key_manager)).
End Keys.

Definition get_proposer_for_slot (self : ValidatorService) (slot : Slot) : option u64 :=
  if vs_num_validators self =? 0 then None else
  let proposer := slot `mod` vs_num_validators self in
  if is_assigned (vs_config self) proposer then Some proposer else None.

Section Service.
Context {C : SszContainers} {LS : LeanSig} {SO : SetOrder} {MO : MapOrder}.
Context {HState : SszHash State} {HHeader : SszHash BlockHeader} {HBlock : SszHash Block}
  {HBody : SszHash BlockBody} {HData : SszHash AttestationData}.

Definition sign_block (self : ValidatorService) (store : Store) (block : Block)
    (validator_index : u64) (attestation_signatures : list AggregatedSignatureProof)
    : outcome SignedBlockWithAttestation :=
  data ← produce_attestation_data store (b_slot block);
  let proposer_attestation := mkAttestation validator_index data in
  key_manager ← ok_or (vs_key_manager self) EKeyManagerMissing;
  proposer_signature ← KeyManager_sign key_manager validator_index
    (as_u32 (b_slot block)) (hash_tree_root data);
  proofs ← ok_or (pl_try_from_iter ValidatorRegistryLimit attestation_signatures) EListTooLong;
  Ok (mkSignedBlockWithAttestation (mkBlockWithAttestation block proposer_attestation)
        (mkBlockSignatures proofs proposer_signature)).

Definition build_block_proposal (self : ValidatorService) (slot : Slot)
    (proposer_index : u64) : stM Store SignedBlockWithAttestation :=
  '(_, block, signatures) ← produce_block_with_signatures slot proposer_index;
  store ← get_st;
  lift_st (sign_block self store block proposer_index signatures).

(** The signature of one attestation; [None] skips the validator. *)
Definition attestation_signature (self : ValidatorService) (idx : u64) (epoch : N)
    (message : H256) : outcome (option Signature) :=
  match vs_key_manager self with
  | Some key_manager =>
      match KeyManager_sign key_manager idx epoch message with
      | Ok sig => Ok (Some sig)
      | Err _ => Ok None
      | Panic p => Panic p
      | Diverge => Diverge
      end
  | None => Ok (Some Signature_default)
  end.

(** The closure of the [filter_map] over the assigned validators. *)
Definition attest (self : ValidatorService) (data : AttestationData) (idx : u64)
    : outcome (option SignedAttestation) :=
  sig ← attestation_signature self idx (as_u32 (ad_slot data)) (hash_tree_root data);
  Ok (mkSignedAttestation idx data <$> (sig : option Signature)).

Definition create_attestations (self : ValidatorService) (store : Store) (slot : Slot)
    : outcome (list SignedAttestation) :=
  vote_target ← get_attestation_target store;
  if cp_slot vote_target <? cp_slot (s_latest_justified store) then Ok [] else
  match s_blocks store !! s_head store with
  | None => Ok []
  | Some head_block =>
      let data := mkAttestationData slot (mkCheckpoint (s_head store) (b_slot head_block))
        vote_target (s_latest_justified store) in
      atts ← mapM (attest self data) (validator_indices (vs_config self));
      Ok (omap id (atts : list (option SignedAttestation)))
  end.
End Service.

(** * Keys *)

Section KeyLemmas.
Context {LS : LeanSig} {FS : FileSystem}.

Lemma load_key_inv km i km' :
  load_key km i = Ok km' ->
  is_Some (km_keys km' !! i) /\ km_keys_dir km' = km_keys_dir km /\
  forall j, is_Some (km_keys km !! j) -> is_Some (km_keys km' !! j).
Proof.
  unfold load_key. intros H. ok_inv. subst km'. cbn.
  split; [rewrite lookup_insert_eq; by eexists|]. split; [done|].
  intros j Hj. rewrite lookup_insert_is_Some. destruct (decide (i = j)); [by left|by right].
Qed.

Lemma load_keys_inv km l km' :
  foldM load_key km l = Ok km' ->
  (forall i, i ∈ l -> is_Some (km_keys km' !! i)) /\
  forall j, is_Some (km_keys km !! j) -> is_Some (km_keys km' !! j).
Proof.
  revert km; induction l as [|i l IH]; intros km H; cbn in H; ok_inv.
  { subst. split; [by intros ? ?%not_elem_of_nil|done]. }
  apply load_key_inv in Hx as (Hi & _ & Hmono). apply IH in H as [Hl Hkeep].
  split; [|by auto]. intros j [->|Hj]%elem_of_cons; auto.
Qed.

(** A validator service that starts with keys has a key for every validator
    it is responsible for. *)
Theorem new_with_keys_complete config n dir vs :
  new_with_keys config n dir = Ok vs ->
  vs_config vs = config /\ vs_num_validators vs = n /\
  exists km, vs_key_manager vs = Some km /\
    forall i, is_assigned config i = true -> has_key km i = true.
Proof.
  unfold new_with_keys. intros H. ok_inv. subst vs. cbn. split; [done|]. split; [done|].
  eexists. split; [done|]. intros i Hi%bool_decide_eq_true.
  apply load_keys_inv in Hx0 as [Hk _]. by apply bool_decide_eq_true_2, Hk.
Qed.
End KeyLemmas.

(** The node proposes for a slot exactly when the slot's turn in the registry
    falls on a validator assigned to it. *)
Theorem get_proposer_for_slot_correct vs slot p :
  get_proposer_for_slot vs slot = Some p <->
  vs_num_validators vs <> 0 /\ p = slot `mod` vs_num_validators vs /\
  p ∈ validator_indices (vs_config vs).
Proof.
  unfold get_proposer_for_slot, is_assigned.
  destruct (N.eqb_spec (vs_num_validators vs) 0); [naive_solver|].
  case_bool_decide; naive_solver.
Qed.

(** * Attestations and proposals *)

Section ServiceLemmas.
Context {C : SszContainers} {HC : SszContainersLaws C} {LS : LeanSig}.
Context {SO : SetOrder} {HO : SetOrderLaws SO} {MO : MapOrder} {HM : MapOrderLaws MO}.
Context {HState : SszHash State} {HHeader : SszHash BlockHeader} {HBlock : SszHash Block}
  {HBody : SszHash BlockBody} {HData : SszHash AttestationData}.

(** The common data of the attestations a node makes for a slot. *)
Lemma create_attestations_inv vs s slot l :
  create_attestations vs s slot = Ok l ->
  l = [] \/ exists target hb, get_attestation_target s = Ok target /\
    cp_slot (s_latest_justified s) <= cp_slot target /\
    s_blocks s !! s_head s = Some hb /\
    exists opts, mapM (attest vs (mkAttestationData slot
        (mkCheckpoint (s_head s) (b_slot hb)) target (s_latest_justified s)))
      (validator_indices (vs_config vs)) = Ok opts /\ l = omap id opts.
Proof.
  unfold create_attestations. intros (target & Ht & H)%bind_Ok.
  destruct (N.ltb_spec (cp_slot target) (cp_slot (s_latest_justified s))) as [Hlt|Hle];
    [left; by injection H|].
  destruct (s_blocks s !! s_head s) as [hb|]; [|left; by injection H].
  apply bind_Ok in H as (opts & Ho & [= <-]). right. exists target, hb.
  do 3 (split; [done|]). by exists opts.
Qed.

Lemma attest_inv vs data idx sa :
  attest vs data idx = Ok (Some sa) ->
  sa_validator_id sa = idx /\ sa_message sa = data /\
  match vs_key_manager vs with
  | Some km => KeyManager_sign km idx (as_u32 (ad_slot data)) (hash_tree_root data)
                 = Ok (sa_signature sa)
  | None => sa_signature sa = Signature_default
  end.
Proof.
  unfold attest, attestation_signature. intros ([sig|] & Hs & [= <-])%bind_Ok.
  split; [done|]. split; [done|]. destruct (vs_key_manager vs); [|by simplify_eq/=].
  destruct (KeyManager_sign _ _ _ _); by simplify_eq/=.
Qed.

(** C34: every attestation the node makes for a slot up to the next one is by a validator
    assigned to it, for that slot, signed with that validator's key over the root
    of its data (or a zero signature without keys), and passes the validation of
    the node's own store. *)
Theorem create_attestations_valid (B : Block -> Prop) vs s slot l :
  store_ok B s -> slot <= wadd (s_time s / INTERVALS_PER_SLOT) 1 ->
  create_attestations vs s slot = Ok l ->
  forall sa, sa ∈ l -> sa_validator_id sa ∈ validator_indices (vs_config vs) /\
    ad_slot (sa_message sa) = slot /\
    validate_attestation_data s (sa_message sa) = Ok tt /\
    match vs_key_manager vs with
    | Some km => KeyManager_sign km (sa_validator_id sa) (as_u32 slot)
                   (hash_tree_root (sa_message sa)) = Ok (sa_signature sa)
    | None => sa_signature sa = Signature_default
    end.
Proof.
  intros Hs Hslot [->|(target & hb & Ht & Hle & Hhb & opts & Ho & ->)]%create_attestations_inv
    sa Hsa; [by apply not_elem_of_nil in Hsa|].
  apply list_elem_of_omap in Hsa as (o & Ho' & Hoid). unfold id in Hoid. subst o. apply list_elem_of_lookup in Ho' as [k Hk].
  apply mapM_Ok in Ho. eapply Forall2_lookup_r in Ho as (idx & Hidx & Ha); [|done].
  apply attest_inv in Ha as (Hid & Hm & Hsig). rewrite Hid, Hm.
  split; [by eapply list_elem_of_lookup_2|]. split; [done|]. split; [|done].
  apply validate_attestation_data_iff. cbn.
  split; [apply Hs|]. split; [by apply (get_attestation_target_inv B) in Ht as [? _]|].
  split; [by eexists|]. split; [done|done].
Qed.

(** C33: a proposal that succeeds yields a block of the node's store for the slot
    and proposer, extending the head, with one proof per attestation, and a
    proposer vote for that slot signed with the proposer's key. *)
Theorem build_block_proposal_correct (B : Block -> Prop) vs slot p s s' sb :
  no_collisions B -> store_ok B s ->
  build_block_proposal vs slot p s = (s', Ok sb) -> B (bwa_block (sb_message sb)) ->
  let b := bwa_block (sb_message sb) in
  let a := bwa_proposer_attestation (sb_message sb) in
  store_ok B s' /\ s_blocks s' !! hash_tree_root b = Some b /\
  b_slot b = slot /\ b_proposer_index b = p /\ b_parent_root b = s_head s' /\
  length (bb_attestations (b_body b)) = length (bs_attestation_signatures (sb_signature sb)) /\
  at_validator_id a = p /\ ad_slot (at_data a) = slot /\
  exists km, vs_key_manager vs = Some km /\
    KeyManager_sign km p (as_u32 slot) (hash_tree_root (at_data a)) =
      Ok (bs_proposer_signature (sb_signature sb)).
Proof.
  intros HB Hs H HBb. cbn zeta. unfold build_block_proposal, mbind at 1, stM_bind at 1 in H.
  destruct (produce_block_with_signatures slot p s) as [s1 r1] eqn:Ep.
  destruct r1 as [[[root b] proofs]| | |]; try done.
  unfold mbind, stM_bind, get_st, lift_st in H. injection H as -> H.
  unfold sign_block in H. apply bind_Ok in H as (data & Hd & H).
  apply bind_Ok in H as (km & Hkm%ok_or_Ok & H). apply bind_Ok in H as (sig & Hsig & H).
  apply bind_Ok in H as (prs & Hprs%ok_or_Ok & [= <-]). cbn in HBb |- *.
  rewrite pl_try_from_iter_law in Hprs. destruct (_ <=? _); [|done]. injection Hprs as <-.
  pose proof (produce_block_keeps B HB slot p s s' _ Hs Ep ltac:(naive_solver)) as Hs'.
  apply (produce_block_spec B) in Ep as (s2 & hst & post & _ & Hs2 & -> & -> & <- & <- & Hpar &
    _ & Hlen & _); [|done].
  split; [done|]. split; [apply lookup_insert_eq|]. do 4 (split; [done|]).
  split; [done|]. split; [|by exists km].
  unfold produce_attestation_data in Hd. ok_inv. by subst data.
Qed.
End ServiceLemmas.

(** * A concrete node *)

Section Concrete.
Import Toy.

#[local] Instance toy_fs : FileSystem := {|
  fs_exists := fun _ => true;
  fs_read := fun _ => Some [x00];
  path_join := fun d f => (d +:+ "/" +:+ f)%string
|}.

Definition toy_config : ValidatorConfig := mkValidatorConfig "node0" [0; 2].

Definition toy_service : ValidatorService :=
  get (ValidatorService_new toy_config 4) (new_with_keys toy_config 4 "keys").

Lemma new_with_keys_complete_witness :
  vs_config toy_service = toy_config /\ vs_num_validators toy_service = 4 /\
  exists km, vs_key_manager toy_service = Some km /\
    forall i, is_assigned toy_config i = true -> has_key km i = true.
Proof. apply (new_with_keys_complete toy_config 4 "keys"). vm_compute. reflexivity. Defined.

Definition toy_proposal : Store * outcome SignedBlockWithAttestation :=
  build_block_proposal toy_service 2 2 store1.

Definition toy_signed : SignedBlockWithAttestation :=
  get (Toy.sign_block block1 vote0) toy_proposal.2.

Lemma build_block_proposal_correct_witness :
  store_ok seen toy_proposal.1 /\
  s_blocks toy_proposal.1 !! hash_tree_root pblock = Some pblock /\
  exists km, vs_key_manager toy_service = Some km /\
    KeyManager_sign km 2 2
      (hash_tree_root (at_data (bwa_proposer_attestation (sb_message toy_signed)))) =
      Ok (bs_proposer_signature (sb_signature toy_signed)).
Proof.
  assert (Eb : bwa_block (sb_message toy_signed) = pblock) by (vm_compute; reflexivity).
  destruct (build_block_proposal_correct seen toy_service 2 2 store1 toy_proposal.1 toy_signed
    seen_no_collisions store1_ok) as (H1 & H2 & _ & _ & _ & _ & _ & _ & H3).
  - assert (E : toy_proposal.2 = Ok toy_signed).
    { unfold toy_signed. destruct toy_proposal as [s [r| | |]] eqn:Ep; [reflexivity|exfalso..];
        assert (Hok : is_ok toy_proposal.2 = true) by (vm_compute; reflexivity);
        rewrite Ep in Hok; discriminate Hok. }
    rewrite <-E. exact (surjective_pairing toy_proposal).
  - rewrite Eb. unfold seen, listed. rewrite !elem_of_cons. tauto.
  - rewrite Eb in H2. exact (conj H1 (conj H2 H3)).
Defined.

Definition toy_atts : list SignedAttestation := get [] (create_attestations toy_service store0 0).

Lemma create_attestations_valid_witness :
  length toy_atts = 2%nat /\
  forall sa, sa ∈ toy_atts -> validate_attestation_data store0 (sa_message sa) = Ok tt.
Proof.
  assert (E : create_attestations toy_service store0 0 = Ok toy_atts).
  { unfold toy_atts. destruct (create_attestations toy_service store0 0) eqn:Ec;
      [reflexivity|exfalso..];
      assert (Hok : is_ok (create_attestations toy_service store0 0) = true)
        by (vm_compute; reflexivity); rewrite Ec in Hok; discriminate Hok. }
  split; [vm_compute; reflexivity|]. intros sa Hsa.
  destruct (create_attestations_valid seen toy_service store0 0 toy_atts store0_ok) with sa
    as (_ & _ & H & _); [vm_compute; discriminate|exact E|exact Hsa|exact H].
Defined.

(** The proposer of slot 2 signs twice with the key of that slot: first its vote
    in the block, with genesis as head, then, after the late block of slot 1 has
    moved the head, another vote for the same slot. *)
Definition proposal2 : Store * outcome SignedBlockWithAttestation :=
  build_block_proposal toy_service 2 2 store0.

Definition vote_in_block : AttestationData :=
  at_data (bwa_proposer_attestation (sb_message (get (Toy.sign_block block1 vote0) proposal2.2))).

Definition later_store : Store :=
  (on_tick 1009 false (on_block (Toy.sign_block block1 vote0) proposal2.1).1).1.

Example proposer_signs_slot_twice :
  is_ok proposal2.2 = true /\
  match create_attestations toy_service later_store 2 with
  | Ok l => exists sa, sa ∈ l /\ sa_validator_id sa = 2 /\
      as_u32 (ad_slot (sa_message sa)) = as_u32 (ad_slot vote_in_block) /\
      hash_tree_root (sa_message sa) <> hash_tree_root vote_in_block
  | _ => False
  end.
Proof.
  split; [vm_compute; reflexivity|].
  destruct (create_attestations toy_service later_store 2) as [l| | |] eqn:E;
    [|vm_compute in E; discriminate E..].
  assert (Hl : exists a0 sa, l = [a0; sa] /\ sa_validator_id sa = 2 /\
    as_u32 (ad_slot (sa_message sa)) = as_u32 (ad_slot vote_in_block) /\
    hash_tree_root (sa_message sa) <> hash_tree_root vote_in_block).
  { vm_compute in E. injection E as <-. eexists _, _. split; [reflexivity|].
    repeat split; vm_compute; (reflexivity || discriminate). }
  destruct Hl as (a0 & sa & -> & H). exists sa. split; [right; left|exact H].
Qed.
End Concrete.
