(* ===== verification/Node.v ===== *)
(** * The node

    [src/main.rs]: genesis, the chain task with its clock ticks and the messages
    from the network, and the requests it sends back; the message types are those
    of [networking/src/types.rs].  The two channels are lists, the wall clock is
    part of the events.  Logging is left out, except the chain status. *)

From stdpp Require Import strings.
From S2P Require Import Prelude Slot Ssz Xmss Containers State JustifiedSlots StateInv.
From S2P Require Import Transition StateTheorems BuildBlock ForkChoice ForkChoiceHead StoreInv.
From S2P Require Import StoreBlocks StoreTheorems Derivation Validator Example.

#[local] Open Scope N_scope.

Inductive ChainMessage :=
  | ProcessBlock (signed_block_with_attestation : SignedBlockWithAttestation)
      (is_trusted should_gossip : bool)
  | ProcessAttestation (signed_attestation : SignedAttestation)
      (is_trusted should_gossip : bool).

(** [ChainMessage::block_with_attestation], [ChainMessage::attestation] *)
Definition block_with_attestation (sb : SignedBlockWithAttestation) : ChainMessage :=
  ProcessBlock sb false true.

Definition attestation_message (sa : SignedAttestation) : ChainMessage :=
  ProcessAttestation sa false true.

Inductive OutboundP2pRequest :=
  | GossipBlockWithAttestation (sb : SignedBlockWithAttestation)
  | GossipAttestation (sa : SignedAttestation)
  | RequestBlocksByRoot (roots : list H256).

(** What [print_chain_status] reports. *)
Record ChainStatus := mkChainStatus {
  cs_current_slot : u64;
  cs_head_slot : u64;
  cs_behind : u64;
  cs_connected_peers : u64;
  cs_head_root : H256;
  cs_parent_root : H256;
  cs_state_root : H256;
  cs_timely : bool;
  cs_justified : Checkpoint;
  cs_finalized : Checkpoint
}.

Definition print_chain_status (store : Store) (connected_peers : u64) : ChainStatus :=
  let current_slot := s_time store / INTERVALS_PER_SLOT in
  let head_slot := default 0 (b_slot <$> s_blocks store !! s_head store) in
  let behind := if head_slot <? current_slot then wsub current_slot head_slot else 0 in
  let '(head_root, parent_root, state_root) :=
    match s_blocks store !! s_head store with
    | Some block => (s_head store, b_parent_root block, b_state_root block)
    | None => (0, 0, 0)
    end in
  mkChainStatus current_slot head_slot behind connected_peers head_root parent_root state_root
    (behind =? 0) (s_latest_justified store) (s_latest_finalized store).

(** The variables of the chain task, and what it has sent and reported. *)
Record Node := mkNode {
  n_store : Store;
  n_last_logged_slot : u64;
  n_last_status_slot : option u64;
  n_last_proposal_slot : option u64;
  n_last_attestation_slot : option u64;
  n_sent : list OutboundP2pRequest;
  n_reported : list ChainStatus
}.

Definition set_n_store (v : Store) (n : Node) : Node :=
  mkNode v (n_last_logged_slot n) (n_last_status_slot n) (n_last_proposal_slot n)
    (n_last_attestation_slot n) (n_sent n) (n_reported n).

Definition set_last_logged_slot (v : u64) (n : Node) : Node :=
  mkNode (n_store n) v (n_last_status_slot n) (n_last_proposal_slot n)
    (n_last_attestation_slot n) (n_sent n) (n_reported n).

Definition report_status (slot peers : u64) (n : Node) : Node :=
  mkNode (n_store n) (n_last_logged_slot n) (Some slot) (n_last_proposal_slot n)
    (n_last_attestation_slot n) (n_sent n)
    (n_reported n ++ [print_chain_status (n_store n) peers]).

Definition set_last_proposal_slot (v : option u64) (n : Node) : Node :=
  mkNode (n_store n) (n_last_logged_slot n) (n_last_status_slot n) v
    (n_last_attestation_slot n) (n_sent n) (n_reported n).

Definition set_last_attestation_slot (v : option u64) (n : Node) : Node :=
  mkNode (n_store n) (n_last_logged_slot n) (n_last_status_slot n) (n_last_proposal_slot n)
    v (n_sent n) (n_reported n).

(** [sender.send(request)]; a closed channel only logs. *)
Definition send (request : OutboundP2pRequest) (n : Node) : Node :=
  mkNode (n_store n) (n_last_logged_slot n) (n_last_status_slot n) (n_last_proposal_slot n)
    (n_last_attestation_slot n) (n_sent n ++ [request]) (n_reported n).

(** Run a computation on the store. *)
Definition on_store {A} (m : stM Store A) : stM Node A := fun n =>
  let '(s, r) := m (n_store n) in (set_n_store s n, r).

(** [match m { Ok(a) => .., Err(e) => .. }] *)
Definition attempt {S A} (m : stM S A) : stM S (A + error) := fun s =>
  match m s with
  | (s', Ok a) => (s', Ok (inl a))
  | (s', Err e) => (s', Ok (inr e))
  | (s', Panic p) => (s', Panic p)
  | (s', Diverge) => (s', Diverge)
  end.

Section Node.
Context {C : SszContainers} {LS : LeanSig} {SO : SetOrder} {MO : MapOrder}.
Context {HState : SszHash State} {HHeader : SszHash BlockHeader} {HBlock : SszHash Block}
  {HBody : SszHash BlockBody} {HData : SszHash AttestationData}.

(** ** Genesis *)

(** The validators of a genesis file, or three with default keys. *)
Definition genesis_validators (pubkeys : option (list PublicKey)) : list Validator :=
  match pubkeys with
  | Some keys => (fun '(i, k) => mkValidator k i) <$> enumerate keys
  | None => (fun i => mkValidator PublicKey_default i) <$> nrange 0 3
  end.

Definition genesis_block (genesis_state : State) : SignedBlockWithAttestation :=
  mkSignedBlockWithAttestation
    (mkBlockWithAttestation
       (mkBlock 0 0 h256_zero (hash_tree_root genesis_state) (mkBlockBody []))
       (mkAttestation 0 (mkAttestationData 0 (mkCheckpoint h256_zero 0)
          (mkCheckpoint h256_zero 0) (mkCheckpoint h256_zero 0))))
    (mkBlockSignatures [] Signature_default).

Definition genesis_time_of (genesis : option (u64 * list PublicKey)) : u64 :=
  match genesis with Some (genesis_time, _) => genesis_time | None => 1763757427 end.

Definition genesis_state_of (genesis : option (u64 * list PublicKey)) : outcome State :=
  generate_genesis_with_validators (genesis_time_of genesis) (genesis_validators (snd <$> genesis)).

Definition genesis_store (genesis : option (u64 * list PublicKey)) : outcome Store :=
  genesis_state ← genesis_state_of genesis;
  Ok (get_forkchoice_store genesis_state (genesis_block genesis_state)
        (mkConfig (genesis_time_of genesis))).

(** The validator service of the command line: [registry] is what reading the
    registry file gave, if its path was passed. *)
Definition start_validator_service {FS : FileSystem} (id : option string)
    (registry : option (outcome ValidatorRegistry)) (hash_sig_key_dir : option string)
    (num_validators : u64) : outcome (option ValidatorService) :=
  match id, registry with
  | Some id, Some registry =>
      match (r ← registry; load_from_registry r id) with
      | Ok config =>
          let zero_signatures := ValidatorService_new config num_validators in
          match hash_sig_key_dir with
          | Some keys_dir =>
              if fs_exists keys_dir then
                match new_with_keys config num_validators keys_dir with
                | Ok service => Ok (Some service)
                | Err _ => Ok (Some zero_signatures)
                | Panic p => Panic p
                | Diverge => Diverge
                end
              else Ok (Some zero_signatures)
          | None => Ok (Some zero_signatures)
          end
      | Err _ => Ok None
      | Panic p => Panic p
      | Diverge => Diverge
      end
  | _, _ => Ok None
  end.

(** ** The chain task *)

Context (validator_service : option ValidatorService).

(** Interval 0: propose, once per slot; [now] is the clock after building. *)
Definition propose_duty (current_slot now : u64) : stM Node unit :=
  match validator_service with
  | None => mret tt
  | Some vs =>
      n ← get_st;
      if bool_decide (n_last_proposal_slot n = Some current_slot) then mret tt else
      match get_proposer_for_slot vs current_slot with
      | None => mret tt
      | Some proposer_idx =>
          built ← attempt (on_store (build_block_proposal vs current_slot proposer_idx));
          _ ← match built with
              | inl signed_block =>
                  _ ← on_store (on_tick now false);
                  r ← attempt (on_store (on_block signed_block));
                  match r with
                  | inl _ => modify_st (send (GossipBlockWithAttestation signed_block))
                  | inr _ => mret tt
                  end
              | inr _ => mret tt
              end;
          modify_st (set_last_proposal_slot (Some current_slot))
      end
  end.

(** Interval 1: attest, once per slot. *)
Definition attest_duty (current_slot : u64) : stM Node unit :=
  match validator_service with
  | None => mret tt
  | Some vs =>
      n ← get_st;
      if bool_decide (n_last_attestation_slot n = Some current_slot) then mret tt else
      attestations ← lift_st (create_attestations vs (n_store n) current_slot);
      _ ← iterM (fun signed_att =>
            r ← attempt (on_store (on_attestation signed_att false));
            match r with
            | inl _ => modify_st (send (GossipAttestation signed_att))
            | inr _ => mret tt
            end) attestations;
      modify_st (set_last_attestation_slot (Some current_slot))
  end.

Definition handle_tick (now now_built peers : u64) : stM Node unit :=
  _ ← on_store (on_tick now false);
  n ← get_st;
  let current_slot := s_time (n_store n) / INTERVALS_PER_SLOT in
  let current_interval := s_time (n_store n) `mod` INTERVALS_PER_SLOT in
  _ ← modify_st (fun n =>
        if bool_decide (n_last_status_slot n = Some current_slot) then n
        else report_status current_slot peers n);
  _ ← (if current_interval =? 0 then propose_duty current_slot now_built
       else if current_interval =? 1 then attest_duty current_slot
       else mret tt);
  modify_st (fun n =>
    if negb (current_slot =? n_last_logged_slot n) && (current_slot `mod` 10 =? 0)
    then set_last_logged_slot current_slot n else n).

Definition handle_message (message : ChainMessage) (now : u64) : stM Node unit :=
  match message with
  | ProcessBlock sb _ should_gossip =>
      let parent_root := b_parent_root (bwa_block (sb_message sb)) in
      _ ← on_store (on_tick now false);
      r ← attempt (on_store (on_block sb));
      match r with
      | inl _ => if (should_gossip : bool)
                 then modify_st (send (GossipBlockWithAttestation sb)) else mret tt
      | inr (EBlockQueued _ _) =>
          if is_zero parent_root then mret tt
          else modify_st (send (RequestBlocksByRoot [parent_root]))
      | inr _ => mret tt
      end
  | ProcessAttestation sa _ should_gossip =>
      r ← attempt (on_store (on_attestation sa false));
      match r with
      | inl _ => if (should_gossip : bool)
                 then modify_st (send (GossipAttestation sa)) else mret tt
      | inr _ => mret tt
      end
  end.

Inductive Event :=
  | Tick (now now_built peers : u64)
  | Message (message : ChainMessage) (now : u64).

(** One round of the [select!] loop. *)
Definition handle (e : Event) : stM Node unit :=
  match e with
  | Tick now now_built peers => handle_tick now now_built peers
  | Message message now => handle_message message now
  end.

Definition chain_task (events : list Event) : stM Node unit := iterM handle events.

Definition initial_node (store : Store) : Node := mkNode store 0 None None None [] [].
End Node.

(** * The node keeps the store invariant *)

Definition block_of (sb : SignedBlockWithAttestation) : Block := bwa_block (sb_message sb).

Lemma keeps_attempt {S A} (P : S -> Prop) (m : stM S A) : keeps P m -> keeps P (attempt m).
Proof.
  intros Hm s Hs. specialize (Hm s Hs). unfold attempt.
  destruct (m s) as [s' [a|e|p|]]; cbn in *; done.
Qed.

Section Invariant.
Context {C : SszContainers} {HC : SszContainersLaws C} {LS : LeanSig}.
Context {SO : SetOrder} {HO : SetOrderLaws SO} {MO : MapOrder} {HM : MapOrderLaws MO}.
Context {HState : SszHash State} {HHeader : SszHash BlockHeader} {HBlock : SszHash Block}
  {HBody : SszHash BlockBody} {HData : SszHash AttestationData}.
(** An accepted block is in the store. *)
Lemma on_block_Ok_stored (B : Block -> Prop) s sb s' u :
  no_collisions B -> store_ok B s -> B (bwa_block (sb_message sb)) ->
  on_block sb s = (s', Ok u) ->
  s_blocks s' !! hash_tree_root (bwa_block (sb_message sb)) = Some (bwa_block (sb_message sb)).
Proof.
  intros HB Hs HBb H. unfold on_block, mbind at 1, stM_bind at 1, get_st in H.
  cbn beta iota in H. case_bool_decide as Hk.
  { injection H as <- _. destruct Hk as [b0 Hb0]. destruct (so_seen _ _ Hs _ _ Hb0) as [HB0 Hh].
    rewrite Hb0. f_equal. by apply (nc_inj _ HB). }
  destruct (bool_decide _ && negb _); [done|]. unfold mbind, stM_bind in H.
  pose proof (process_block_internal_spec B HB s sb Hs HBb) as Hsp.
  destruct (process_block_internal sb _ s) as [s1 [?| | |]]; try done.
  destruct Hsp as ((Hs1 & _) & _ & Hin).
  unfold process_pending_blocks, mbind, stM_bind, get_st in H. cbn beta iota in H.
  pose proof (pending_loop_spec B HB (length [hash_tree_root (bwa_block (sb_message sb))] +
    queued s1) [hash_tree_root (bwa_block (sb_message sb))] s1 Hs1) as Hp.
  rewrite H in Hp. destruct Hp as ((_ & Hg) & _); [by rewrite queued_size|].
  eapply lookup_weaken; [done|apply Hg].
Qed.

Context (B : Block -> Prop) (HB : no_collisions B).
Context (P : Store -> Prop) (proposes : Prop) {SI : StoreInvariant B P proposes}.
Context (bs : gmap H256 Block).

(** Every block the node has passed on is in its store. *)
Definition relayed (n : Node) : Prop :=
  forall sb, GossipBlockWithAttestation sb ∈ n_sent n ->
    B (block_of sb) /\ s_blocks (n_store n) !! hash_tree_root (block_of sb) = Some (block_of sb).

(** The store satisfies an invariant that every handler keeps, and has the blocks
    [bs] and those passed on. *)
Definition node_sat (n : Node) : Prop :=
  P (n_store n) /\ bs ⊆ s_blocks (n_store n) /\ relayed n.

Lemma node_sat_grow n s : node_sat n -> P s -> s_blocks (n_store n) ⊆ s_blocks s ->
  node_sat (set_n_store s n).
Proof.
  intros (_ & Hbs & Hr) Hs Hg. split; [done|]. split; [by etrans|].
  intros sb Hsb. destruct (Hr sb Hsb) as [? Hb]. split; [done|]. by eapply lookup_weaken.
Qed.

Lemma keeps_on_store {A} (m : stM Store A) : keeps_growing P m -> keeps node_sat (on_store m).
Proof.
  intros Hm n Hn. destruct (Hm (n_store n) (proj1 Hn)) as [Hs Hg]. unfold on_store.
  destruct (m (n_store n)) as [s r]. by apply node_sat_grow.
Qed.

Lemma keeps_modify_node (f : Node -> Node) :
  (forall n, n_store (f n) = n_store n /\ n_sent (f n) = n_sent n) ->
  keeps node_sat (modify_st f).
Proof.
  intros Hf. apply keeps_modify. intros n (? & ? & Hr). destruct (Hf n) as [Es En].
  split; [by rewrite Es|]. split; [by rewrite Es|]. unfold relayed. by rewrite Es, En.
Qed.

Lemma keeps_send req :
  (forall sb, req <> GossipBlockWithAttestation sb) -> keeps node_sat (modify_st (send req)).
Proof.
  intros Hreq. apply keeps_modify. intros n (? & ? & Hr). split; [done|]. split; [done|].
  intros sb [Hsb|E%list_elem_of_singleton]%elem_of_app; [by apply Hr|by destruct (Hreq sb)].
Qed.

(** Process a block and pass it on. *)
Lemma keeps_gossip_block sb (f : unit -> stM Node unit) (g : error -> stM Node unit) :
  B (block_of sb) -> (forall u, f u = mret tt \/ f u = modify_st (send (GossipBlockWithAttestation sb))) ->
  (forall e, keeps node_sat (g e)) ->
  keeps node_sat (r ← attempt (on_store (on_block sb));
    match r with inl u => f u | inr e => g e end).
Proof.
  intros HBb Hf Hg n Hn. unfold mbind, stM_bind, attempt, on_store.
  pose proof (on_block_Ok_stored B (n_store n) sb) as Hst.
  destruct (si_block (B := B) sb HBb (n_store n) (proj1 Hn)) as [Hs Hgr].
  destruct (on_block sb (n_store n)) as [s' [u|e|p|]]; cbn [fst] in *;
    pose proof (node_sat_grow n s' Hn Hs Hgr) as Hn'; [|by apply Hg|done..].
  destruct (Hf u) as [->| ->]; [done|]. destruct Hn' as (? & ? & Hr). split; [done|].
  split; [done|]. intros sb' [Hsb|E%list_elem_of_singleton]%elem_of_app; [by apply Hr|].
  injection E as ->. split; [done|]. eapply Hst; [done| |done|done]. apply (si_ok _ (proj1 Hn)).
Qed.

Context (vs : option ValidatorService).

(** The events a run may see: times are [u64], blocks belong to the blocks seen,
    and so does the block the node itself proposes at this tick. *)
Definition event_ok (n : Node) (e : Event) : Prop :=
  match e with
  | Tick now now_built _ =>
      is_u64 now /\ is_u64 now_built /\
      let s := (on_tick now false (n_store n)).1 in
      let slot := s_time s / INTERVALS_PER_SLOT in
      forall v p root b proofs s', vs = Some v -> get_proposer_for_slot v slot = Some p ->
        produce_block_with_signatures slot p s = (s', Ok (root, b, proofs)) -> B b
  | Message (ProcessBlock sb _ _) now => is_u64 now /\ B (bwa_block (sb_message sb))
  | Message (ProcessAttestation _ _ _) _ => True
  end.

Lemma attest_duty_keeps slot : keeps node_sat (attest_duty vs slot).
Proof.
  unfold attest_duty. destruct vs as [v|]; [|apply keeps_ret].
  apply keeps_bind; [apply keeps_get|]. intros n. case_bool_decide; [apply keeps_ret|].
  apply keeps_bind; [apply keeps_lift|]. intros atts.
  apply keeps_bind; [|intros _; by apply keeps_modify_node].
  apply keeps_iterM. intros sa _.
  apply keeps_bind; [apply keeps_attempt, keeps_on_store, (si_attestation (B := B))|].
  intros [|]; [by apply keeps_send|apply keeps_ret].
Qed.

(** Proposing from a given store. *)
Lemma propose_duty_keeps slot now n :
  (vs <> None -> proposes) -> node_sat n -> is_u64 now ->
  (forall v p root b proofs s', vs = Some v -> get_proposer_for_slot v slot = Some p ->
     produce_block_with_signatures slot p (n_store n) = (s', Ok (root, b, proofs)) -> B b) ->
  node_sat (propose_duty vs slot now n).1.
Proof.
  intros Hvs Hn Hu HBp. unfold propose_duty. destruct vs as [v|]; [|done].
  unfold mbind at 1, stM_bind at 1, get_st. cbn beta iota. case_bool_decide; [done|].
  destruct (get_proposer_for_slot v slot) as [p|] eqn:Ep; [|done].
  unfold mbind at 1, stM_bind at 1, attempt at 1, on_store at 1.
  destruct (build_block_proposal v slot p (n_store n)) as [s1 r1] eqn:Eb.
  assert (Hs1 : node_sat (set_n_store s1 n) /\ forall sb, r1 = Ok sb -> B (block_of sb)).
  { unfold build_block_proposal, mbind at 1, stM_bind at 1 in Eb.
    destruct (produce_block_with_signatures slot p (n_store n)) as [s2 r2] eqn:Epr.
    assert (HBr : forall root b proofs, r2 = Ok (root, b, proofs) -> B b)
      by (intros root b proofs ->; by eapply HBp).
    assert (Hs2 : node_sat (set_n_store s2 n)).
    { pose proof (si_produce (B := B) (Hvs ltac:(discriminate)) slot p _ (proj1 Hn)) as Hk. rewrite Epr in Hk.
      destruct Hk as [? ?]; [done|]. by apply node_sat_grow. }
    destruct r2 as [[[root b] proofs]| | |]; try (by injection Eb as <- <-).
    unfold mbind, stM_bind, get_st, lift_st in Eb. injection Eb as -> <-. split; [done|].
    intros sb Hsb. unfold sign_block in Hsb. ok_inv. subst sb. cbn. by eapply HBr. }
  destruct Hs1 as [Hs1 HBs].
  assert (Hrest : forall m : stM Node unit, keeps node_sat m ->
    node_sat ((m ≫= fun _ => modify_st (set_last_proposal_slot (Some slot)))
      (set_n_store s1 n)).1).
  { intros m Hm. apply keeps_bind; [done| |done]. intros _. by apply keeps_modify_node. }
  destruct r1 as [sb|e|pn|]; [|apply Hrest, keeps_ret|done..]. apply Hrest.
  apply keeps_bind; [by apply keeps_on_store, (si_tick (B := B))|]. intros _.
  apply keeps_gossip_block; [by apply HBs|by right|intros; apply keeps_ret].
Qed.

Lemma handle_tick_keeps now now_built peers n :
  (vs <> None -> proposes) -> node_sat n -> event_ok n (Tick now now_built peers) ->
  node_sat (handle_tick vs now now_built peers n).1.
Proof.
  intros Hvs Hn (Hu & Hub & HBp). unfold handle_tick, mbind at 1, stM_bind at 1, on_store at 1.
  destruct (si_tick (B := B) now false Hu _ (proj1 Hn)) as [Hs1 Hg1].
  destruct (on_tick_spec B now false (n_store n) (si_ok _ (proj1 Hn)) Hu) as (s1 & E1 & _).
  rewrite E1 in *. cbn in Hs1, Hg1. cbn in HBp. unfold mbind at 1, stM_bind at 1, get_st. cbn beta iota.
  unfold mbind at 1, stM_bind at 1, modify_st at 1. cbn beta iota.
  cbn [n_store set_n_store]. set (slot := s_time s1 / INTERVALS_PER_SLOT) in *.
  set (n2 := if bool_decide _ then _ else _).
  assert (En2 : n_store n2 = s1) by (unfold n2; by case_bool_decide).
  assert (Hn2 : node_sat n2).
  { pose proof (node_sat_grow n s1 Hn Hs1 Hg1). unfold n2. by case_bool_decide. }
  unfold mbind, stM_bind.
  set (m := if _ =? 0 then _ else _).
  assert (Hm : node_sat (m n2).1).
  { unfold m. case_match.
    - apply propose_duty_keeps; [done..|]. by rewrite En2.
    - case_match; [by apply attest_duty_keeps|done]. }
  destruct (m n2) as [n3 [[]|e|p|]]; cbn in *; [|done..].
  by case_match.
Qed.

Lemma handle_message_keeps msg now n :
  node_sat n -> event_ok n (Message msg now) -> node_sat (handle_message msg now n).1.
Proof.
  destruct msg as [sb tr go|sa tr go]; cbn [event_ok]; intros Hn He; unfold handle_message.
  - destruct He as [Hu HBb].
    revert n Hn. apply keeps_bind; [by apply keeps_on_store, (si_tick (B := B))|]. intros _.
    apply (keeps_gossip_block sb (fun _ => if go then _ else _)); [done|intros; destruct go; auto|].
    intros e. destruct e; try apply keeps_ret. case_match; [apply keeps_ret|by apply keeps_send].
  - revert n Hn. apply keeps_bind; [apply keeps_attempt, keeps_on_store, (si_attestation (B := B))|].
    intros [|e]; [destruct go; [by apply keeps_send|apply keeps_ret]|apply keeps_ret].
Qed.

(** ** Runs *)

(** The nodes that start from the genesis file [g] and handle events. *)
Inductive node_reachable (g : option (u64 * list PublicKey)) : Node -> Prop :=
  | node_start s :
      genesis_store g = Ok s ->
      (forall st, s_states s !! s_head s = Some st ->
         B (bwa_block (sb_message (genesis_block st)))) ->
      node_reachable g (initial_node s)
  | node_event n e :
      node_reachable g n -> event_ok n e -> node_reachable g (handle vs e n).1.

Lemma node_reachable_sat g n :
  (vs <> None -> proposes) ->
  (forall s, genesis_store g = Ok s ->
     (forall st, s_states s !! s_head s = Some st ->
        B (bwa_block (sb_message (genesis_block st)))) -> P s /\ bs ⊆ s_blocks s) ->
  node_reachable g n -> node_sat n.
Proof.
  intros Hvs H0. induction 1 as [s Hg HBg|n e _ IH He].
  { destruct (H0 s Hg HBg). split; [done|]. split; [done|]. by intros sb ?%not_elem_of_nil. }
  destruct e as [now nb peers|msg now]; [by apply handle_tick_keeps|by apply handle_message_keeps].
Qed.
End Invariant.

(** The node's store satisfies the store invariant. *)
Definition node_ok {HBlock : SszHash Block} (B : Block -> Prop) (n : Node) : Prop :=
  store_ok B (n_store n).

Section Genesis.
Context {C : SszContainers} {HC : SszContainersLaws C} {LS : LeanSig}.
Context {SO : SetOrder} {HO : SetOrderLaws SO} {MO : MapOrder} {HM : MapOrderLaws MO}.
Context {HState : SszHash State} {HHeader : SszHash BlockHeader} {HBlock : SszHash Block}
  {HBody : SszHash BlockBody} {HData : SszHash AttestationData}.
Context (B : Block -> Prop) (HB : no_collisions B).

Lemma genesis_store_inv g s :
  genesis_store g = Ok s -> exists gst cfg, s = get_forkchoice_store gst (genesis_block gst) cfg /\
    s_states s !! s_head s = Some gst /\ genesis_anchor gst (block_of (genesis_block gst)).
Proof.
  unfold genesis_store, genesis_state_of.
  intros H. ok_inv. subst s. exists x, (mkConfig (genesis_time_of g)). split; [done|].
  split; [apply lookup_singleton_eq|].
  pose proof Hx as Hw. apply genesis_validators_wf in Hw as [Hw _].
  unfold generate_genesis_with_validators in Hx. ok_inv. subst x. done.
Qed.

(** Every state of a node is derived from the node's genesis state, the genesis
    block stays, and the node has the blocks it passed on. *)
Lemma node_reachable_chain vs g n :
  node_reachable B vs g n -> exists s gst, genesis_store g = Ok s /\
    s_states s !! s_head s = Some gst /\
    genesis_anchor gst (block_of (genesis_block gst)) /\
    chain_ok B (block_of (genesis_block gst)) gst (n_store n) /\
    s_blocks (n_store n) !! hash_tree_root (block_of (genesis_block gst)) =
      Some (block_of (genesis_block gst)) /\ relayed B n.
Proof.
  intros Hn. assert (Hg : exists s, genesis_store g = Ok s) by (induction Hn; eauto).
  destruct Hg as [s Hg]. destruct (genesis_store_inv g s Hg) as (gst & cfg & Es & Hst & Ha).
  exists s, gst. do 3 (split; [done|]). set (gb := block_of (genesis_block gst)) in *.
  pose proof (chain_ok_invariant B HB gb gst True) as SI.
  destruct (node_reachable_sat B HB (chain_ok B gb gst) True {[hash_tree_root gb := gb]} vs g n)
    as (? & Hsub & ?); [done| |done|].
  - intros s' Hg' HBg. rewrite Hg in Hg'. injection Hg' as <-. rewrite Es.
    split; [|done]. apply anchor_chain_ok; [done..| |done]. by apply HBg.
  - split; [done|]. split; [|done]. eapply lookup_weaken; [|exact Hsub]. apply lookup_singleton_eq.
Qed.

Lemma node_reachable_ok vs g n : node_reachable B vs g n -> node_ok B n.
Proof. intros (s & gst & _ & _ & _ & [H _] & _)%node_reachable_chain. done. Qed.
End Genesis.

(** * What is sent *)

Section Sent.
Context {C : SszContainers} {HC : SszContainersLaws C} {LS : LeanSig}.
Context {SO : SetOrder} {HO : SetOrderLaws SO} {MO : MapOrder} {HM : MapOrderLaws MO}.
Context {HState : SszHash State} {HHeader : SszHash BlockHeader} {HBlock : SszHash Block}
  {HBody : SszHash BlockBody} {HData : SszHash AttestationData}.

Lemma handle_block_eq sb tr go now n :
  handle_message (ProcessBlock sb tr go) now n =
  match on_tick now false (n_store n) with
  | (s1, Ok _) =>
      match on_block sb s1 with
      | (s2, Ok _) =>
          (if go then send (GossipBlockWithAttestation sb) (set_n_store s2 n)
           else set_n_store s2 n, Ok tt)
      | (s2, Err (EBlockQueued _ _)) =>
          (if is_zero (b_parent_root (bwa_block (sb_message sb))) then set_n_store s2 n
           else send (RequestBlocksByRoot [b_parent_root (bwa_block (sb_message sb))])
                  (set_n_store s2 n), Ok tt)
      | (s2, Err _) => (set_n_store s2 n, Ok tt)
      | (s2, Panic p) => (set_n_store s2 n, Panic p)
      | (s2, Diverge) => (set_n_store s2 n, Diverge)
      end
  | (s1, Err e) => (set_n_store s1 n, Err e)
  | (s1, Panic p) => (set_n_store s1 n, Panic p)
  | (s1, Diverge) => (set_n_store s1 n, Diverge)
  end.
Proof.
  unfold handle_message, attempt, on_store, mbind, stM_bind, modify_st, mret, stM_ret.
  destruct (on_tick now false (n_store n)) as [s1 [[]|e|p|]]; try done. cbn.
  destruct (on_block sb s1) as [s2 [[]|e|p|]]; cbn; try done; [by destruct go|].
  destruct e; try done. by destruct (is_zero _).
Qed.

(** C31: the node passes on a received block only if its store has it afterwards,
    and at most that block; when it does not accept a block it asks at most for
    that block's parent. *)
Theorem gossip_only_accepted (B : Block -> Prop) sb trusted should_gossip now n n' r :
  no_collisions B -> node_ok B n -> is_u64 now -> B (bwa_block (sb_message sb)) ->
  handle_message (ProcessBlock sb trusted should_gossip) now n = (n', r) ->
  exists l, n_sent n' = n_sent n ++ l /\
    (l = [] \/
     (l = [GossipBlockWithAttestation sb] /\ should_gossip = true /\
      s_blocks (n_store n') !! hash_tree_root (bwa_block (sb_message sb)) =
        Some (bwa_block (sb_message sb))) \/
     (l = [RequestBlocksByRoot [b_parent_root (bwa_block (sb_message sb))]] /\
      b_parent_root (bwa_block (sb_message sb)) <> 0)).
Proof.
  intros HB Hn Hu HBb. rewrite handle_block_eq.
  destruct (on_tick_spec B now false (n_store n) Hn Hu) as (s1 & -> & Hs1 & _).
  pose proof (on_block_Ok_stored B s1 sb) as Hst.
  assert (Hnil : forall m : Node, n_sent m = n_sent n -> exists l, n_sent m = n_sent n ++ l /\
    (l = [] \/ (l = [GossipBlockWithAttestation sb] /\ should_gossip = true /\
      s_blocks (n_store m) !! hash_tree_root (bwa_block (sb_message sb)) =
        Some (bwa_block (sb_message sb))) \/
     (l = [RequestBlocksByRoot [b_parent_root (bwa_block (sb_message sb))]] /\
      b_parent_root (bwa_block (sb_message sb)) <> 0))).
  { intros m ->. exists []. by rewrite app_nil_r; auto. }
  destruct (on_block sb s1) as [s2 [u|e|p|]] eqn:Eb; [|destruct e|..];
    intros [= <- <-]; try (by apply Hnil).
  - destruct should_gossip; [|by apply Hnil]. eexists. split; [done|]. right. left.
    split; [done|]. split; [done|]. by eapply Hst.
  - unfold is_zero. destruct (N.eqb_spec (b_parent_root (bwa_block (sb_message sb))) 0) as [E|E];
      [by apply Hnil|]. eexists. split; [done|]. right. right. done.
Qed.

(** A block whose parent the node does not have makes it ask its peers for the
    parent. *)
Theorem orphan_parent_requested (B : Block -> Prop) sb trusted should_gossip now n :
  let b := bwa_block (sb_message sb) in
  let s1 := (on_tick now false (n_store n)).1 in
  node_ok B n -> is_u64 now ->
  s_blocks s1 !! hash_tree_root b = None -> s_states s1 !! b_parent_root b = None ->
  b_parent_root b <> 0 ->
  n_sent (handle_message (ProcessBlock sb trusted should_gossip) now n).1 =
    n_sent n ++ [RequestBlocksByRoot [b_parent_root b]].
Proof.
  cbn zeta. intros Hn Hu Hnb Hns Hz. rewrite handle_block_eq.
  destruct (on_tick_spec B now false (n_store n) Hn Hu) as (s1 & E1 & Hs1 & _).
  rewrite E1 in *. cbn in Hnb, Hns.
  unfold on_block, mbind, stM_bind, get_st, modify_st, lift_st. rewrite Hnb.
  rewrite bool_decide_eq_false_2 by (by intros []). rewrite (bool_decide_eq_true_2 _ Hns).
  unfold is_zero. by destruct (N.eqb_spec (b_parent_root (bwa_block (sb_message sb))) 0).
Qed.

(** The node's own proposal never reaches the fork choice: building it has put it
    in the store, so the [on_block] that [main] then calls, the clock brought up to
    date in between, finds it there and does nothing; neither the checkpoints of
    its post-state nor the votes it carries are taken over. *)
Theorem own_block_not_processed (B : Block -> Prop) v slot p s s1 sb now :
  store_ok B s -> build_block_proposal v slot p s = (s1, Ok sb) ->
  let s2 := (on_tick now false s1).1 in
  on_block sb s2 = (s2, Ok tt).
Proof.
  intros Hs H. cbn zeta. set (s2 := (on_tick now false s1).1).
  assert (Hb : is_Some (s_blocks s2 !! hash_tree_root (bwa_block (sb_message sb)))).
  { replace (s_blocks s2) with (s_blocks s1)
      by (symmetry; apply (on_tick_chain s1 now false s1); done).
    unfold build_block_proposal, mbind at 1, stM_bind at 1 in H.
    destruct (produce_block_with_signatures slot p s) as [s3 [[[root b] proofs]| | |]] eqn:Ep;
      try done.
    unfold mbind, stM_bind, get_st, lift_st in H. injection H as -> H. unfold sign_block in H.
    ok_inv. subst sb. apply (produce_block_spec B) in Ep as (s4 & ? & ? & _ & _ & -> & _); [|done].
    cbn. rewrite lookup_insert_eq. by eexists. }
  unfold on_block, mbind, stM_bind, get_st. cbn beta iota. by rewrite bool_decide_eq_true_2.
Qed.

(** ** Duties *)

Context (vs : option ValidatorService).

(** Nothing left to propose, or to attest, for the slot. *)
Definition proposed (slot : u64) (n : Node) : Prop :=
  forall v, vs = Some v -> get_proposer_for_slot v slot = None \/
    n_last_proposal_slot n = Some slot.

Definition attested (slot : u64) (n : Node) : Prop :=
  vs <> None -> n_last_attestation_slot n = Some slot.

Lemma bind_st_Ok {S A A'} (m : stM S A) (f : A -> stM S A') s s' b :
  (m ≫= f) s = (s', Ok b) -> exists s1 a, m s = (s1, Ok a) /\ f a s1 = (s', Ok b).
Proof.
  unfold mbind, stM_bind. destruct (m s) as [s1 [a|e|p|]]; try done. eauto.
Qed.

Lemma propose_duty_done slot now n n' :
  propose_duty vs slot now n = (n', Ok tt) -> proposed slot n'.
Proof.
  unfold propose_duty. intros H v Hv. rewrite Hv in H.
  apply bind_st_Ok in H as (n1 & n0 & [= <- <-] & H).
  case_bool_decide as Hlp; [injection H as <-; by right|].
  destruct (get_proposer_for_slot v slot) as [p|]; [right|by left].
  apply bind_st_Ok in H as (n2 & built & _ & H).
  apply bind_st_Ok in H as (n3 & [] & _ & [= <-]). done.
Qed.

Lemma propose_duty_idle slot now n : proposed slot n -> propose_duty vs slot now n = (n, Ok tt).
Proof.
  intros Hp. unfold propose_duty, proposed in *. destruct vs as [v|]; [|done].
  unfold mbind at 1, stM_bind at 1, get_st. cbn beta iota.
  destruct (Hp v eq_refl) as [E|E]; [by case_bool_decide; [|rewrite E]|].
  by rewrite bool_decide_eq_true_2.
Qed.

Lemma attest_duty_done slot n n' :
  attest_duty vs slot n = (n', Ok tt) -> attested slot n'.
Proof.
  unfold attest_duty, attested. intros H Hv. destruct vs as [v|]; [|done].
  apply bind_st_Ok in H as (n1 & n0 & [= <- <-] & H).
  case_bool_decide; [by injection H as <-|].
  apply bind_st_Ok in H as (n2 & atts & _ & H).
  apply bind_st_Ok in H as (n3 & [] & _ & [= <-]). done.
Qed.

Lemma attest_duty_idle slot n : attested slot n -> attest_duty vs slot n = (n, Ok tt).
Proof.
  intros Ha. unfold attest_duty, attested in *. destruct vs as [v|]; [|done].
  unfold mbind at 1, stM_bind at 1, get_st. cbn beta iota.
  by rewrite bool_decide_eq_true_2 by (by apply Ha).
Qed.

(** What a completed tick has done, and a tick that finds it done. *)
Definition duties_done (t : u64) (n : Node) : Prop :=
  (t `mod` INTERVALS_PER_SLOT = 0 -> proposed (t / INTERVALS_PER_SLOT) n) /\
  (t `mod` INTERVALS_PER_SLOT = 1 -> attested (t / INTERVALS_PER_SLOT) n).

Lemma handle_tick_done now nb peers n n' :
  handle_tick vs now nb peers n = (n', Ok tt) ->
  duties_done (s_time (on_tick now false (n_store n)).1) n'.
Proof.
  unfold handle_tick. intros H. apply bind_st_Ok in H as (n1 & [] & H1 & H).
  unfold on_store in H1. destruct (on_tick now false (n_store n)) as [s1 r1].
  injection H1 as <- _. cbn [fst].
  apply bind_st_Ok in H as (n2 & n2' & [= <- <-] & H).
  apply bind_st_Ok in H as (n3 & [] & [= <-] & H).
  cbn [n_store set_n_store] in H. set (t := s_time s1) in *.
  apply bind_st_Ok in H as (n4 & [] & H4 & [= <-]).
  assert (Hd : duties_done t n4).
  { split; intros E; rewrite E in H4; cbn in H4;
      [by eapply propose_duty_done|by eapply attest_duty_done]. }
  destruct Hd as [Hp Ha]. split; intros E; [specialize (Hp E)|specialize (Ha E)];
    by destruct (_ && _).
Qed.

Lemma handle_tick_idle now nb peers n n' r :
  duties_done (s_time (on_tick now false (n_store n)).1) n ->
  handle_tick vs now nb peers n = (n', r) -> n_sent n' = n_sent n.
Proof.
  intros Hd H. unfold handle_tick, mbind at 1, stM_bind at 1, on_store at 1 in H.
  destruct (on_tick now false (n_store n)) as [s1 r1]. cbn [fst] in Hd.
  destruct r1 as [[]|e|p|]; try (by injection H as <- _).
  unfold mbind at 1, stM_bind at 1, get_st in H. cbn beta iota in H.
  cbn [n_store set_n_store] in H. set (t := s_time s1) in *.
  unfold mbind at 1, stM_bind at 1, modify_st at 1 in H. cbn beta iota in H.
  set (n2 := if bool_decide _ then _ else _) in H.
  assert (Hn2 : n_sent n2 = n_sent n /\ duties_done t n2)
    by (unfold n2; by case_bool_decide).
  destruct Hn2 as [Hsent [Hp Ha]]. unfold mbind, stM_bind in H.
  assert (Hidle : (if t `mod` INTERVALS_PER_SLOT =? 0
      then propose_duty vs (t / INTERVALS_PER_SLOT) nb
      else if t `mod` INTERVALS_PER_SLOT =? 1 then attest_duty vs (t / INTERVALS_PER_SLOT)
      else mret tt) n2 = (n2, Ok tt)).
  { destruct (N.eqb_spec (t `mod` INTERVALS_PER_SLOT) 0); [by apply propose_duty_idle, Hp|].
    destruct (N.eqb_spec (t `mod` INTERVALS_PER_SLOT) 1); [by apply attest_duty_idle, Ha|done]. }
  rewrite Hidle in H. unfold modify_st in H. injection H as <- _.
  by destruct (_ && _).
Qed.

(** Messages from the network do not touch the duties. *)
Lemma keeps_duties_on_store {A} t (m : stM Store A) : keeps (duties_done t) (on_store m).
Proof. intros n Hn. unfold on_store. by destruct (m (n_store n)). Qed.

Lemma keeps_duties_send t req : keeps (duties_done t) (modify_st (send req)).
Proof. by apply keeps_modify. Qed.

Lemma handle_message_duties t msg now : keeps (duties_done t) (handle_message msg now).
Proof.
  destruct msg as [sb tr go|sa tr go]; unfold handle_message.
  - apply keeps_bind; [apply keeps_duties_on_store|]. intros _.
    apply keeps_bind; [apply keeps_attempt, keeps_duties_on_store|].
    intros [|e]; [destruct go; [apply keeps_duties_send|apply keeps_ret]|].
    destruct e; try apply keeps_ret. case_match; [apply keeps_ret|apply keeps_duties_send].
  - apply keeps_bind; [apply keeps_attempt, keeps_duties_on_store|].
    intros [|e]; [destruct go; [apply keeps_duties_send|apply keeps_ret]|apply keeps_ret].
Qed.

Definition messages (ms : list (ChainMessage * u64)) : list Event :=
  (fun '(message, now) => Message message now) <$> ms.

(** C32: the node proposes at most one block and attests at most once per slot: after
    a completed tick and any messages from the network, a tick that finds the clock
    in the same interval sends nothing. *)
Theorem duties_once_per_slot now nb peers ms now' nb' peers' n n1 n2 n3 r r' :
  handle_tick vs now nb peers n = (n1, Ok tt) ->
  chain_task vs (messages ms) n1 = (n2, r) ->
  handle_tick vs now' nb' peers' n2 = (n3, r') ->
  s_time (on_tick now' false (n_store n2)).1 = s_time (on_tick now false (n_store n)).1 ->
  n_sent n3 = n_sent n2.
Proof.
  intros H1%handle_tick_done H2 H3 Ht. eapply handle_tick_idle; [|done]. rewrite Ht.
  change n2 with (n2, r).1. rewrite <-H2.
  revert n1 H1 H2. clear. intros n1 H1 _. revert n1 H1. apply keeps_iterM.
  intros e ([msg t0] & -> & _)%list_elem_of_fmap. apply handle_message_duties.
Qed.

(** C18: whatever events arrive, the store of a node that started from genesis
    satisfies the store invariant. *)
Theorem node_store_ok (B : Block -> Prop) g n :
  no_collisions B -> node_reachable B vs g n -> store_ok B (n_store n).
Proof. intros HB Hn. by apply (node_reachable_ok B HB vs g). Qed.
End Sent.

(** * A concrete run *)

Section Concrete.
Import Toy.

#[local] Ltac is_seen := unfold seen, listed; rewrite !elem_of_cons; tauto.

Definition sb1 : SignedBlockWithAttestation := Toy.sign_block block1 vote0.
Definition sb2 : SignedBlockWithAttestation := Toy.sign_block block2 vote0.

Definition node0 : Node := initial_node store0.

(** Block 1 arrives in slot 1. *)
Definition node1 : Node :=
  (handle (Some toy_service) (Message (block_with_attestation sb1) 1004) node0).1.

(** In slot 2, validator 2 of the node proposes. *)
Definition node2 : Node := (handle (Some toy_service) (Tick 1008 1008 7) node1).1.

Definition gossiped_block (r : OutboundP2pRequest) : option Block :=
  match r with GossipBlockWithAttestation sb => Some (bwa_block (sb_message sb)) | _ => None end.

Example proposal_is_gossiped :
  gossiped_block <$> n_sent node2 = [Some block1; Some pblock].
Proof. vm_compute. reflexivity. Qed.

Lemma node0_start : genesis_store (Some (1000, replicate 4 PublicKey_default)) = Ok store0.
Proof. vm_compute. reflexivity. Qed.

Definition toy_genesis : option (u64 * list PublicKey) :=
  Some (1000, replicate 4 PublicKey_default).

Lemma node2_reachable : node_reachable seen (Some toy_service) toy_genesis node2.
Proof.
  apply (node_event seen (Some toy_service) toy_genesis node1 (Tick 1008 1008 7)).
  - unfold node1.
    apply (node_event seen (Some toy_service) toy_genesis node0 (Message (block_with_attestation sb1) 1004)).
    + apply (node_start _ _ toy_genesis _ node0_start). intros st Hst.
      assert (E : s_states store0 !! s_head store0 = Some genesis) by (vm_compute; reflexivity).
      rewrite E in Hst. injection Hst as <-. is_seen.
    + split; [reflexivity|is_seen].
  - split; [reflexivity|]. split; [reflexivity|]. cbn zeta.
    intros v p root b proofs s' [= <-] Hp Hpr.
    assert (Ep : get_proposer_for_slot toy_service
      (s_time (on_tick 1008 false (n_store node1)).1 / INTERVALS_PER_SLOT) = Some 2)
      by (vm_compute; reflexivity).
    rewrite Ep in Hp. injection Hp as <-.
    set (slot := s_time _ / _) in Hpr. set (s := (on_tick _ _ _).1) in Hpr.
    assert (Eb : match (produce_block_with_signatures slot 2 s).2 with
      | Ok (_, b, _) => b = pblock | _ => False end) by (vm_compute; reflexivity).
    rewrite Hpr in Eb. cbn in Eb. subst b. is_seen.
Qed.

Lemma node_store_ok_witness : store_ok seen (n_store node2).
Proof. apply (node_store_ok (Some toy_service) seen toy_genesis node2 seen_no_collisions node2_reachable). Defined.

Lemma gossip_only_accepted_witness :
  exists l : list OutboundP2pRequest, n_sent node1 = n_sent node0 ++ l /\
    (l = [] \/
     (l = [GossipBlockWithAttestation sb1] /\ true = true /\
      s_blocks (n_store node1) !! hash_tree_root block1 = Some block1) \/
     (l = [RequestBlocksByRoot [b_parent_root block1]] /\ b_parent_root block1 <> 0)).
Proof.
  apply (gossip_only_accepted seen sb1 false true 1004 node0 node1
    (handle (Some toy_service) (Message (block_with_attestation sb1) 1004) node0).2
    seen_no_collisions store0_ok).
  - reflexivity.
  - is_seen.
  - apply surjective_pairing.
Defined.

Lemma orphan_parent_requested_witness :
  n_sent (handle_message (ProcessBlock sb2 false true) 1008 node0).1 =
    [RequestBlocksByRoot [b_parent_root block2]].
Proof.
  apply (orphan_parent_requested seen sb2 false true 1008 node0 store0_ok).
  - reflexivity.
  - vm_compute. reflexivity.
  - vm_compute. reflexivity.
  - vm_compute. discriminate.
Defined.

(** After the proposal an orphan arrives, and the clock ticks again in the slot. *)
Definition orphan : ChainMessage := block_with_attestation (Toy.sign_block block3 vote0).
Definition node3 : Node := (chain_task (Some toy_service) (messages [(orphan, 1008)]) node2).1.
Definition node4 : Node := (handle_tick (Some toy_service) 1008 1008 7 node3).1.

Lemma duties_once_per_slot_witness : n_sent node4 = n_sent node3.
Proof.
  apply (duties_once_per_slot (Some toy_service) 1008 1008 7 [(orphan, 1008)] 1008 1008 7
    node1 node2 node3 node4
    (chain_task (Some toy_service) (messages [(orphan, 1008)]) node2).2
    (handle_tick (Some toy_service) 1008 1008 7 node3).2).
  - assert (E : (handle (Some toy_service) (Tick 1008 1008 7) node1).2 = Ok tt)
      by (vm_compute; reflexivity).
    rewrite <-E. apply surjective_pairing.
  - apply surjective_pairing.
  - apply surjective_pairing.
  - vm_compute. reflexivity.
Defined.

(** ** Runs without validators *)

Definition run {MO : MapOrder} (events : list Event) : Node :=
  foldl (fun n e => (handle None e n).1) node0 events.

Definition arrival (b : Block) (now : u64) : Event :=
  Message (block_with_attestation (Toy.sign_block b vote0)) now.

Definition quiet_event (l : list Block) (e : Event) : Prop :=
  match e with
  | Tick now now_built _ => is_u64 now /\ is_u64 now_built
  | Message (ProcessBlock sb _ _) now => is_u64 now /\ listed l (bwa_block (sb_message sb))
  | Message (ProcessAttestation _ _ _) _ => True
  end.

Lemma run_reachable {MO : MapOrder} (l : list Block) events :
  gblock ∈ l -> Forall (quiet_event l) events ->
  node_reachable (listed l) None toy_genesis (run events).
Proof.
  intros Hg. unfold run. induction events as [|e events IH] using rev_ind; intros Hl.
  - apply (node_start _ _ toy_genesis _ node0_start). intros st Hst.
    assert (E : s_states store0 !! s_head store0 = Some genesis) by (vm_compute; reflexivity).
    rewrite E in Hst. injection Hst as <-. exact Hg.
  - apply Forall_app in Hl as [Hl He]. rewrite Forall_singleton in He.
    rewrite foldl_app. cbn [foldl]. apply (node_event (listed l) None toy_genesis); [by apply IH|].
    destruct e as [now nb peers|[sb tr go|sa tr go] now]; [|exact He|exact I].
    destruct He as [H1 H2]. split; [exact H1|]. split; [exact H2|]. by intros v p root b proofs s'.
Qed.
End Concrete.

(** Solves [Forall (quiet_event l) events] for lists written out. *)
Ltac quiet_events :=
  repeat (apply Forall_cons; split);
  [cbn [quiet_event arrival block_with_attestation]; repeat split;
   try reflexivity; unfold listed; rewrite !elem_of_cons; cbn; tauto..|apply Forall_nil; exact I].
