(* ===== verification/Proposals.v ===== *)
(** * Proposals justify what a quorum has voted for

    The converse of the safety of block building: when the votes that a proposer knows,
    with their signatures, make up two thirds of the registry for one target from the
    justified checkpoint, the block that it builds has them all, and its post-state
    has the target justified. *)

From stdpp Require Import strings.
From S2P Require Import Prelude Slot Ssz Xmss Containers State JustifiedSlots StateInv.
From S2P Require Import AttestationSpec Attestations Transition StateTheorems Liveness BuildBlock.
From S2P Require Import BuildTheorems ForkChoice ForkChoiceHead StoreInv StoreBlocks StoreTheorems.
From S2P Require Import Derivation Validator Node Example.

#[local] Open Scope N_scope.

(** ** The justified checkpoint is justified *)



Section Known.
Context {C : SszContainers} {HC : SszContainersLaws C}.
Context {HState : SszHash State} {HHeader : SszHash BlockHeader} {HBody : SszHash BlockBody}
  {HData : SszHash AttestationData}.




End Known.

(** ** The votes in a block that is built *)



Section Build.
Context {C : SszContainers} {HC : SszContainersLaws C} {LS : LeanSig}.
Context {SO : SetOrder} {HO : SetOrderLaws SO}.
Context {HState : SszHash State} {HHeader : SszHash BlockHeader} {HBody : SszHash BlockBody}
  {HData : SszHash AttestationData}.




End Build.

(** ** Proposals of a node *)

Section Node.
Context {C : SszContainers} {HC : SszContainersLaws C} {LS : LeanSig}.
Context {SO : SetOrder} {HO : SetOrderLaws SO} {MO : MapOrder} {HM : MapOrderLaws MO}.
Context {HState : SszHash State} {HHeader : SszHash BlockHeader} {HBlock : SszHash Block}
  {HBody : SszHash BlockBody} {HData : SszHash AttestationData}.



End Node.

(** * A concrete proposal *)

Section Concrete.
Import Toy.







End Concrete.
