(* ===== verification/Sync.v ===== *)
(** * Nodes that exchange blocks agree

    Two nodes that start from the same genesis file agree on the state of every
    block they both have.  A node that receives the blocks of another in any order,
    between clock ticks and attestations, ends up with all of them: blocks that come
    before their parent wait in the queue and are processed when it arrives. *)

From stdpp Require Import strings.
From S2P Require Import Prelude Slot Ssz Xmss Containers State JustifiedSlots StateInv.
From S2P Require Import Transition StateTheorems BuildBlock ForkChoice ForkChoiceHead StoreInv.
From S2P Require Import StoreBlocks StoreTheorems Derivation Validator Node Example.

#[local] Open Scope N_scope.

(** * Receiving blocks of another store *)

Section Receive.
Context {C : SszContainers} {HC : SszContainersLaws C} {LS : LeanSig}.
Context {SO : SetOrder} {HO : SetOrderLaws SO} {MO : MapOrder} {HM : MapOrderLaws MO}.
Context {HState : SszHash State} {HHeader : SszHash BlockHeader} {HBlock : SszHash Block}
  {HBody : SszHash BlockBody} {HData : SszHash AttestationData}.
Context (B : Block -> Prop) (HB : no_collisions B) (gb : Block) (gst : State).
Context (Hgb : b_parent_root gb = 0) (sA : Store) (HA : chain_ok B gb gst sA).

Definition root_of (sb : SignedBlockWithAttestation) : H256 := hash_tree_root (block_of sb).

(** The other store has the block. *)
Definition good (sb : SignedBlockWithAttestation) : Prop :=
  s_blocks sA !! root_of sb = Some (block_of sb).

Lemma good_seen sb : good sb -> B (block_of sb).
Proof. intros H. by destruct (so_seen _ _ (proj1 HA) _ _ H). Qed.

Lemma good_derives sb : good sb -> exists st,
  s_states sA !! root_of sb = Some st /\ derives B gb gst (block_of sb) st.
Proof.
  intros H. destruct HA as [Hs Hd].
  destruct (proj1 (so_dom _ _ Hs (root_of sb))) as [st Hst]; [by eexists|].
  exists st. split; [done|]. by eapply Hd.
Qed.

(** Stores with derived states have the same state after the same block. *)
Lemma derived_agree s s' r st st' :
  chain_ok B gb gst s -> chain_ok B gb gst s' ->
  s_states s !! r = Some st -> s_states s' !! r = Some st' ->
  s_blocks s !! r = s_blocks s' !! r /\ st = st'.
Proof.
  intros [Hs Hd] [Hs' Hd'] E E'.
  destruct (proj2 (so_dom _ _ Hs r)) as [b Hb]; [by eexists|].
  destruct (proj2 (so_dom _ _ Hs' r)) as [b' Hb']; [by eexists|].
  destruct (so_seen _ _ Hs _ _ Hb) as [HBb Hr], (so_seen _ _ Hs' _ _ Hb') as [HBb' Hr'].
  assert (b = b') as -> by (apply (nc_inj _ HB); congruence). split; [congruence|].
  eapply (derives_unique B HB gb gst b'); eauto.
Qed.

Lemma good_transition s sb pst :
  chain_ok B gb gst s -> good sb -> s_states s !! b_parent_root (block_of sb) = Some pst ->
  exists st, state_transition pst sb true = Ok st.
Proof.
  intros [Hs Hd] Hg Hp. destruct (good_derives sb Hg) as (st & _ & Hder).
  destruct (proj2 (so_dom _ _ Hs (b_parent_root (block_of sb)))) as [pb Hpb]; [by eexists|].
  destruct (so_seen _ _ Hs _ _ Hpb) as [HBp Hr].
  inversion Hder as [Eb Est|pb' pst' sb' st' Hder' HBp' Hpar Ht Eb Est].
  - rewrite <-Eb in Hr. rewrite Hgb in Hr. by destruct (nc_nonzero _ HB pb HBp).
  - exists st. rewrite Eb in Hpar. rewrite Hpar in Hr.
    apply (nc_inj _ HB) in Hr as <-; [|done..].
    rewrite (derives_unique B HB gb gst pb pst pst') by (done || by eapply Hd).
    by rewrite (transition_envelope _ sb sb').
Qed.

Lemma good_parent sb :
  good sb -> block_of sb = gb \/ b_parent_root (block_of sb) <> 0.
Proof.
  intros Hg. destruct (good_derives sb Hg) as (st & _ & Hder).
  inversion Hder as [Eb|pb pst sb' ? _ HBp Hpar _ Eb]; [by left|right].
  rewrite Hpar. by apply (nc_nonzero _ HB).
Qed.

Lemma process_good s sb :
  chain_ok B gb gst s -> good sb -> is_Some (s_blocks s !! b_parent_root (block_of sb)) ->
  exists s', process_block_internal sb (root_of sb) s = (s', Ok tt) /\ chain_ok B gb gst s' /\
    s_blocks s' = <[root_of sb := block_of sb]> (s_blocks s) /\
    s_blocks_queue s' = s_blocks_queue s.
Proof.
  intros Hs Hg Hp. apply (so_dom _ _ (proj1 Hs)) in Hp as [pst Hp].
  pose proof (good_seen sb Hg) as HBb.
  destruct (good_transition s sb pst Hs Hg Hp) as [st Ht].
  pose proof (process_block_internal_chain B HB gb gst sb HBb s Hs) as Hk.
  rewrite (process_block_internal_cases s sb (root_of sb)).
  rewrite (process_block_internal_cases s sb) in Hk.
  unfold block_of in Hp. rewrite Hp, Ht in *.
  pose proof (insert_block_ok B HB s sb pst st (proj1 Hs) HBb Hp Ht) as Hi.
  fold (block_of sb) in *. fold (root_of sb) in *. set (s1 := insert_block _ _ _ s) in *.
  destruct (block_votes_succeeds B s1 sb s1 (ok_from_refl B s1 (proj1 Hi))) as [[] Ha].
  destruct (block_votes_chain s1 sb s1) as (Eb & _ & Eq & _); [done|].
  destruct (block_votes sb s1) as [s2 r2]. cbn in *. subst r2. exists s2.
  split; [done|]. split; [done|]. rewrite Eb, Eq.
  unfold s1, insert_block. by repeat case_match.
Qed.

(** Every block of the queue is good and waits for a block that is missing, or that
    is about to be looked up. *)
Record waiting_ok (roots : list H256) (s : Store) : Prop := {
  w_chain : chain_ok B gb gst s;
  w_roots : forall r, r ∈ roots -> is_Some (s_blocks s !! r);
  w_queue : forall p l, s_blocks_queue s !! p = Some l ->
    (s_blocks s !! p = None \/ p ∈ roots) /\ forall sb, sb ∈ l -> good sb
}.

(** The block is in the store, or waits for its parent. *)
Definition arrived (s : Store) (sb : SignedBlockWithAttestation) : Prop :=
  s_blocks s !! root_of sb = Some (block_of sb) \/
  exists l, s_blocks_queue s !! b_parent_root (block_of sb) = Some l /\ sb ∈ l.

Lemma process_good_waiting roots s sb :
  waiting_ok roots s -> good sb -> is_Some (s_blocks s !! b_parent_root (block_of sb)) ->
  exists s', process_block_internal sb (root_of sb) s = (s', Ok tt) /\
    waiting_ok (root_of sb :: roots) s' /\ s_blocks s ⊆ s_blocks s' /\
    s_blocks s' !! root_of sb = Some (block_of sb) /\ s_blocks_queue s' = s_blocks_queue s.
Proof.
  intros [Wc Wr Wq] Hg Hp. destruct (process_good s sb Wc Hg Hp) as (s' & E & Hc & Eb & Eq).
  assert (Hsub : s_blocks s ⊆ s_blocks s').
  { rewrite Eb. apply (insert_known B HB); [apply Wc|by apply good_seen]. }
  exists s'. split; [done|]. split; [split|].
  - done.
  - intros r [->|Hr]%elem_of_cons; [rewrite Eb, lookup_insert_eq; by eexists|].
    destruct (Wr r Hr) as [b Hb]. exists b. by eapply lookup_weaken.
  - intros p l Hl. rewrite Eq in Hl. destruct (Wq p l Hl) as [Hpl Hgl]. split; [|done].
    rewrite elem_of_cons. destruct Hpl as [Hn|Hin]; [|by auto].
    rewrite Eb, lookup_insert. case_decide; auto.
  - split; [done|]. split; [|done]. by rewrite Eb, lookup_insert_eq.
Qed.

Lemma purgatory_good l roots s :
  waiting_ok roots s -> (forall sb, sb ∈ l -> good sb) ->
  (forall sb, sb ∈ l -> is_Some (s_blocks s !! b_parent_root (block_of sb))) ->
  exists s' roots', process_purgatory l roots s = (s', Ok roots') /\ waiting_ok roots' s' /\
    s_blocks s ⊆ s_blocks s' /\ s_blocks_queue s' = s_blocks_queue s /\
    (forall sb, sb ∈ l -> s_blocks s' !! root_of sb = Some (block_of sb)) /\
    (length roots' <= length roots + length l)%nat.
Proof.
  revert roots s; induction l as [|sb l IH]; intros roots s Hw Hg Hp; cbn [process_purgatory].
  { exists s, roots. split; [done|]. split; [done|]. split; [done|]. split; [done|].
    split; [by intros ? ?%not_elem_of_nil|cbn; lia]. }
  destruct (process_good_waiting roots s sb Hw) as (s1 & E1 & Hw1 & Hs1 & Hb1 & Hq1);
    [apply Hg; by left|apply Hp; by left|].
  destruct (IH _ _ Hw1) as (s2 & roots2 & E2 & Hw2 & Hs2 & Hq2 & Hl2 & Hn2);
    [intros; apply Hg; by right| |].
  { intros sb' Hin. destruct (Hp sb') as [b Hb]; [by right|]. exists b. by eapply lookup_weaken. }
  exists s2, roots2. unfold mbind, stM_bind, try_st.
  change (hash_tree_root (bwa_block (sb_message sb))) with (root_of sb). rewrite E1. cbn beta iota.
  split; [done|]. split; [done|]. split; [by etrans|]. split; [congruence|].
  split; [|cbn in *; lia].
  intros sb' [->|Hin]%elem_of_cons; [by eapply lookup_weaken|by apply Hl2].
Qed.

Lemma pending_good fuel roots s :
  waiting_ok roots s -> (length roots + queue_size (s_blocks_queue s) <= fuel)%nat ->
  exists s', pending_loop fuel roots s = (s', Ok tt) /\ waiting_ok [] s' /\
    s_blocks s ⊆ s_blocks s' /\ (forall sb, arrived s sb -> arrived s' sb).
Proof.
  revert roots s; induction fuel as [|fuel IH]; intros [|root roots] s Hw Hf;
    cbn [pending_loop length] in *; try (by exists s); [lia|].
  unfold mbind at 1, stM_bind at 1, get_st. cbn beta iota.
  destruct (s_blocks_queue s !! root) as [l|] eqn:El.
  2:{ apply IH; [|lia]. destruct Hw as [Wc Wr Wq]. split; [done|intros; apply Wr; by right|].
      intros p l Hl. destruct (Wq p l Hl) as [[?|Hin] ?]; [by auto|]. split; [|done].
      apply elem_of_cons in Hin as [->|?]; [congruence|by right]. }
  pose proof (queue_size_delete _ _ _ El) as Hsz.
  unfold mbind at 1, stM_bind at 1, modify_st. cbn beta iota.
  set (s1 := set_blocks_queue _ s). destruct Hw as [[Ws Wd] Wr Wq].
  assert (Hw1 : waiting_ok roots s1).
  { split; [split; [|done]|intros; apply Wr; by right|].
    - apply store_ok_queue; [done|]. intros p l' sb Hl'.
      apply lookup_delete_Some in Hl' as [_ Hl']. by apply (so_queue _ _ Ws).
    - intros p l' Hl'. unfold s1 in Hl'. cbn in Hl'. apply lookup_delete_Some in Hl' as [Hne Hl'].
      destruct (Wq p l' Hl') as [[?|Hin] ?]; [by auto|]. split; [right|done].
      apply elem_of_cons in Hin as [?|?]; congruence. }
  destruct (purgatory_good l roots s1 Hw1) as (s2 & roots2 & E2 & Hw2 & Hs2 & Hq2 & Hl2 & Hn2).
  { by apply (Wq root l). }
  { intros sb Hsb. destruct (so_queue _ _ Ws root l sb El Hsb) as [_ Hpr].
    unfold block_of. rewrite Hpr. apply Wr. by left. }
  unfold mbind, stM_bind. rewrite E2.
  destruct (IH roots2 s2 Hw2) as (s3 & E3 & Hw3 & Hs3 & Ha3).
  { rewrite Hq2. cbn. lia. }
  exists s3. split; [done|]. split; [done|]. split; [by etrans|]. intros sb Hsb. apply Ha3.
  destruct Hsb as [Hb|(l' & Hl' & Hin)]; [left; by eapply lookup_weaken|].
  destruct (decide (b_parent_root (block_of sb) = root)) as [E|Hne].
  - left. apply Hl2. congruence.
  - right. exists l'. split; [|done]. rewrite Hq2. cbn. by rewrite lookup_delete_ne.
Qed.

(** The queue with one more block. *)
Definition enqueue (sb : SignedBlockWithAttestation) (s : Store) : Store :=
  set_blocks_queue (<[b_parent_root (block_of sb) :=
    default [] (s_blocks_queue s !! b_parent_root (block_of sb)) ++ [sb]]> (s_blocks_queue s)) s.

Lemma enqueue_elem sb s p l sb' :
  s_blocks_queue (enqueue sb s) !! p = Some l -> sb' ∈ l ->
  p = b_parent_root (block_of sb) /\ sb' = sb \/
  exists l', s_blocks_queue s !! p = Some l' /\ sb' ∈ l'.
Proof.
  cbn. rewrite lookup_insert. case_decide as Ep; [|by eauto].
  intros [= <-] [Hin| ->%list_elem_of_singleton]%elem_of_app; [right|by left].
  subst p. destruct (s_blocks_queue s !! _) as [l|]; [by exists l|by apply not_elem_of_nil in Hin].
Qed.

(** A block waits for a parent that the store does not have. *)
Lemma enqueue_waiting sb s :
  waiting_ok [] s -> good sb -> b_parent_root (block_of sb) <> 0 ->
  s_states s !! b_parent_root (block_of sb) = None -> waiting_ok [] (enqueue sb s).
Proof.
  intros [[Ws Wd] Wr Wq] Hg Hnz Hst.
  pose proof (so_dom _ _ Ws (b_parent_root (block_of sb))) as Hdom.
  split; [split; [|done]|done|].
  - apply store_ok_queue; [done|]. intros p l sb' Hl Hin.
    destruct (enqueue_elem sb s p l sb' Hl Hin) as [[-> ->]|(l' & Hl' & Hin')];
      [split; [by apply good_seen|done]|by eapply (so_queue _ _ Ws)].
  - intros p l Hl. split; [left|].
    + cbn in Hl. rewrite lookup_insert in Hl. case_decide as Ep.
      * subst p. apply eq_None_not_Some. cbn. rewrite Hdom, Hst. by intros [].
      * destruct (Wq p l Hl) as [[?|Hin] _]; [done|by apply not_elem_of_nil in Hin].
    + intros sb' Hin. destruct (enqueue_elem sb s p l sb' Hl Hin) as [[_ ->]|(l' & Hl' & Hin')];
        [done|]. by apply (Wq p l' Hl').
Qed.

Lemma enqueue_arrived sb s :
  arrived (enqueue sb s) sb /\ forall sb', arrived s sb' -> arrived (enqueue sb s) sb'.
Proof.
  split.
  - right. eexists. cbn. rewrite lookup_insert_eq. split; [done|].
    apply elem_of_app. right. by apply list_elem_of_singleton.
  - intros sb' [Hb|(l & Hl & Hin)]; [by left|right]. cbn. rewrite lookup_insert.
    case_decide as Ep; [|by eauto]. eexists. split; [done|]. rewrite Ep, Hl.
    apply elem_of_app. by left.
Qed.

(** Receiving one block. *)
Lemma on_block_good s sb :
  waiting_ok [] s -> good sb -> is_Some (s_blocks s !! hash_tree_root gb) ->
  exists s' r, on_block sb s = (s', r) /\ (r = Ok tt \/ exists p q, r = Err (EBlockQueued p q)) /\
    waiting_ok [] s' /\ s_blocks s ⊆ s_blocks s' /\ arrived s' sb /\
    (forall sb', arrived s sb' -> arrived s' sb').
Proof.
  intros Hw Hg Hgen. unfold on_block, mbind at 1, stM_bind at 1, get_st. cbn beta iota.
  fold (block_of sb). fold (root_of sb). pose proof (w_chain _ _ Hw) as Hc.
  case_bool_decide as Hk.
  { exists s, (Ok tt). split; [done|]. split; [by left|]. do 2 (split; [done|]). split; [|done].
    left. destruct Hk as [b Hb]. destruct (so_seen _ _ (proj1 Hc) _ _ Hb) as [HBb Hr].
    rewrite Hb. f_equal. apply (nc_inj _ HB); [done|by apply good_seen|done]. }
  assert (Hnz : b_parent_root (block_of sb) <> 0).
  { destruct (good_parent sb Hg) as [E|]; [|done]. unfold root_of in Hk. by rewrite E in Hk. }
  unfold is_zero. rewrite (proj2 (N.eqb_neq _ _) Hnz).
  case_bool_decide as Hst; cbn [andb negb].
  - unfold mbind, stM_bind, modify_st, get_st, lift_st. fold (enqueue sb s). eexists _, _.
    split; [done|]. split; [right; eauto|]. split; [by apply enqueue_waiting|].
    split; [done|]. apply enqueue_arrived.
  - destruct (process_good_waiting [] s sb Hw Hg) as (s1 & E1 & Hw1 & Hs1 & Hb1 & Hq1).
    { apply (so_dom _ _ (proj1 Hc)). by destruct (s_states s !! _). }
    unfold mbind, stM_bind. rewrite E1. cbn beta iota.
    unfold process_pending_blocks, mbind, stM_bind, get_st. cbn beta iota.
    destruct (pending_good (length [root_of sb] + queued s1) [root_of sb] s1 Hw1)
      as (s2 & E2 & Hw2 & Hs2 & Ha2); [by rewrite queued_size|].
    exists s2, (Ok tt). split; [exact E2|]. split; [by left|]. split; [done|].
    split; [by etrans|]. split; [left; by eapply lookup_weaken|]. intros sb' Hsb'. apply Ha2.
    destruct Hsb' as [?|Hq]; [left; by eapply lookup_weaken|right; by rewrite Hq1].
Qed.

(** A block whose parent is there goes in, whatever else waits. *)
Lemma on_block_parent_known s sb :
  chain_ok B gb gst s -> good sb -> is_Some (s_blocks s !! b_parent_root (block_of sb)) ->
  exists s' r, on_block sb s = (s', r) /\ chain_ok B gb gst s' /\
    s_blocks s' !! root_of sb = Some (block_of sb) /\
    (s_blocks_queue s !! root_of sb = None -> r = Ok tt).
Proof.
  intros Hc Hg Hp. destruct (on_block sb s) as [s' r] eqn:E. exists s', r. split; [done|].
  pose proof (on_block_chain B HB gb gst sb (good_seen sb Hg) s Hc) as Hc'. rewrite E in Hc'.
  split; [done|]. unfold on_block, mbind at 1, stM_bind at 1, get_st in E. cbn beta iota in E.
  fold (block_of sb) in E. fold (root_of sb) in E. case_bool_decide as Hk.
  { injection E as <- <-. split; [|done]. destruct Hk as [b Hb].
    destruct (so_seen _ _ (proj1 Hc) _ _ Hb) as [HBb Hr]. rewrite Hb. f_equal.
    apply (nc_inj _ HB); [done|by apply good_seen|done]. }
  rewrite bool_decide_eq_false_2 in E.
  2:{ apply (so_dom _ _ (proj1 Hc)) in Hp as [x Hx]. by rewrite Hx. }
  cbn [andb] in E. destruct (process_good s sb Hc Hg Hp) as (s1 & E1 & Hc1 & Eb & Eq).
  unfold mbind, stM_bind in E. rewrite E1 in E. cbn beta iota in E.
  unfold process_pending_blocks, mbind, stM_bind, get_st in E. cbn beta iota in E.
  pose proof (pending_loop_spec B HB (length [root_of sb] + queued s1) [root_of sb] s1 (proj1 Hc1))
    as Hl. rewrite E in Hl. destruct Hl as ((_ & Hgr) & _); [by rewrite queued_size|].
  split; [eapply lookup_weaken; [|apply Hgr]; by rewrite Eb, lookup_insert_eq|].
  intros Hq. cbn [length Nat.add pending_loop] in E.
  unfold mbind, stM_bind, get_st in E. cbn beta iota in E. rewrite Eq, Hq in E.
  destruct (queued s1); by injection E as _ <-.
Qed.
End Receive.

(** * Two nodes *)

Section Nodes.
Context {C : SszContainers} {HC : SszContainersLaws C} {LS : LeanSig}.
Context {SO : SetOrder} {HO : SetOrderLaws SO} {MO : MapOrder} {HM : MapOrderLaws MO}.
Context {HState : SszHash State} {HHeader : SszHash BlockHeader} {HBlock : SszHash Block}
  {HBody : SszHash BlockBody} {HData : SszHash AttestationData}.

(** Both nodes have derived their states from one genesis state. *)
Lemma common_genesis {SO' : SetOrder} {HO' : SetOrderLaws SO'} {MO' : MapOrder}
    {HM' : MapOrderLaws MO'} (B : Block -> Prop) g vs vs' n n' :
  no_collisions B -> node_reachable (SO := SO) (MO := MO) B vs g n ->
  node_reachable (SO := SO') (MO := MO') B vs' g n' ->
  exists gb gst, b_parent_root gb = 0 /\ s_blocks (n_store n') !! hash_tree_root gb = Some gb /\
    chain_ok B gb gst (n_store n) /\ chain_ok B gb gst (n_store n').
Proof.
  intros HB Hn Hn'.
  apply (node_reachable_chain B HB) in Hn as (s & gst & Hg & Hst & Ha & Hc & _).
  apply (node_reachable_chain B HB) in Hn' as (s' & gst' & Hg' & Hst' & _ & Hc' & Hgen & _).
  rewrite Hg in Hg'. injection Hg' as <-. rewrite Hst in Hst'. injection Hst' as <-.
  exists (block_of (genesis_block gst)), gst. split; [apply Ha|]. done.
Qed.

(** C5: two nodes that started from the same genesis file agree on every block they
    both have and on the state after it, whatever events each of them saw, in
    whatever order, and whatever the iteration order of their hash maps. *)
Theorem nodes_agree {SO' : SetOrder} {HO' : SetOrderLaws SO'} {MO' : MapOrder}
    {HM' : MapOrderLaws MO'} (B : Block -> Prop) g vs vs' n n' r st st' :
  no_collisions B -> node_reachable (SO := SO) (MO := MO) B vs g n ->
  node_reachable (SO := SO') (MO := MO') B vs' g n' ->
  s_states (n_store n) !! r = Some st -> s_states (n_store n') !! r = Some st' ->
  s_blocks (n_store n) !! r = s_blocks (n_store n') !! r /\ st = st'.
Proof.
  intros HB Hn Hn'. destruct (common_genesis B g vs vs' n n' HB Hn Hn')
    as (gb & gst & Hz & _ & Hc & Hc'). by apply (derived_agree B HB gb gst Hz).
Qed.

(** ** Any order *)

(** An event of a node that runs no validators and hears of blocks that the store
    [sA] has. *)
Definition peer_event (sA : Store) (e : Event) : Prop :=
  match e with
  | Tick now _ _ => is_u64 now
  | Message (ProcessBlock sb _ _) now => is_u64 now /\ good sA sb
  | Message (ProcessAttestation _ _ _) _ => True
  end.

Definition event_block (e : Event) : option SignedBlockWithAttestation :=
  match e with Message (ProcessBlock sb _ _) _ => Some sb | _ => None end.

Section Events.
Context (B : Block -> Prop) (HB : no_collisions B) (gb : Block) (gst : State).
Context (Hgb : b_parent_root gb = 0) (sA : Store) (HA : chain_ok B gb gst sA).

Lemma waiting_ok_is s s' roots :
  chain_is s s' -> chain_ok B gb gst s' -> waiting_ok B gb gst sA roots s ->
  waiting_ok B gb gst sA roots s'.
Proof. intros (Eb & _ & Eq & _) Hc [_ Wr Wq]. by split; rewrite ?Eb, ?Eq. Qed.

Lemma arrived_is s s' sb : chain_is s s' -> arrived s sb -> arrived s' sb.
Proof. intros (Eb & _ & Eq & _). unfold arrived. by rewrite Eb, Eq. Qed.

(** What one event does for the blocks. *)
Definition progress (e : Event) (s s' : Store) : Prop :=
  waiting_ok B gb gst sA [] s' /\ s_blocks s ⊆ s_blocks s' /\
  (forall sb, arrived s sb -> arrived s' sb) /\
  (forall sb, event_block e = Some sb -> arrived s' sb).

Lemma progress_is e s s' :
  event_block e = None -> waiting_ok B gb gst sA [] s -> chain_is s s' ->
  chain_ok B gb gst s' -> progress e s s'.
Proof.
  intros He Hw Hi Hc. split; [by eapply waiting_ok_is|]. pose proof Hi as (Eb & _).
  split; [by rewrite Eb|]. split; [intros sb; by apply arrived_is|]. congruence.
Qed.

Lemma on_tick_progress now p s :
  waiting_ok B gb gst sA [] s -> is_u64 now ->
  exists s', on_tick now p s = (s', Ok tt) /\ chain_is s s' /\ chain_ok B gb gst s'.
Proof.
  intros Hw Hu. pose proof (w_chain _ _ _ _ _ _ Hw) as Hc.
  destruct (on_tick_spec B now p s (proj1 Hc) Hu) as (s' & E & _).
  pose proof (on_tick_chain s now p s) as Hi.
  destruct (si_tick (StoreInvariant := chain_ok_invariant B HB gb gst True) now p Hu s Hc) as [Hk _].
  rewrite E in *. exists s'. split; [done|]. split; [by apply Hi|done].
Qed.

Lemma validate_no_crash s d : exists r, validate_attestation_data s d = r /\
  match r with Ok _ | Err _ => True | _ => False end.
Proof.
  eexists. split; [done|]. unfold validate_attestation_data, block_at.
  assert (Hc : forall o : option Block, (exists x, o = Some x /\ bool_decide (is_Some o) = true) \/
    bool_decide (is_Some o) = false) by (intros [x|]; [left; eauto|by right]).
  destruct (Hc (s_blocks s !! cp_root (ad_source d))) as [(x & -> & ->)| ->]; cbn; [|done].
  destruct (Hc (s_blocks s !! cp_root (ad_target d))) as [(y & -> & ->)| ->]; cbn; [|done].
  unfold ensure. by repeat (case_match; cbn).
Qed.

Lemma handle_peer e n :
  waiting_ok B gb gst sA [] (n_store n) ->
  is_Some (s_blocks (n_store n) !! hash_tree_root gb) -> peer_event sA e ->
  exists n', handle None e n = (n', Ok tt) /\ progress e (n_store n) (n_store n').
Proof.
  intros Hw Hgen. destruct e as [now nb peers|[sb tr go|sa tr go] now]; cbn [peer_event handle].
  - intros Hu. destruct (on_tick_progress now false (n_store n) Hw Hu) as (s1 & E & Hi & Hc).
    unfold handle_tick, mbind at 1, stM_bind at 1, on_store at 1. rewrite E.
    unfold mbind at 1, stM_bind at 1, get_st. cbn beta iota.
    unfold mbind at 1, stM_bind at 1, modify_st at 1. cbn beta iota. cbn [n_store set_n_store].
    set (n2 := if bool_decide _ then _ else _). set (m := if _ =? 0 then _ else _).
    assert (En2 : n_store n2 = s1) by (unfold n2; by case_bool_decide).
    replace m with (mret tt : stM Node unit) by (unfold m; by repeat case_match).
    eexists. split; [done|].
    cbn beta. apply progress_is; [done..| |]; destruct (negb _ && _); cbn; by rewrite En2.
  - intros [Hu Hg]. rewrite handle_block_eq.
    destruct (on_tick_progress now false (n_store n) Hw Hu) as (s1 & -> & Hi & Hc).
    assert (Hw1 : waiting_ok B gb gst sA [] s1) by (by eapply waiting_ok_is).
    pose proof Hi as (Eb & _).
    destruct (on_block_good B HB gb gst Hgb sA HA s1 sb Hw1 Hg) as
      (s2 & r & -> & Hr & Hw2 & Hs2 & Ha2 & Hm2); [by rewrite Eb|].
    assert (Hp : progress (Message (ProcessBlock sb tr go) now) (n_store n) s2).
    { split; [done|]. split; [by rewrite <-Eb|].
      split; [intros sb' H; apply Hm2; by eapply arrived_is|]. by intros ? [= <-]. }
    destruct Hr as [->|(p & q & ->)]; eexists; (split; [done|]); by case_match.
  - intros _. unfold handle_message, mbind, stM_bind, attempt, on_store.
    pose proof (w_chain _ _ _ _ _ _ Hw) as Hc.
    pose proof (on_attestation_chain (n_store n) sa false (n_store n)) as Hi.
    destruct (si_attestation (StoreInvariant := chain_ok_invariant B HB gb gst True) sa false _ Hc)
      as [Hk _].
    assert (Hr : match (on_attestation sa false (n_store n)).2 with
      | Ok _ | Err _ => True | _ => False end).
    { unfold on_attestation, mbind, stM_bind, get_st, lift_st, modify_st.
      destruct (validate_no_crash (n_store n) (sa_message sa)) as (r & E & Hr). rewrite E.
      destruct r; try done. }
    destruct (on_attestation sa false (n_store n)) as [s' r]; cbn [fst snd] in *.
    assert (Hp : progress (Message (ProcessAttestation sa tr go) now) (n_store n) s')
      by (apply progress_is; [done|done|by apply Hi|done]).
    destruct r as [[]|e| |]; try done; [destruct go|]; by eexists.
Qed.

Lemma chain_task_peer events n :
  waiting_ok B gb gst sA [] (n_store n) ->
  is_Some (s_blocks (n_store n) !! hash_tree_root gb) ->
  (forall e, e ∈ events -> peer_event sA e) ->
  exists n', chain_task None events n = (n', Ok tt) /\
    waiting_ok B gb gst sA [] (n_store n') /\ s_blocks (n_store n) ⊆ s_blocks (n_store n') /\
    (forall sb, arrived (n_store n) sb -> arrived (n_store n') sb) /\
    (forall sb, sb ∈ omap event_block events -> arrived (n_store n') sb).
Proof.
  unfold chain_task. revert n; induction events as [|e events IH]; intros n Hw Hgen He; cbn [iterM].
  { exists n. do 4 (split; [done|]). by intros sb ?%not_elem_of_nil. }
  destruct (handle_peer e n Hw Hgen) as (n1 & E1 & Hw1 & Hs1 & Hm1 & Ha1); [apply He; by left|].
  destruct (IH n1 Hw1) as (n2 & E2 & Hw2 & Hs2 & Hm2 & Ha2).
  { destruct Hgen as [b Hb]. exists b. by eapply lookup_weaken. }
  { intros; apply He; by right. }
  exists n2. split; [unfold mbind, stM_bind; by rewrite E1|]. split; [done|].
  split; [by etrans|]. split; [by auto|]. intros sb (e' & Hin & Hb)%list_elem_of_omap.
  apply elem_of_cons in Hin as [->|Hin]; [by auto|]. apply Ha2, list_elem_of_omap. eauto.
Qed.

(** When nothing is missing, what has arrived is in the store. *)
Lemma arrived_stored s (sbs : list SignedBlockWithAttestation) :
  waiting_ok B gb gst sA [] s ->
  (forall sb, sb ∈ sbs -> good sA sb /\ arrived s sb /\
     (is_Some (s_blocks s !! b_parent_root (block_of sb)) \/
      exists sb', sb' ∈ sbs /\ root_of sb' = b_parent_root (block_of sb))) ->
  forall sb, sb ∈ sbs -> s_blocks s !! root_of sb = Some (block_of sb).
Proof.
  intros [_ _ Wq] H sb.
  remember (b_slot (block_of sb)) as k eqn:Ek. revert sb Ek.
  induction (N.lt_wf_0 k) as [k _ IH]. intros sb -> Hsb.
  destruct (H sb Hsb) as (Hg & [Hb|(l & Hl & Hin)] & Hpar); [done|].
  destruct (Wq _ _ Hl) as [[Hn|Hnil] _]; [|by apply not_elem_of_nil in Hnil].
  destruct Hpar as [[b Hb]|(sb' & Hsb' & Er)]; [congruence|].
  destruct (H sb' Hsb') as (Hg' & _).
  assert (Hlt : b_slot (block_of sb') < b_slot (block_of sb)).
  { eapply (bo_older _ (so_blocks _ _ (proj1 HA))); [exact Hg|]. by rewrite <-Er. }
  rewrite <-Er in Hn. by rewrite (IH _ Hlt sb' eq_refl Hsb') in Hn.
Qed.
End Events.

End Nodes.

Section Order.
Context {C : SszContainers} {HC : SszContainersLaws C} {LS : LeanSig}.
Context {SO : SetOrder} {HO : SetOrderLaws SO} {MO : MapOrder} {HM : MapOrderLaws MO}.
Context {HState : SszHash State} {HHeader : SszHash BlockHeader} {HBlock : SszHash Block}
  {HBody : SszHash BlockBody} {HData : SszHash AttestationData}.

(** C6: a node without validators and with no block waiting, that hears of blocks of
    another node, in any order and between clock ticks and attestations, ends up with all of them and with the same states, as
    long as no ancestor is left out: a block that comes before its parent waits, and
    is processed when the parent arrives. *)
Theorem blocks_in_any_order {SO' : SetOrder} {HO' : SetOrderLaws SO'} {MO' : MapOrder}
    {HM' : MapOrderLaws MO'} (B : Block -> Prop) g vs n n' events :
  no_collisions B -> node_reachable (SO := SO') (MO := MO') B vs g n ->
  node_reachable (SO := SO) (MO := MO) B None g n' -> s_blocks_queue (n_store n') = ∅ ->
  (forall e, e ∈ events -> peer_event (n_store n) e) ->
  (forall sb, sb ∈ omap event_block events ->
     is_Some (s_blocks (n_store n') !! b_parent_root (block_of sb)) \/
     exists sb', sb' ∈ omap event_block events /\ root_of sb' = b_parent_root (block_of sb)) ->
  exists n2, chain_task (SO := SO) (MO := MO) None events n' = (n2, Ok tt) /\
    forall sb, sb ∈ omap event_block events ->
      s_blocks (n_store n2) !! root_of sb = Some (block_of sb) /\
      s_states (n_store n2) !! root_of sb = s_states (n_store n) !! root_of sb.
Proof.
  intros HB Hn Hn' Hq He Hpar.
  destruct (common_genesis (SO := SO') (MO := MO') (SO' := SO) (MO' := MO) B g vs None n n' HB Hn Hn')
    as (gb & gst & Hz & Hgen & Hc & Hc').
  destruct (chain_task_peer (SO := SO) (MO := MO) B HB gb gst Hz (n_store n) Hc events n') as
    (n2 & E & Hw & Hsub & _ & Ha); [|by eexists|done|].
  { split; [done|by intros r ?%not_elem_of_nil|]. intros p l. by rewrite Hq, lookup_empty. }
  exists n2. split; [done|].
  assert (Hgood : forall sb, sb ∈ omap event_block events -> good (n_store n) sb).
  { intros sb (e & Hin & Eb)%list_elem_of_omap. specialize (He e Hin).
    destruct e as [|[sb' ? ?|] ?]; try done. injection Eb as ->. apply He. }
  intros sb Hsb. assert (Hb : s_blocks (n_store n2) !! root_of sb = Some (block_of sb)).
  { eapply (arrived_stored B gb gst (n_store n) Hc); [done| |done]. intros sb' Hsb'.
    split; [by apply Hgood|]. split; [by apply Ha|].
    destruct (Hpar sb' Hsb') as [[b Hb]|?]; [|by right]. left. exists b. by eapply lookup_weaken. }
  split; [done|]. pose proof (w_chain _ _ _ _ _ _ Hw) as Hc2.
  destruct (proj1 (so_dom _ _ (proj1 Hc2) (root_of sb))) as [st2 Hst2]; [by eexists|].
  destruct (good_derives B gb gst (n_store n) Hc sb (Hgood sb Hsb)) as (st & Hst & _).
  destruct (derived_agree B HB gb gst Hz _ _ _ _ _ Hc2 Hc Hst2 Hst) as [_ ->]. congruence.
Qed.
End Order.

(** * A concrete exchange *)

Section Concrete.
Import Toy.

#[local] Ltac is_seen := unfold seen, listed, block_of; rewrite !elem_of_cons; cbn; tauto.

Definition sb3 : SignedBlockWithAttestation := Toy.sign_block block3 vote0.

(** One node gets the three blocks in order. *)
Definition in_order : Node :=
  run [arrival block1 1004; arrival block2 1008; arrival block3 1016].

(** The other one iterates over its maps backwards, and gets them in the opposite
    order, with a tick in between. *)
Definition reversed_order : MapOrder := fun K V _ _ m => reverse (map_to_list m).

Lemma reversed_order_laws : MapOrderLaws reversed_order.
Proof. intros K V ? ? m. apply reverse_Permutation. Qed.

Definition late_events : list Event :=
  [Message (block_with_attestation sb3) 1016; Message (block_with_attestation sb2) 1017;
   Tick 1018 1018 1; Message (block_with_attestation sb1) 1018].

Lemma node0_reachable {MO : MapOrder} : node_reachable seen None toy_genesis node0.
Proof. apply (run_reachable _ []); [by left|apply Forall_nil; exact I]. Qed.

Lemma in_order_reachable : node_reachable seen None toy_genesis in_order.
Proof. apply run_reachable; [by left|]. quiet_events. Qed.

Lemma blocks_in_any_order_witness :
  exists n2, chain_task (MO := reversed_order) None late_events node0 = (n2, Ok tt) /\
    forall sb, sb ∈ [sb3; sb2; sb1] ->
      s_blocks (n_store n2) !! root_of sb = Some (block_of sb) /\
      s_states (n_store n2) !! root_of sb = s_states (n_store in_order) !! root_of sb.
Proof.
  apply (blocks_in_any_order (MO := reversed_order) (HM := reversed_order_laws)
    (MO' := map_to_list_order) seen toy_genesis None in_order node0 late_events
    seen_no_collisions in_order_reachable (node0_reachable (MO := reversed_order))).
  - reflexivity.
  - intros e. unfold late_events. rewrite !elem_of_cons, elem_of_nil.
    intros [->|[->|[->|[->|[]]]]]; [..|reflexivity|]; (split; [reflexivity|]);
      vm_compute; reflexivity.
  - intros sb Hsb. cbn in Hsb. rewrite !elem_of_cons, elem_of_nil in Hsb.
    destruct Hsb as [->|[->|[->|[]]]].
    + right. exists sb2. split; [right; left|vm_compute; reflexivity].
    + right. exists sb1. split; [right; right; left|vm_compute; reflexivity].
    + left. vm_compute. by eexists.
Defined.

Lemma nodes_agree_witness :
  s_blocks (n_store in_order) !! root_of sb1 =
    s_blocks (n_store (handle (MO := reversed_order) None
      (Message (block_with_attestation sb1) 1004) node0).1) !! root_of sb1 /\
  state1 = state1.
Proof.
  apply (nodes_agree (MO := map_to_list_order) (MO' := reversed_order)
    (HM' := reversed_order_laws) seen toy_genesis None None in_order
    (handle (MO := reversed_order) None (Message (block_with_attestation sb1) 1004) node0).1
    (root_of sb1) state1 state1 seen_no_collisions in_order_reachable).
  - apply (node_event (MO := reversed_order) seen None toy_genesis node0
      (Message (block_with_attestation sb1) 1004)); [apply node0_reachable|].
    split; [reflexivity|is_seen].
  - vm_compute. reflexivity.
  - vm_compute. reflexivity.
Defined.
End Concrete.
