(* ===== verification/Accountable.v ===== *)
(** * Who is to blame for conflicting checkpoints

    A justified checkpoint stands on votes of two thirds of the registry, and all
    these votes are in blocks of the store.  So when two states of a store have
    different justified or finalized checkpoints of the same slot, a third of the
    registry has voted for both, and the blocks prove it.  Checkpoints of different
    slots are another matter: finality counts the votes for a target whatever their
    sources, and two branches can be final without such a proof against anyone. *)

From stdpp Require Import strings.
From S2P Require Import Prelude Slot Ssz Xmss Containers State JustifiedSlots StateInv.
From S2P Require Import AttestationSpec Attestations Transition StateTheorems BuildBlock ForkChoice.
From S2P Require Import ForkChoiceHead StoreInv StoreBlocks StoreTheorems Derivation Validator Node Example.

#[local] Open Scope N_scope.

(** ** Quorums *)

(** Two sets of two thirds have a third in common. *)
Lemma quorums_intersect (n : N) (l k : list N) :
  NoDup l -> NoDup k -> (forall v, v ∈ l -> v < n) -> (forall v, v ∈ k -> v < n) ->
  2 * n <= 3 * len_u64 l -> 2 * n <= 3 * len_u64 k ->
  exists m, NoDup m /\ n <= 3 * len_u64 m /\ forall v, v ∈ m -> v ∈ l /\ v ∈ k.
Proof.
  intros Hl Hk Hln Hkn Hql Hqk.
  exists (filter (.∈ k) l). split; [by apply NoDup_filter|].
  split; [|intros v [??]%list_elem_of_filter; done].
  assert (Hsz : len_u64 (k ++ filter (.∉ k) l) <= len_u64 (nrange 0 n)).
  { apply NoDup_incl_len.
    - apply NoDup_app. split; [done|]. split; [|by apply NoDup_filter].
      intros v Hv [Hn _]%list_elem_of_filter. done.
    - intros v [Hv|[_ Hv]%list_elem_of_filter]%elem_of_app; apply elem_of_nrange;
        [apply Hkn in Hv|apply Hln in Hv]; lia. }
  assert (Hsplit : len_u64 l = len_u64 (filter (.∈ k) l) + len_u64 (filter (.∉ k) l)).
  { clear. unfold len_u64. induction l as [|x l IH]; [done|].
    rewrite !filter_cons. repeat case_decide; cbn [length]; try done; lia. }
  unfold len_u64, nrange in *. rewrite length_app in Hsz. rewrite length_fmap, length_seq in Hsz. lia.
Qed.

(** ** The votes in the blocks of a store *)

Definition block_cast (b : Block) : list (u64 * AttestationData) :=
  bb_attestations (b_body b) ≫= fun a =>
    (fun v => (v, aa_data a)) <$> set_bits (aa_aggregation_bits a).

Definition votes_in (bs : gmap H256 Block) : list (u64 * AttestationData) :=
  map_to_list bs ≫= fun rb => block_cast rb.2.

Definition voted_for (bs : gmap H256 Block) (v : u64) (t : Checkpoint) : Prop :=
  exists d, (v, d) ∈ votes_in bs /\ ad_target d = t.

(** Two votes for different targets of the same slot. *)
Definition double_vote (d d' : AttestationData) : bool :=
  (cp_slot (ad_target d) =? cp_slot (ad_target d')) && negb (bool_decide (ad_target d = ad_target d')).

(** The validators of a registry of [n] that have cast two votes of a bad pair. *)
Definition offenders (bad : AttestationData -> AttestationData -> bool) (n : N)
    (bs : gmap H256 Block) : list u64 :=
  let votes := votes_in bs in
  filter (fun v => existsb (fun vd => existsb (fun vd' =>
    (vd.1 =? v) && (vd'.1 =? v) && bad vd.2 vd'.2) votes) votes = true) (nrange 0 n).

Abbreviation double_voters := (offenders double_vote).

Definition supported (n : N) (bs : gmap H256 Block) (t : Checkpoint) : Prop :=
  exists voters, NoDup voters /\ 2 * n <= 3 * len_u64 voters /\
    forall v, v ∈ voters -> v < n /\ voted_for bs v t.

(** Genesis needs no votes. *)
Definition trusted (n : N) (bs : gmap H256 Block) (t : Checkpoint) : Prop :=
  cp_slot t = 0 \/ supported n bs t.

Lemma elem_of_block_cast b v d :
  (v, d) ∈ block_cast b <->
  exists a, a ∈ bb_attestations (b_body b) /\ aa_data a = d /\ v ∈ set_bits (aa_aggregation_bits a).
Proof.
  unfold block_cast. rewrite list_elem_of_bind. split.
  - intros (a & (v' & [= -> ->] & Hv)%list_elem_of_fmap & Ha). by exists a.
  - intros (a & Ha & <- & Hv). exists a. split; [|done]. apply list_elem_of_fmap. by exists v.
Qed.

Lemma elem_of_votes_in bs v d :
  (v, d) ∈ votes_in bs <-> exists r b, bs !! r = Some b /\ (v, d) ∈ block_cast b.
Proof.
  unfold votes_in. rewrite list_elem_of_bind. split.
  - intros ([r b] & Hd & Hb%elem_of_map_to_list). by exists r, b.
  - intros (r & b & Hb & Hd). exists (r, b). by rewrite elem_of_map_to_list.
Qed.

Lemma elem_of_offenders bad n bs v :
  v ∈ offenders bad n bs <->
  v < n /\ exists d d', (v, d) ∈ votes_in bs /\ (v, d') ∈ votes_in bs /\ bad d d' = true.
Proof.
  unfold offenders. rewrite list_elem_of_filter, elem_of_nrange. split.
  - intros [H Hv]. split; [lia|].
    apply existsb_exists in H as ([v1 d] & Hd%list_elem_of_In & H).
    apply existsb_exists in H as ([v2 d'] & Hd'%list_elem_of_In & H). cbn in H.
    exists d, d'. apply andb_prop in H as [[->%N.eqb_eq ->%N.eqb_eq]%andb_prop ?]. done.
  - intros (Hv & d & d' & Hd & Hd' & Hbad). split; [|lia].
    apply existsb_exists. exists (v, d). split; [by apply list_elem_of_In|].
    apply existsb_exists. exists (v, d'). split; [by apply list_elem_of_In|].
    cbn. by rewrite !N.eqb_refl.
Qed.

Lemma elem_of_double_voters n bs v t t' :
  v < n -> voted_for bs v t -> voted_for bs v t' -> cp_slot t = cp_slot t' -> t <> t' ->
  v ∈ double_voters n bs.
Proof.
  intros Hv (d & Hd & <-) (d' & Hd' & <-) Hs Hne. apply elem_of_offenders. split; [done|].
  exists d, d'. do 2 (split; [done|]). unfold double_vote.
  by rewrite Hs, N.eqb_refl, bool_decide_eq_false_2.
Qed.

(** Two supported checkpoints of one slot: a third has voted for both. *)
Lemma supported_conflict n bs t t' :
  supported n bs t -> supported n bs t' -> cp_slot t = cp_slot t' -> t <> t' ->
  n <= 3 * len_u64 (double_voters n bs).
Proof.
  intros (l & Hl & Hql & Hlv) (k & Hk & Hqk & Hkv) Hs Hne.
  destruct (quorums_intersect n l k Hl Hk (fun v Hv => proj1 (Hlv v Hv))
    (fun v Hv => proj1 (Hkv v Hv)) Hql Hqk) as (m & Hm & Hqm & Hmv).
  assert (len_u64 m <= len_u64 (double_voters n bs)); [|lia].
  apply NoDup_incl_len; [done|]. intros v Hv. destruct (Hmv v Hv) as [Hvl Hvk].
  destruct (Hlv v Hvl), (Hkv v Hvk). by apply (elem_of_double_voters n bs v t t').
Qed.

(** ** States that stand on the votes of a store *)

Record votes_backed (n : N) (bs : gmap H256 Block) (st : State) : Prop := {
  bk_registry : len_u64 (st_validators st) = n;
  bk_votes : forall r v, stored_vote st r v -> exists i,
    get_nth (st_historical_block_hashes st) i = Some r /\ voted_for bs v (mkCheckpoint r i);
  bk_slots : forall t r, finalized_slot_of st < t ->
    is_slot_justified (st_justified_slots st) (finalized_slot_of st) t = Ok true ->
    get_nth (st_historical_block_hashes st) t = Some r -> supported n bs (mkCheckpoint r t);
  bk_justified : trusted n bs (st_latest_justified st);
  bk_finalized : trusted n bs (st_latest_finalized st);
  bk_final_root : finalized_slot_of st = 0 \/
    get_nth (st_historical_block_hashes st) (finalized_slot_of st) =
      Some (cp_root (st_latest_finalized st))
}.

Section Backed.
Context {C : SszContainers} {HC : SszContainersLaws C}.
Context {HHeader : SszHash BlockHeader} {HBody : SszHash BlockBody}.
Context (n : N) (bs : gmap H256 Block).

Lemma load_same s s1 : same_but_slot s s1 -> load_justifications s1 = load_justifications s.
Proof.
  intros ((_ & Ev) & _ & _ & _ & _ & _ & _ & _ & _ & Er & Ej).
  unfold load_justifications. by rewrite Ev, Er, Ej.
Qed.

(** Empty slots change nothing. *)
Lemma slots_backed s s1 : same_but_slot s s1 -> votes_backed n bs s -> votes_backed n bs s1.
Proof.
  intros Hs [K1 K2 K3 K4 K5 K6]. pose proof (load_same s s1 Hs) as El.
  destruct Hs as ((_ & Ev) & _ & _ & _ & _ & Ej & Ef & Eh & Ew & _).
  split; unfold stored_vote in *; rewrite ?Ev, ?Ej, ?Ef, ?Eh, ?Ew, ?El; done.
Qed.

Lemma header_backed s b :
  state_wf s -> header_valid s b -> votes_backed n bs s -> votes_backed n bs (header_post s b).
Proof.
  intros Hwf Hv [K1 K2 K3 K4 K5 K6].
  pose proof (anchor_checkpoint_fin s Hwf) as Ef. pose proof (wf_fin_u64 _ Hwf) as Hfu.
  pose proof (wf_window_len _ Hwf) as Hw. pose proof (wf_hist_len _ Hwf) as Hl.
  assert (Hmono : forall i r, get_nth (st_historical_block_hashes s) i = Some r ->
    get_nth (st_historical_block_hashes (header_post s b)) i = Some r).
  { intros i r Hi. unfold get_nth in *. cbn. by apply lookup_app_l_Some. }
  split; cbn [header_post st_latest_finalized st_latest_justified st_justified_slots];
    rewrite ?Ef; [done|..].
  - intros r v Hsv. destruct (K2 r v Hsv) as (i & Hi & ?). exists i. split; [by apply Hmono|done].
  - intros t r Ht. rewrite is_slot_justified_gt by done. intros Hj%ok_or_Ok Hr.
    unfold get_nth in Hj. apply lookup_app_Some in Hj as [Hj|[_ Hj]];
      [|apply lookup_replicate in Hj as [? _]; done].
    pose proof (lookup_lt_Some _ _ _ Hj). apply K3; [done| |].
    { rewrite is_slot_justified_gt by done. unfold get_nth. by rewrite Hj. }
    unfold get_nth, len_u64 in *. cbn in Hr. rewrite lookup_app_l in Hr by lia. done.
  - unfold anchor_checkpoint. case_match; [by left|done].
  - unfold anchor_checkpoint. case_match; [by left|done].
  - unfold anchor_checkpoint. destruct K6 as [?|K6]; [by left|]. 
    destruct (N.eqb_spec (bh_slot (st_latest_block_header s)) 0); [left|by right; apply Hmono].
    pose proof (wf_fin_slot _ Hwf). lia.
Qed.

(** The history has every block once. *)
Definition history_once (s : State) : Prop :=
  forall i j r, get_nth (st_historical_block_hashes s) i = Some r ->
    get_nth (st_historical_block_hashes s) j = Some r -> r <> 0 -> i = j.

Section Attestations.
Context (s : State) (Hwf : state_wf s) (Hs : votes_backed n bs s) (Honce : history_once s).
Context (atts : list AggregatedAttestation).
Context (Hatts : forall a v, a ∈ atts -> v ∈ set_bits (aa_aggregation_bits a) ->
  voted_for bs v (ad_target (aa_data a))).

Lemma cast_votes_seen r v :
  r <> 0 -> stored_vote s r v \/ block_vote s atts r v -> exists i,
    get_nth (st_historical_block_hashes s) i = Some r /\ voted_for bs v (mkCheckpoint r i).
Proof.
  intros Hnz [Hv|(a & Ha & Er & Hh & Hv)]; [by apply (bk_votes _ _ _ Hs)|].
  exists (cp_slot (ad_target (aa_data a))). split; [done|].
  specialize (Hatts a v Ha Hv). by destruct (ad_target (aa_data a)); cbn in *; subst.
Qed.

Lemma quorum_supported t : justified_by_quorum s atts t -> supported n bs t.
Proof.
  intros (_ & Hnz & Hh & _ & voters & Hnd & Hq & Hv).
  rewrite (bk_registry _ _ _ Hs) in Hq, Hv. exists voters. do 2 (split; [done|]).
  intros v Hin. destruct (Hv v Hin) as [Hlt Hc]. split; [done|].
  destruct (cast_votes_seen _ v Hnz Hc) as (i & Hi & Hvote).
  rewrite (Honce _ _ _ Hi Hh Hnz) in Hvote. by destruct t.
Qed.

Lemma justified_slot_supported t r :
  finalized_slot_of s < t -> justified_slot s atts t ->
  get_nth (st_historical_block_hashes s) t = Some r -> supported n bs (mkCheckpoint r t).
Proof.
  intros Ht [Hj|([r' t'] & <- & Hq)] Hr; [by apply (bk_slots _ _ _ Hs)|].
  pose proof Hq as (_ & _ & Hh & _). cbn in *. rewrite Hh in Hr. injection Hr as ->.
  by apply quorum_supported.
Qed.

Lemma finality_supported t :
  finalized_slot_of s <= cp_slot t -> finalized_by_quorum s atts t -> trusted n bs t.
Proof.
  intros Hle (Hnz & Hh & Hj & _). destruct (N.eq_dec (cp_slot t) (finalized_slot_of s)) as [E|].
  - destruct (bk_final_root _ _ _ Hs) as [?|Hr]; [left; lia|].
    rewrite E, Hr in Hh. injection Hh as Er.
    replace t with (st_latest_finalized s); [apply Hs|].
    destruct t, (st_latest_finalized s); cbn in *; congruence.
  - right. destruct t as [r t]. apply justified_slot_supported; [cbn in *; lia|done|done].
Qed.

Lemma attestations_backed s' : process_attestations s atts = Ok s' -> votes_backed n bs s'.
Proof.
  intros (ls & -> & Hl & Hsafe)%process_attestations_loop; [|done].
  pose proof (lw_fin _ _ Hl) as Ef. pose proof (lw_mono _ _ Hl) as Hm.
  split; cbn [stored st_latest_finalized st_latest_justified st_justified_slots]; rewrite ?Ef.
  - apply Hs.
  - intros r v (js & w & Hjs & Hw & Hv). rewrite load_stored in Hjs by done. injection Hjs as <-.
    apply cast_votes_seen; [by apply (lw_votes _ _ Hl) in Hw as [? _]|].
    by eapply (ls_votes _ _ _ Hsafe).
  - intros t r Ht Hj Hr. apply justified_slot_supported; [lia| |done].
    by apply (ls_slots _ _ _ Hsafe).
  - destruct (ls_justified _ _ _ Hsafe) as [->|Hq]; [apply Hs|right; by apply quorum_supported].
  - destruct (ls_finalized _ _ _ Hsafe) as [->|Hq]; [apply Hs|].
    apply finality_supported; [lia|done].
  - destruct (ls_finalized _ _ _ Hsafe) as [E|(_ & Hh & _)].
    + rewrite <-Ef, E. apply Hs.
    + right. by rewrite <-Ef.
Qed.
End Attestations.
End Backed.

(** ** The states of a store *)

Section Store.
Context {C : SszContainers} {HC : SszContainersLaws C} {LS : LeanSig}.
Context {SO : SetOrder} {HO : SetOrderLaws SO} {MO : MapOrder} {HM : MapOrderLaws MO}.
Context {HState : SszHash State} {HHeader : SszHash BlockHeader} {HBlock : SszHash Block}
  {HBody : SszHash BlockBody} {HData : SszHash AttestationData}.
Context (B : Block -> Prop) (HB : no_collisions B) (gb : Block) (gst : State).
Context (Hgen : genesis_anchor gst gb) (s : Store) (Hc : chain_ok B gb gst s).

Lemma genesis_backed bs : votes_backed (len_u64 (st_validators gst)) bs gst.
Proof.
  destruct Hgen as (Hwf & _ & _ & Hh & Hj & Hf). pose proof (wf_hist_len _ Hwf) as Hl.
  rewrite Hh in Hl. assert (Hnil : st_historical_block_hashes gst = []).
  { unfold len_u64 in Hl. by destruct (st_historical_block_hashes gst). }
  split; [done| | |left; by rewrite Hj|left; by rewrite Hf|left; by rewrite Hf].
  - intros r v (js & w & Hjs & Hw & _).
    eapply load_justifications_lookup in Hw as [Hr _]; [|done..].
    apply (wf_roots_hist _ Hwf) in Hr as (i & _ & Hi). by rewrite Hnil in Hi.
  - intros t r _ _ Hr. by rewrite Hnil in Hr.
Qed.

(** The state of a block of the store is the derived one, next to its block. *)
Lemma derived_in_store b st :
  derives B gb gst b st -> s_blocks s !! hash_tree_root b = Some b ->
  state_in_store (s_blocks s) (hash_tree_root b) st.
Proof.
  intros Hd Hb. destruct Hc as [Hs Hds].
  destruct (proj1 (so_dom _ _ Hs (hash_tree_root b))) as [st' Hst]; [by eexists|].
  pose proof (Hds _ _ _ Hb Hst) as Hd'.
  rewrite (derives_unique B HB gb gst b st st') by (apply Hgen || done).
  by apply (so_states _ _ Hs).
Qed.

Lemma in_store_once r st : state_in_store (s_blocks s) r st -> history_once st.
Proof.
  intros Hin i j x Hi Hj Hnz.
  destruct (sis_hist _ _ _ Hin i x Hi Hnz) as (b & Hb & Eb).
  destruct (sis_hist _ _ _ Hin j x Hj Hnz) as (b' & Hb' & Eb'). cbn in *. congruence.
Qed.

Lemma parent_in_store b pb :
  s_blocks s !! hash_tree_root b = Some b -> B pb -> b_parent_root b = hash_tree_root pb ->
  s_blocks s !! hash_tree_root pb = Some pb.
Proof.
  intros Hb HBp Hpar. destruct Hc as [Hs _].
  destruct (so_parent _ _ Hs _ _ Hb) as [Hz|[pb' Hpb]].
  { rewrite Hpar in Hz. by destruct (nc_nonzero _ HB pb HBp). }
  rewrite Hpar in Hpb. destruct (so_seen _ _ Hs _ _ Hpb) as [HBp' Er].
  by apply (nc_inj _ HB) in Er as ->.
Qed.

Lemma transition_backed n pst sb st :
  state_wf pst -> is_u64 (b_slot (bwa_block (sb_message sb))) ->
  state_transition pst sb true = Ok st -> history_once st ->
  s_blocks s !! hash_tree_root (bwa_block (sb_message sb)) = Some (bwa_block (sb_message sb)) ->
  votes_backed n (s_blocks s) pst -> votes_backed n (s_blocks s) st.
Proof.
  intros Hwf Hu H Honce Hb Hp. unfold state_transition in H. ok_inv. subst x1.
  pose proof (process_slots_wf _ _ _ Hu Hwf Hx0) as Hwf1.
  apply process_slots_Ok_inv in Hx0 as (_ & _ & Hsame); [|done].
  apply process_block_mid in Hx1 as (Hv & Hwf2 & Ha); [|done].
  pose proof (slots_backed _ _ _ _ Hsame Hp) as Hp1.
  pose proof (header_backed _ _ _ _ Hwf1 Hv Hp1) as Hp2.
  eapply attestations_backed; [exact Hwf2|exact Hp2| | |exact Ha].
  - by apply process_attestations_loop in Ha as (ls & -> & _); [|done].
  - intros a v Hin Hvs. exists (aa_data a). split; [|done]. apply elem_of_votes_in.
    exists (hash_tree_root (bwa_block (sb_message sb))), (bwa_block (sb_message sb)).
    split; [done|]. apply elem_of_block_cast. by exists a.
Qed.

Lemma derives_backed b st :
  derives B gb gst b st -> s_blocks s !! hash_tree_root b = Some b ->
  votes_backed (len_u64 (st_validators gst)) (s_blocks s) st.
Proof.
  intros Hd. induction Hd as [|pb pst sb st Hd IH HBp Hpar Ht]; intros Hb; [apply genesis_backed|].
  pose proof (parent_in_store _ _ Hb HBp Hpar) as Hpb.
  pose proof (derived_in_store _ _ Hd Hpb) as Hpin.
  pose proof (derives_child B gb gst pb pst sb st Hd HBp Hpar Ht) as Hd'.
  eapply transition_backed; [apply Hpin| |exact Ht| |exact Hb|by apply IH].
  - apply (nc_u64 _ HB). by destruct (so_seen _ _ (proj1 Hc) _ _ Hb).
  - eapply in_store_once, derived_in_store; [exact Hd'|done].
Qed.

Lemma store_backed r st :
  s_states s !! r = Some st -> votes_backed (len_u64 (st_validators gst)) (s_blocks s) st.
Proof.
  intros Hst. destruct Hc as [Hs Hd].
  destruct (proj2 (so_dom _ _ Hs r)) as [b Hb]; [by eexists|].
  destruct (so_seen _ _ Hs _ _ Hb) as [_ Er].
  eapply derives_backed; [by eapply Hd|]. by rewrite Er.
Qed.
End Store.

(** ** Conflicting checkpoints *)

Definition checkpoint_of (st : State) (t : Checkpoint) : Prop :=
  t = st_latest_justified st \/ t = st_latest_finalized st.

Lemma checkpoint_trusted n bs st t : votes_backed n bs st -> checkpoint_of st t -> trusted n bs t.
Proof. by intros [] [->| ->]. Qed.

Section Properties.
Context {C : SszContainers} {HC : SszContainersLaws C} {LS : LeanSig}.
Context {SO : SetOrder} {HO : SetOrderLaws SO} {MO : MapOrder} {HM : MapOrderLaws MO}.
Context {HState : SszHash State} {HHeader : SszHash BlockHeader} {HBlock : SszHash Block}
  {HBody : SszHash BlockBody} {HData : SszHash AttestationData}.

(** In one store, conflicting checkpoints of a slot come with a third of the registry. *)
Lemma store_conflict (B : Block -> Prop) gb gst s r r' st st' t t' :
  no_collisions B -> genesis_anchor gst gb -> chain_ok B gb gst s ->
  s_states s !! r = Some st -> s_states s !! r' = Some st' ->
  checkpoint_of st t -> checkpoint_of st' t' ->
  cp_slot t = cp_slot t' -> 0 < cp_slot t -> t <> t' ->
  let n := len_u64 (st_validators gst) in
  n = len_u64 (st_validators st) /\ n <= 3 * len_u64 (double_voters n (s_blocks s)).
Proof.
  intros HB Ha Hc Hst Hst' Ht Ht' Es Hp Hne. cbn zeta.
  pose proof (store_backed B HB gb gst Ha s Hc r st Hst) as Hb.
  pose proof (store_backed B HB gb gst Ha s Hc r' st' Hst') as Hb'.
  split; [by rewrite (bk_registry _ _ _ Hb)|].
  destruct (checkpoint_trusted _ _ _ _ Hb Ht) as [?|Hsup]; [lia|].
  destruct (checkpoint_trusted _ _ _ _ Hb' Ht') as [?|Hsup']; [lia|].
  exact (supported_conflict _ _ t t' Hsup Hsup' Es Hne).
Qed.

(** C7: when two states of a node's store have different justified or finalized
    checkpoints of the same slot, later than slot 0, the blocks of the store prove that at
    least a third of the registry has voted for two different targets of one slot.  (At
    slot 0 the genesis state names the zero root and its descendants the genesis block,
    for which nobody has voted.) *)
Theorem conflict_has_culprits (B : Block -> Prop) vs g n r r' st st' t t' :
  no_collisions B -> node_reachable B vs g n ->
  s_states (n_store n) !! r = Some st -> s_states (n_store n) !! r' = Some st' ->
  checkpoint_of st t -> checkpoint_of st' t' ->
  cp_slot t = cp_slot t' -> 0 < cp_slot t -> t <> t' ->
  let registry := len_u64 (st_validators st) in
  let culprits := double_voters registry (s_blocks (n_store n)) in
  registry <= 3 * len_u64 culprits /\
  forall v, v ∈ culprits -> exists d d', (v, d) ∈ votes_in (s_blocks (n_store n)) /\
    (v, d') ∈ votes_in (s_blocks (n_store n)) /\
    cp_slot (ad_target d) = cp_slot (ad_target d') /\ ad_target d <> ad_target d'.
Proof.
  intros HB (s & gst & _ & _ & Ha & Hc & _)%(node_reachable_chain B HB) Hst Hst' Ht Ht' Es Hp Hne.
  cbn zeta. split.
  - destruct (store_conflict B _ gst _ r r' st st' t t' HB Ha Hc Hst Hst' Ht Ht' Es Hp Hne)
      as [E Hq]. by rewrite E in Hq.
  - intros v (_ & d & d' & Hd & Hd' & Hb)%elem_of_offenders. exists d, d'.
    do 2 (split; [done|]). unfold double_vote in Hb. apply andb_prop in Hb as [?%N.eqb_eq Hb].
    split; [done|]. by apply negb_true_iff, bool_decide_eq_false in Hb.
Qed.
End Properties.

(** * Concrete conflicts *)

Section Concrete.
Import Toy.

Definition voters (l : list u64) : list bool :=
  (fun v => bool_decide (v ∈ l)) <$> [0; 1; 2; 3].

Definition root_cp (b : Block) : Checkpoint := mkCheckpoint (hash_tree_root b) (b_slot b).

(** ** Two blocks of slot 1 are justified

    The first body has an attestation without effect, so that the blocks differ. *)
Definition twin1 : Block := Eval vm_compute in
  propose genesis 1 [vote 0 cp0 cp0 three_of_four].
Definition twin2 : Block := Eval vm_compute in
  propose (after genesis twin1) 2 [vote 1 cp0 (root_cp twin1) three_of_four].

Definition twins : list Block := [gblock; block1; block2; twin1; twin2].
Definition twin_node : Node := run [arrival block1 1004; arrival twin1 1005; arrival block2 1008; arrival twin2 1009].

(** ** Two branches are final

    Branch one: slot 1 is justified by 0, 1 and 2; then 0 and 1 vote for slot 2 from
    genesis and 2 votes for it from slot 1, which is finalized.  Branch two leaves
    out both: slot 3 is justified by 0, 1 and 3; then 0 and 1 vote for slot 4 from
    genesis, and 3 votes for it from slot 3, which is finalized. *)
Definition one3 : Block := Eval vm_compute in
  propose state2 3 [vote 2 cp0 cp2 (voters [0; 1]); vote 2 cp1 cp2 (voters [2])].
Definition two3 : Block := Eval vm_compute in propose genesis 3 [].
Definition two4 : Block := Eval vm_compute in
  propose (after genesis two3) 4 [vote 3 cp0 (root_cp two3) (voters [0; 1; 3])].
Definition two5 : Block := Eval vm_compute in
  propose (after (after genesis two3) two4) 5
    [vote 4 cp0 (root_cp two4) (voters [0; 1]);
     vote 4 (root_cp two3) (root_cp two4) (voters [3])].

Definition branches : list Block := [gblock; block1; block2; one3; two3; two4; two5].
Definition first_branch : Node := run [arrival block1 1004; arrival block2 1008; arrival one3 1012].
Definition both_branches : Node :=
  run [arrival block1 1004; arrival block2 1008; arrival one3 1012; arrival two3 1012; arrival two4 1016; arrival two5 1020].

Definition surrounds (d d' : AttestationData) : bool :=
  (cp_slot (ad_source d) <? cp_slot (ad_source d')) &&
  (cp_slot (ad_target d') <? cp_slot (ad_target d)).

(** Different votes for one target slot, or a vote around another. *)
Definition slashable (d d' : AttestationData) : bool :=
  ((cp_slot (ad_target d) =? cp_slot (ad_target d')) && negb (bool_decide (d = d'))) ||
  surrounds d d'.

Lemma descends_inv (bs : gmap H256 Block) r b a :
  bs !! r = Some b -> descends bs r a -> a = r \/ descends bs (b_parent_root b) a.
Proof. intros Hb H. inversion H; simplify_eq; auto. Qed.

(** The blocks of branch one, then those of branch two: slot 1 is final, and then
    slot 3 of the other branch is, which does not descend from it; nobody has cast
    two votes for one slot or a vote around another. *)
Theorem finality_reverted :
  let s := n_store first_branch in
  let s' := n_store both_branches in
  s_latest_finalized s = root_cp block1 /\ s_latest_finalized s' = root_cp two3 /\
  b_parent_root two3 = hash_tree_root gblock /\
  ~ descends (s_blocks s') (hash_tree_root two3) (hash_tree_root block1) /\
  offenders slashable 4 (s_blocks s') = [].
Proof.
  cbn zeta. split; [vm_compute; reflexivity|]. split; [vm_compute; reflexivity|].
  split; [vm_compute; reflexivity|]. split; [|vm_compute; reflexivity].
  assert (E3 : s_blocks (n_store both_branches) !! hash_tree_root two3 = Some two3)
    by (vm_compute; reflexivity).
  assert (E0 : s_blocks (n_store both_branches) !! hash_tree_root gblock = Some gblock)
    by (vm_compute; reflexivity).
  assert (Ez : s_blocks (n_store both_branches) !! 0 = None) by (vm_compute; reflexivity).
  intros [E|[E|H]%(descends_inv _ _ _ _ E0)]%(descends_inv _ _ _ _ E3);
    [vm_compute in E; discriminate..|].
  inversion H as [? b Hb|? b ? Hb]; change (b_parent_root gblock) with 0 in Hb;
    by rewrite Ez in Hb.
Qed.

Lemma twins_reachable : node_reachable (listed twins) None toy_genesis twin_node.
Proof.
  apply run_reachable; [by left|]. unfold twins. quiet_events.
Qed.

Lemma conflict_has_culprits_witness :
  4 <= 3 * len_u64 (double_voters 4 (s_blocks (n_store twin_node))) /\
  double_voters 4 (s_blocks (n_store twin_node)) = [0; 1; 2].
Proof.
  split; [|vm_compute; reflexivity].
  assert (E : exists st st', s_states (n_store twin_node) !! hash_tree_root block2 = Some st /\
    s_states (n_store twin_node) !! hash_tree_root twin2 = Some st' /\
    st_latest_justified st = root_cp block1 /\ st_latest_justified st' = root_cp twin1 /\
    len_u64 (st_validators st) = 4).
  { eexists _, _. split; [vm_compute; reflexivity|]. split; [vm_compute; reflexivity|].
    repeat split. }
  destruct E as (st & st' & Hst & Hst' & Ej & Ej' & Hn). rewrite <-Hn.
  apply (conflict_has_culprits (listed twins) None toy_genesis twin_node (hash_tree_root block2)
    (hash_tree_root twin2) st st' (root_cp block1) (root_cp twin1)).
  - apply listed_no_collisions; vm_compute; reflexivity.
  - exact twins_reachable.
  - exact Hst.
  - exact Hst'.
  - left. symmetry. exact Ej.
  - left. symmetry. exact Ej'.
  - reflexivity.
  - vm_compute. reflexivity.
  - intros Heq. vm_compute in Heq. discriminate Heq.
Defined.
End Concrete.
