(* ===== verification/Heads.v ===== *)
(** * Nodes that have the same blocks agree on finality and on the head

    The store's justified and finalized checkpoints are the latest ones of the states
    it has.  This is an invariant of nodes that run no validators, because the store
    of a proposer is not brought up to date with its own blocks
    ([own_block_not_processed]).  So two such nodes with the same blocks, in whatever
    order these came, agree on the slots of the checkpoints; on the checkpoints too,
    as long as less than a third of the registry has voted for two targets of one
    slot; and then the same votes give the same head. *)

From stdpp Require Import strings.
From S2P Require Import Prelude Slot Ssz Xmss Containers State JustifiedSlots StateInv.
From S2P Require Import Transition StateTheorems BuildBlock ForkChoice ForkChoiceHead StoreInv.
From S2P Require Import StoreBlocks StoreTheorems Derivation Validator Node Sync Accountable Example.

#[local] Open Scope N_scope.

(** * The latest checkpoint *)

(** The checkpoint is the latest among those of the states, or the anchor. *)
Definition leads (anchor cp : Checkpoint) (f : State -> Checkpoint) (states : gmap H256 State)
    : Prop :=
  (forall r st, states !! r = Some st -> cp_slot (f st) <= cp_slot cp) /\
  (cp = anchor \/ 0 < cp_slot cp /\ exists r st, states !! r = Some st /\ f st = cp).

(** The states have at most one checkpoint per slot. *)
Definition no_conflict (f : State -> Checkpoint) (states : gmap H256 State) : Prop :=
  map_Forall (fun _ st => map_Forall (fun _ st' =>
    cp_slot (f st) = cp_slot (f st') -> 0 < cp_slot (f st) -> f st = f st') states) states.

Lemma leads_insert anchor cp f states r st :
  leads anchor cp f states -> (forall st0, states !! r = Some st0 -> st0 = st) ->
  leads anchor (if cp_slot cp <? cp_slot (f st) then f st else cp) f (<[r := st]> states).
Proof.
  intros [Hmax Hatt] Hold. assert (Hsub : states ⊆ <[r := st]> states).
  { destruct (states !! r) as [st0|] eqn:E; [|by apply insert_subseteq].
    rewrite insert_id; [done|]. by rewrite E, (Hold st0). }
  split.
  - intros r' st'. rewrite lookup_insert. case_decide.
    + intros [= <-]. destruct (N.ltb_spec (cp_slot cp) (cp_slot (f st))); lia.
    + intros Hst. specialize (Hmax _ _ Hst).
      destruct (N.ltb_spec (cp_slot cp) (cp_slot (f st))); lia.
  - destruct (N.ltb_spec (cp_slot cp) (cp_slot (f st))).
    + right. split; [lia|]. exists r, st. by rewrite lookup_insert_eq.
    + destruct Hatt as [?|(? & r' & st' & Hst & ?)]; [by left|right].
      split; [done|]. exists r', st'. split; [by eapply lookup_weaken|done].
Qed.

Lemma leads_agree anchor cp cp' f states :
  cp_slot anchor = 0 -> leads anchor cp f states -> leads anchor cp' f states ->
  cp_slot cp = cp_slot cp' /\ (no_conflict f states -> cp = cp').
Proof.
  intros Ha [Hmax Hatt] [Hmax' Hatt'].
  destruct Hatt as [->|(Hp & r & st & Hst & <-)], Hatt' as [->|(Hp' & r' & st' & Hst' & <-)].
  - done.
  - specialize (Hmax _ _ Hst'). lia.
  - specialize (Hmax' _ _ Hst). lia.
  - specialize (Hmax _ _ Hst'). specialize (Hmax' _ _ Hst). split; [lia|]. intros Hnc.
    apply (Hnc _ _ Hst _ _ Hst'); lia.
Qed.

(** * The invariant *)

Section Best.
Context {C : SszContainers} {HC : SszContainersLaws C} {LS : LeanSig}.
Context {SO : SetOrder} {HO : SetOrderLaws SO} {MO : MapOrder} {HM : MapOrderLaws MO}.
Context {HState : SszHash State} {HHeader : SszHash BlockHeader} {HBlock : SszHash Block}
  {HBody : SszHash BlockBody} {HData : SszHash AttestationData}.
Context (B : Block -> Prop) (HB : no_collisions B) (gb : Block) (gst : State).
Context (Hgb : b_parent_root gb = 0).

Definition anchor_cp : Checkpoint := mkCheckpoint (hash_tree_root gb) (b_slot gb).

Definition best (s : Store) : Prop :=
  leads anchor_cp (s_latest_justified s) st_latest_justified (s_states s) /\
  leads anchor_cp (s_latest_finalized s) st_latest_finalized (s_states s).

Definition chain_best (s : Store) : Prop := chain_ok B gb gst s /\ best s.

Lemma best_is s s' : chain_is s s' -> best s -> best s'.
Proof. intros (_ & Es & _ & Ej & Ef). unfold best. by rewrite Es, Ej, Ef. Qed.

(** The state that a block had before is the one it gets again. *)
Lemma insert_block_best s sb pst st :
  chain_best s -> B (bwa_block (sb_message sb)) ->
  s_states s !! b_parent_root (bwa_block (sb_message sb)) = Some pst ->
  state_transition pst sb true = Ok st ->
  best (insert_block (hash_tree_root (bwa_block (sb_message sb))) (bwa_block (sb_message sb)) st s).
Proof.
  intros [Hc [Hj Hf]] HBb Hp Ht. set (b := bwa_block (sb_message sb)) in *.
  assert (Hold : forall st0, s_states s !! hash_tree_root b = Some st0 -> st0 = st).
  { intros st0 Hst0. destruct (proj2 (so_dom _ _ (proj1 Hc) (hash_tree_root b))) as [b0 Hb0];
      [by eexists|].
    destruct (so_seen _ _ (proj1 Hc) _ _ Hb0) as [HB0 Hr]. apply (nc_inj _ HB) in Hr as ->; [|done..].
    pose proof (proj2 Hc _ _ _ Hb0 Hst0) as Hd.
    pose proof (derived_insert B gb gst s sb pst st Hc Hp Ht (hash_tree_root b) b st) as Hd'.
    unfold insert_plain in Hd'. cbn in Hd'. fold b in Hd'. rewrite !lookup_insert_eq in Hd'.
    eapply (derives_unique B HB gb gst b); eauto. }
  pose proof (leads_insert _ _ _ _ _ _ Hj Hold) as Hj'.
  pose proof (leads_insert _ _ _ _ _ _ Hf Hold) as Hf'.
  unfold best, insert_block. cbn. by repeat case_match.
Qed.

Lemma process_block_internal_best sb :
  B (bwa_block (sb_message sb)) ->
  keeps chain_best (process_block_internal sb (hash_tree_root (bwa_block (sb_message sb)))).
Proof.
  intros HBb s Hs. split; [by apply process_block_internal_chain; [..|apply Hs]|].
  rewrite process_block_internal_cases.
  destruct (s_states s !! _) as [pst|] eqn:Ep; [|apply Hs].
  destruct (state_transition pst sb true) as [st|e|p|] eqn:Et; [|apply Hs..].
  eapply best_is; [by apply block_votes_chain|by eapply insert_block_best].
Qed.

(** A handler that leaves blocks, states and checkpoints alone. *)
Lemma growing_best {A} (m : stM Store A) :
  keeps_growing (chain_ok B gb gst) m -> (forall s0, keeps (chain_is s0) m) ->
  keeps_growing chain_best m.
Proof.
  intros Hm Hi s [Hc Hb]. destruct (Hm s Hc). split; [split; [done|]|done].
  eapply best_is; [by apply Hi|done].
Qed.

Lemma chain_best_invariant : StoreInvariant B chain_best False.
Proof.
  pose proof (chain_ok_invariant B HB gb gst True) as SI. split.
  - by intros s [[] _].
  - intros now p Hu. apply growing_best; [by apply (si_tick (B := B))|intros; apply on_tick_chain].
  - intros sb HBb. apply (on_block_grows B HB); [by intros s [[] _]|done|].
    apply (on_block_lift B HB); [by intros s [[] _]| |apply process_block_internal_best|done].
    by intros q s [[_ Hd] Hbest] Hs.
  - intros sa fb. apply growing_best; [apply (si_attestation (B := B))|intros; apply on_attestation_chain].
  - done.
Qed.

Lemma anchor_best sb cfg :
  genesis_anchor gst gb -> bwa_block (sb_message sb) = gb ->
  best (get_forkchoice_store gst sb cfg).
Proof.
  intros (_ & _ & Hz & _ & Hj & Hf) Eb. unfold best, get_forkchoice_store. cbn. rewrite Eb, Hj, Hf.
  cbn. split; (split; [|by left]); intros r st [_ <-]%lookup_singleton_Some; rewrite ?Hj, ?Hf; cbn; lia.
Qed.

(** The head is the one that the greedy descent from the justified block reaches. *)
Lemma update_head_ghost s :
  store_ok B s -> exists rb wt h,
    s_blocks s !! cp_root (s_latest_justified s) = Some rb /\
    (forall x, votes_for (s_blocks s) (b_slot rb) (s_latest_known_attestations s) x (wt x)) /\
    update_head s = (set_head h s, Ok tt) /\
    ghost (s_blocks s) wt 0 (cp_root (s_latest_justified s)) h.
Proof.
  intros Hs. destruct (so_just _ _ Hs) as (jb & Hjb & _).
  destruct (get_fork_choice_head_spec s (cp_root (s_latest_justified s))
    (s_latest_known_attestations s) 0 (so_blocks _ _ Hs))
    as (r & rb & wt & h & Hr & Hrb & Hw & Eh & Hg); [by eexists|intros E; by rewrite E in Hjb|].
  assert (r = cp_root (s_latest_justified s)) as ->.
  { destruct Hr as [[_ ?]|[Ez _]]; [done|].
    by rewrite Ez, (bo_zero _ (so_blocks _ _ Hs)) in Hjb. }
  exists rb, wt, h. do 2 (split; [done|]). split; [|done].
  unfold update_head, update_st. by rewrite Eh.
Qed.
End Best.

(** * Two nodes *)

Section Nodes.
Context {C : SszContainers} {HC : SszContainersLaws C} {LS : LeanSig}.
Context {HState : SszHash State} {HHeader : SszHash BlockHeader} {HBlock : SszHash Block}
  {HBody : SszHash BlockBody} {HData : SszHash AttestationData}.

(** The head depends on the blocks, the justified root and the votes only. *)
Lemma update_head_agree {MO : MapOrder} {HM : MapOrderLaws MO} {MO' : MapOrder}
    {HM' : MapOrderLaws MO'} (B : Block -> Prop) s s' :
  store_ok B s -> store_ok B s' -> s_blocks s = s_blocks s' ->
  s_latest_justified s = s_latest_justified s' ->
  s_latest_known_attestations s = s_latest_known_attestations s' ->
  exists h, update_head (MO := MO) s = (set_head h s, Ok tt) /\
    update_head (MO := MO') s' = (set_head h s', Ok tt).
Proof.
  intros Hs Hs' Eb Ej Ev.
  destruct (update_head_ghost (MO := MO) (HM := HM) B s Hs) as (rb & wt & h & Hrb & Hw & E & Hg).
  destruct (update_head_ghost (MO := MO') (HM := HM') B s' Hs')
    as (rb' & wt' & h' & Hrb' & Hw' & E' & Hg').
  rewrite <-Eb, <-Ej in Hrb', Hg'. rewrite Hrb in Hrb'. injection Hrb' as <-.
  rewrite <-Eb, <-Ev in Hw'. exists h. split; [done|]. rewrite E'. do 2 f_equal.
  eapply ghost_deterministic; [exact Hg'|]. eapply ghost_ext; [|exact Hg].
  intros x. by eapply votes_for_unique.
Qed.

Lemma node_reachable_best {SO : SetOrder} {HO : SetOrderLaws SO} {MO : MapOrder}
    {HM : MapOrderLaws MO} (B : Block -> Prop) g n :
  no_collisions B -> node_reachable B None g n ->
  exists s gst, genesis_store g = Ok s /\ s_states s !! s_head s = Some gst /\
    genesis_anchor gst (block_of (genesis_block gst)) /\
    chain_best B (block_of (genesis_block gst)) gst (n_store n).
Proof.
  intros HB Hn. assert (Hg : exists s, genesis_store g = Ok s) by (induction Hn; eauto).
  destruct Hg as [s Hg]. destruct (genesis_store_inv g s Hg) as (gst & cfg & Es & Hst & Ha).
  exists s, gst. do 3 (split; [done|]). set (gb := block_of (genesis_block gst)) in *.
  pose proof (chain_best_invariant B HB gb gst (proj1 (proj2 Ha))) as SI.
  destruct (node_reachable_sat B HB (chain_best B gb gst) False ∅ None g n) as [? _];
    [done| |done|done].
  intros s' Hg' HBg. rewrite Hg in Hg'. injection Hg' as <-. rewrite Es.
  split; [|apply map_empty_subseteq].
  split; [apply anchor_chain_ok; [done..| |done]; by apply HBg|by apply anchor_best].
Qed.

(** Stores with derived states and the same blocks have the same states. *)
Lemma same_states (B : Block -> Prop) gb gst s s' :
  no_collisions B -> b_parent_root gb = 0 -> chain_ok B gb gst s -> chain_ok B gb gst s' ->
  s_blocks s = s_blocks s' -> s_states s = s_states s'.
Proof.
  intros HB Hz Hc Hc' Eb. apply map_eq. intros r.
  pose proof (so_dom _ _ (proj1 Hc) r) as Hd. pose proof (so_dom _ _ (proj1 Hc') r) as Hd'.
  rewrite <-Eb in Hd'. rewrite Hd in Hd'.
  destruct (s_states s !! r) as [st|] eqn:E, (s_states s' !! r) as [st'|] eqn:E'.
  - f_equal. by apply (derived_agree B HB gb gst Hz s s' r st st').
  - destruct Hd' as [Hd' _]. by destruct Hd'.
  - destruct Hd' as [_ Hd']. by destruct Hd'.
  - done.
Qed.

(** While few validators vote twice for a slot, the states do not conflict. *)
Lemma few_double_votes (B : Block -> Prop) gb gst s r st f :
  no_collisions B -> genesis_anchor gst gb -> chain_ok B gb gst s ->
  (forall st, checkpoint_of st (f st)) -> s_states s !! r = Some st ->
  let registry := len_u64 (st_validators st) in
  3 * len_u64 (double_voters registry (s_blocks s)) < registry ->
  no_conflict f (s_states s).
Proof.
  intros HB Ha Hc Hf Hst. cbn zeta. intros Hfew.
  pose proof (bk_registry _ _ _ (store_backed B HB gb gst Ha s Hc r st Hst)) as En.
  intros r1 st1 H1 r2 st2 H2 Es Hp. destruct (decide (f st1 = f st2)) as [|Hne]; [done|].
  destruct (store_conflict B gb gst s r1 r2 st1 st2 (f st1) (f st2)) as [_ Hq]; try done.
  rewrite <-En in Hq. lia.
Qed.

(** C8: two nodes without validators that started from the same genesis file and have
    the same blocks, whatever else they saw and in whatever order, agree on the slots
    of their justified and finalized checkpoints.  As long as the blocks show less than
    a third of the registry voting for two targets of one slot, they agree on the
    checkpoints; and if they also know the same votes, on the head. *)
Theorem heads_agree {SO : SetOrder} {HO : SetOrderLaws SO} {MO : MapOrder} {HM : MapOrderLaws MO}
    {SO' : SetOrder} {HO' : SetOrderLaws SO'} {MO' : MapOrder} {HM' : MapOrderLaws MO'}
    (B : Block -> Prop) g n n' r st :
  let s := n_store n in
  let s' := n_store n' in
  no_collisions B -> node_reachable (SO := SO) (MO := MO) B None g n ->
  node_reachable (SO := SO') (MO := MO') B None g n' -> s_blocks s = s_blocks s' ->
  s_states s !! r = Some st ->
  cp_slot (s_latest_justified s) = cp_slot (s_latest_justified s') /\
  cp_slot (s_latest_finalized s) = cp_slot (s_latest_finalized s') /\
  let registry := len_u64 (st_validators st) in
  (3 * len_u64 (double_voters registry (s_blocks s)) < registry ->
   s_latest_finalized s = s_latest_finalized s' /\ s_latest_justified s = s_latest_justified s' /\
   (s_latest_known_attestations s = s_latest_known_attestations s' ->
    exists h, update_head (MO := MO) s = (set_head h s, Ok tt) /\
      update_head (MO := MO') s' = (set_head h s', Ok tt))).
Proof.
  cbn zeta. intros HB Hn Hn' Eb Hr.
  apply (node_reachable_best B g n HB) in Hn as (s0 & gst & Hg & Hst & Ha & Hc & Hj & Hf).
  apply (node_reachable_best B g n' HB) in Hn' as (s0' & gst' & Hg' & Hst' & _ & Hc' & Hj' & Hf').
  rewrite Hg in Hg'. injection Hg' as <-. rewrite Hst in Hst'. injection Hst' as <-.
  assert (Es : s_states (n_store n) = s_states (n_store n')).
  { eapply (same_states B); [done|apply Ha|done..]. }
  rewrite <-Es in Hj', Hf'.
  assert (Hz : cp_slot (anchor_cp (block_of (genesis_block gst))) = 0) by apply Ha.
  destruct (leads_agree _ _ _ _ _ Hz Hj Hj') as [Ej Cj], (leads_agree _ _ _ _ _ Hz Hf Hf') as [Ef Cf].
  do 2 (split; [done|]). intros Hfew.
  pose proof (few_double_votes B (block_of (genesis_block gst)) gst (n_store n) r st) as Hno.
  specialize (Cj (Hno _ HB Ha Hc (fun st => or_introl eq_refl) Hr Hfew)).
  specialize (Cf (Hno _ HB Ha Hc (fun st => or_intror eq_refl) Hr Hfew)).
  do 2 (split; [done|]). intros Ev.
  by apply (update_head_agree B); [apply Hc|apply Hc'|..].
Qed.
End Nodes.

(** * A concrete pair *)

Section Concrete.
Import Toy.

(** The blocks in the opposite order, on a node that iterates backwards. *)
Definition in_reverse : Node :=
  run (MO := reversed_order) [arrival block3 1016; arrival block2 1017; arrival block1 1018].

Lemma in_reverse_reachable :
  node_reachable (MO := reversed_order) seen None toy_genesis in_reverse.
Proof. apply (run_reachable (MO := reversed_order)); [by left|]. quiet_events. Qed.

Lemma heads_agree_witness :
  s_latest_finalized (n_store in_order) = s_latest_finalized (n_store in_reverse) /\
  s_latest_justified (n_store in_order) = s_latest_justified (n_store in_reverse) /\
  (0 < cp_slot (s_latest_finalized (n_store in_order))) /\
  exists h, update_head (MO := map_to_list_order) (n_store in_order) =
      (set_head h (n_store in_order), Ok tt) /\
    update_head (MO := reversed_order) (n_store in_reverse) =
      (set_head h (n_store in_reverse), Ok tt).
Proof.
  assert (Hst : s_states (n_store in_order) !! hash_tree_root block1 = Some state1)
    by (vm_compute; reflexivity).
  destruct (heads_agree (MO := map_to_list_order) (MO' := reversed_order)
    (HM' := reversed_order_laws) seen toy_genesis in_order in_reverse (hash_tree_root block1)
    state1 seen_no_collisions in_order_reachable in_reverse_reachable) as (_ & _ & H).
  - vm_compute. reflexivity.
  - exact Hst.
  - destruct H as (Hf & Hj & Hh); [vm_compute; reflexivity|].
    split; [exact Hf|]. split; [exact Hj|]. split; [vm_compute; reflexivity|].
    apply Hh. vm_compute. reflexivity.
Defined.
End Concrete.
