(* ===== verification/Bytes.v ===== *)
(** * Bytes, strings and encodings

    Fixed-width integers as bytes, 32-byte roots, slices of a byte string, the
    string operations the networking code uses, and the classes that stand for
    the SSZ serialisation and the Snappy library. *)

From Stdlib Require Import Strings.Byte Strings.Ascii Strings.String.
From stdpp Require Import strings.
From S2P Require Import Prelude Ssz Xmss.

#[local] Open Scope N_scope.

(** ** External encodings *)

(** [SszWrite::to_ssz] and [SszReadDefault::from_ssz_default]. *)
Class SszCodec (A : Type) := {
  to_ssz : A -> outcome bytes;
  from_ssz_default : bytes -> outcome A
}.

(** Serialised containers are read back, and are never empty. *)
Class SszCodecLaws (A : Type) {S : SszCodec A} : Prop := {
  ssz_roundtrip : forall (a : A) bs, to_ssz a = Ok bs -> from_ssz_default bs = Ok a;
  ssz_nonempty : forall (a : A) bs, to_ssz a = Ok bs -> bs <> []
}.

(** [snap]: the framing format and the raw format. *)
Class Snappy := {
  frame_encode : bytes -> outcome bytes;
  frame_decode : bytes -> outcome bytes;
  raw_compress : bytes -> outcome bytes;
  raw_decompress : bytes -> outcome bytes
}.

(** Compression is lossless, and an empty frame stream holds no data. *)
Class SnappyLaws (S : Snappy) : Prop := {
  frame_roundtrip : forall d c, frame_encode d = Ok c -> frame_decode c = Ok d;
  frame_empty : frame_decode [] = Ok [];
  raw_roundtrip : forall d c, raw_compress d = Ok c -> raw_decompress c = Ok d
}.

(** ** Integers as bytes *)

Definition byte_of (x : N) : Byte.byte := default x00 (Byte.of_N (x `mod` 256)).

(** The [k] low bytes of [x], least significant first. *)
Fixpoint le_bytes (k : nat) (x : N) : bytes :=
  match k with
  | O => []
  | S k => byte_of x :: le_bytes k (x / 256)
  end.

Fixpoint of_le_bytes (l : bytes) : N :=
  match l with
  | [] => 0
  | b :: l => Byte.to_N b + 256 * of_le_bytes l
  end.

(** [root.as_bytes()] and [H256::from([u8; 32])]. *)
Definition h256_bytes (h : H256) : bytes := reverse (le_bytes 32 h).
Definition h256_of_bytes (l : bytes) : H256 := of_le_bytes (reverse l).

Definition is_h256 (h : N) : Prop := h < 256 ^ 32.

(** ** Slices and strings *)

(** [data.chunks(n)], for [n > 0]; the last chunk may be shorter. *)
Fixpoint chunks_go (fuel n : nat) {A} (l : list A) : list (list A) :=
  match fuel, l with
  | O, _ | _, [] => []
  | S fuel, _ => take n l :: chunks_go fuel n (drop n l)
  end.

Definition chunks (n : nat) {A} (l : list A) : list (list A) := chunks_go (length l) n l.

Definition slash : ascii := "/"%char.

(** [s.trim_start_matches('/')] *)
Fixpoint trim_start_slash (s : string) : string :=
  match s with
  | String c s' => if Ascii.eqb c slash then trim_start_slash s' else s
  | EmptyString => EmptyString
  end.

(** [s.split('/')]: always at least one piece. *)
Fixpoint split_slash (s : string) : list string :=
  match s with
  | EmptyString => [EmptyString]
  | String c s' =>
      if Ascii.eqb c slash then EmptyString :: split_slash s'
      else match split_slash s' with
           | p :: ps => String c p :: ps
           | [] => [String c EmptyString]
           end
  end.

(** [s.contains(sub)] *)
Fixpoint str_contains (sub s : string) : bool :=
  String.prefix sub s ||
  match s with
  | EmptyString => false
  | String _ s' => str_contains sub s'
  end.

(** * Lemmas *)

Lemma byte_of_spec x : Byte.to_N (byte_of x) = x `mod` 256.
Proof.
  unfold byte_of. assert (Hlt : x `mod` 256 < 256) by (apply N.mod_lt; done).
  destruct (Byte.of_N (x `mod` 256)) as [b|] eqn:E; cbn.
  - by apply Byte.to_of_N.
  - apply Byte.of_N_None_iff in E. lia.
Qed.

Lemma byte_of_to_N b : byte_of (Byte.to_N b) = b.
Proof. by destruct b. Qed.

Lemma to_N_bound b : Byte.to_N b < 256.
Proof. by destruct b. Qed.

Lemma length_le_bytes k x : length (le_bytes k x) = k.
Proof. revert x; induction k as [|k IH]; intros x; cbn; [done|by rewrite IH]. Qed.

Lemma of_le_bytes_le k x : x < 256 ^ N.of_nat k -> of_le_bytes (le_bytes k x) = x.
Proof.
  revert x; induction k as [|k IH]; intros x Hx; cbn [le_bytes of_le_bytes].
  - change (256 ^ N.of_nat 0) with 1 in Hx. lia.
  - rewrite byte_of_spec, IH.
    + rewrite (N.div_mod x 256) at 3 by done. lia.
    + rewrite Nat2N.inj_succ, N.pow_succ_r' in Hx. apply N.Div0.div_lt_upper_bound. lia.
Qed.

Lemma le_bytes_inj k x y :
  x < 256 ^ N.of_nat k -> y < 256 ^ N.of_nat k -> le_bytes k x = le_bytes k y -> x = y.
Proof.
  intros Hx Hy E. by rewrite <-(of_le_bytes_le k x Hx), E, of_le_bytes_le.
Qed.

Lemma of_le_bytes_bound l : of_le_bytes l < 256 ^ N.of_nat (length l).
Proof.
  induction l as [|b l IH]; cbn [of_le_bytes length]; [done|].
  rewrite Nat2N.inj_succ, N.pow_succ_r'. pose proof (to_N_bound b). lia.
Qed.

Lemma length_h256_bytes h : length (h256_bytes h) = 32%nat.
Proof. unfold h256_bytes. by rewrite length_reverse, length_le_bytes. Qed.

Lemma h256_of_to_bytes h : is_h256 h -> h256_of_bytes (h256_bytes h) = h.
Proof.
  intros Hh. unfold h256_of_bytes, h256_bytes. rewrite reverse_involutive.
  by apply of_le_bytes_le.
Qed.

Lemma h256_of_bytes_bound l : length l = 32%nat -> is_h256 (h256_of_bytes l).
Proof.
  intros Hl. unfold is_h256, h256_of_bytes.
  pose proof (of_le_bytes_bound (reverse l)) as H. by rewrite length_reverse, Hl in H.
Qed.

Lemma le_bytes_of_le l : le_bytes (length l) (of_le_bytes l) = l.
Proof.
  induction l as [|b l IH]; cbn [length le_bytes of_le_bytes]; [done|].
  pose proof (to_N_bound b) as Hb. f_equal.
  - rewrite <-(byte_of_to_N b) at 2. unfold byte_of. by rewrite (N.mul_comm 256), N.Div0.mod_add.
  - rewrite (N.mul_comm 256), N.div_add, (N.div_small (Byte.to_N b)), N.add_0_l by done. exact IH.
Qed.

Lemma h256_bytes_of l : length l = 32%nat -> h256_bytes (h256_of_bytes l) = l.
Proof.
  intros Hl. unfold h256_bytes, h256_of_bytes.
  rewrite <-Hl, <-(length_reverse l), le_bytes_of_le. apply reverse_involutive.
Qed.

(** ** Chunks *)

(** The full chunks, in order, are the list up to less than a chunk. *)
Lemma full_chunks_concat {A} fuel n (l : list A) :
  (0 < n)%nat -> (length l <= fuel)%nat ->
  exists rest, l = concat (filter (fun c => length c = n) (chunks_go fuel n l)) ++ rest /\
    (length rest < n)%nat.
Proof.
  intros Hn. revert l. induction fuel as [|fuel IH]; intros [|x l] Hl; cbn [chunks_go];
    try (exists []; cbn in *; by repeat split || lia).
  destruct (IH (drop n (x :: l))) as (rest & E & Hr); [rewrite length_drop; cbn in *; lia|].
  destruct (decide (n <= length (x :: l))%nat) as [Hle|Hlt].
  - exists rest. split; [|done]. rewrite filter_cons_True by (rewrite length_take; lia).
    cbn [concat]. rewrite <-app_assoc, <-E. by rewrite take_drop.
  - exists (x :: l). split; [|lia]. rewrite filter_cons_False by (rewrite length_take; lia).
    rewrite drop_ge by lia. by destruct fuel.
Qed.

Lemma chunks_go_concat {A} n (ls : list (list A)) fuel :
  (0 < n)%nat -> Forall (fun c => length c = n) ls -> (length (concat ls) <= fuel)%nat ->
  chunks_go fuel n (concat ls) = ls.
Proof.
  intros Hn Hls. revert fuel. induction Hls as [|c ls Hc Hls IH]; intros fuel Hf.
  { by destruct fuel. }
  cbn [concat] in *. rewrite length_app in Hf. destruct fuel as [|fuel]; [lia|].
  destruct c as [|x c]; [cbn in Hc; lia|]. cbn [app chunks_go].
  change (x :: c ++ concat ls) with ((x :: c) ++ concat ls).
  rewrite take_app_length', drop_app_length' by done. rewrite IH; [done|]. cbn in Hf. lia.
Qed.

Lemma chunks_concat {A} n (ls : list (list A)) :
  (0 < n)%nat -> Forall (fun c => length c = n) ls -> chunks n (concat ls) = ls.
Proof. intros. by apply chunks_go_concat. Qed.

(** ** Strings *)

Definition slash_free (s : string) : Prop := slash ∉ list_ascii_of_string s.

#[export] Instance slash_free_dec s : Decision (slash_free s).
Proof. unfold slash_free. apply _. Defined.

(** [n] slashes. *)
Fixpoint slashes (n : nat) (s : string) : string :=
  match n with
  | O => s
  | S n => String slash (slashes n s)
  end.

Lemma slash_free_cons c s : slash_free (String c s) <-> c <> slash /\ slash_free s.
Proof. unfold slash_free. cbn. rewrite not_elem_of_cons. naive_solver. Qed.

Lemma slash_free_nil : slash_free EmptyString.
Proof. apply (not_elem_of_nil slash). Qed.

Lemma trim_start_spec s :
  exists k, s = slashes k (trim_start_slash s) /\ forall s', trim_start_slash s <> String slash s'.
Proof.
  induction s as [|c s IH]; cbn; [by exists 0%nat|].
  destruct (Ascii.eqb_spec c slash) as [->|Hc].
  - destruct IH as (k & E & Hn). exists (S k). split; [|done]. cbn. by rewrite <-E.
  - exists 0%nat. split; [done|]. intros s' [= ->]. done.
Qed.

Lemma trim_start_slashes k s :
  (forall s', s <> String slash s') -> trim_start_slash (slashes k s) = s.
Proof.
  intros Hs. induction k as [|k IH]; cbn; [|done].
  destruct s as [|c s]; cbn; [done|]. destruct (Ascii.eqb_spec c slash) as [->|]; [|done].
  by destruct (Hs s).
Qed.

Lemma split_slash_nonempty s : split_slash s <> [].
Proof. destruct s as [|c s]; cbn; [done|]. repeat case_match; done. Qed.

Lemma split_slash_concat s : String.concat "/" (split_slash s) = s.
Proof.
  induction s as [|c s IH]; [done|]. cbn [split_slash].
  destruct (Ascii.eqb_spec c slash) as [->|Hc].
  - destruct (split_slash s) as [|p ps] eqn:E; [by destruct (split_slash_nonempty s)|].
    cbn in *. by rewrite IH.
  - destruct (split_slash s) as [|p ps] eqn:E; [by destruct (split_slash_nonempty s)|].
    destruct ps as [|q ps]; [by rewrite <-IH|].
    change (String.concat "/" (String c p :: q :: ps))
      with (String c (String.concat "/" (p :: q :: ps))). by rewrite IH.
Qed.

Lemma split_slash_free s : Forall slash_free (split_slash s).
Proof.
  induction s as [|c s IH]; cbn [split_slash]; [apply Forall_singleton, slash_free_nil|].
  destruct (Ascii.eqb_spec c slash) as [->|Hc].
  - constructor; [apply slash_free_nil|done].
  - destruct (split_slash s) as [|p ps] eqn:E; [by destruct (split_slash_nonempty s)|].
    inversion_clear IH. constructor; [by apply slash_free_cons|done].
Qed.

Lemma split_slash_app p s :
  slash_free p -> split_slash (p +:+ String slash s) = p :: split_slash s.
Proof.
  induction p as [|c p IH]; [done|]. intros [Hc Hp]%slash_free_cons.
  change (String c p +:+ String slash s) with (String c (p +:+ String slash s)).
  cbn [split_slash]. destruct (Ascii.eqb_spec c slash); [done|]. by rewrite IH.
Qed.

Lemma split_slash_single p : slash_free p -> split_slash p = [p].
Proof.
  induction p as [|c p IH]; cbn; [done|]. intros [Hc Hp]%slash_free_cons.
  destruct (Ascii.eqb_spec c slash); [done|]. by rewrite IH.
Qed.
