(* ===== verification/Serde.v ===== *)
(** * Text and JSON forms

    The text forms of keys and signatures ([xmss/src/public_key.rs],
    [xmss/src/signature.rs], [xmss/src/aggregated_signature.rs]), key generation
    ([xmss/src/secret_key.rs]), the helpers of [containers/src/serde_helpers.rs] and
    [networking/src/serde_utils.rs], and the genesis file ([containers/src/config.rs]).

    A JSON document is the type [Json], and [deserialize] functions are functions on
    it: a structure is read from an object with each of its fields once, or from an
    array of its fields in order.  The [hex] crate is the class [Hex], the SSZ form of
    a bit list the class [BitListSsz]. *)

From Stdlib Require Import Strings.Byte Strings.Ascii Strings.String.
From stdpp Require Import strings pretty.
From S2P Require Import Prelude Ssz Xmss Containers Bytes Example.

#[local] Open Scope N_scope.

(** ** External encodings *)

(** [hex::encode] and [hex::decode]. *)
Class Hex := {
  hex_encode : bytes -> string;
  hex_decode : string -> option bytes
}.

(** Decoding inverts encoding, and hexadecimal text has no [x]. *)
Class HexLaws (H : Hex) : Prop := {
  hex_roundtrip : forall bs, hex_decode (hex_encode bs) = Some bs;
  hex_no_x : forall bs, "x"%char ∉ list_ascii_of_string (hex_encode bs);
  hex_nonempty : forall bs, bs <> [] -> hex_encode bs <> ""%string
}.

(** [BitList::write_variable] and [BitList::from_ssz_unchecked]. *)
Class BitListSsz := {
  bl_write : list bool -> outcome bytes;
  bl_from_ssz : bytes -> outcome (list bool)
}.

Class BitListSszLaws (Z : BitListSsz) : Prop := {
  bl_roundtrip : forall l bs, bl_write l = Ok bs -> bl_from_ssz bs = Ok l;
  bl_nonempty : forall l bs, bl_write l = Ok bs -> bs <> []
}.

(** ** Strings *)

(** [s.strip_prefix("0x").unwrap_or(s)] *)
Definition strip_0x (s : string) : string :=
  match s with
  | String "0" (String "x" s') => s'
  | _ => s
  end.

(** [s.trim_start_matches("0x")] *)
Fixpoint trim_0x (s : string) : string :=
  match s with
  | String "0" (String "x" s') => trim_0x s'
  | _ => s
  end.

(** The value of a decimal digit. *)
Definition digit (c : ascii) : option N :=
  let n := N_of_ascii c in
  if (48 <=? n) && (n <=? 57) then Some (n - 48) else None.

(** [s.parse::<u64>()]: digits only, after an optional sign, within the width. *)
Fixpoint parse_digits (acc : N) (s : string) : option N :=
  match s with
  | EmptyString => Some acc
  | String c s =>
      match digit c with
      | Some d => if 10 * acc + d <? u64_modulus then parse_digits (10 * acc + d) s else None
      | None => None
      end
  end.

Definition parse_u64 (s : string) : option u64 :=
  match s with
  | EmptyString => None
  | String "+" EmptyString => None
  | String "+" s => parse_digits 0 s
  | _ => parse_digits 0 s
  end.

(** ** JSON *)

Inductive Json :=
  | JNull
  | JBool (b : bool)
  | JNum (n : N)
  | JStr (s : string)
  | JArr (l : list Json)
  | JObj (fields : list (string * Json)).

Definition EJson : error := EExternal 70.
Definition EHex : error := EExternal 71.
Definition ESerialize : error := EExternal 72.
Definition ENumber : error := EExternal 73.

(** The field of an object, present once. *)
Definition obj_field (fields : list (string * Json)) (name : string) : outcome Json :=
  match filter (fun f : string * Json => f.1 = name) fields with
  | [(_, v)] => Ok v
  | _ => Err EJson
  end.

(** The fields of a derived structure. *)
Definition de_struct (names : list string) (j : Json) : outcome (list Json) :=
  match j with
  | JObj fields => mapM (obj_field fields) names
  | JArr l => if (length l =? length names)%nat then Ok l else Err EJson
  | _ => Err EJson
  end.

Definition de_string (j : Json) : outcome string :=
  match j with JStr s => Ok s | _ => Err EJson end.

Definition de_bool (j : Json) : outcome bool :=
  match j with JBool b => Ok b | _ => Err EJson end.

Definition de_u32 (j : Json) : outcome N :=
  match j with JNum n => if n <? 2 ^ 32 then Ok n else Err EJson | _ => Err EJson end.

Definition de_vec {T} (de : Json -> outcome T) (j : Json) : outcome (list T) :=
  match j with JArr l => mapM de l | _ => Err EJson end.

(** [DataWrapper<T>]: the object [{"data": ..}]. *)
Definition de_data {T} (de : Json -> outcome T) (j : Json) : outcome T :=
  fields ← de_struct ["data"%string] j;
  match fields with
  | [d] => de d
  | _ => Err EJson
  end.

Definition ser_data (j : Json) : Json := JObj [("data"%string, j)].

(** [serde_helpers::deserialize] and [serde_helpers::serialize] *)
Definition serde_deserialize {T} (de : Json -> outcome T) (j : Json) : outcome T := de_data de j.

Definition serde_serialize {T} (ser : T -> outcome Json) (value : T) : outcome Json :=
  j ← ser value; Ok (ser_data j).

(** [quoted_u64] *)
Definition quoted_u64_serialize (value : u64) : Json := JStr (pretty value).

Definition quoted_u64_deserialize (j : Json) : outcome u64 :=
  value ← de_string j; ok_or (parse_u64 value) ENumber.

(** ** Keys and signatures *)

Section Text.
Context {LS : LeanSig} {HX : Hex}.

Definition to_0x (bs : bytes) : string := ("0x" +:+ hex_encode bs)%string.

Definition from_0x {T} (new : bytes -> outcome T) (s : string) : outcome T :=
  bs ← ok_or (hex_decode (strip_0x s)) EHex; new bs.

Definition PublicKey_to_string (k : PublicKey) : string := to_0x (pk_bytes k).
Definition PublicKey_from_str (s : string) : outcome PublicKey := from_0x PublicKey_new s.

Definition Signature_to_string (s : Signature) : string := to_0x (sig_bytes s).
Definition Signature_from_str (s : string) : outcome Signature := from_0x Signature_new s.

Definition AggregatedSignature_to_string (a : AggregatedSignature) : string := to_0x (agg_bytes a).
Definition AggregatedSignature_from_str (s : string) : outcome AggregatedSignature :=
  from_0x AggregatedSignature_new s.

Definition AggregatedSignature_is_empty (a : AggregatedSignature) : bool :=
  match agg_bytes a with [] => true | _ => false end.

Definition SecretKey_from_lean (k : LeanSigSecretKey) : SecretKey := mkSecretKey (sk_to_bytes k).

(** [key_gen] is the scheme's generator with its source of randomness. *)
Definition generate_key_pair (key_gen : N -> N -> LeanSigPublicKey * LeanSigSecretKey)
    (activation_epoch num_active_epochs : N) : outcome (PublicKey * SecretKey) :=
  let '(public_key, secret_key) := key_gen activation_epoch num_active_epochs in
  public_key ← PublicKey_from_lean public_key;
  Ok (public_key, SecretKey_from_lean secret_key).

(** The SSZ form of a public key: its bytes, not checked to be a key. *)
Definition PublicKey_from_ssz_unchecked (bs : bytes) : outcome PublicKey :=
  if (length bs =? PublicKeySize)%nat then Ok (mkPublicKey bs) else Panic PUnwrap.

(** [copy_from_slice] panics on a buffer of another size. *)
Definition PublicKey_write_fixed (k : PublicKey) (buffer : bytes) : outcome bytes :=
  if (length buffer =? length (pk_bytes k))%nat then Ok (pk_bytes k) else Panic PSlice.

(** The JSON forms. *)
Definition PublicKey_serialize (k : PublicKey) : Json := JStr (PublicKey_to_string k).
Definition PublicKey_deserialize (j : Json) : outcome PublicKey :=
  s ← de_string j; PublicKey_from_str s.

Definition AggregatedSignature_serialize (a : AggregatedSignature) : Json :=
  JStr (AggregatedSignature_to_string a).
Definition AggregatedSignature_deserialize (j : Json) : outcome AggregatedSignature :=
  s ← de_data de_string j; AggregatedSignature_from_str s.

(** *** The structured form of a signature *)

Record XmssSignature := mkXmssSignature {
  xs_siblings : list (list N);
  xs_rho : list N;
  xs_hashes : list (list N)
}.

Definition XmssSignature_deserialize (j : Json) : outcome XmssSignature :=
  fields ← de_struct ["path"; "rho"; "hashes"]%string j;
  match fields with
  | [path; rho; hashes] =>
      path ← de_struct ["siblings"%string] path;
      siblings ← match path with
                 | [siblings] => de_data (de_vec (de_data (de_vec de_u32))) siblings
                 | _ => Err EJson
                 end;
      rho ← de_data (de_vec de_u32) rho;
      hashes ← de_data (de_vec (de_data (de_vec de_u32))) hashes;
      Ok (mkXmssSignature siblings rho hashes)
  | _ => Err EJson
  end.

(** [x as u32] *)
Definition to_u32 (x : N) : N := x `mod` 2 ^ 32.

Definition u32s_bytes (l : list N) : bytes := concat (le_bytes 4 <$> l).

(** The SSZ bytes the code writes out by hand. *)
Definition xmss_ssz_bytes (x : XmssSignature) : bytes :=
  let rho_bytes := u32s_bytes (xs_rho x) in
  let rho_len := N.of_nat (length rho_bytes) in
  let inner_offset := 4 in
  let path_bytes := le_bytes 4 inner_offset ++ concat (u32s_bytes <$> xs_siblings x) in
  let hashes_bytes := concat (u32s_bytes <$> xs_hashes x) in
  let fixed_part_size := 4 + rho_len + 4 in
  let offset_path := to_u32 fixed_part_size in
  let offset_hashes := to_u32 (offset_path + to_u32 (N.of_nat (length path_bytes))) in
  le_bytes 4 offset_path ++ rho_bytes ++ le_bytes 4 offset_hashes ++ path_bytes ++ hashes_bytes.

Definition Signature_serialize (s : Signature) : Json := JStr (Signature_to_string s).

Definition Signature_deserialize (j : Json) : outcome Signature :=
  xmss_sig ← XmssSignature_deserialize j;
  Signature_new (xmss_ssz_bytes xmss_sig).
End Text.

(** ** Bounded lists *)

Section Helpers.
Context {C : SszContainers} {HX : Hex} {BZ : BitListSsz}.

(** [bitlist::deserialize]: a string is tried before an array of booleans. *)
Definition bitlist_deserialize (limit : N) (j : Json) : outcome (list bool) :=
  de_data (fun data =>
    match data with
    | JStr hex_str =>
        let hex_str := trim_0x hex_str in
        match hex_str with
        | EmptyString => Ok []
        | _ => bs ← ok_or (hex_decode hex_str) EHex; bl_from_ssz bs
        end
    | _ =>
        bools ← de_vec de_bool data;
        bitlist ← or_panic (bl_with_length limit (len_u64 bools)) PAssert;
        Ok (foldl (fun l '(index, bit) => <[N.to_nat index := bit]> l) bitlist (enumerate bools))
    end) j.

Definition bitlist_serialize (value : list bool) : outcome Json :=
  bs ← bl_write value; Ok (ser_data (JStr ("0x" +:+ hex_encode bs)%string)).

(** [byte_list] *)
Definition byte_list_deserialize (limit : N) (j : Json) : outcome bytes :=
  data ← de_data de_string j;
  let hex_str := trim_0x data in
  match hex_str with
  | EmptyString => Ok []
  | _ => bs ← ok_or (hex_decode hex_str) EHex;
         if len_u64 bs <=? limit then Ok bs else Err ETooLarge
  end.

Definition byte_list_serialize (value : bytes) : Json := JStr ("0x" +:+ hex_encode value)%string.

(** [attestation_signatures] and [aggregated_attestations], with the reader of one
    element. *)
Definition attestation_signatures_deserialize
    (de_proof : Json -> outcome AggregatedSignatureProof) (j : Json)
    : outcome (list AggregatedSignatureProof) :=
  outer ← de_data (de_vec de_proof) j;
  push_all 4096 (Err EListPush) [] outer.

Definition attestation_signatures_serialize (_ : list AggregatedSignatureProof) : outcome Json :=
  Err ESerialize.

Definition aggregated_attestations_deserialize
    (de_attestation : Json -> outcome AggregatedAttestation) (j : Json)
    : outcome (list AggregatedAttestation) :=
  outer ← de_data (de_vec de_attestation) j;
  push_all 4096 (Err EListPush) [] outer.

Definition aggregated_attestations_serialize (_ : list AggregatedAttestation) : outcome Json :=
  Err ESerialize.
End Helpers.

(** ** The genesis file *)

Record GenesisConfig := mkGenesisConfig {
  gc_genesis_time : u64;
  gc_active_epoch : u64;
  gc_validator_count : u64;
  gc_genesis_validators : list string
}.

(** The keys of the genesis file; [main] stops at the first bad one. *)
Definition genesis_keys {LS : LeanSig} {HX : Hex} (config : GenesisConfig)
    : outcome (list PublicKey) :=
  mapM (fun v_str => match PublicKey_from_str v_str with
                     | Ok k => Ok k
                     | Err _ => Panic PUnwrap
                     | Panic p => Panic p
                     | Diverge => Diverge
                     end) (gc_genesis_validators config).

(** * Lemmas *)

(** ** Words *)

Lemma length_concat_const {A} (n : nat) (ls : list (list A)) :
  Forall (fun l => length l = n) ls -> length (concat ls) = (n * length ls)%nat.
Proof.
  induction 1 as [|l ls Hl _ IH]; cbn; [lia|]. rewrite length_app, Hl, IH. lia.
Qed.

Lemma length_u32s_bytes l : length (u32s_bytes l) = (4 * length l)%nat.
Proof.
  unfold u32s_bytes. rewrite (length_concat_const 4), length_fmap; [done|].
  apply Forall_fmap, Forall_true. intros x. apply length_le_bytes.
Qed.

(** Reading 32-bit words back. *)
Definition u32s_of (bs : bytes) : list N := of_le_bytes <$> chunks 4 bs.

Lemma u32s_of_bytes l : Forall (fun n => n < 2 ^ 32) l -> u32s_of (u32s_bytes l) = l.
Proof.
  intros Hl. unfold u32s_of, u32s_bytes. rewrite chunks_concat; [|lia|].
  - rewrite <-list_fmap_compose. rewrite <-(list_fmap_id l) at 2. apply list_fmap_ext.
    intros i x Hx. cbn -[le_bytes]. apply of_le_bytes_le. rewrite Forall_forall in Hl.
    by apply Hl, (list_elem_of_lookup_2 l i).
  - apply Forall_fmap, Forall_true. intros x. apply length_le_bytes.
Qed.

(** ** The layout of a signature *)

(** The reader of the SSZ container: an offset, the fixed part, an offset, and the
    two variable parts the offsets point to. *)
Definition xmss_of_ssz (bs : bytes) : XmssSignature :=
  let offset_path := N.to_nat (of_le_bytes (take 4 bs)) in
  let rho := take (offset_path - 8) (drop 4 bs) in
  let offset_hashes := N.to_nat (of_le_bytes (take 4 (drop (offset_path - 4) bs))) in
  let path := take (offset_hashes - offset_path) (drop offset_path bs) in
  let inner := N.to_nat (of_le_bytes (take 4 path)) in
  mkXmssSignature (u32s_of <$> chunks 32 (drop inner path)) (u32s_of rho)
    (u32s_of <$> chunks 32 (drop offset_hashes bs)).

(** A hash of the scheme: eight words. *)
Definition hash_words (h : list N) : Prop := length h = 8%nat /\ Forall (fun n => n < 2 ^ 32) h.

(** The shape of a signature of the scheme: seven words of randomness, a path of 32
    hashes, 64 chain hashes. *)
Record standard (x : XmssSignature) : Prop := {
  std_rho : length (xs_rho x) = 7%nat /\ Forall (fun n => n < 2 ^ 32) (xs_rho x);
  std_siblings : length (xs_siblings x) = 32%nat /\ Forall hash_words (xs_siblings x);
  std_hashes : length (xs_hashes x) = 64%nat /\ Forall hash_words (xs_hashes x)
}.

Lemma hash_rows (rows : list (list N)) :
  Forall hash_words rows -> Forall (fun r => length r = 32%nat) (u32s_bytes <$> rows).
Proof.
  intros H. apply Forall_fmap. eapply Forall_impl; [exact H|]. intros h [Hl _]. cbn.
  by rewrite length_u32s_bytes, Hl.
Qed.

Lemma hash_rows_read (rows : list (list N)) :
  Forall hash_words rows -> u32s_of <$> chunks 32 (concat (u32s_bytes <$> rows)) = rows.
Proof.
  intros H. rewrite chunks_concat; [|lia|by apply hash_rows].
  rewrite <-list_fmap_compose. rewrite <-(list_fmap_id rows) at 2. apply list_fmap_ext.
  intros i h Hh. cbn. apply u32s_of_bytes. rewrite Forall_forall in H.
  by apply H, (list_elem_of_lookup_2 rows i).
Qed.

(** The two offsets and the parts of the bytes. *)
Lemma xmss_ssz_parts x :
  standard x ->
  xmss_ssz_bytes x = le_bytes 4 36 ++ u32s_bytes (xs_rho x) ++ le_bytes 4 1064 ++
    (le_bytes 4 4 ++ concat (u32s_bytes <$> xs_siblings x)) ++ concat (u32s_bytes <$> xs_hashes x) /\
  length (u32s_bytes (xs_rho x)) = 28%nat /\
  length (concat (u32s_bytes <$> xs_siblings x)) = 1024%nat /\
  length (concat (u32s_bytes <$> xs_hashes x)) = 2048%nat.
Proof.
  intros [[Hr _] [Hs Hsw] [Hh Hhw]].
  assert (Lr : length (u32s_bytes (xs_rho x)) = 28%nat) by (by rewrite length_u32s_bytes, Hr).
  assert (Ls : length (concat (u32s_bytes <$> xs_siblings x)) = 1024%nat)
    by (rewrite (length_concat_const 32), length_fmap, Hs by (by apply hash_rows); done).
  assert (Lh : length (concat (u32s_bytes <$> xs_hashes x)) = 2048%nat)
    by (rewrite (length_concat_const 32), length_fmap, Hh by (by apply hash_rows); done).
  split; [|done]. unfold xmss_ssz_bytes. rewrite length_app, length_le_bytes, Lr, Ls. done.
Qed.

Lemma xmss_ssz_length x : standard x -> length (xmss_ssz_bytes x) = SignatureSize.
Proof.
  intros (-> & Lr & Ls & Lh)%xmss_ssz_parts.
  by rewrite !length_app, !length_le_bytes, Lr, Ls, Lh.
Qed.

Lemma word_at (n : N) (rest : bytes) : n < 2 ^ 32 -> of_le_bytes (take 4 (le_bytes 4 n ++ rest)) = n.
Proof.
  intros Hn. rewrite take_app_length' by (by rewrite length_le_bytes). by apply of_le_bytes_le.
Qed.

Lemma xmss_of_ssz_bytes x : standard x -> xmss_of_ssz (xmss_ssz_bytes x) = x.
Proof.
  intros Hx. pose proof (xmss_ssz_parts x Hx) as (-> & Lr & Ls & Lh).
  set (rho := u32s_bytes (xs_rho x)) in *. set (sib := concat (u32s_bytes <$> xs_siblings x)) in *.
  set (hs := concat (u32s_bytes <$> xs_hashes x)) in *.
  set (w := le_bytes 4 36 ++ _).
  assert (W0 : of_le_bytes (take 4 w) = 36) by (by apply word_at).
  assert (D4 : drop 4 w = rho ++ le_bytes 4 1064 ++ (le_bytes 4 4 ++ sib) ++ hs)
    by (unfold w; by rewrite drop_app_length' by (by rewrite length_le_bytes)).
  assert (D32 : drop 32 w = le_bytes 4 1064 ++ (le_bytes 4 4 ++ sib) ++ hs)
    by (change 32%nat with (4 + 28)%nat; by rewrite <-drop_drop, D4, drop_app_length').
  assert (D36 : drop 36 w = (le_bytes 4 4 ++ sib) ++ hs).
  { change 36%nat with (32 + 4)%nat. rewrite <-drop_drop, D32.
    by rewrite drop_app_length' by (by rewrite length_le_bytes). }
  assert (Lp : length (le_bytes 4 4 ++ sib) = 1028%nat)
    by (by rewrite length_app, length_le_bytes, Ls).
  assert (Dh : drop 1064 w = hs)
    by (change 1064%nat with (36 + 1028)%nat; by rewrite <-drop_drop, D36, drop_app_length').
  unfold xmss_of_ssz. rewrite W0. change (N.to_nat 36) with 36%nat.
  change (36 - 8)%nat with 28%nat. change (36 - 4)%nat with 32%nat.
  rewrite D32, D36, D4, word_at by done. change (N.to_nat 1064) with 1064%nat.
  change (1064 - 36)%nat with 1028%nat. rewrite Dh, !take_app_length' by done.
  rewrite (of_le_bytes_le 4 4) by done. change (N.to_nat 4) with 4%nat.
  rewrite drop_app_length' by (by rewrite length_le_bytes).
  destruct Hx as [[_ Hr] [_ Hs] [_ Hh]]. unfold sib, hs, rho.
  rewrite !hash_rows_read, u32s_of_bytes by done. by destruct x.
Qed.

(** ** JSON *)

(** The structured form a signature has in the test vectors. *)
Definition json_u32s (l : list N) : Json := ser_data (JArr (JNum <$> l)).

Definition json_of_xmss (x : XmssSignature) : Json :=
  JObj [("path", JObj [("siblings", ser_data (JArr (json_u32s <$> xs_siblings x)))]);
        ("rho", json_u32s (xs_rho x));
        ("hashes", ser_data (JArr (json_u32s <$> xs_hashes x)))]%string.

Lemma de_data_ser {T} (de : Json -> outcome T) j : de_data de (ser_data j) = de j.
Proof. done. Qed.

Lemma de_vec_fmap {A T} (de : Json -> outcome T) (f : A -> Json) (g : A -> T) l :
  (forall a, a ∈ l -> de (f a) = Ok (g a)) -> de_vec de (JArr (f <$> l)) = Ok (g <$> l).
Proof.
  intros H. cbn [de_vec]. apply mapM_Ok, Forall2_fmap, Forall_Forall2_diag, Forall_forall.
  intros a Ha. by apply H.
Qed.

Lemma de_u32s l :
  Forall (fun n => n < 2 ^ 32) l -> de_data (de_vec de_u32) (json_u32s l) = Ok l.
Proof.
  intros Hl. unfold json_u32s. rewrite de_data_ser, (de_vec_fmap de_u32 JNum id), list_fmap_id;
    [done|]. intros n Hn. rewrite Forall_forall in Hl. cbn [de_u32].
  by rewrite (proj2 (N.ltb_lt _ _) (Hl n Hn)).
Qed.

Lemma de_hashes rows :
  Forall hash_words rows ->
  de_data (de_vec (de_data (de_vec de_u32))) (ser_data (JArr (json_u32s <$> rows))) = Ok rows.
Proof.
  intros H. rewrite de_data_ser, (de_vec_fmap _ json_u32s id), list_fmap_id; [done|].
  intros h Hh. rewrite Forall_forall in H. apply de_u32s, H. done.
Qed.

Lemma XmssSignature_json x : standard x -> XmssSignature_deserialize (json_of_xmss x) = Ok x.
Proof.
  intros [[_ Hr] [_ Hs] [_ Hh]].
  pose proof (de_hashes _ Hs) as Es. pose proof (de_hashes _ Hh) as Eh. pose proof (de_u32s _ Hr) as Er.
  unfold XmssSignature_deserialize, json_of_xmss.
  set (js := ser_data (JArr (json_u32s <$> xs_siblings x))) in *.
  set (jh := ser_data (JArr (json_u32s <$> xs_hashes x))) in *. set (jr := json_u32s (xs_rho x)) in *.
  replace (de_struct _ (JObj _)) with (Ok [JObj [("siblings"%string, js)]; jr; jh]) by reflexivity.
  cbn [mbind outcome_bind].
  replace (de_struct _ (JObj _)) with (Ok [js]) by reflexivity. cbn [mbind outcome_bind].
  rewrite Es, Er, Eh. cbn. by destruct x.
Qed.

Section TextLemmas.
Context {LS : LeanSig} {HX : Hex} {HHX : HexLaws HX}.

Lemma strip_to_0x bs : strip_0x (to_0x bs) = hex_encode bs.
Proof. done. Qed.

(** Hexadecimal text does not begin like a prefix. *)
Lemma hex_not_prefixed bs s : hex_encode bs <> String "0" (String "x" s).
Proof.
  intros E. apply (hex_no_x bs). rewrite E. cbn. right. left.
Qed.

Lemma not_prefixed_id s :
  (forall s', s <> String "0" (String "x" s')) -> strip_0x s = s /\ trim_0x s = s.
Proof.
  intros Hn. destruct s as [|c s]; [done|].
  destruct c as [[] [] [] [] [] [] [] []]; try done. destruct s as [|c s]; [done|].
  destruct c as [[] [] [] [] [] [] [] []]; try done. by destruct (Hn s).
Qed.

Lemma strip_hex bs : strip_0x (hex_encode bs) = hex_encode bs.
Proof. apply not_prefixed_id. intros s. apply hex_not_prefixed. Qed.

Lemma trim_hex bs : trim_0x (to_0x bs) = hex_encode bs.
Proof.
  change (trim_0x (to_0x bs)) with (trim_0x (hex_encode bs)).
  apply not_prefixed_id. intros s. apply hex_not_prefixed.
Qed.

Lemma from_to_0x {T} (new : bytes -> outcome T) bs :
  from_0x new (to_0x bs) = new bs /\ from_0x new (hex_encode bs) = new bs.
Proof. unfold from_0x. by rewrite strip_to_0x, strip_hex, hex_roundtrip. Qed.

Lemma PublicKey_new_bytes bs k : PublicKey_new bs = Ok k -> pk_bytes k = bs.
Proof. unfold PublicKey_new. intros H. ok_inv. case_decide; ok_inv. by subst k. Qed.

Lemma Signature_new_bytes bs k : Signature_new bs = Ok k -> sig_bytes k = bs.
Proof. unfold Signature_new. intros H. ok_inv. case_decide; ok_inv. by subst k. Qed.

Lemma AggregatedSignature_new_bytes bs k : AggregatedSignature_new bs = Ok k -> agg_bytes k = bs.
Proof. unfold AggregatedSignature_new. intros H. ok_inv. by subst k. Qed.

(** The text of a public key, a signature or an aggregated signature, with or
    without its prefix, is read back as the same value, and so is the JSON form of a
    public key. *)
Theorem text_roundtrip bs :
  (forall k, PublicKey_new bs = Ok k ->
     PublicKey_from_str (PublicKey_to_string k) = Ok k /\
     PublicKey_from_str (hex_encode (pk_bytes k)) = Ok k /\
     PublicKey_deserialize (PublicKey_serialize k) = Ok k) /\
  (forall s, Signature_new bs = Ok s ->
     Signature_from_str (Signature_to_string s) = Ok s /\
     Signature_from_str (hex_encode (sig_bytes s)) = Ok s) /\
  (forall a, AggregatedSignature_new bs = Ok a ->
     AggregatedSignature_from_str (AggregatedSignature_to_string a) = Ok a /\
     AggregatedSignature_from_str (hex_encode (agg_bytes a)) = Ok a).
Proof.
  split; [|split]; intros k Hk.
  - pose proof (PublicKey_new_bytes _ _ Hk) as E. destruct (from_to_0x PublicKey_new bs) as [E1 E2].
    unfold PublicKey_deserialize, PublicKey_serialize, PublicKey_from_str, PublicKey_to_string.
    cbn [de_string mbind outcome_bind]. by rewrite E, E1, E2.
  - pose proof (Signature_new_bytes _ _ Hk) as E. destruct (from_to_0x Signature_new bs) as [E1 E2].
    unfold Signature_from_str, Signature_to_string. by rewrite E, E1, E2.
  - pose proof (AggregatedSignature_new_bytes _ _ Hk) as E.
    destruct (from_to_0x AggregatedSignature_new bs) as [E1 E2].
    unfold AggregatedSignature_from_str, AggregatedSignature_to_string. by rewrite E, E1, E2.
Qed.

(** C37: the structured JSON form of a signature of the scheme becomes exactly the
    3112 bytes of its SSZ container, from which offsets and parts are read back as
    they were; the signature library decides on these bytes, and nothing panics. *)
Theorem signature_json_layout x :
  standard x ->
  length (xmss_ssz_bytes x) = SignatureSize /\ xmss_of_ssz (xmss_ssz_bytes x) = x /\
  Signature_deserialize (json_of_xmss x) =
    match sig_from_bytes (xmss_ssz_bytes x) with
    | Some _ => Ok (mkSignature (xmss_ssz_bytes x))
    | None => Err EDecode
    end.
Proof.
  intros Hx. pose proof (xmss_ssz_length x Hx) as Hl. split; [done|].
  split; [by apply xmss_of_ssz_bytes|]. unfold Signature_deserialize.
  rewrite XmssSignature_json by done. cbn [mbind outcome_bind]. unfold Signature_new.
  destruct (sig_from_bytes (xmss_ssz_bytes x)); cbn [ok_or mbind outcome_bind]; [|done].
  by rewrite decide_True.
Qed.

(** The keys of a genesis file written with the text form. *)
Lemma genesis_keys_text t e c ks :
  Forall (fun k => PublicKey_new (pk_bytes k) = Ok k) ks ->
  genesis_keys (mkGenesisConfig t e c (PublicKey_to_string <$> ks)) = Ok ks.
Proof.
  intros Hks. unfold genesis_keys. cbn.
  apply mapM_Ok, Forall2_fmap_l, Forall_Forall2_diag. eapply Forall_impl; [exact Hks|].
  intros k Hk. cbn. unfold PublicKey_from_str, PublicKey_to_string.
  destruct (from_to_0x PublicKey_new (pk_bytes k)) as [-> _]. by rewrite Hk.
Qed.
End TextLemmas.

Section HelperLemmas.
Context {C : SszContainers} {HC : SszContainersLaws C} {HX : Hex} {HHX : HexLaws HX}.
Context {BZ : BitListSsz} {HBZ : BitListSszLaws BZ}.

Lemma set_each (pre post bits : list bool) :
  length post = length bits ->
  foldl (fun l '(index, bit) => <[N.to_nat index := bit]> l) (pre ++ post)
    (enumerate_from (N.of_nat (length pre)) bits) = pre ++ bits.
Proof.
  revert pre post. induction bits as [|b bits IH]; intros pre [|x post] Hl; try done.
  cbn [enumerate_from foldl]. rewrite Nat2N.id, insert_app_r_alt by done.
  rewrite Nat.sub_diag. cbn [insert list_insert].
  replace (pre ++ b :: post) with ((pre ++ [b]) ++ post) by (by rewrite <-app_assoc).
  replace (N.succ (N.of_nat (length pre))) with (N.of_nat (length (pre ++ [b])))
    by (rewrite length_app; cbn; lia).
  rewrite IH by (cbn in Hl; lia). by rewrite <-app_assoc.
Qed.

(** A bit list within its limit is read back from the hexadecimal form the code
    writes and from the array form of the test vectors. *)
Theorem bitlist_json_roundtrip limit (l : list bool) :
  len_u64 l <= limit ->
  (forall j, bitlist_serialize l = Ok j -> bitlist_deserialize limit j = Ok l) /\
  bitlist_deserialize limit (ser_data (JArr (JBool <$> l))) = Ok l.
Proof.
  intros Hl. split.
  - unfold bitlist_serialize. intros j (bs & Hbs & [= <-])%bind_Ok.
    unfold bitlist_deserialize. rewrite de_data_ser. fold (to_0x bs). rewrite trim_hex.
    pose proof (hex_nonempty bs (bl_nonempty _ _ Hbs)) as Hne.
    destruct (hex_encode bs) as [|c s] eqn:E; [done|].
    rewrite <-E, hex_roundtrip. cbn. by apply bl_roundtrip.
  - unfold bitlist_deserialize. rewrite de_data_ser.
    rewrite (de_vec_fmap de_bool JBool id), list_fmap_id by done. cbn [mbind outcome_bind].
    rewrite bl_with_length_law by done. cbn [or_panic mbind outcome_bind]. f_equal.
    apply (set_each []). rewrite length_replicate. unfold len_u64. lia.
Qed.

(** A byte list is read back from its hexadecimal text only inside a wrapper that
    [serialize] does not write. *)
Lemma byte_list_wrapped limit v :
  len_u64 v <= limit -> byte_list_deserialize limit (ser_data (byte_list_serialize v)) = Ok v.
Proof.
  intros Hv. unfold byte_list_deserialize. rewrite de_data_ser. cbn [byte_list_serialize de_string].
  cbn [mbind outcome_bind]. fold (to_0x v). rewrite trim_hex.
  destruct (decide (v = [])) as [->|Hne].
  - pose proof (hex_roundtrip []) as Hr. destruct (hex_encode []) as [|c s] eqn:E; [done|].
    rewrite Hr. cbn. by rewrite (proj2 (N.leb_le _ _) Hv).
  - pose proof (hex_nonempty v Hne) as Hn. pose proof (hex_roundtrip v) as Hr.
    destruct (hex_encode v) as [|c s]; [done|]. rewrite Hr. cbn [ok_or mbind outcome_bind].
    by rewrite (proj2 (N.leb_le _ _) Hv).
Qed.

(** No value of these types is read back from what [serialize] writes. *)
Lemma json_not_read_back {LS : LeanSig} limit v sig agg :
  byte_list_deserialize limit (byte_list_serialize v) = Err EJson /\
  Signature_deserialize (Signature_serialize sig) = Err EJson /\
  AggregatedSignature_deserialize (AggregatedSignature_serialize agg) = Err EJson.
Proof. done. Qed.

(** A list of proofs or attestations is read exactly when every element is and the
    list is within 4096 elements. *)
Lemma attestation_signatures_read de_proof j l :
  attestation_signatures_deserialize de_proof j = Ok l <->
  de_data (de_vec de_proof) j = Ok l /\ len_u64 l <= 4096.
Proof.
  unfold attestation_signatures_deserialize. split.
  - intros (o & Ho & Hp)%bind_Ok. pose proof Hp as Hp'.
    apply push_all_inv in Hp as ->; [|done]. split; [done|].
    eapply push_all_len; [..|exact Hp']; [done|]. unfold len_u64. cbn. lia.
  - intros [-> Hl]. cbn [mbind outcome_bind]. rewrite push_all_Ok; [done|].
    unfold len_u64 in *. cbn. lia.
Qed.
End HelperLemmas.

(** A public key is read back from the buffer it was written to. *)
Lemma public_key_ssz_roundtrip k buffer bs :
  length (pk_bytes k) = PublicKeySize ->
  PublicKey_write_fixed k buffer = Ok bs -> PublicKey_from_ssz_unchecked bs = Ok k.
Proof.
  unfold PublicKey_write_fixed, PublicKey_from_ssz_unchecked. intros Hk.
  destruct (_ =? _)%nat; [|done]. intros <-%Ok_inj. rewrite Hk, Nat.eqb_refl. by destruct k.
Qed.

(** ** Quoted integers *)

Lemma digit_pretty d : d < 10 -> digit (pretty_N_char d) = Some d.
Proof.
  intros Hd. assert (H : forall k, (k < 10)%nat -> digit (pretty_N_char (N.of_nat k)) = Some (N.of_nat k))
    by (intros k Hk; do 10 (destruct k as [|k]; [reflexivity|]); lia).
  rewrite <-(N2Nat.id d). apply H. lia.
Qed.

(** Reading a number's digits continues with what follows them. *)
Lemma parse_pretty_go x s :
  x < u64_modulus -> parse_digits 0 (pretty_N_go x s) = parse_digits x s.
Proof.
  revert s. induction (N.lt_wf_0 x) as [x _ IH]. intros s Hx.
  destruct (N.eq_dec x 0) as [->|Hne]; [done|].
  rewrite pretty_N_go_step by lia. pose proof (N.mod_lt x 10) as Hm.
  assert (Hdiv : x = 10 * (x / 10) + x `mod` 10) by (apply N.div_mod; done).
  assert (Hlt : x / 10 < x) by (apply N.div_lt; lia).
  rewrite IH by lia. cbn [parse_digits]. rewrite digit_pretty by lia.
  rewrite <-Hdiv. by rewrite (proj2 (N.ltb_lt _ _) Hx).
Qed.

Lemma parse_u64_pretty x : x < u64_modulus -> parse_u64 (pretty x) = Some x.
Proof.
  intros Hx. destruct (N.eq_dec x 0) as [->|Hne]; [done|].
  pose proof (parse_pretty_go x EmptyString Hx) as H.
  unfold pretty, pretty_N. case_decide; [done|]. cbn [parse_digits] in H.
  destruct (pretty_N_go x EmptyString) as [|c s] eqn:E; [by injection H|].
  unfold parse_u64. destruct c as [[] [] [] [] [] [] [] []]; done.
Qed.

Lemma quoted_u64_roundtrip x :
  is_u64 x -> quoted_u64_deserialize (quoted_u64_serialize x) = Ok x.
Proof.
  intros Hx. unfold quoted_u64_deserialize, quoted_u64_serialize. cbn [de_string mbind outcome_bind].
  by rewrite parse_u64_pretty.
Qed.

(** * Concrete encodings *)

Module ToyHex.

Definition nibble_char (n : N) : ascii :=
  ascii_of_N (if n <? 10 then 48 + n else 87 + n).

Definition char_nibble (c : ascii) : option N :=
  let n := N_of_ascii c in
  if (48 <=? n) && (n <=? 57) then Some (n - 48)
  else if (97 <=? n) && (n <=? 102) then Some (n - 87) else None.

Fixpoint encode (bs : bytes) : string :=
  match bs with
  | [] => EmptyString
  | b :: bs => String (nibble_char (Byte.to_N b / 16))
                 (String (nibble_char (Byte.to_N b `mod` 16)) (encode bs))
  end.

Fixpoint decode (s : string) : option bytes :=
  match s with
  | EmptyString => Some []
  | String c (String d s) =>
      match char_nibble c, char_nibble d, decode s with
      | Some h, Some l, Some bs => Some (byte_of (16 * h + l) :: bs)
      | _, _, _ => None
      end
  | _ => None
  end.

#[export] Instance toy_hex : Hex := {| hex_encode := encode; hex_decode := decode |}.

#[export] Instance toy_hex_laws : HexLaws toy_hex.
Proof.
  split; cbn [hex_encode hex_decode toy_hex].
  - induction bs as [|b bs IH]; [done|]. cbn [encode decode]. rewrite IH. by destruct b.
  - induction bs as [|b bs IH]; [apply not_elem_of_nil|]. cbn [encode list_ascii_of_string].
    rewrite !not_elem_of_cons. split; [|split; [|done]]; by destruct b.
  - by intros [|b bs].
Qed.

(** Bit lists with their bits as bytes, and a delimiter. *)
#[export] Instance toy_bits : BitListSsz := {|
  bl_write := fun l => Ok (((fun b : bool => if b then x01 else x00) <$> l) ++ [x2a]);
  bl_from_ssz := fun bs =>
    Ok ((fun b => match b with x01 => true | _ => false end) <$> take (length bs - 1) bs)
|}.

#[export] Instance toy_bits_laws : BitListSszLaws toy_bits.
Proof.
  split; cbn [bl_write bl_from_ssz toy_bits]; intros l bs [= <-].
  - rewrite length_app, length_fmap. cbn [length]. rewrite Nat.add_sub.
    rewrite take_app_length' by (by rewrite length_fmap). rewrite <-list_fmap_compose. f_equal.
    rewrite <-(list_fmap_id l) at 2. apply list_fmap_ext. by intros ? [].
  - by destruct l.
Qed.
End ToyHex.

Section Concrete.
Import Toy ToyHex.

Definition toy_xmss : XmssSignature :=
  mkXmssSignature (replicate 32 [1; 2; 3; 4; 5; 6; 7; 8]) [10; 20; 30; 40; 50; 60; 2 ^ 32 - 1]
    (replicate 64 [8; 7; 6; 5; 4; 3; 2; 1]).

Lemma toy_xmss_standard : standard toy_xmss.
Proof.
  split; (split; [reflexivity|]).
  - repeat constructor.
  - apply Forall_replicate. split; [reflexivity|repeat constructor].
  - apply Forall_replicate. split; [reflexivity|repeat constructor].
Qed.

Lemma signature_json_layout_witness :
  length (xmss_ssz_bytes toy_xmss) = SignatureSize /\
  xmss_of_ssz (xmss_ssz_bytes toy_xmss) = toy_xmss /\
  Signature_deserialize (json_of_xmss toy_xmss) = Ok (mkSignature (xmss_ssz_bytes toy_xmss)).
Proof.
  destruct (signature_json_layout toy_xmss toy_xmss_standard) as (H1 & H2 & H3).
  split; [exact H1|]. split; [exact H2|]. rewrite H3. reflexivity.
Defined.

(** A key whose text is read back. *)
Definition toy_key : PublicKey := mkPublicKey (replicate 52 xab).

Lemma text_roundtrip_witness :
  PublicKey_from_str (PublicKey_to_string toy_key) = Ok toy_key /\
  PublicKey_from_str (hex_encode (pk_bytes toy_key)) = Ok toy_key /\
  PublicKey_deserialize (PublicKey_serialize toy_key) = Ok toy_key.
Proof. apply (text_roundtrip (replicate 52 xab)). vm_compute. reflexivity. Defined.

Lemma bitlist_json_roundtrip_witness :
  (forall j, bitlist_serialize [true; false; true] = Ok j ->
     bitlist_deserialize 4096 j = Ok [true; false; true]) /\
  bitlist_deserialize 4096 (ser_data (JArr [JBool true; JBool false; JBool true])) =
    Ok [true; false; true].
Proof. apply (bitlist_json_roundtrip 4096 [true; false; true]). vm_compute. discriminate. Defined.

(** A genesis file with one key and a short one. *)
Example bad_genesis_key_panics :
  genesis_keys (mkGenesisConfig 0 0 2 [PublicKey_to_string toy_key; "0xzz"%string]) = Panic PUnwrap.
Proof. vm_compute. reflexivity. Qed.
End Concrete.
