(* ===== verification/Discovery.v ===== *)
(** * Node records and discovery

    [networking/src/enr_ext.rs], [networking/src/discovery/mod.rs] and
    [networking/src/discovery/config.rs]: the addresses of an Ethereum node record
    (ENR), the node's own record, its keys, and the discovery service.  libp2p, discv5
    and the ENR library are the class [Libp2p]: addresses, keys, records and their
    getters; the laws the client relies on are [Libp2pLaws]. *)

From Stdlib Require Import Strings.Byte Strings.String.
From stdpp Require Import strings.
From S2P Require Import Prelude Ssz Xmss Bytes.

#[local] Open Scope N_scope.

(** [PeerId]: compared and hashed only. *)
Abbreviation PeerId := N (only parsing).

Inductive IpAddr :=
  | V4 (ip : N)
  | V6 (ip : N).

(** The protocols of an address that the client looks at. *)
Inductive Protocol :=
  | Ip4 (ip : N)
  | Ip6 (ip : N)
  | Tcp (port : N)
  | Udp (port : N)
  | QuicV1
  | P2p (peer_id : PeerId)
  | OtherProtocol (code : N).

#[export] Instance IpAddr_eq_dec : EqDecision IpAddr.
Proof. solve_decision. Defined.

#[export] Instance Protocol_eq_dec : EqDecision Protocol.
Proof. solve_decision. Defined.

Definition as_p2p (p : Protocol) : option PeerId :=
  match p with P2p peer_id => Some peer_id | _ => None end.

Definition ip_protocol (ip : IpAddr) : Protocol :=
  match ip with V4 ip => Ip4 ip | V6 ip => Ip6 ip end.

Inductive KeyType := Ed25519 | RSA | Secp256k1 | Ecdsa.

(** [CombinedPublicKey]: the bytes of the key. *)
Inductive CombinedPublicKey :=
  | PkSecp256k1 (sec1_bytes : bytes)
  | PkEd25519 (pk_bytes : bytes).

(** [EnrBuilder]: the fields the client sets. *)
Record EnrBuilder := mkEnrBuilder {
  eb_ip4 : option N;
  eb_udp4 : option N;
  eb_tcp4 : option N;
  eb_ip6 : option N;
  eb_udp6 : option N;
  eb_tcp6 : option N
}.

Definition EnrBuilder_default : EnrBuilder := mkEnrBuilder None None None None None None.

Class Libp2p := {
  (** addresses *)
  Multiaddr : Type;
  addr_from_ip : IpAddr -> Multiaddr;
  addr_push : Multiaddr -> Protocol -> Multiaddr;
  addr_iter : Multiaddr -> list Protocol;
  parse_multiaddr : string -> option Multiaddr;
  (** keys: secret bytes of a libp2p key pair, signing keys, public keys, peers *)
  Keypair : Type;
  key_type : Keypair -> KeyType;
  keypair_peer_id : Keypair -> PeerId;
  secp256k1_secret : Keypair -> option bytes;
  ed25519_bytes : Keypair -> option bytes;
  secp256k1_keypair : bytes -> option Keypair;
  SecpSigningKey : Type;
  EdSigningKey : Type;
  secp_signing_key : bytes -> option SecpSigningKey;
  ed_signing_key : bytes -> EdSigningKey;
  secp_public : SecpSigningKey -> bytes;
  ed_public : EdSigningKey -> bytes;
  secp256k1_peer_id : bytes -> option PeerId;
  ed25519_peer_id : bytes -> option PeerId;
  (** a libp2p public key inside a peer identifier, and the node identifier *)
  peer_id_bytes : PeerId -> bytes;
  decode_protobuf : bytes -> option (KeyType * bytes);
  keccak256 : bytes -> bytes;
  (** records *)
  Enr : Type;
  ip4 : Enr -> option N;
  udp4 : Enr -> option N;
  tcp4 : Enr -> option N;
  ip6 : Enr -> option N;
  udp6 : Enr -> option N;
  tcp6 : Enr -> option N;
  get_decodable : Enr -> string -> option (option N);
  enr_public_key : Enr -> CombinedPublicKey;
  parse_enr_str : string -> option Enr;
  enr_build_secp : EnrBuilder -> SecpSigningKey -> option Enr;
  enr_build_ed : EnrBuilder -> EdSigningKey -> option Enr
}.

(** Addresses are built up protocol by protocol; a record has the fields it was built
    with, no others, and the public key of its signing key; a key pair and the signing
    key made from its secret have the same public key, hence the same peer. *)
Class Libp2pLaws (LP : Libp2p) : Prop := {
  addr_iter_ip : forall ip, addr_iter (addr_from_ip ip) = [ip_protocol ip];
  addr_iter_push : forall a p, addr_iter (addr_push a p) = addr_iter a ++ [p];
  enr_built_secp : forall b k e, enr_build_secp b k = Some e ->
    ip4 e = eb_ip4 b /\ udp4 e = eb_udp4 b /\ tcp4 e = eb_tcp4 b /\
    ip6 e = eb_ip6 b /\ udp6 e = eb_udp6 b /\ tcp6 e = eb_tcp6 b /\
    (forall key, key <> "ip" -> key <> "udp" -> key <> "tcp" -> key <> "ip6" -> key <> "udp6" ->
       key <> "tcp6" -> get_decodable e key = None)%string /\
    enr_public_key e = PkSecp256k1 (secp_public k);
  secp_same_peer : forall kp secret k, secp256k1_secret kp = Some secret ->
    secp_signing_key secret = Some k ->
    secp256k1_peer_id (secp_public k) = Some (keypair_peer_id kp)
}.

Definition EUnsupportedKey : error := EExternal 50.
Definition EKeyConversion : error := EExternal 51.
Definition EEnrBuild : error := EExternal 52.
Definition EEnrParse : error := EExternal 53.
Definition EDiscv5 : error := EExternal 54.

Definition QUIC_ENR_KEY : string := "quic".
Definition QUIC6_ENR_KEY : string := "quic6".

Section Enr.
Context {LP : Libp2p}.

(** ** [enr_ext.rs] *)

Inductive CombinedKey :=
  | CkSecp256k1 (k : SecpSigningKey)
  | CkEd25519 (k : EdSigningKey).

Definition quic4 (e : Enr) : option N := mjoin (get_decodable e QUIC_ENR_KEY).
Definition quic6 (e : Enr) : option N := mjoin (get_decodable e QUIC6_ENR_KEY).

(** The first protocol, then the others in turn. *)
Definition addr (ip : IpAddr) (ps : list Protocol) : Multiaddr :=
  foldl addr_push (addr_from_ip ip) ps.

(** The addresses for one address family: [ip] and the given ports. *)
Definition addr_if (ip : option IpAddr) (port : option N) (ps : N -> list Protocol)
    : list Multiaddr :=
  match ip, port with
  | Some ip, Some port => [addr ip (ps port)]
  | _, _ => []
  end.

Definition multiaddr (e : Enr) : list Multiaddr :=
  let ip := V4 <$> ip4 e in
  let ip' := V6 <$> ip6 e in
  addr_if ip (udp4 e) (fun udp => [Udp udp]) ++
  addr_if ip (quic4 e) (fun quic => [Udp quic; QuicV1]) ++
  addr_if ip (tcp4 e) (fun tcp => [Tcp tcp]) ++
  addr_if ip' (udp6 e) (fun udp6 => [Udp udp6]) ++
  addr_if ip' (quic6 e) (fun quic6 => [Udp quic6; QuicV1]) ++
  addr_if ip' (tcp6 e) (fun tcp6 => [Tcp tcp6]).

Definition as_peer_id (k : CombinedPublicKey) : outcome PeerId :=
  match k with
  | PkSecp256k1 pk_bytes => or_panic (secp256k1_peer_id pk_bytes) PUnwrap
  | PkEd25519 pk_bytes => or_panic (ed25519_peer_id pk_bytes) PUnwrap
  end.

Definition enr_peer_id (e : Enr) : outcome PeerId := as_peer_id (enr_public_key e).

Definition multiaddr_p2p (e : Enr) : outcome (list Multiaddr) :=
  peer_id ← enr_peer_id e;
  let ip := V4 <$> ip4 e in
  let ip' := V6 <$> ip6 e in
  Ok (addr_if ip (udp4 e) (fun udp => [Udp udp; P2p peer_id]) ++
      addr_if ip (tcp4 e) (fun tcp => [Tcp tcp; P2p peer_id]) ++
      addr_if ip' (udp6 e) (fun udp6 => [Udp udp6; P2p peer_id]) ++
      addr_if ip' (tcp6 e) (fun tcp6 => [Tcp tcp6; P2p peer_id])).

Definition multiaddr_p2p_tcp (e : Enr) : outcome (list Multiaddr) :=
  peer_id ← enr_peer_id e;
  Ok (addr_if (V4 <$> ip4 e) (tcp4 e) (fun tcp => [Tcp tcp; P2p peer_id]) ++
      addr_if (V6 <$> ip6 e) (tcp6 e) (fun tcp6 => [Tcp tcp6; P2p peer_id])).

Definition multiaddr_p2p_udp (e : Enr) : outcome (list Multiaddr) :=
  peer_id ← enr_peer_id e;
  Ok (addr_if (V4 <$> ip4 e) (udp4 e) (fun udp => [Udp udp; P2p peer_id]) ++
      addr_if (V6 <$> ip6 e) (udp6 e) (fun udp6 => [Udp udp6; P2p peer_id])).

Definition multiaddr_quic (e : Enr) : outcome (list Multiaddr) :=
  peer_id ← enr_peer_id e;
  Ok (addr_if (V4 <$> ip4 e) (quic4 e) (fun quic => [Udp quic; QuicV1; P2p peer_id]) ++
      addr_if (V6 <$> ip6 e) (quic6 e) (fun quic6 => [Udp quic6; QuicV1; P2p peer_id])).

Definition multiaddr_tcp (e : Enr) : list Multiaddr :=
  addr_if (V4 <$> ip4 e) (tcp4 e) (fun tcp => [Tcp tcp]) ++
  addr_if (V6 <$> ip6 e) (tcp6 e) (fun tcp6 => [Tcp tcp6]).

Definition from_libp2p (key : Keypair) : outcome CombinedKey :=
  match key_type key with
  | Secp256k1 =>
      secret ← or_panic (secp256k1_secret key) PUnwrap;
      k ← or_panic (secp_signing_key secret) PUnwrap;
      Ok (CkSecp256k1 k)
  | Ed25519 =>
      bs ← or_panic (ed25519_bytes key) PUnwrap;
      _ ← assert_ (32 <=? length bs)%nat PIndex;
      Ok (CkEd25519 (ed_signing_key (take 32 bs)))
  | _ => Err EUnsupportedKey
  end.

(** [secret] is what [key.secret().to_bytes()] gives. *)
Definition from_secp256k1 (secret : bytes) : outcome CombinedKey :=
  k ← or_panic (secp_signing_key secret) PUnwrap; Ok (CkSecp256k1 k).

(** The node identifier as its 32 bytes; the decoded key comes uncompressed, with a
    leading byte for secp256k1. *)
Definition peer_id_to_node_id (peer_id : PeerId) : outcome bytes :=
  _ ← assert_ (2 <=? length (peer_id_bytes peer_id))%nat PIndex;
  '(key_type, pk) ← ok_or (decode_protobuf (drop 2 (peer_id_bytes peer_id))) EKeyConversion;
  match key_type with
  | Secp256k1 =>
      _ ← assert_ (1 <=? length pk)%nat PIndex;
      Ok (keccak256 (drop 1 pk))
  | Ed25519 => Ok (keccak256 pk)
  | _ => Err EUnsupportedKey
  end.

(** ** [discovery/config.rs] *)

Record DiscoveryConfig := mkDiscoveryConfig {
  dc_enabled : bool;
  dc_udp_port : N;
  dc_libp2p_port : N;
  dc_listen_address : IpAddr;
  dc_bootnodes : list Enr
}.

Definition DiscoveryConfig_new (listen_address : IpAddr) (udp_port libp2p_port : N)
    : DiscoveryConfig :=
  mkDiscoveryConfig true udp_port libp2p_port listen_address [].

Definition with_bootnodes (bootnodes : list Enr) (c : DiscoveryConfig) : DiscoveryConfig :=
  mkDiscoveryConfig (dc_enabled c) (dc_udp_port c) (dc_libp2p_port c) (dc_listen_address c) bootnodes.

Definition DiscoveryConfig_disabled : DiscoveryConfig := mkDiscoveryConfig false 0 0 (V4 0) [].

(** ** [discovery/mod.rs] *)

Definition keypair_to_enr_key (keypair : Keypair) : outcome CombinedKey :=
  match key_type keypair with
  | Secp256k1 =>
      secret_bytes ← ok_or (secp256k1_secret keypair) EKeyConversion;
      secret_key ← ok_or (secp_signing_key secret_bytes) EKeyConversion;
      Ok (CkSecp256k1 secret_key)
  | _ => Err EUnsupportedKey
  end.

Definition enr_build (b : EnrBuilder) (k : CombinedKey) : option Enr :=
  match k with CkSecp256k1 k => enr_build_secp b k | CkEd25519 k => enr_build_ed b k end.

Definition build_enr (key : CombinedKey) (ip : IpAddr) (udp_port libp2p_port : N) : outcome Enr :=
  let builder :=
    match ip with
    | V4 ipv4 => mkEnrBuilder (Some ipv4) (Some udp_port) (Some libp2p_port) None None None
    | V6 ipv6 => mkEnrBuilder None None None (Some ipv6) (Some udp_port) (Some libp2p_port)
    end in
  ok_or (enr_build builder key) EEnrBuild.

Definition enr_to_peer_id (e : Enr) : option PeerId :=
  match enr_public_key e with
  | PkSecp256k1 compressed => secp256k1_peer_id compressed
  | _ => None
  end.

(** [a.or_else(|| b)] *)
Definition or_else {A} (a b : option A) : option A := match a with Some _ => a | None => b end.

Definition enr_to_multiaddr (e : Enr) : option Multiaddr :=
  ip ← or_else (V4 <$> ip4 e) (V6 <$> ip6 e);
  libp2p_port ← or_else (or_else (or_else (tcp4 e) (tcp6 e)) (quic4 e)) (quic6 e);
  peer_id ← enr_to_peer_id e;
  Some (addr_push (addr_push (addr_push (addr_from_ip ip) (Udp libp2p_port)) QuicV1) (P2p peer_id)).

Definition parse_enr (enr_str : string) : outcome Enr := ok_or (parse_enr_str enr_str) EEnrParse.

(** The events of discv5. *)
Inductive Discv5Event :=
  | DiscoveredEnr (e : Enr)
  | SocketUpdated
  | SessionEstablished (e : Enr)
  | TalkRequest
  | NodeInserted
  | OtherDiscv5Event.

(** The service: its record, the bootnodes discv5 accepted, and the events to come. *)
Record DiscoveryService := mkDiscoveryService {
  ds_local_enr : Enr;
  ds_known : list Enr;
  ds_events : list Discv5Event
}.

(** What discv5 answers: [Discv5::new], [add_enr], [start] and [event_stream]. *)
Record Discv5Env := mkDiscv5Env {
  d5_new : bool;
  d5_add : Enr -> bool;
  d5_start : bool;
  d5_events : option (list Discv5Event)
}.

Definition DiscoveryService_new (env : Discv5Env) (config : DiscoveryConfig) (keypair : Keypair)
    : outcome DiscoveryService :=
  enr_key ← keypair_to_enr_key keypair;
  local_enr ← build_enr enr_key (dc_listen_address config) (dc_udp_port config)
    (dc_libp2p_port config);
  _ ← ensure (d5_new env) EDiscv5;
  let known := filter (fun e => d5_add env e = true) (dc_bootnodes config) in
  _ ← ensure (d5_start env) EDiscv5;
  events ← ok_or (d5_events env) EDiscv5;
  Ok (mkDiscoveryService local_enr known events).

(** [recv]: skip to the next discovered record; the stream ends with [None]. *)
Fixpoint recv_event (events : list Discv5Event) : option Enr * list Discv5Event :=
  match events with
  | [] => (None, [])
  | DiscoveredEnr e :: events => (Some e, events)
  | _ :: events => recv_event events
  end.

Definition recv (d : DiscoveryService) : DiscoveryService * option Enr :=
  let '(r, events) := recv_event (ds_events d) in
  (mkDiscoveryService (ds_local_enr d) (ds_known d) events, r).
End Enr.

(** * Lemmas *)

Section Lemmas.
Context {LP : Libp2p} {HLP : Libp2pLaws LP}.

Lemma addr_iter_foldl a ps : addr_iter (foldl addr_push a ps) = addr_iter a ++ ps.
Proof.
  revert a. induction ps as [|p ps IH]; intros a; cbn; [by rewrite app_nil_r|].
  by rewrite IH, addr_iter_push, <-app_assoc.
Qed.

Lemma addr_iter_addr ip ps : addr_iter (addr ip ps) = ip_protocol ip :: ps.
Proof. unfold addr. by rewrite addr_iter_foldl, addr_iter_ip. Qed.

Lemma keypair_to_enr_key_inv kp key :
  keypair_to_enr_key kp = Ok key ->
  exists k, key = CkSecp256k1 k /\ secp256k1_peer_id (secp_public k) = Some (keypair_peer_id kp).
Proof.
  unfold keypair_to_enr_key. destruct (key_type kp); try done. intros H. ok_inv. subst key.
  eexists. split; [done|]. by eapply secp_same_peer.
Qed.

(** The address a node's own record stands for. *)
Lemma own_enr_address kp key ip udp port e :
  keypair_to_enr_key kp = Ok key -> build_enr key ip udp port = Ok e ->
  exists a, enr_to_multiaddr e = Some a /\
    addr_iter a = [ip_protocol ip; Udp port; QuicV1; P2p (keypair_peer_id kp)].
Proof.
  intros (k & -> & Hp)%keypair_to_enr_key_inv Hb. unfold build_enr in Hb. cbn [enr_build] in Hb.
  apply ok_or_Ok in Hb. apply enr_built_secp in Hb as (E1 & E2 & E3 & E4 & E5 & E6 & _ & Ek).
  unfold enr_to_multiaddr, enr_to_peer_id. rewrite E1, E3, E4, E6, Ek.
  destruct ip as [ip|ip]; cbn; rewrite Hp; (eexists; split; [done|]);
    by rewrite !addr_iter_push, addr_iter_ip.
Qed.

(** It has no entry for a QUIC port, which other clients look for. *)
Lemma own_enr_no_quic kp key ip udp port e :
  keypair_to_enr_key kp = Ok key -> build_enr key ip udp port = Ok e ->
  quic4 e = None /\ quic6 e = None /\ multiaddr_quic e = Ok [].
Proof.
  intros (k & -> & Hp)%keypair_to_enr_key_inv Hb. unfold build_enr in Hb. cbn [enr_build] in Hb.
  apply ok_or_Ok in Hb. apply enr_built_secp in Hb as (_ & _ & _ & _ & _ & _ & Hk & Ek).
  assert (Hq : quic4 e = None /\ quic6 e = None).
  { unfold quic4, quic6. by rewrite !Hk by done. }
  destruct Hq as [Q4 Q6]. split; [done|]. split; [done|]. unfold multiaddr_quic, enr_peer_id.
  rewrite Ek. cbn [as_peer_id]. rewrite Hp. cbn [or_panic mbind outcome_bind]. rewrite Q4, Q6.
  unfold addr_if. by repeat case_match.
Qed.

(** The addresses with the peer are those without, the peer appended, split by
    whether they use QUIC. *)
Lemma multiaddr_split e peer :
  enr_peer_id e = Ok peer ->
  exists l q, multiaddr_p2p e = Ok l /\ multiaddr_quic e = Ok q /\
    addr_iter <$> l = (fun ps => ps ++ [P2p peer]) <$>
      filter (fun ps => QuicV1 ∉ ps) (addr_iter <$> multiaddr e) /\
    addr_iter <$> q = (fun ps => ps ++ [P2p peer]) <$>
      filter (fun ps => QuicV1 ∈ ps) (addr_iter <$> multiaddr e).
Proof.
  intros Hp. unfold multiaddr_p2p, multiaddr_quic, multiaddr. rewrite Hp. cbn [mbind outcome_bind].
  eexists _, _. split; [done|]. split; [done|]. unfold addr_if.
  destruct (ip4 e) as [i|], (udp4 e), (quic4 e), (tcp4 e), (ip6 e) as [i'|], (udp6 e), (quic6 e), (tcp6 e);
    cbn [fmap option_fmap option_map app list_fmap]; rewrite ?addr_iter_addr; split; reflexivity.
Qed.

Lemma recv_event_spec events :
  (exists pre e post, events = pre ++ DiscoveredEnr e :: post /\
     (forall x, DiscoveredEnr x ∉ pre) /\ recv_event events = (Some e, post)) \/
  ((forall x, DiscoveredEnr x ∉ events) /\ recv_event events = (None, [])).
Proof.
  induction events as [|ev events IH]; [right; split; [intros x; apply not_elem_of_nil|done]|].
  destruct ev as [e| |e| | |];
    [left; exists [], e, events; split; [done|]; split; [intros x; apply not_elem_of_nil|done]|..];
    (destruct IH as [(pre & e' & post & -> & Hn & E)|[Hn E]];
      [left; eexists (_ :: pre), e', post; split; [done|]; split; [|done];
        intros x; by rewrite not_elem_of_cons
      |right; split; [intros x; by rewrite not_elem_of_cons|done]]).
Qed.

Lemma recv_event_first pre e post :
  (forall x, DiscoveredEnr x ∉ pre) ->
  recv_event (pre ++ DiscoveredEnr e :: post) = (Some e, post).
Proof.
  induction pre as [|ev pre IH]; intros Hp; [done|].
  assert (Hp' : forall x, DiscoveredEnr x ∉ pre) by (intros x H; apply (Hp x); by right).
  destruct ev as [x| | | | |]; cbn [app recv_event]; [|by apply IH..].
  destruct (Hp x). left.
Qed.

(** The record of a discovery service is the node's own. *)
Lemma DiscoveryService_new_enr env config kp d :
  DiscoveryService_new env config kp = Ok d ->
  exists key, keypair_to_enr_key kp = Ok key /\
    build_enr key (dc_listen_address config) (dc_udp_port config) (dc_libp2p_port config) =
      Ok (ds_local_enr d).
Proof. unfold DiscoveryService_new. intros H. ok_inv. subst d. eauto. Qed.
End Lemmas.

(** * A concrete library

    Addresses are their protocols, keys are numbers, a record is its fields. *)

Module ToyNode.

Record ToyEnr := mkToyEnr {
  te_fields : EnrBuilder;
  te_quic : option N;
  te_key : CombinedPublicKey
}.

#[export] Instance toy_libp2p : Libp2p := {|
  Multiaddr := list Protocol;
  addr_from_ip := fun ip => [ip_protocol ip];
  addr_push := fun a p => a ++ [p];
  addr_iter := fun a => a;
  parse_multiaddr := fun _ => None;
  Keypair := N;
  key_type := fun _ => Secp256k1;
  keypair_peer_id := fun kp => of_le_bytes (le_bytes 8 kp);
  secp256k1_secret := fun kp => Some (le_bytes 8 kp);
  ed25519_bytes := fun _ => None;
  secp256k1_keypair := fun bs => if (length bs =? 8)%nat then Some (of_le_bytes bs) else None;
  SecpSigningKey := N;
  EdSigningKey := unit;
  secp_signing_key := fun bs => if (length bs =? 8)%nat then Some (of_le_bytes bs) else None;
  ed_signing_key := fun _ => tt;
  secp_public := le_bytes 8;
  ed_public := fun _ => [];
  secp256k1_peer_id := fun bs => Some (of_le_bytes bs);
  ed25519_peer_id := fun _ => None;
  peer_id_bytes := fun p => x00 :: x25 :: le_bytes 8 p;
  decode_protobuf := fun bs => Some (Secp256k1, x04 :: bs);
  keccak256 := fun bs => take 32 (bs ++ replicate 32 x00);
  Enr := ToyEnr;
  ip4 := fun e => eb_ip4 (te_fields e);
  udp4 := fun e => eb_udp4 (te_fields e);
  tcp4 := fun e => eb_tcp4 (te_fields e);
  ip6 := fun e => eb_ip6 (te_fields e);
  udp6 := fun e => eb_udp6 (te_fields e);
  tcp6 := fun e => eb_tcp6 (te_fields e);
  get_decodable := fun e key => if String.eqb key "quic" then Some <$> te_quic e else None;
  enr_public_key := te_key;
  parse_enr_str := fun _ => None;
  enr_build_secp := fun b k => Some (mkToyEnr b None (PkSecp256k1 (le_bytes 8 k)));
  enr_build_ed := fun b _ => Some (mkToyEnr b None (PkEd25519 []))
|}.

#[export] Instance toy_libp2p_laws : Libp2pLaws toy_libp2p.
Proof.
  split; try done.
  - intros b k e [= <-]. do 6 (split; [done|]). split; [|done]. intros key. cbn. by case_match.
  - intros kp secret k. cbn [secp256k1_secret secp_signing_key secp256k1_peer_id secp_public
      keypair_peer_id toy_libp2p]. intros <-%(inj Some). rewrite length_le_bytes. cbn [Nat.eqb].
    intros <-%(inj Some). f_equal. apply (of_le_bytes_le 8).
    pose proof (of_le_bytes_bound (le_bytes 8 kp)) as H. by rewrite length_le_bytes in H.
Qed.

(** A record with an IPv4 address and ports for IPv6 only: the address mixes them. *)
Example address_mixes_families :
  enr_to_multiaddr (mkToyEnr (mkEnrBuilder (Some 10) None None (Some 77) None (Some 9000)) None
    (PkSecp256k1 (le_bytes 8 5))) = Some [Ip4 10; Udp 9000; QuicV1; P2p 5].
Proof. reflexivity. Qed.
End ToyNode.
