(* ===== verification/Metrics.v ===== *)
(** * Metrics and the HTTP server

    [metrics/src/metrics.rs], [metrics/src/helpers.rs], [metrics/src/server.rs] and
    [http_api/src]: the descriptors of the node's metrics, their registration, the
    operations that change them and the route that serves them.  The prometheus library
    is the class [Prometheus]: its state holds the values of all metrics and the default
    registry; a metric is a shared handle.  The laws are its documented checks. *)

From Stdlib Require Import Strings.Ascii Strings.String.
From stdpp Require Import strings.
From S2P Require Import Prelude Discovery.

#[local] Open Scope N_scope.

(** ** prometheus *)

Inductive MetricKind :=
  | GaugeVec | IntGauge | IntGaugeVec | IntCounter | IntCounterVec | Histogram.

(** A metric's options; buckets are in thousandths. *)
Record Desc := mkDesc {
  d_kind : MetricKind;
  d_name : string;
  d_help : string;
  d_labels : list string;
  d_buckets : list N
}.

#[export] Instance MetricKind_eq_dec : EqDecision MetricKind.
Proof. solve_decision. Defined.

#[export] Instance Desc_eq_dec : EqDecision Desc.
Proof. solve_decision. Defined.

Class Prometheus := {
  PromState : Type;
  Metric : Type;
  Metric_eq_dec :: EqDecision Metric;
  metric_desc : Metric -> Desc;
  (** the constructors, [Registry::register] on the default registry *)
  metric_new : Desc -> stM PromState Metric;
  register : Metric -> stM PromState unit;
  registered : PromState -> list Metric;
  (** whether [get_metric_with_label_values] finds or makes the child *)
  has_labels : Metric -> list string -> bool;
  counter_value : PromState -> Metric -> list string -> u64;
  counter_inc_by : Metric -> list string -> u64 -> PromState -> PromState;
  gauge_value : PromState -> Metric -> list string -> Z;
  gauge_set : Metric -> list string -> Z -> PromState -> PromState;
  (** the number of samples of a histogram; the sample, a duration, is left out *)
  sample_count : PromState -> Metric -> u64;
  observe : Metric -> PromState -> PromState;
  (** [TextEncoder::encode_utf8] of [gather()] *)
  encode_text : PromState -> option string
}.

Definition counter_inc {P : Prometheus} (m : Metric) (ls : list string) : PromState -> PromState :=
  counter_inc_by m ls 1.

Definition is_letter (c : ascii) : bool :=
  let n := N_of_ascii c in
  ((65 <=? n) && (n <=? 90)) || ((97 <=? n) && (n <=? 122)) || (n =? 95).

Definition is_digit (c : ascii) : bool :=
  let n := N_of_ascii c in (48 <=? n) && (n <=? 57).

Definition is_colon (c : ascii) : bool := N_of_ascii c =? 58.

(** [[a-zA-Z_:][a-zA-Z0-9_:]*] and [[a-zA-Z_][a-zA-Z0-9_]*] *)
Definition valid_metric_name (s : string) : bool :=
  match s with
  | EmptyString => false
  | String c s => (is_letter c || is_colon c) &&
      forallb (fun c => is_letter c || is_digit c || is_colon c) (list_ascii_of_string s)
  end.

Definition valid_label_name (s : string) : bool :=
  match s with
  | EmptyString => false
  | String c s => is_letter c && forallb (fun c => is_letter c || is_digit c) (list_ascii_of_string s)
  end.

Fixpoint ascending (l : list N) : bool :=
  match l with
  | x :: (y :: _) as l => (x <? y) && ascending l
  | _ => true
  end.

(** What prometheus checks when it makes a metric. *)
Definition valid_desc (d : Desc) : bool :=
  valid_metric_name (d_name d) && negb (String.eqb (d_help d) "") &&
  forallb valid_label_name (d_labels d) && bool_decide (NoDup (d_labels d)) &&
  bool_decide ("le" ∉ d_labels d)%string && ascending (d_buckets d).

Definition metric_name {P : Prometheus} (m : Metric) : string := d_name (metric_desc m).

(** A valid description makes a new metric, at zero; a name that the registry does not
    have yet is accepted, another one refused; label values are matched by their number;
    a change touches one child of one metric. *)
Class PrometheusLaws (P : Prometheus) : Prop := {
  metric_new_ok : forall d r, valid_desc d = true ->
    exists m r', metric_new d r = (r', Ok m) /\ metric_desc m = d /\
      registered r' = registered r /\
      (forall ls, counter_value r' m ls = 0 /\ gauge_value r' m ls = 0%Z) /\
      (forall m' ls, m' <> m -> counter_value r' m' ls = counter_value r m' ls /\
         gauge_value r' m' ls = gauge_value r m' ls);
  register_ok : forall m r, metric_name m ∉ metric_name <$> registered r ->
    exists r', register m r = (r', Ok tt) /\ registered r' = registered r ++ [m] /\
      forall m' ls, counter_value r' m' ls = counter_value r m' ls /\
        gauge_value r' m' ls = gauge_value r m' ls;
  register_twice : forall m r, metric_name m ∈ metric_name <$> registered r ->
    exists e, register m r = (r, Err e);
  has_labels_length : forall m ls,
    has_labels m ls = bool_decide (length ls = length (d_labels (metric_desc m)));
  counter_inc_by_value : forall m ls n r m' ls',
    counter_value (counter_inc_by m ls n r) m' ls' =
    if bool_decide (m' = m /\ ls' = ls) then wadd (counter_value r m' ls') n
    else counter_value r m' ls';
  counter_inc_by_gauge : forall m ls n r m' ls',
    gauge_value (counter_inc_by m ls n r) m' ls' = gauge_value r m' ls';
  gauge_set_value : forall m ls v r m' ls', gauge_value (gauge_set m ls v r) m' ls' =
    if bool_decide (m' = m /\ ls' = ls) then v else gauge_value r m' ls';
  gauge_set_counter : forall m ls v r m' ls',
    counter_value (gauge_set m ls v r) m' ls' = counter_value r m' ls';
  gauge_set_registered : forall m ls v r, registered (gauge_set m ls v r) = registered r;
  observe_count : forall m r m', sample_count (observe m r) m' =
    if bool_decide (m' = m) then wadd (sample_count r m') 1 else sample_count r m';
  observe_counter : forall m r m' ls, counter_value (observe m r) m' ls = counter_value r m' ls;
  observe_gauge : forall m r m' ls, gauge_value (observe m r) m' ls = gauge_value r m' ls
}.

Lemma counter_inc_value {P : Prometheus} {HP : PrometheusLaws P} m ls r m' ls' :
  counter_value (counter_inc m ls r) m' ls' =
  if bool_decide (m' = m /\ ls' = ls) then wadd (counter_value r m' ls') 1
  else counter_value r m' ls'.
Proof. apply counter_inc_by_value. Qed.

Definition ELabels : error := EExternal 40.
Definition EClock : error := EExternal 41.
Definition EMetricValue : error := EExternal 42.

Inductive DisconnectReason := Timeout | RemoteClose | LocalClose | Error.

#[export] Instance DisconnectReason_eq_dec : EqDecision DisconnectReason.
Proof. solve_decision. Defined.

Section Metrics.
Context {P : Prometheus}.

Definition GaugeVec_new (name help : string) (labels : list string) : stM PromState Metric :=
  metric_new (mkDesc GaugeVec name help labels []).
Definition IntGauge_new (name help : string) : stM PromState Metric :=
  metric_new (mkDesc IntGauge name help [] []).
Definition IntGaugeVec_new (name help : string) (labels : list string) : stM PromState Metric :=
  metric_new (mkDesc IntGaugeVec name help labels []).
Definition IntCounter_new (name help : string) : stM PromState Metric :=
  metric_new (mkDesc IntCounter name help [] []).
Definition IntCounterVec_new (name help : string) (labels : list string) : stM PromState Metric :=
  metric_new (mkDesc IntCounterVec name help labels []).
Definition Histogram_with_opts (name help : string) (buckets : list N) : stM PromState Metric :=
  metric_new (mkDesc Histogram name help [] buckets).

(** ** [metrics.rs] *)

Record Metrics := mkMetrics {
  lean_node_info : Metric;
  lean_node_start_time_seconds : Metric;
  lean_pq_signature_attestation_signing_time_seconds : Metric;
  lean_pq_signature_attestation_verification_time_seconds : Metric;
  lean_pq_sig_aggregated_signatures_total : Metric;
  lean_pq_sig_attestations_in_aggregated_signatures_total : Metric;
  lean_pq_sig_attestation_signatures_building_time_seconds : Metric;
  lean_pq_sig_aggregated_signatures_verification_time_seconds : Metric;
  lean_pq_sig_aggregated_signatures_valid_total : Metric;
  lean_pq_sig_aggregated_signatures_invalid_total : Metric;
  lean_head_slot : Metric;
  lean_current_slot : Metric;
  lean_safe_target_slot : Metric;
  lean_fork_choice_block_processing_time_seconds : Metric;
  lean_attestations_valid_total : Metric;
  lean_attestations_invalid_total : Metric;
  lean_attestation_validation_time_seconds : Metric;
  lean_fork_choice_reorgs_total : Metric;
  lean_fork_choice_reorg_depth : Metric;
  lean_latest_justified_slot : Metric;
  lean_latest_finalized_slot : Metric;
  lean_finalizations_total : Metric;
  lean_state_transition_time_seconds : Metric;
  lean_state_transition_slots_processed_total : Metric;
  lean_state_transition_slots_processing_time_seconds : Metric;
  lean_state_transition_block_processing_time_seconds : Metric;
  lean_state_transition_attestations_processed_total : Metric;
  lean_state_transition_attestations_processing_time_seconds : Metric;
  lean_validators_count : Metric;
  lean_connected_peers : Metric;
  lean_peer_connection_events_total : Metric;
  lean_peer_disconnection_events_total : Metric
}.

(** 0.005, 0.01, 0.025, 0.05, 0.1 and 1 seconds *)
Definition seconds_buckets : list N := [5; 10; 25; 50; 100; 1000].

Definition Metrics_new : stM PromState Metrics :=
  lean_node_info ← GaugeVec_new "lean_node_info" "Node information" ["name"; "version"];
  lean_node_start_time_seconds ← IntGauge_new "lean_node_start_time_seconds" "Start timestamp";
  lean_pq_signature_attestation_signing_time_seconds ←
    Histogram_with_opts "lean_pq_signature_attestation_signing_time_seconds"
    "Time taken to sign an attestation" seconds_buckets;
  lean_pq_signature_attestation_verification_time_seconds ←
    Histogram_with_opts "lean_pq_signature_attestation_verification_time_seconds"
    "Time taken to verify an attestation signature" seconds_buckets;
  lean_pq_sig_aggregated_signatures_total ←
    IntCounter_new "lean_pq_sig_aggregated_signatures_total"
    "Total number of aggregated signatures";
  lean_pq_sig_attestations_in_aggregated_signatures_total ←
    IntCounter_new "lean_pq_sig_attestations_in_aggregated_signatures_total"
    "Total number of attestations included into aggregated signatures";
  lean_pq_sig_attestation_signatures_building_time_seconds ←
    Histogram_with_opts "lean_pq_sig_attestation_signatures_building_time_seconds"
    "Time taken to verify an aggregated attestation signature" seconds_buckets;
  lean_pq_sig_aggregated_signatures_verification_time_seconds ←
    Histogram_with_opts "lean_pq_sig_aggregated_signatures_verification_time_seconds"
    "Time taken to verify an aggregated attestation signature" seconds_buckets;
  lean_pq_sig_aggregated_signatures_valid_total ←
    IntCounter_new "lean_pq_sig_aggregated_signatures_valid_total"
    "On validate aggregated signature";
  lean_pq_sig_aggregated_signatures_invalid_total ←
    IntCounter_new "lean_pq_sig_aggregated_signatures_invalid_total"
    "Total number of invalid aggregated signatures";
  lean_head_slot ← IntGauge_new "lean_head_slot" "Latest slot of the lean chain";
  lean_current_slot ← IntGauge_new "lean_current_slot" "Current slot of the lean chain";
  lean_safe_target_slot ← IntGauge_new "lean_safe_target_slot" "Safe target slot";
  lean_fork_choice_block_processing_time_seconds ←
    Histogram_with_opts "lean_fork_choice_block_processing_time_seconds"
    "Time taken to process block" seconds_buckets;
  lean_attestations_valid_total ←
    IntCounterVec_new "lean_attestations_valid_total"
    "Total number of valid attestations" ["source"];
  lean_attestations_invalid_total ←
    IntCounterVec_new "lean_attestations_invalid_total"
    "Total number of invalid attestations" ["source"];
  lean_attestation_validation_time_seconds ←
    Histogram_with_opts "lean_attestation_validation_time_seconds"
    "Time taken to validate attestation" seconds_buckets;
  lean_fork_choice_reorgs_total ←
    IntCounter_new "lean_fork_choice_reorgs_total" "Total number of fork choice reorgs";
  lean_fork_choice_reorg_depth ←
    Histogram_with_opts "lean_fork_choice_reorg_depth"
    "Depth of fork choice reorgs (in blocks)"
    [1000; 2000; 3000; 5000; 7000; 10000; 20000; 30000; 50000; 100000];
  lean_latest_justified_slot ← IntGauge_new "lean_latest_justified_slot" "Latest justified slot";
  lean_latest_finalized_slot ← IntGauge_new "lean_latest_finalized_slot" "Latest finalized slot";
  lean_finalizations_total ←
    IntCounterVec_new "lean_finalizations_total"
    "Total number of finalization attempts" ["result"];
  lean_state_transition_time_seconds ← Histogram_with_opts "lean_state_transition_time_seconds"
    "Time to process state transition" [250; 500; 750; 1000; 1250; 1500; 2000; 2500; 3000; 4000];
  lean_state_transition_slots_processed_total ←
    IntCounter_new "lean_state_transition_slots_processed_total"
    "Total number of processed slots";
  lean_state_transition_slots_processing_time_seconds ←
    Histogram_with_opts "lean_state_transition_slots_processing_time_seconds"
    "Time taken to process slots" seconds_buckets;
  lean_state_transition_block_processing_time_seconds ←
    Histogram_with_opts "lean_state_transition_block_processing_time_seconds"
    "Time taken to process block" seconds_buckets;
  lean_state_transition_attestations_processed_total ←
    IntCounter_new "lean_state_transition_attestations_processed_total"
    "Total number of processed attestations";
  lean_state_transition_attestations_processing_time_seconds ←
    Histogram_with_opts "lean_state_transition_attestations_processing_time_seconds"
    " Time taken to process attestations" seconds_buckets;
  lean_validators_count ←
    IntGauge_new "lean_validators_count" "Number of validators managed by a node";
  lean_connected_peers ←
    IntGaugeVec_new "lean_connected_peers" "Number of connected peers" ["client"];
  lean_peer_connection_events_total ←
    IntCounterVec_new "lean_peer_connection_events_total"
    "Total number of peer connection events" ["direction"; "result"];
  lean_peer_disconnection_events_total ←
    IntCounterVec_new "lean_peer_disconnection_events_total"
    "Total number of peer disconnection events" ["direction"; "reason"];
  mret (mkMetrics
    lean_node_info lean_node_start_time_seconds
    lean_pq_signature_attestation_signing_time_seconds
    lean_pq_signature_attestation_verification_time_seconds
    lean_pq_sig_aggregated_signatures_total
    lean_pq_sig_attestations_in_aggregated_signatures_total
    lean_pq_sig_attestation_signatures_building_time_seconds
    lean_pq_sig_aggregated_signatures_verification_time_seconds
    lean_pq_sig_aggregated_signatures_valid_total
    lean_pq_sig_aggregated_signatures_invalid_total lean_head_slot lean_current_slot
    lean_safe_target_slot lean_fork_choice_block_processing_time_seconds
    lean_attestations_valid_total lean_attestations_invalid_total
    lean_attestation_validation_time_seconds lean_fork_choice_reorgs_total
    lean_fork_choice_reorg_depth lean_latest_justified_slot lean_latest_finalized_slot
    lean_finalizations_total lean_state_transition_time_seconds
    lean_state_transition_slots_processed_total
    lean_state_transition_slots_processing_time_seconds
    lean_state_transition_block_processing_time_seconds
    lean_state_transition_attestations_processed_total
    lean_state_transition_attestations_processing_time_seconds lean_validators_count
    lean_connected_peers lean_peer_connection_events_total lean_peer_disconnection_events_total).

Definition register_with_default_metrics (m : Metrics) : stM PromState unit :=
  _ ← register (lean_node_info m);
  _ ← register (lean_node_start_time_seconds m);
  _ ← register (lean_pq_signature_attestation_signing_time_seconds m);
  _ ← register (lean_pq_signature_attestation_verification_time_seconds m);
  _ ← register (lean_pq_sig_aggregated_signatures_total m);
  _ ← register (lean_pq_sig_attestations_in_aggregated_signatures_total m);
  _ ← register (lean_pq_sig_attestation_signatures_building_time_seconds m);
  _ ← register (lean_pq_sig_aggregated_signatures_verification_time_seconds m);
  _ ← register (lean_pq_sig_aggregated_signatures_valid_total m);
  _ ← register (lean_pq_sig_aggregated_signatures_invalid_total m);
  _ ← register (lean_head_slot m);
  _ ← register (lean_current_slot m);
  _ ← register (lean_safe_target_slot m);
  _ ← register (lean_fork_choice_block_processing_time_seconds m);
  _ ← register (lean_attestations_valid_total m);
  _ ← register (lean_attestations_invalid_total m);
  _ ← register (lean_attestation_validation_time_seconds m);
  _ ← register (lean_fork_choice_reorgs_total m);
  _ ← register (lean_fork_choice_reorg_depth m);
  _ ← register (lean_latest_justified_slot m);
  _ ← register (lean_latest_finalized_slot m);
  _ ← register (lean_finalizations_total m);
  _ ← register (lean_state_transition_time_seconds m);
  _ ← register (lean_state_transition_slots_processed_total m);
  _ ← register (lean_state_transition_slots_processing_time_seconds m);
  _ ← register (lean_state_transition_block_processing_time_seconds m);
  _ ← register (lean_state_transition_attestations_processed_total m);
  _ ← register (lean_state_transition_attestations_processing_time_seconds m);
  _ ← register (lean_validators_count m);
  _ ← register (lean_connected_peers m);
  _ ← register (lean_peer_connection_events_total m);
  _ ← register (lean_peer_disconnection_events_total m);
  mret tt.

(** [get_metric_with_label_values(ls)?.inc()] *)
Definition inc_with (m : Metric) (ls : list string) : stM PromState unit :=
  if has_labels m ls then modify_st (counter_inc m ls) else lift_st (Err ELabels).

(** [with_label_values(ls).set(v)], which panics on the wrong number of values *)
Definition set_with (m : Metric) (ls : list string) (v : Z) : stM PromState unit :=
  if has_labels m ls then modify_st (gauge_set m ls v) else lift_st (Panic PUnwrap).

(** [u64::try_into::<i64>] *)
Definition try_into_i64 (v : u64) : option Z :=
  if v <? 9223372036854775808 then Some (Z.of_N v) else None.

Definition set_client_version (m : Metrics) (name version : string) : stM PromState unit :=
  set_with (lean_node_info m) [name; version] 1.

(** [timestamp]: seconds since the epoch, nothing for a clock before it. *)
Definition set_start_time (m : Metrics) (timestamp : option u64) : stM PromState unit :=
  secs ← lift_st (ok_or timestamp EClock);
  v ← lift_st (ok_or (try_into_i64 secs) EMetricValue);
  modify_st (gauge_set (lean_node_start_time_seconds m) [] v).

Definition direction (is_inbound : bool) : string :=
  if is_inbound then "inbound" else "outbound".

Definition register_peer_connection_success (m : Metrics) (is_inbound : bool)
    : stM PromState unit :=
  inc_with (lean_peer_connection_events_total m) [direction is_inbound; "success"].

Definition register_peer_connection_failure (m : Metrics) (is_inbound : bool)
    : stM PromState unit :=
  inc_with (lean_peer_connection_events_total m) [direction is_inbound; "failure"].

Definition register_peer_connection_timeout (m : Metrics) (is_inbound : bool)
    : stM PromState unit :=
  inc_with (lean_peer_connection_events_total m) [direction is_inbound; "timeout"].

Definition reason_label (reason : DisconnectReason) : string :=
  match reason with
  | Timeout => "timeout"
  | RemoteClose => "remote_close"
  | LocalClose => "local_close"
  | Error => "error"
  end.

Definition register_peer_disconnect (m : Metrics) (is_inbound : bool) (reason : DisconnectReason)
    : stM PromState unit :=
  inc_with (lean_peer_disconnection_events_total m) [direction is_inbound; reason_label reason].

(** ** [helpers.rs]: [METRICS.get()] is the first argument; errors are only logged. *)
Definition set_gauge_u64 (metrics : option Metrics) (metric_getter : Metrics -> Metric)
    (value : outcome u64) (r : PromState) : PromState :=
  match metrics with
  | Some m =>
      match value ≫= (fun v => ok_or (try_into_i64 v) EMetricValue) with
      | Ok v => gauge_set (metric_getter m) [] v r
      | _ => r
      end
  | None => r
  end.

(** ** [server.rs] *)

Record MetricsServerConfig := mkMetricsServerConfig {
  msc_timeout : u64;
  msc_metrics_enabled : bool
}.

Definition MetricsServerConfig_default : MetricsServerConfig :=
  mkMetricsServerConfig (1000 * 1000) false.

(** A router: the paths it answers, each with its time limit in milliseconds. *)
Definition Router : Type := list (string * option u64).

Definition metrics_module (config : MetricsServerConfig) : Router :=
  [("/metrics"%string, Some (msc_timeout config))].

(** The status and the body; [None] of the encoder is the internal error. *)
Definition get_metrics (r : PromState) : N * string :=
  match encode_text r with
  | Some buffer => (200, buffer)
  | None => (500, ""%string)
  end.

(** ** [http_api/src] *)

Definition DEFAULT_HTTP_PORT : N := 8080.

Record HttpServerConfig := mkHttpServerConfig {
  http_address : IpAddr;
  http_port : N;
  http_metrics : MetricsServerConfig
}.

(** The command line's defaults: 127.0.0.1. *)
Definition HttpServerConfig_default : HttpServerConfig :=
  mkHttpServerConfig (V4 2130706433) DEFAULT_HTTP_PORT MetricsServerConfig_default.

Definition metrics_enabled (config : HttpServerConfig) : bool :=
  msc_metrics_enabled (http_metrics config).

Definition normal_routes (config : HttpServerConfig) : Router :=
  let router := [] in
  if metrics_enabled config then router ++ metrics_module (http_metrics config) else router.

Definition address (config : HttpServerConfig) : IpAddr * N :=
  (http_address config, http_port config).

Definition EListener : error := EExternal 45.

(** [bind] is tokio's [TcpListener::bind], [axum_serve] runs a router on a listener. *)
Definition run_server {Listener : Type} (bind : IpAddr * N -> option Listener)
    (axum_serve : Router -> Listener -> outcome unit) (config : HttpServerConfig) : outcome unit :=
  let router := normal_routes config in
  listener ← ok_or (bind (address config)) EListener;
  axum_serve router listener.

(** The server's task: an error is only logged. *)
Definition http_task {Listener : Type} (bind : IpAddr * N -> option Listener)
    (axum_serve : Router -> Listener -> outcome unit) (config : HttpServerConfig) : outcome unit :=
  if metrics_enabled config then
    match run_server bind axum_serve config with
    | Err _ => Ok tt
    | x => x
    end
  else Ok tt.

(** ** Start-up, from [main] *)

Definition start_metrics (config : HttpServerConfig) (now : option u64)
    : stM PromState (option Metrics) :=
  if metrics_enabled config then
    metrics ← Metrics_new;
    _ ← register_with_default_metrics metrics;
    _ ← set_client_version metrics "grandine" "0.0.0";
    _ ← set_start_time metrics now;
    mret (Some metrics)
  else mret None.
End Metrics.

(** * Start-up *)

Section Start.
Context {P : Prometheus} {HP : PrometheusLaws P}.

Definition metric_fields (m : Metrics) : list Metric :=
  [lean_node_info m;
   lean_node_start_time_seconds m;
   lean_pq_signature_attestation_signing_time_seconds m;
   lean_pq_signature_attestation_verification_time_seconds m;
   lean_pq_sig_aggregated_signatures_total m;
   lean_pq_sig_attestations_in_aggregated_signatures_total m;
   lean_pq_sig_attestation_signatures_building_time_seconds m;
   lean_pq_sig_aggregated_signatures_verification_time_seconds m;
   lean_pq_sig_aggregated_signatures_valid_total m;
   lean_pq_sig_aggregated_signatures_invalid_total m;
   lean_head_slot m;
   lean_current_slot m;
   lean_safe_target_slot m;
   lean_fork_choice_block_processing_time_seconds m;
   lean_attestations_valid_total m;
   lean_attestations_invalid_total m;
   lean_attestation_validation_time_seconds m;
   lean_fork_choice_reorgs_total m;
   lean_fork_choice_reorg_depth m;
   lean_latest_justified_slot m;
   lean_latest_finalized_slot m;
   lean_finalizations_total m;
   lean_state_transition_time_seconds m;
   lean_state_transition_slots_processed_total m;
   lean_state_transition_slots_processing_time_seconds m;
   lean_state_transition_block_processing_time_seconds m;
   lean_state_transition_attestations_processed_total m;
   lean_state_transition_attestations_processing_time_seconds m;
   lean_validators_count m;
   lean_connected_peers m;
   lean_peer_connection_events_total m;
   lean_peer_disconnection_events_total m].

(** Each field's metric has the field's name. *)
Definition field_names : list string :=
  ["lean_node_info";
   "lean_node_start_time_seconds";
   "lean_pq_signature_attestation_signing_time_seconds";
   "lean_pq_signature_attestation_verification_time_seconds";
   "lean_pq_sig_aggregated_signatures_total";
   "lean_pq_sig_attestations_in_aggregated_signatures_total";
   "lean_pq_sig_attestation_signatures_building_time_seconds";
   "lean_pq_sig_aggregated_signatures_verification_time_seconds";
   "lean_pq_sig_aggregated_signatures_valid_total";
   "lean_pq_sig_aggregated_signatures_invalid_total";
   "lean_head_slot";
   "lean_current_slot";
   "lean_safe_target_slot";
   "lean_fork_choice_block_processing_time_seconds";
   "lean_attestations_valid_total";
   "lean_attestations_invalid_total";
   "lean_attestation_validation_time_seconds";
   "lean_fork_choice_reorgs_total";
   "lean_fork_choice_reorg_depth";
   "lean_latest_justified_slot";
   "lean_latest_finalized_slot";
   "lean_finalizations_total";
   "lean_state_transition_time_seconds";
   "lean_state_transition_slots_processed_total";
   "lean_state_transition_slots_processing_time_seconds";
   "lean_state_transition_block_processing_time_seconds";
   "lean_state_transition_attestations_processed_total";
   "lean_state_transition_attestations_processing_time_seconds";
   "lean_validators_count";
   "lean_connected_peers";
   "lean_peer_connection_events_total";
   "lean_peer_disconnection_events_total"].

(** The metrics made so far: their names, at zero, the registry untouched. *)
Record built (names : list string) (l : list Metric) (r0 r : PromState) : Prop := mkBuilt {
  bu_names : metric_name <$> l = names;
  bu_registered : registered r = registered r0;
  bu_zero : forall m ls, m ∈ l -> counter_value r m ls = 0 /\ gauge_value r m ls = 0%Z
}.

Lemma metric_step {A} (k : Metric -> stM PromState A) d names l r0 r :
  built names l r0 r -> valid_desc d = true -> bool_decide (d_name d ∉ names) = true ->
  exists m r', (metric_new d ≫= k) r = k m r' /\ metric_desc m = d /\
    built (names ++ [d_name d]) (l ++ [m]) r0 r'.
Proof.
  intros [Hn Hr Hz] Hd Hf%bool_decide_eq_true.
  destruct (metric_new_ok d r Hd) as (m & r' & E & Em & Er & Ez & Ek).
  exists m, r'. unfold mbind, stM_bind. rewrite E. split; [done|]. split; [done|]. split.
  - rewrite fmap_app, Hn. unfold metric_name. cbn. by rewrite Em.
  - congruence.
  - intros x ls [Hx| ->%list_elem_of_singleton]%elem_of_app; [|done].
    destruct (Ek x ls) as [-> ->]; [|by apply Hz]. intros ->. apply Hf. rewrite <-Hn.
    apply list_elem_of_fmap. exists m. unfold metric_name. by rewrite Em.
Qed.

Ltac metric_steps :=
  repeat match goal with
  | H : built ?names ?l ?r0 ?r |- context [ (metric_new ?d ≫= ?k) ?r ] =>
      let m := fresh "m" in let r' := fresh "r" in let E := fresh "E" in
      let D := fresh "D" in let B := fresh "B" in
      destruct (metric_step k d names l r0 r H eq_refl eq_refl) as (m & r' & E & D & B);
      rewrite E; clear E H; cbv beta in *; cbn [app d_name] in B
  end.

(** The labels of the metrics that have them. *)
Record labelled (m : Metrics) : Prop := mkLabelled {
  lb_info : d_labels (metric_desc (lean_node_info m)) = ["name"; "version"];
  lb_connected : d_labels (metric_desc (lean_connected_peers m)) = ["client"];
  lb_connection : d_labels (metric_desc (lean_peer_connection_events_total m)) =
    ["direction"; "result"];
  lb_disconnection : d_labels (metric_desc (lean_peer_disconnection_events_total m)) =
    ["direction"; "reason"];
  lb_valid : d_labels (metric_desc (lean_attestations_valid_total m)) = ["source"];
  lb_invalid : d_labels (metric_desc (lean_attestations_invalid_total m)) = ["source"]
}.

Lemma Metrics_new_ok r0 :
  exists m r, Metrics_new r0 = (r, Ok m) /\ labelled m /\ built field_names (metric_fields m) r0 r.
Proof.
  assert (B : built [] [] r0 r0) by (split; [done..|]; by intros m ls ?%not_elem_of_nil).
  unfold Metrics_new, GaugeVec_new, IntGauge_new, IntGaugeVec_new, IntCounter_new,
    IntCounterVec_new, Histogram_with_opts.
  metric_steps. eexists _, _. split; [reflexivity|]. split; [|exact B].
  split; cbn; (by match goal with D : metric_desc ?m = _ |- context [metric_desc ?m] => rewrite D end).
Qed.

Lemma register_all ms r :
  NoDup (metric_name <$> ms) ->
  (forall m, m ∈ ms -> metric_name m ∉ metric_name <$> registered r) ->
  exists r', iterM register ms r = (r', Ok tt) /\ registered r' = registered r ++ ms /\
    forall m ls, counter_value r' m ls = counter_value r m ls /\
      gauge_value r' m ls = gauge_value r m ls.
Proof.
  revert r. induction ms as [|m ms IH]; intros r Hn Hd.
  { exists r. split; [done|]. split; [by rewrite app_nil_r|done]. }
  cbn in Hn. apply NoDup_cons in Hn as [Hm Hn].
  destruct (register_ok m r) as (r1 & E1 & R1 & V1); [apply Hd; left|].
  destruct (IH r1 Hn) as (r2 & E2 & R2 & V2).
  - intros x Hx. rewrite R1, fmap_app, elem_of_app. intros [H|H].
    + by apply (Hd x); [right|].
    + apply Hm. cbn in H. apply list_elem_of_singleton in H. rewrite <-H.
      by apply list_elem_of_fmap_2.
  - exists r2. cbn [iterM]. unfold mbind, stM_bind. rewrite E1. split; [done|].
    split; [by rewrite R2, R1, <-app_assoc|]. intros x ls.
    destruct (V2 x ls) as [-> ->]. apply V1.
Qed.

Lemma register_metrics m : register_with_default_metrics m = iterM register (metric_fields m).
Proof. reflexivity. Qed.

Lemma field_names_NoDup : NoDup field_names.
Proof. apply (bool_decide_unpack _). vm_compute. done. Qed.

Lemma try_into_i64_small v : v < 9223372036854775808 -> try_into_i64 v = Some (Z.of_N v).
Proof. intros H%N.ltb_lt. unfold try_into_i64. by rewrite H. Qed.

(** Two fields are different metrics. *)
Lemma fields_distinct m :
  metric_name <$> metric_fields m = field_names -> NoDup (metric_fields m).
Proof. intros E. apply (NoDup_fmap_1 metric_name). rewrite E. apply field_names_NoDup. Qed.

Lemma info_not_start m :
  metric_name <$> metric_fields m = field_names ->
  lean_node_info m <> lean_node_start_time_seconds m.
Proof. intros E%fields_distinct%NoDup_cons H. apply (proj1 E). rewrite H. left. Qed.

Lemma peer_counters_fields m :
  lean_peer_connection_events_total m ∈ metric_fields m /\
  lean_peer_disconnection_events_total m ∈ metric_fields m.
Proof.
  split; [apply (list_elem_of_lookup_2 _ 30)|apply (list_elem_of_lookup_2 _ 31)]; reflexivity.
Qed.

Lemma peer_counters_distinct m :
  metric_name <$> metric_fields m = field_names ->
  lean_peer_connection_events_total m <> lean_peer_disconnection_events_total m.
Proof.
  intros E%fields_distinct H.
  assert (X : 30%nat = 31%nat); [|done].
  apply (NoDup_lookup _ 30 31 (lean_peer_connection_events_total m) E);
    [reflexivity|rewrite H; reflexivity].
Qed.

(** Registered metrics are refused a second time. *)
Lemma register_again m r :
  lean_node_info m ∈ registered r -> exists e, register_with_default_metrics m r = (r, Err e).
Proof.
  intros Hin. rewrite register_metrics. unfold metric_fields. cbn [iterM]. unfold mbind, stM_bind.
  destruct (register_twice (lean_node_info m) r) as [e ->]; [|by eexists].
  by apply list_elem_of_fmap_2.
Qed.

(** What a node started with metrics has. *)
Record started (secs : u64) (r : PromState) (m : Metrics) (r' : PromState) : Prop := mkStarted {
  st_labelled : labelled m;
  st_names : metric_name <$> metric_fields m = field_names;
  st_registered : registered r' = registered r ++ metric_fields m;
  st_zero : forall x ls, x ∈ metric_fields m -> counter_value r' x ls = 0;
  st_gauge_zero : forall x ls, x ∈ metric_fields m -> x <> lean_node_info m ->
    x <> lean_node_start_time_seconds m -> gauge_value r' x ls = 0%Z;
  st_version : gauge_value r' (lean_node_info m) ["grandine"; "0.0.0"] = 1%Z;
  st_time : gauge_value r' (lean_node_start_time_seconds m) [] = Z.of_N secs
}.

Lemma start_metrics_ok config secs r :
  metrics_enabled config = true -> secs < 9223372036854775808 ->
  (forall name, name ∈ field_names -> name ∉ metric_name <$> registered r) ->
  exists m r', start_metrics config (Some secs) r = (r', Ok (Some m)) /\ started secs r m r'.
Proof.
  intros Hc Hs Hr. unfold start_metrics. rewrite Hc.
  destruct (Metrics_new_ok r) as (m & r1 & E1 & Hl & [Hn R1 Z1]).
  destruct (register_all (metric_fields m) r1) as (r2 & E2 & R2 & V2).
  { rewrite Hn. apply field_names_NoDup. }
  { intros x Hx. rewrite R1. apply Hr. rewrite <-Hn. by apply list_elem_of_fmap_2. }
  rewrite <-register_metrics in E2.
  unfold mbind, stM_bind. rewrite E1, E2. unfold set_client_version, set_with, set_start_time.
  rewrite has_labels_length, (lb_info m Hl). cbn [length].
  rewrite bool_decide_eq_true_2 by done. cbn [modify_st ok_or lift_st].
  unfold mbind, stM_bind, modify_st, lift_st, ok_or. rewrite try_into_i64_small by done.
  exists m. eexists. split; [reflexivity|]. split; try done.
  - by rewrite !gauge_set_registered, R2, R1.
  - intros x ls Hx. rewrite !gauge_set_counter, (proj1 (V2 x ls)). by apply Z1.
  - intros x ls Hx Hi Ht. rewrite !gauge_set_value, !bool_decide_eq_false_2 by (by intros []).
    rewrite (proj2 (V2 x ls)). by apply Z1.
  - rewrite gauge_set_value, bool_decide_eq_false_2 by (intros [H _]; by apply (info_not_start m Hn)).
    by rewrite gauge_set_value, bool_decide_eq_true_2.
  - by rewrite gauge_set_value, bool_decide_eq_true_2.
Qed.

(** A node started with metrics makes all 32 of them, each under the name of its
    field, all different and at zero, adds exactly these to the default registry, in
    order, and sets its version and start time; nothing on this path fails as long as
    the registry has none of the names and the clock fits a gauge.  A second
    registration is refused. *)
Theorem metrics_started config secs r :
  metrics_enabled config = true -> secs < 9223372036854775808 ->
  (forall name, name ∈ field_names -> name ∉ metric_name <$> registered r) ->
  exists m r', start_metrics config (Some secs) r = (r', Ok (Some m)) /\
    metric_name <$> metric_fields m = field_names /\ NoDup (metric_fields m) /\
    registered r' = registered r ++ metric_fields m /\
    (forall x ls, x ∈ metric_fields m -> counter_value r' x ls = 0) /\
    gauge_value r' (lean_node_info m) ["grandine"; "0.0.0"] = 1%Z /\
    gauge_value r' (lean_node_start_time_seconds m) [] = Z.of_N secs /\
    exists e, register_with_default_metrics m r' = (r', Err e).
Proof.
  intros Hc Hs Hr. destruct (start_metrics_ok config secs r Hc Hs Hr) as (m & r' & E & [_ Hn Hg Hz _ Hv Ht]).
  exists m, r'. split; [done|]. split; [done|]. split; [by apply fields_distinct|].
  do 4 (split; [done|]). apply register_again. rewrite Hg, elem_of_app. right. left.
Qed.
End Start.

(** A gauge takes the values below 2^63 and keeps its value otherwise. *)
Lemma set_gauge_u64_spec {P : Prometheus} {HP : PrometheusLaws P} m getter v r :
  gauge_value (set_gauge_u64 (Some m) getter (Ok v) r) (getter m) [] =
    if v <? 9223372036854775808 then Z.of_N v else gauge_value r (getter m) [].
Proof.
  unfold set_gauge_u64, try_into_i64. cbn [mbind outcome_bind].
  destruct (v <? _); cbn [ok_or]; [|done]. by rewrite gauge_set_value, bool_decide_eq_true_2.
Qed.

(** * A concrete registry

    A metric is its description and its number. *)

Module ToyProm.

Record ToyState := mkToyState {
  tp_next : N;
  tp_registered : list (Desc * N);
  tp_counters : (Desc * N) -> list string -> N;
  tp_gauges : (Desc * N) -> list string -> Z;
  tp_samples : (Desc * N) -> N
}.

Definition toy_new (d : Desc) : stM ToyState (Desc * N) := fun r =>
  if valid_desc d then
    let m := (d, tp_next r) in
    (mkToyState (tp_next r + 1) (tp_registered r)
       (fun x ls => if bool_decide (x = m) then 0 else tp_counters r x ls)
       (fun x ls => if bool_decide (x = m) then 0%Z else tp_gauges r x ls) (tp_samples r), Ok m)
  else (r, Err ELabels).

Definition toy_register (m : Desc * N) : stM ToyState unit := fun r =>
  if bool_decide (d_name m.1 ∈ (fun x : Desc * N => d_name x.1) <$> tp_registered r)
  then (r, Err ELabels)
  else (mkToyState (tp_next r) (tp_registered r ++ [m]) (tp_counters r) (tp_gauges r)
          (tp_samples r), Ok tt).

#[export] Instance toy_prometheus : Prometheus := {|
  PromState := ToyState;
  Metric := Desc * N;
  Metric_eq_dec := _;
  metric_desc := fst;
  metric_new := toy_new;
  register := toy_register;
  registered := tp_registered;
  has_labels := fun m ls => bool_decide (length ls = length (d_labels m.1));
  counter_value := tp_counters;
  counter_inc_by := fun m ls n r => mkToyState (tp_next r) (tp_registered r)
    (fun x ls' => if bool_decide (x = m /\ ls' = ls) then wadd (tp_counters r x ls') n
                  else tp_counters r x ls') (tp_gauges r) (tp_samples r);
  gauge_value := tp_gauges;
  gauge_set := fun m ls v r => mkToyState (tp_next r) (tp_registered r) (tp_counters r)
    (fun x ls' => if bool_decide (x = m /\ ls' = ls) then v else tp_gauges r x ls') (tp_samples r);
  sample_count := tp_samples;
  observe := fun m r => mkToyState (tp_next r) (tp_registered r) (tp_counters r) (tp_gauges r)
    (fun x => if bool_decide (x = m) then wadd (tp_samples r x) 1 else tp_samples r x);
  encode_text := fun _ => Some "# metrics"%string
|}.

#[export] Instance toy_prometheus_laws : PrometheusLaws toy_prometheus.
Proof.
  split; try done.
  - intros d r Hd. cbn [metric_new toy_prometheus]. unfold toy_new. rewrite Hd.
    eexists _, _. split; [done|]. split; [done|]. split; [done|]. split.
    + intros ls. cbn. by rewrite !bool_decide_eq_true_2.
    + intros m' ls Hne. cbn. by rewrite !bool_decide_eq_false_2.
  - intros m r Hm. cbn [register toy_prometheus]. unfold toy_register.
    rewrite bool_decide_eq_false_2 by exact Hm. by eexists.
  - intros m r Hm. cbn [register toy_prometheus]. unfold toy_register.
    rewrite bool_decide_eq_true_2 by exact Hm. by eexists.
Qed.

Definition toy_registry : @PromState toy_prometheus := 
  mkToyState 0 [] (fun _ _ => 0) (fun _ _ => 0%Z) (fun _ => 0).

Definition toy_config : HttpServerConfig :=
  mkHttpServerConfig (V4 2130706433) 8080 (mkMetricsServerConfig 1000000 true).

Lemma metrics_started_witness :
  exists m r', start_metrics toy_config (Some 1763757427) toy_registry = (r', Ok (Some m)) /\
    metric_name <$> metric_fields m = field_names /\ NoDup (metric_fields m) /\
    registered r' = registered toy_registry ++ metric_fields m /\
    (forall x ls, x ∈ metric_fields m -> counter_value r' x ls = 0) /\
    gauge_value r' (lean_node_info m) ["grandine"; "0.0.0"] = 1%Z /\
    gauge_value r' (lean_node_start_time_seconds m) [] = Z.of_N 1763757427 /\
    exists e, register_with_default_metrics m r' = (r', Err e).
Proof.
  apply (metrics_started toy_config 1763757427 toy_registry).
  - reflexivity.
  - lia.
  - intros name _. apply not_elem_of_nil.
Defined.
End ToyProm.
