(* ===== verification/Observed.v ===== *)
(** * The handlers with their metrics

    The state transition, block building, fork choice and the validator client again,
    now with everything they do to the metrics: counters, gauges and the timers of
    histograms ([METRICS.get().map(..)] in the sources).  [METRICS.get()] is the section
    variable [metrics].  The definitions of the other files are these without the
    metrics: [shows] and [erases] say so, and are proved for every handler. *)

From stdpp Require Import strings.
From S2P Require Import Prelude Slot Ssz Xmss Containers State JustifiedSlots StateInv.
From S2P Require Import Transition StateTheorems Signatures BuildBlock BuildTheorems ForkChoice.
From S2P Require Import ForkChoiceHead StoreInv StoreBlocks StoreTheorems Derivation Validator.
From S2P Require Import Discovery Metrics Example.

#[local] Open Scope N_scope.

Definition ENoHeadBlock : error := EExternal 43.
Definition ENoSafeTargetBlock : error := EExternal 44.

(** [for x in l] in code that returns early. *)
Fixpoint fold_st {S A B : Type} (f : B -> A -> stM S B) (b : B) (l : list A) : stM S B :=
  match l with
  | [] => mret b
  | x :: l => b' ← f b x; fold_st f b' l
  end.

(** [m.inspect_err(|_| h)] and [m.inspect(|_| h)] *)
Definition inspect_err {S A} (m : stM S A) (h : stM S unit) : stM S A := fun s =>
  match m s with
  | (s', Err e) => (_ ← h; lift_st (Err e)) s'
  | x => x
  end.

Definition inspect {S A} (m : stM S A) (h : stM S unit) : stM S A :=
  a ← m; _ ← h; mret a.

Section Observed.
Context {P : Prometheus} (metrics : option Metrics).

(** ** Metrics *)

(** [METRICS.get().map(|metrics| ..)] *)
Definition record (f : Metrics -> PromState -> PromState) : stM PromState unit :=
  modify_st (fun r => match metrics with Some m => f m r | None => r end).

Definition count (getter : Metrics -> Metric) (n : u64) : stM PromState unit :=
  record (fun m => counter_inc_by (getter m) [] n).

(** [with_label_values(ls).inc()], which panics on the wrong number of values *)
Definition count_with (getter : Metrics -> Metric) (ls : list string) : stM PromState unit :=
  match metrics with
  | Some m => if has_labels (getter m) ls then modify_st (counter_inc (getter m) ls)
              else lift_st (Panic PUnwrap)
  | None => mret tt
  end.

(** A timer is dropped when its scope ends, on every path, and then records a sample,
    unless it was discarded before: [discard] says with which results.  [put] is where
    the metrics are in the state. *)
Definition timed {S A} (put : (PromState -> PromState) -> S -> S) (discard : outcome A -> bool)
    (getter : Metrics -> Metric) (body : stM S A) : stM S A := fun s =>
  let '(s', x) := body s in
  (if discard x then s' else
   put (fun r => match metrics with Some m => observe (getter m) r | None => r end) s', x).

Abbreviation timed_unless := (timed (S := PromState) (fun f => f)).
Abbreviation timed_pure := (timed (S := PromState) (fun f => f) (fun _ => false)).
Abbreviation timed_store :=
  (timed (S := Store * PromState) (fun f sr => (sr.1, f sr.2)) (fun _ => false)).

#[export] Instance error_eq_dec : EqDecision error.
Proof. solve_decision. Defined.

Definition is_error {A} (e : error) (x : outcome A) : bool :=
  match x with Err e' => bool_decide (e' = e) | _ => false end.

Definition is_err {A} (x : outcome A) : bool := match x with Err _ => true | _ => false end.

(** ** The state transition *)

Section Transition.
Context {C : SszContainers} {LS : LeanSig} {SO : SetOrder}.
Context {HState : SszHash State} {HHeader : SszHash BlockHeader}
  {HBody : SszHash BlockBody} {HData : SszHash AttestationData}.

Fixpoint slots_loop_observed (fuel : nat) (target_slot : Slot) (state : State)
    : stM PromState State :=
  if st_slot state <? target_slot then
    match fuel with
    | O => lift_st Diverge
    | S fuel =>
        let state := process_slot_step state in
        _ ← count lean_state_transition_slots_processed_total 1;
        slots_loop_observed fuel target_slot state
    end
  else mret state.

Definition process_slots_observed (self : State) (target_slot : Slot) : stM PromState State :=
  _ ← lift_st (ensure (st_slot self <? target_slot) ETargetSlotNotInFuture);
  timed_pure lean_state_transition_slots_processing_time_seconds
    (slots_loop_observed (N.to_nat (target_slot - st_slot self)) target_slot self).

Definition process_attestations_observed (self : State)
    (attestations : list AggregatedAttestation) : stM PromState State :=
  timed_pure lean_state_transition_attestations_processing_time_seconds (
    _ ← lift_st (ensure (forallb (fun root => negb (is_zero root)) (st_justifications_roots self))
      EZeroJustificationRoot);
    justifications ← lift_st (load_justifications self);
    let finalized_slot := cp_slot (st_latest_finalized self) in
    root_to_slot ← lift_st (build_root_to_slot self finalized_slot);
    ls ← fold_st (fun ls attestation =>
        _ ← count lean_state_transition_attestations_processed_total 1;
        lift_st (process_attestation self root_to_slot ls attestation))
      (mkAttestationLoop justifications (st_latest_justified self)
         (st_latest_finalized self) finalized_slot (st_justified_slots self))
      attestations;
    lift_st (store_justifications self ls)).

Definition process_block_observed (self : State) (block : Block) : stM PromState State :=
  timed_pure lean_state_transition_block_processing_time_seconds (
    state ← lift_st (process_block_header self block);
    _ ← lift_st (ensure (negb (has_duplicate_data (bb_attestations (b_body block))))
      EDuplicateAttestationData);
    process_attestations_observed state (bb_attestations (b_body block))).

Definition state_transition_observed (self : State) (signed_block : SignedBlockWithAttestation)
    (valid_signatures : bool) : stM PromState State :=
  _ ← lift_st (ensure valid_signatures EInvalidBlockSignatures);
  timed_pure lean_state_transition_time_seconds (
    let block := bwa_block (sb_message signed_block) in
    state ← process_slots_observed self (b_slot block);
    state ← process_block_observed state block;
    let state_root := hash_tree_root state in
    _ ← lift_st (ensure (b_state_root block =? state_root) EInvalidStateRoot);
    mret state).

(** ** Signatures and block building *)

(** A mismatch discards the timer, an error of the library does not. *)
Definition aggregate_observed (public_keys : list PublicKey) (signatures : list Signature)
    (message : H256) (epoch : N) : stM PromState AggregatedSignature :=
  timed_unless (is_error ECountMismatch) lean_pq_sig_attestation_signatures_building_time_seconds (
    pks ← lift_st (mapM PublicKey_as_lean public_keys);
    sigs ← lift_st (mapM Signature_as_lean signatures);
    _ ← lift_st (ensure (bool_decide (length pks = length sigs)) ECountMismatch);
    agg ← lift_st (ok_or (xmss_aggregate_signatures pks sigs message epoch) EAggregate);
    _ ← count lean_pq_sig_aggregated_signatures_total (len_u64 sigs);
    _ ← lift_st (ensure (len_u64 (agg_as_ssz_bytes agg) <=? AggregatedSignatureSizeLimit) ETooLarge);
    mret (mkAggregatedSignature (agg_as_ssz_bytes agg))).

Definition verify_observed (a : AggregatedSignature) (public_keys : list PublicKey)
    (message : H256) (epoch : N) : stM PromState unit :=
  timed_pure lean_pq_sig_aggregated_signatures_verification_time_seconds (
    pks ← lift_st (mapM PublicKey_as_lean public_keys);
    agg ← lift_st (AggregatedSignature_as_lean a);
    inspect_err (inspect
        (lift_st (if xmss_verify_aggregated_signatures pks message agg epoch then Ok tt
                  else Err EVerify))
        (count lean_pq_sig_aggregated_signatures_valid_total 1))
      (count lean_pq_sig_aggregated_signatures_invalid_total 1)).

Definition verify_attestation_observed (validators : list Validator)
    (aggregated_attestation : AggregatedAttestation)
    (aggregated_signature : AggregatedSignatureProof) : stM PromState unit :=
  validator_ids ← lift_st (to_validator_indices (aa_aggregation_bits aggregated_attestation));
  _ ← lift_st (foldM (fun _ validator_id =>
        ensure (validator_id <? len_u64 validators) EValidatorIndexOutOfRange)
      tt validator_ids);
  public_keys ← lift_st (mapM (fun id =>
      v ← ok_or (get_nth validators id) EIndexOutOfBounds; Ok (v_pubkey v)) validator_ids);
  verify_observed (asp_proof_data aggregated_signature) public_keys
    (hash_tree_root (aa_data aggregated_attestation))
    (as_u32 (ad_slot (aa_data aggregated_attestation))).

Definition verify_signatures_observed (self : SignedBlockWithAttestation) (parent_state : State)
    : stM PromState unit :=
  let block := bwa_block (sb_message self) in
  let signatures := sb_signature self in
  let aggregated_attestations := bb_attestations (b_body block) in
  let attestation_signatures := bs_attestation_signatures signatures in
  _ ← lift_st (ensure (len_u64 aggregated_attestations =? len_u64 attestation_signatures)
    ESignatureCountMismatch);
  let validators := st_validators parent_state in
  _ ← fold_st (fun _ '(a, p) => verify_attestation_observed validators a p) tt
    (zip aggregated_attestations attestation_signatures);
  let proposer_attestation := bwa_proposer_attestation (sb_message self) in
  _ ← lift_st (ensure (at_validator_id proposer_attestation <? len_u64 validators)
    EProposerOutOfRange);
  proposer ← lift_st (ok_or (get_nth validators (at_validator_id proposer_attestation))
    EProposerOutOfRange);
  timed_pure lean_pq_signature_attestation_verification_time_seconds (lift_st
    (Signature_verify (bs_proposer_signature signatures) (v_pubkey proposer)
      (as_u32 (ad_slot (at_data proposer_attestation)))
      (hash_tree_root (at_data proposer_attestation)))).

Definition aggregate_group_observed (self : State) (gossip_signatures : option SignatureMap)
    (aggregated_payloads : option PayloadMap)
    (results : list (AggregatedAttestation * AggregatedSignatureProof))
    (aggregated : AggregatedAttestation)
    : stM PromState (list (AggregatedAttestation * AggregatedSignatureProof)) :=
  let data := aa_data aggregated in
  let data_root := hash_tree_root data in
  validator_ids ← lift_st (to_validator_indices (aa_aggregation_bits aggregated));
  '(gossip_sigs, gossip_keys, gossip_ids, remaining) ←
    lift_st (gossip_collect self data_root gossip_signatures validator_ids);
  results ←
    (if bool_decide (gossip_ids = []) then mret results else
     participants ← lift_st (from_validator_indices gossip_ids);
     proof ← aggregate_observed gossip_keys gossip_sigs data_root (as_u32 (ad_slot data));
     mret (results ++ [(mkAggregatedAttestation participants data,
       mkAggregatedSignatureProof participants proof)]));
  match aggregated_payloads with
  | None => mret results
  | Some payloads => lift_st (greedy_cover (size remaining) data data_root payloads remaining results)
  end.

Definition compute_aggregated_signatures_observed (self : State)
    (attestations : list Attestation) (gossip_signatures : option SignatureMap)
    (aggregated_payloads : option PayloadMap)
    : stM PromState (list AggregatedAttestation * list AggregatedSignatureProof) :=
  groups ← lift_st (aggregate_by_data attestations);
  results ← fold_st (aggregate_group_observed self gossip_signatures aggregated_payloads) [] groups;
  if bool_decide (results = []) then mret ([], []) else mret (results.*1, results.*2).

Definition apply_block_observed (self : State) (block : Block) : stM PromState State :=
  state ← process_slots_observed self (b_slot block);
  process_block_observed state block.

Fixpoint collect_loop_observed (fuel : nat) (self : State) (slot : Slot) (proposer_index : u64)
    (parent_root : H256) (available : option (list Attestation))
    (known_block_roots : option (gset H256)) (gossip_signatures : option SignatureMap)
    (aggregated_payloads : option PayloadMap) (attestations : list Attestation)
    : stM PromState (list Attestation) :=
  aggregated ← lift_st (aggregate_by_data attestations);
  candidate_block ← lift_st (candidate slot proposer_index parent_root aggregated);
  post_state ← apply_block_observed self candidate_block;
  match available, known_block_roots with
  | Some available_attestations, Some known =>
      let new_attestations := filter (fun a => can_include known
        (st_latest_justified post_state) attestations gossip_signatures
        aggregated_payloads a = true) available_attestations in
      if bool_decide (new_attestations = []) then mret attestations else
      match fuel with
      | O => lift_st Diverge
      | S fuel => collect_loop_observed fuel self slot proposer_index parent_root available
          known_block_roots gossip_signatures aggregated_payloads
          (attestations ++ new_attestations)
      end
  | _, _ => mret attestations
  end.

(** [aggregation_bits.to_validator_indices().len()], summed up; the call asserts that
    there are voters. *)
Definition voters_total (aggs : list AggregatedAttestation) : outcome u64 :=
  ids ← mapM (fun a => to_validator_indices (aa_aggregation_bits a)) aggs;
  Ok (foldl wadd 0 (len_u64 <$> (ids : list (list u64)))).

Definition build_block_observed (self : State) (slot : Slot) (proposer_index : u64)
    (parent_root : H256) (initial_attestations available_attestations
      : option (list Attestation))
    (known_block_roots : option (gset H256)) (gossip_signatures : option SignatureMap)
    (aggregated_payloads : option PayloadMap)
    : stM PromState
        (Block * State * list AggregatedAttestation * list AggregatedSignatureProof) :=
  attestations ← collect_loop_observed (length (default [] available_attestations)) self slot
    proposer_index parent_root available_attestations known_block_roots gossip_signatures
    aggregated_payloads (default [] initial_attestations);
  '(aggregated_attestations, aggregated_signatures) ←
    compute_aggregated_signatures_observed self attestations gossip_signatures aggregated_payloads;
  _ ← (match metrics with
       | Some _ =>
           n ← lift_st (voters_total aggregated_attestations);
           count lean_pq_sig_attestations_in_aggregated_signatures_total n
       | None => mret tt
       end);
  final_block ← lift_st (candidate slot proposer_index parent_root aggregated_attestations);
  post_state ← apply_block_observed self final_block;
  mret (set_block_state_root (hash_tree_root post_state) final_block, post_state,
        aggregated_attestations, aggregated_signatures).
End Transition.

(** ** Fork choice *)

Section ForkChoice.
Context {C : SszContainers} {LS : LeanSig} {SO : SetOrder} {MO : MapOrder}.
Context {HState : SszHash State} {HHeader : SszHash BlockHeader} {HBlock : SszHash Block}
  {HBody : SszHash BlockBody} {HData : SszHash AttestationData}.

(** A step on the store, and one on the metrics. *)
Definition quiet {A} (m : stM Store A) : stM (Store * PromState) A := fun sr =>
  let '(s', x) := m sr.1 in ((s', sr.2), x).

Definition shown {A} (m : stM PromState A) : stM (Store * PromState) A := fun sr =>
  let '(r', x) := m sr.2 in ((sr.1, r'), x).

Definition slot_of_block (store : Store) (root : H256) (e : error) : outcome u64 :=
  b ← ok_or (s_blocks store !! root) e; Ok (b_slot b).

Definition set_gauge (getter : Metrics -> Metric) (value : outcome u64) : stM PromState unit :=
  modify_st (set_gauge_u64 metrics getter value).

Definition update_head_observed : stM (Store * PromState) unit :=
  _ ← quiet update_head;
  sr ← get_st;
  shown (set_gauge lean_head_slot (slot_of_block sr.1 (s_head sr.1) ENoHeadBlock)).

Definition update_safe_target_observed : stM (Store * PromState) unit :=
  _ ← quiet update_safe_target;
  sr ← get_st;
  shown (set_gauge lean_safe_target_slot
    (slot_of_block sr.1 (s_safe_target sr.1) ENoSafeTargetBlock)).

Definition accept_new_attestations_observed : stM (Store * PromState) unit :=
  _ ← quiet (modify_st (fun store => set_latest_new_attestations ∅
        (set_latest_known_attestations
          (s_latest_new_attestations store ∪ s_latest_known_attestations store) store)));
  update_head_observed.

Definition tick_interval_observed (has_proposal : bool) : stM (Store * PromState) unit :=
  _ ← quiet (modify_st (fun store => set_time (wadd (s_time store) 1) store));
  sr ← get_st;
  let curr_interval := s_time sr.1 `mod` INTERVALS_PER_SLOT in
  if (curr_interval =? 0) && has_proposal then accept_new_attestations_observed
  else if curr_interval =? 2 then update_safe_target_observed
  else if curr_interval =? 3 then accept_new_attestations_observed
  else mret tt.

Fixpoint tick_loop_observed (fuel : nat) (tick_interval_time : u64) (has_proposal : bool)
    : stM (Store * PromState) unit :=
  sr ← get_st;
  if s_time sr.1 <? tick_interval_time then
    match fuel with
    | O => lift_st Diverge
    | S fuel =>
        let should_signal_proposal :=
          has_proposal && (wadd (s_time sr.1) 1 =? tick_interval_time) in
        _ ← tick_interval_observed should_signal_proposal;
        tick_loop_observed fuel tick_interval_time has_proposal
    end
  else mret tt.

Definition on_tick_observed (time : u64) (has_proposal : bool) : stM (Store * PromState) unit :=
  sr ← get_st;
  let tick_interval_time :=
    saturating_sub time (genesis_time (s_config sr.1)) / SECONDS_PER_INTERVAL in
  tick_loop_observed (N.to_nat (tick_interval_time - s_time sr.1)) tick_interval_time has_proposal.

(** The [source] label. *)
Definition source_label (is_from_block : bool) : list string :=
  [if is_from_block then "block" else "gossip"]%string.

Definition on_attestation_observed (signed_attestation : SignedAttestation)
    (is_from_block : bool) : stM (Store * PromState) unit :=
  timed_store lean_attestation_validation_time_seconds (
    let validator_id := sa_validator_id signed_attestation in
    let data := sa_message signed_attestation in
    let invalid := shown (count_with lean_attestations_invalid_total (source_label is_from_block)) in
    sr ← get_st;
    _ ← inspect_err (lift_st (validate_attestation_data sr.1 data)) invalid;
    _ ← quiet (if is_from_block then mret tt
         else modify_st (insert_gossip validator_id data (sa_signature signed_attestation)));
    inspect (inspect_err (quiet (on_attestation_internal validator_id data is_from_block)) invalid)
      (shown (count_with lean_attestations_valid_total (source_label is_from_block)))).

Definition on_gossip_attestation_observed (signed_attestation : SignedAttestation)
    : stM (Store * PromState) unit :=
  timed_store lean_attestation_validation_time_seconds (
    let validator_id := sa_validator_id signed_attestation in
    let data := sa_message signed_attestation in
    let invalid := shown (count_with lean_attestations_invalid_total (source_label false)) in
    sr ← get_st;
    _ ← inspect_err (lift_st (validate_attestation_data sr.1 data)) invalid;
    _ ← quiet (modify_st (insert_gossip validator_id data (sa_signature signed_attestation)));
    inspect (inspect_err (quiet (on_attestation_internal validator_id data false)) invalid)
      (shown (count_with lean_attestations_valid_total (source_label false)))).

Definition insert_block_observed (block_root : H256) (block : Block) (new_state : State)
    : stM (Store * PromState) unit :=
  sr ← get_st;
  let justified_updated :=
    cp_slot (s_latest_justified sr.1) <? cp_slot (st_latest_justified new_state) in
  let finalized_updated :=
    cp_slot (s_latest_finalized sr.1) <? cp_slot (st_latest_finalized new_state) in
  _ ← quiet (modify_st (insert_block block_root block new_state));
  _ ← (if justified_updated then shown (set_gauge lean_latest_justified_slot
         (Ok (cp_slot (st_latest_justified new_state)))) else mret tt);
  if finalized_updated then shown (set_gauge lean_latest_finalized_slot
    (Ok (cp_slot (st_latest_finalized new_state)))) else mret tt.

Definition process_block_internal_observed (signed_block : SignedBlockWithAttestation)
    (block_root : H256) : stM (Store * PromState) unit :=
  timed_store lean_fork_choice_block_processing_time_seconds (
    let block := bwa_block (sb_message signed_block) in
    sr ← get_st;
    state ← lift_st (ok_or (s_states sr.1 !! b_parent_root block) ENoParentState);
    new_state ← shown (state_transition_observed state signed_block true);
    _ ← insert_block_observed block_root block new_state;
    let signatures := sb_signature signed_block in
    let aggregated_attestations := bb_attestations (b_body block) in
    let proposer_attestation := bwa_proposer_attestation (sb_message signed_block) in
    _ ← quiet (modify_st (store_proofs aggregated_attestations
          (bs_attestation_signatures signatures)));
    _ ← quiet (iterM (fun a => iterM (fun validator_id =>
            on_attestation_internal validator_id (aa_data a) true)
          (set_bits (aa_aggregation_bits a))) aggregated_attestations);
    _ ← update_head_observed;
    _ ← quiet (modify_st (insert_gossip (at_validator_id proposer_attestation)
          (at_data proposer_attestation) (bs_proposer_signature signatures)));
    quiet (on_attestation_internal (at_validator_id proposer_attestation)
      (at_data proposer_attestation) false)).

Fixpoint process_purgatory_observed (purgatory : list SignedBlockWithAttestation)
    (roots : list H256) : stM (Store * PromState) (list H256) :=
  match purgatory with
  | [] => mret roots
  | block :: purgatory =>
      let block_origins := hash_tree_root (bwa_block (sb_message block)) in
      ok ← try_st (process_block_internal_observed block block_origins);
      process_purgatory_observed purgatory (if (ok : bool) then block_origins :: roots else roots)
  end.

Fixpoint pending_loop_observed (fuel : nat) (roots : list H256) : stM (Store * PromState) unit :=
  match roots with
  | [] => mret tt
  | parent_root :: roots =>
      match fuel with
      | O => lift_st Diverge
      | S fuel =>
          sr ← get_st;
          match s_blocks_queue sr.1 !! parent_root with
          | Some purgatory =>
              _ ← quiet (modify_st (fun store =>
                    set_blocks_queue (delete parent_root (s_blocks_queue store)) store));
              roots ← process_purgatory_observed purgatory roots;
              pending_loop_observed fuel roots
          | None => pending_loop_observed fuel roots
          end
      end
  end.

Definition process_pending_blocks_observed (roots : list H256) : stM (Store * PromState) unit :=
  sr ← get_st;
  pending_loop_observed (length roots + queued sr.1) roots.

Definition on_block_observed (signed_block : SignedBlockWithAttestation)
    : stM (Store * PromState) unit :=
  let block := bwa_block (sb_message signed_block) in
  let block_root := hash_tree_root block in
  sr ← get_st;
  if bool_decide (is_Some (s_blocks sr.1 !! block_root)) then mret tt else
  let parent_root := b_parent_root block in
  if bool_decide (s_states sr.1 !! parent_root = None) && negb (is_zero parent_root) then
    _ ← quiet (modify_st (fun store => set_blocks_queue
          (<[parent_root := default [] (s_blocks_queue store !! parent_root) ++
               [signed_block]]> (s_blocks_queue store)) store));
    sr ← get_st;
    lift_st (Err (EBlockQueued parent_root (queued sr.1)))
  else
    _ ← process_block_internal_observed signed_block block_root;
    process_pending_blocks_observed [block_root].

Definition get_proposal_head_observed (slot : Slot) : stM (Store * PromState) H256 :=
  sr ← get_st;
  let slot_time := wadd (genesis_time (s_config sr.1)) (wmul slot SECONDS_PER_SLOT) in
  _ ← on_tick_observed slot_time true;
  _ ← accept_new_attestations_observed;
  sr ← get_st;
  mret (s_head sr.1).

Definition produce_block_observed (slot : Slot) (validator_index : u64)
    : stM (Store * PromState) (H256 * Block * list AggregatedSignatureProof) :=
  head_root ← get_proposal_head_observed slot;
  sr ← get_st;
  let store := sr.1 in
  head_state ← lift_st (ok_or (s_states store !! head_root) EHeadStateNotFound);
  let num_validators := len_u64 (st_validators head_state) in
  _ ← lift_st (assert_ (negb (num_validators =? 0)) PDivisionByZero);
  let expected_proposer := slot `mod` num_validators in
  _ ← lift_st (ensure (validator_index =? expected_proposer) ENotProposer);
  let available_attestations :=
    (fun '(validator_idx, data) => mkAttestation validator_idx data)
      <$> hm_iter (s_latest_known_attestations store) in
  let known_block_roots : gset H256 := dom (s_blocks store) in
  '(final_block, final_post_state, _, signatures) ← shown
    (build_block_observed head_state slot validator_index head_root None
       (Some available_attestations) (Some known_block_roots)
       (Some (s_gossip_signatures store)) (Some (s_aggregated_payloads store)));
  let block_root := hash_tree_root final_block in
  _ ← quiet (modify_st (fun store =>
        set_states (<[block_root := final_post_state]> (s_states store))
          (set_blocks (<[block_root := final_block]> (s_blocks store)) store)));
  mret (block_root, final_block, signatures).

(** ** The validator client *)

(** [len() as i64] *)
Definition as_i64 (v : u64) : Z :=
  if v <? 9223372036854775808 then Z.of_N v else (Z.of_N v - 18446744073709551616)%Z.

Definition set_validators_count (config : ValidatorConfig) : stM PromState unit :=
  record (fun m => gauge_set (lean_validators_count m) []
    (as_i64 (len_u64 (validator_indices config)))).

Definition ValidatorService_new_observed (config : ValidatorConfig) (num_validators : u64)
    : stM PromState ValidatorService :=
  _ ← set_validators_count config;
  mret (ValidatorService_new config num_validators).

Definition new_with_keys_observed {FS : FileSystem} (config : ValidatorConfig)
    (num_validators : u64) (keys_dir : string) : stM PromState ValidatorService :=
  key_manager ← lift_st (KeyManager_new keys_dir);
  key_manager ← lift_st (foldM load_key key_manager (validator_indices config));
  _ ← set_validators_count config;
  mret (mkValidatorService config num_validators (Some key_manager)).

(** An error discards the timer. *)
Definition sign_block_observed (self : ValidatorService) (store : Store) (block : Block)
    (validator_index : u64) (attestation_signatures : list AggregatedSignatureProof)
    : stM PromState SignedBlockWithAttestation :=
  data ← lift_st (produce_attestation_data store (b_slot block));
  let proposer_attestation := mkAttestation validator_index data in
  key_manager ← lift_st (ok_or (vs_key_manager self) EKeyManagerMissing);
  proposer_signature ← timed_unless is_err lean_pq_signature_attestation_signing_time_seconds
    (lift_st (KeyManager_sign key_manager validator_index (as_u32 (b_slot block))
       (hash_tree_root data)));
  proofs ← lift_st (ok_or (pl_try_from_iter ValidatorRegistryLimit attestation_signatures)
    EListTooLong);
  mret (mkSignedBlockWithAttestation (mkBlockWithAttestation block proposer_attestation)
          (mkBlockSignatures proofs proposer_signature)).

Definition build_block_proposal_observed (self : ValidatorService) (slot : Slot)
    (proposer_index : u64) : stM (Store * PromState) SignedBlockWithAttestation :=
  '(_, block, signatures) ← produce_block_observed slot proposer_index;
  sr ← get_st;
  shown (sign_block_observed self sr.1 block proposer_index signatures).

(** Two timers run over the signature, the second shadows the first. *)
Definition attestation_signature_observed (self : ValidatorService) (idx : u64) (epoch : N)
    (message : H256) : stM PromState (option Signature) :=
  match vs_key_manager self with
  | Some key_manager =>
      timed_pure lean_pq_signature_attestation_signing_time_seconds
        (timed_pure lean_pq_signature_attestation_signing_time_seconds
          (lift_st match KeyManager_sign key_manager idx epoch message with
             | Ok sig => Ok (Some sig)
             | Err _ => Ok None
             | Panic p => Panic p
             | Diverge => Diverge
             end))
  | None => mret (Some Signature_default)
  end.

Definition attest_observed (self : ValidatorService) (data : AttestationData) (idx : u64)
    : stM PromState (option SignedAttestation) :=
  sig ← attestation_signature_observed self idx (as_u32 (ad_slot data)) (hash_tree_root data);
  mret (mkSignedAttestation idx data <$> (sig : option Signature)).

Definition create_attestations_observed (self : ValidatorService) (store : Store) (slot : Slot)
    : stM PromState (list SignedAttestation) :=
  vote_target ← lift_st (get_attestation_target store);
  if cp_slot vote_target <? cp_slot (s_latest_justified store) then mret [] else
  match s_blocks store !! s_head store with
  | None => mret []
  | Some head_block =>
      let data := mkAttestationData slot (mkCheckpoint (s_head store) (b_slot head_block))
        vote_target (s_latest_justified store) in
      fold_st (fun atts idx => a ← attest_observed self data idx; mret (atts ++ option_list a))
        [] (validator_indices (vs_config self))
  end.
End ForkChoice.
End Observed.

(** * Without the metrics *)

(** [m] returns [o] whatever the metrics show. *)
Definition shows {S A} (m : stM S A) (o : outcome A) : Prop := forall s, (m s).2 = o.

Section Shows.
Context {S : Type}.

Lemma shows_ret {A} (a : A) : shows (mret a : stM S A) (Ok a).
Proof. by intros s. Qed.

Lemma shows_lift {A} (o : outcome A) : shows (lift_st o : stM S A) o.
Proof. by intros s. Qed.

Lemma shows_bind {A B} (m : stM S A) o (f : A -> stM S B) g :
  shows m o -> (forall a, o = Ok a -> shows (f a) (g a)) -> shows (m ≫= f) (o ≫= g).
Proof.
  intros Hm Hf s. specialize (Hm s). unfold mbind, stM_bind. destruct (m s) as [s' x]; cbn in *.
  subst x. destruct o; cbn; [by apply Hf|done..].
Qed.

Lemma shows_then {A B} (m : stM S A) a (f : A -> stM S B) o :
  shows m (Ok a) -> shows (f a) o -> shows (m ≫= f) o.
Proof. intros Hm Hf. apply (shows_bind m (Ok a) f (fun _ => o) Hm). by intros ? [= <-]. Qed.

Lemma shows_fold {A B} (f : B -> A -> stM S B) g b l :
  (forall b x, shows (f b x) (g b x)) -> shows (fold_st f b l) (foldM g b l).
Proof.
  intros Hf. revert b. induction l as [|x l IH]; intros b; [apply shows_ret|].
  apply (shows_bind _ _ _ _ (Hf b x)). intros b' _. apply IH.
Qed.

Lemma shows_inspect {A} (m : stM S A) h o : shows m o -> shows h (Ok tt) -> shows (inspect m h) o.
Proof.
  intros Hm Hh s. specialize (Hm s). unfold inspect, mbind, stM_bind.
  destruct (m s) as [s' x]; cbn in *; subst x. destruct o; [|done..].
  specialize (Hh s'). destruct (h s') as [s2 x]; cbn in *. by subst x.
Qed.

Lemma shows_inspect_err {A} (m : stM S A) h o :
  shows m o -> shows h (Ok tt) -> shows (inspect_err m h) o.
Proof.
  intros Hm Hh s. specialize (Hm s). unfold inspect_err.
  destruct (m s) as [s' x]; cbn in *; subst x. destruct o; [done| |done..].
  specialize (Hh s'). unfold mbind, stM_bind. destruct (h s') as [s2 x]; cbn in *. by subst x.
Qed.
End Shows.

Section Erasure.
Context {P : Prometheus} {HP : PrometheusLaws P} (metrics : option Metrics).
Context (Hlabels : forall m, metrics = Some m -> labelled m).

Lemma shows_record f : shows (record metrics f) (Ok tt).
Proof. done. Qed.

Lemma set_gauge_shows getter v : shows (set_gauge metrics getter v) (Ok tt).
Proof. done. Qed.

Lemma shows_timed {A} discard getter (m : stM PromState A) o :
  shows m o -> shows (timed metrics (fun f => f) discard getter m) o.
Proof. intros H r. specialize (H r). unfold timed. by destruct (m r). Qed.

Lemma shows_count_with getter l :
  (forall m, metrics = Some m -> length (d_labels (metric_desc (getter m))) = length l) ->
  shows (count_with metrics getter l) (Ok tt).
Proof.
  intros H r. unfold count_with. destruct metrics as [m|]; [|done].
  rewrite has_labels_length, bool_decide_eq_true_2; [done|]. symmetry. by apply H.
Qed.

Lemma shows_valid fb : shows (count_with metrics lean_attestations_valid_total (source_label fb)) (Ok tt).
Proof. apply shows_count_with. intros m Hm. by rewrite (lb_valid m (Hlabels m Hm)). Qed.

Lemma shows_invalid fb :
  shows (count_with metrics lean_attestations_invalid_total (source_label fb)) (Ok tt).
Proof. apply shows_count_with. intros m Hm. by rewrite (lb_invalid m (Hlabels m Hm)). Qed.
End Erasure.

(** One step of a proof that [m] shows [o]. *)
Ltac shows_step :=
  cbv zeta;
  match goal with
  | |- shows (mret _) _ => apply shows_ret
  | |- shows (lift_st _) _ => apply shows_lift
  | |- shows (timed _ _ _ _ _) _ => apply shows_timed
  | |- shows (record _ _ ≫= _) _ => eapply shows_then; [apply shows_record|]
  | |- shows (count _ _ _ ≫= _) _ => eapply shows_then; [apply shows_record|]
  | |- shows (fold_st _ _ _) _ => apply shows_fold; intros
  | |- shows (_ ≫= _) _ => apply shows_bind; [|intros ? ?]
  end.

Ltac shows_steps := repeat shows_step.

Section Transition.
Context {P : Prometheus} {HP : PrometheusLaws P} (metrics : option Metrics).
Context {C : SszContainers} {HC : SszContainersLaws C} {LS : LeanSig} {SO : SetOrder} {HO : SetOrderLaws SO}.
Context {HState : SszHash State} {HHeader : SszHash BlockHeader}
  {HBody : SszHash BlockBody} {HData : SszHash AttestationData}.

Lemma slots_loop_shows fuel t s :
  shows (slots_loop_observed metrics fuel t s) (process_slots_loop fuel t s).
Proof.
  revert s. induction fuel as [|fuel IH]; intros s; cbn; case_match; shows_steps. apply IH.
Qed.

Lemma process_slots_shows s t : shows (process_slots_observed metrics s t) (process_slots s t).
Proof. unfold process_slots_observed, process_slots. shows_steps. apply slots_loop_shows. Qed.

Lemma process_attestations_shows s atts :
  shows (process_attestations_observed metrics s atts) (process_attestations s atts).
Proof. unfold process_attestations_observed, process_attestations. shows_steps. Qed.

Lemma process_block_shows s b : shows (process_block_observed metrics s b) (process_block s b).
Proof.
  unfold process_block_observed, process_block. shows_steps. apply process_attestations_shows.
Qed.

Lemma state_transition_shows s sb v :
  shows (state_transition_observed metrics s sb v) (state_transition s sb v).
Proof.
  unfold state_transition_observed, state_transition. shows_steps;
    [apply process_slots_shows|apply process_block_shows].
Qed.

Lemma aggregate_shows pks sigs msg e :
  shows (aggregate_observed metrics pks sigs msg e) (AggregatedSignature_aggregate pks sigs msg e).
Proof. unfold aggregate_observed, AggregatedSignature_aggregate. shows_steps. Qed.

Lemma verify_shows a pks msg e :
  shows (verify_observed metrics a pks msg e) (AggregatedSignature_verify a pks msg e).
Proof.
  unfold verify_observed, AggregatedSignature_verify. shows_steps.
  apply shows_inspect_err; [apply shows_inspect|]; [apply shows_lift|apply shows_record..].
Qed.

Lemma verify_attestation_shows vs a p :
  shows (verify_attestation_observed metrics vs a p) (verify_attestation vs a p).
Proof.
  unfold verify_attestation_observed, verify_attestation. shows_steps. apply verify_shows.
Qed.

Lemma verify_signatures_shows sb s :
  shows (verify_signatures_observed metrics sb s) (verify_signatures sb s).
Proof.
  unfold verify_signatures_observed, verify_signatures. shows_steps.
  match goal with x : _ * _ |- _ => destruct x end. apply verify_attestation_shows.
Qed.

Lemma aggregate_group_shows s gs ps res agg :
  shows (aggregate_group_observed metrics s gs ps res agg) (aggregate_group s gs ps res agg).
Proof.
  unfold aggregate_group_observed, aggregate_group. shows_steps.
  match goal with x : _ * _ * _ * _ |- _ => destruct x as [[[? ?] ?] ?] end. shows_steps.
  - case_match; shows_steps. unfold AggregatedSignatureProof_aggregate.
    intros r. rewrite <-(aggregate_shows _ _ _ _ r). unfold mbind, stM_bind, outcome_bind.
    by destruct (aggregate_observed metrics _ _ _ _ r) as [? [| | |]].
  - destruct ps; shows_steps.
Qed.

Lemma compute_aggregated_signatures_shows s atts gs ps :
  shows (compute_aggregated_signatures_observed metrics s atts gs ps)
    (compute_aggregated_signatures s atts gs ps).
Proof.
  unfold compute_aggregated_signatures_observed, compute_aggregated_signatures. shows_steps.
  - apply aggregate_group_shows.
  - case_match; shows_steps.
Qed.

Lemma apply_block_shows s b : shows (apply_block_observed metrics s b) (apply_block s b).
Proof.
  unfold apply_block_observed, apply_block. shows_steps;
    [apply process_slots_shows|apply process_block_shows].
Qed.

Lemma collect_loop_shows fuel s slot p parent av known gs ps atts :
  shows (collect_loop_observed metrics fuel s slot p parent av known gs ps atts)
    (collect_loop fuel s slot p parent av known gs ps atts).
Proof.
  revert atts. induction fuel as [|fuel IH]; intros atts; cbn; shows_steps;
    try apply apply_block_shows; repeat case_match; shows_steps. apply IH.
Qed.

(** Every attestation of a block has voters to count. *)
Lemma voters_total_Ok s atts gs ps aggs proofs :
  compute_aggregated_signatures s atts gs ps = Ok (aggs, proofs) ->
  exists n, voters_total aggs = Ok n.
Proof.
  intros (Hlen & Hb & _)%compute_aggregated_signatures_inv.
  destruct (mapM_total (fun a => to_validator_indices (aa_aggregation_bits a)) aggs) as [ids E].
  - intros a Ha. apply list_elem_of_lookup in Ha as [i Hi].
    destruct (lookup_lt_is_Some_2 proofs i) as [p Hp];
      [rewrite <-Hlen; by apply lookup_lt_is_Some_1|].
    rewrite Forall_lookup in Hb. destruct (Hb i (a, p)) as [Hv _].
    { apply lookup_zip_Some. by split. }
    cbn in Hv. unfold to_validator_indices. rewrite bool_decide_eq_false_2 by done. by eexists.
  - unfold voters_total. rewrite E. by eexists.
Qed.

Lemma build_block_shows s slot p parent initial av known gs ps :
  shows (build_block_observed metrics s slot p parent initial av known gs ps)
    (build_block s slot p parent initial av known gs ps).
Proof.
  unfold build_block_observed, build_block. shows_step; [apply collect_loop_shows|].
  shows_step; [apply compute_aggregated_signatures_shows|].
  match goal with x : _ * _ |- _ => destruct x as [aggs proofs] end.
  apply (shows_then _ tt); [|shows_steps; apply apply_block_shows].
  match goal with H : compute_aggregated_signatures _ _ _ _ = _ |- _ =>
    destruct (voters_total_Ok _ _ _ _ _ _ H) as [n ->] end.
  by destruct metrics.
Qed.
End Transition.

(** [m] is [m0] on the store, whatever the metrics show. *)
Definition erases {A} {P : Prometheus} (m : stM (Store * PromState) A) (m0 : stM Store A) : Prop :=
  forall s r, ((m (s, r)).1.1, (m (s, r)).2) = m0 s.

Section Erases.
Context {P : Prometheus}.

Lemma erases_ret {A} (a : A) : erases (mret a) (mret a).
Proof. done. Qed.

Lemma erases_lift {A} (o : outcome A) : erases (lift_st o) (lift_st o).
Proof. done. Qed.

Lemma erases_quiet {A} (m : stM Store A) : erases (quiet m) m.
Proof. intros s r. unfold quiet. cbn. by destruct (m s). Qed.

Lemma erases_shown {A} (m : stM PromState A) o : shows m o -> erases (shown m) (lift_st o).
Proof. intros H s r. specialize (H r). unfold shown. cbn. destruct (m r). cbn in *. by subst. Qed.

Lemma erases_bind {A B} (m : stM (Store * PromState) A) m0 (f : A -> stM _ B) f0 :
  erases m m0 -> (forall a, erases (f a) (f0 a)) -> erases (m ≫= f) (m0 ≫= f0).
Proof.
  intros Hm Hf s r. specialize (Hm s r). unfold mbind, stM_bind. rewrite <-Hm.
  destruct (m (s, r)) as [[s1 r1] [a| | |]]; cbn; [apply Hf|done..].
Qed.

Lemma erases_get {B} (f : Store * PromState -> stM _ B) f0 :
  (forall s r, erases (f (s, r)) (f0 s)) -> erases (get_st ≫= f) (get_st ≫= f0).
Proof. intros Hf s r. apply (Hf s r s r). Qed.

(** A step that only touches the metrics, before or after. *)
Lemma erases_then {A B} (m : stM (Store * PromState) A) a (f : A -> stM _ B) m0 :
  erases m (mret a) -> erases (f a) m0 -> erases (m ≫= f) m0.
Proof.
  intros Hm Hf s r. specialize (Hm s r). unfold mbind, stM_bind.
  destruct (m (s, r)) as [[s1 r1] x]; cbn in *. injection Hm as -> ->. apply Hf.
Qed.

Lemma erases_look {B} (f : Store * PromState -> stM _ B) m0 :
  (forall s r, erases (f (s, r)) m0) -> erases (get_st ≫= f) m0.
Proof. intros Hf s r. apply (Hf s r s r). Qed.

Lemma erases_after (m : stM (Store * PromState) unit) m0 (f : unit -> stM _ unit) :
  erases m m0 -> erases (f tt) (mret tt) -> erases (m ≫= f) m0.
Proof.
  intros Hm Hf s r. specialize (Hm s r). unfold mbind, stM_bind. rewrite <-Hm.
  destruct (m (s, r)) as [[s1 r1] [[]| | |]]; cbn; [by rewrite Hf|done..].
Qed.

Lemma erases_silent (m : stM PromState unit) : shows m (Ok tt) -> erases (shown m) (mret tt).
Proof. apply erases_shown. Qed.

Lemma erases_timed {A} metrics discard getter (m : stM (Store * PromState) A) m0 :
  erases m m0 ->
  erases (timed metrics (fun f sr => (sr.1, f sr.2)) discard getter m) m0.
Proof.
  intros H s r. specialize (H s r). unfold timed. destruct (m (s, r)) as [[s1 r1] x].
  by destruct (discard x).
Qed.

Lemma erases_inspect {A} (m : stM (Store * PromState) A) m0 h :
  erases m m0 -> erases h (mret tt) -> erases (inspect m h) m0.
Proof.
  intros Hm Hh s r. rewrite <-(Hm s r). unfold inspect, mbind, stM_bind.
  destruct (m (s, r)) as [[s1 r1] [a| | |]]; [|done..]. specialize (Hh s1 r1).
  destruct (h (s1, r1)) as [[s2 r2] x]; cbn in *. by injection Hh as -> ->.
Qed.

Lemma erases_inspect_err {A} (m : stM (Store * PromState) A) m0 h :
  erases m m0 -> erases h (mret tt) -> erases (inspect_err m h) m0.
Proof.
  intros Hm Hh s r. rewrite <-(Hm s r). unfold inspect_err, mbind, stM_bind.
  destruct (m (s, r)) as [[s1 r1] [|a| |]]; [done| |done..]. specialize (Hh s1 r1).
  destruct (h (s1, r1)) as [[s2 r2] x]; cbn in *. by injection Hh as -> ->.
Qed.

Lemma erases_try {A} (m : stM (Store * PromState) A) m0 :
  erases m m0 -> erases (try_st m) (try_st m0).
Proof.
  intros H s r. unfold try_st. rewrite <-(H s r). by destruct (m (s, r)) as [[s1 r1] [| | |]].
Qed.
End Erases.

(** One step of a proof that [m] erases to [m0]. *)
Ltac erases_step :=
  cbv zeta;
  match goal with
  | |- erases (mret _) (mret _) => apply erases_ret
  | |- erases (lift_st _) (lift_st _) => apply erases_lift
  | |- erases (quiet ?m) ?m => apply erases_quiet
  | |- erases (shown _) (mret tt) => apply erases_silent
  | |- erases (shown _) (lift_st _) => apply erases_shown
  | |- shows (set_gauge _ _ _) _ => apply set_gauge_shows
  | |- erases (timed _ _ _ _ _) _ => apply erases_timed
  | |- erases (inspect _ _) _ => apply erases_inspect
  | |- erases (inspect_err _ _) _ => apply erases_inspect_err
  | |- erases (try_st _) (try_st _) => apply erases_try
  | |- erases (get_st ≫= _) (get_st ≫= _) => apply erases_get; intros ? ?; cbn [fst snd]
  | |- erases (get_st ≫= _) _ => apply erases_look; intros ? ?; cbn [fst snd]
  | |- erases (_ ≫= _) (_ ≫= _) => apply erases_bind; [|intros ?]
  end.

Ltac erases_steps := repeat erases_step.

Section Handlers.
Context {P : Prometheus} {HP : PrometheusLaws P} (metrics : option Metrics).
Context (Hlabels : forall m, metrics = Some m -> labelled m).
Context {C : SszContainers} {HC : SszContainersLaws C} {LS : LeanSig}.
Context {SO : SetOrder} {HO : SetOrderLaws SO} {MO : MapOrder}.
Context {HState : SszHash State} {HHeader : SszHash BlockHeader} {HBlock : SszHash Block}
  {HBody : SszHash BlockBody} {HData : SszHash AttestationData}.

Lemma update_head_erases : erases (update_head_observed metrics) update_head.
Proof. apply erases_after; erases_steps. Qed.

Lemma update_safe_target_erases : erases (update_safe_target_observed metrics) update_safe_target.
Proof. apply erases_after; erases_steps. Qed.

Lemma accept_new_erases : erases (accept_new_attestations_observed metrics) accept_new_attestations.
Proof. apply erases_bind; [apply erases_quiet|]. intros _. apply update_head_erases. Qed.

Lemma tick_interval_erases p : erases (tick_interval_observed metrics p) (tick_interval p).
Proof.
  unfold tick_interval_observed, tick_interval. erases_steps.
  repeat case_match; try apply accept_new_erases; [apply update_safe_target_erases|erases_steps].
Qed.

Lemma tick_loop_erases fuel t p : erases (tick_loop_observed metrics fuel t p) (tick_loop fuel t p).
Proof.
  induction fuel as [|fuel IH]; cbn; erases_step; case_match; erases_steps;
    [apply tick_interval_erases|apply IH].
Qed.

Lemma on_tick_erases now p : erases (on_tick_observed metrics now p) (on_tick now p).
Proof. unfold on_tick_observed, on_tick. erases_steps. apply tick_loop_erases. Qed.

Lemma on_attestation_erases sa fb :
  erases (on_attestation_observed metrics sa fb) (on_attestation sa fb).
Proof.
  unfold on_attestation_observed, on_attestation. erases_steps;
    try (by apply shows_invalid); by apply shows_valid.
Qed.

Lemma on_gossip_attestation_erases sa :
  erases (on_gossip_attestation_observed metrics sa) (on_gossip_attestation sa).
Proof.
  unfold on_gossip_attestation_observed, on_gossip_attestation. erases_steps;
    try (by apply shows_invalid); by apply shows_valid.
Qed.

Lemma insert_block_erases r b st :
  erases (insert_block_observed metrics r b st) (modify_st (insert_block r b st)).
Proof.
  unfold insert_block_observed. erases_step. cbv zeta. apply erases_after; [erases_steps|].
  eapply (erases_then _ tt); case_match; erases_steps.
Qed.

Lemma process_block_internal_erases sb r :
  erases (process_block_internal_observed metrics sb r) (process_block_internal sb r).
Proof.
  unfold process_block_internal_observed, process_block_internal. erases_steps;
    [apply state_transition_shows|apply insert_block_erases|apply update_head_erases].
Qed.

Lemma process_purgatory_erases l roots :
  erases (process_purgatory_observed metrics l roots) (process_purgatory l roots).
Proof.
  revert roots. induction l as [|sb l IH]; intros roots; cbn; erases_steps;
    [apply process_block_internal_erases|apply IH].
Qed.

Lemma pending_loop_erases fuel roots :
  erases (pending_loop_observed metrics fuel roots) (pending_loop fuel roots).
Proof.
  revert roots. induction fuel as [|fuel IH]; intros [|root roots]; cbn; erases_steps.
  case_match; [|apply IH]. erases_steps; [apply process_purgatory_erases|apply IH].
Qed.

Lemma on_block_erases sb : erases (on_block_observed metrics sb) (on_block sb).
Proof.
  unfold on_block_observed, on_block. erases_step. repeat case_match; erases_steps;
    [apply process_block_internal_erases|].
  unfold process_pending_blocks_observed, process_pending_blocks. erases_steps.
  apply pending_loop_erases.
Qed.

Lemma get_proposal_head_erases slot :
  erases (get_proposal_head_observed metrics slot) (get_proposal_head slot).
Proof.
  unfold get_proposal_head_observed, get_proposal_head. erases_steps;
    [apply on_tick_erases|apply accept_new_erases].
Qed.

Lemma produce_block_erases slot v :
  erases (produce_block_observed metrics slot v) (produce_block_with_signatures slot v).
Proof.
  unfold produce_block_observed, produce_block_with_signatures. erases_steps;
    [apply get_proposal_head_erases|by apply build_block_shows|].
  match goal with x : _ * _ * _ * _ |- _ => destruct x as [[[? ?] ?] ?] end. erases_steps.
Qed.

(** ** The validator client *)

Lemma sign_block_shows vs s b v proofs :
  shows (sign_block_observed metrics vs s b v proofs) (sign_block vs s b v proofs).
Proof. unfold sign_block_observed, sign_block. shows_steps. Qed.

Lemma build_block_proposal_erases vs slot v :
  erases (build_block_proposal_observed metrics vs slot v) (build_block_proposal vs slot v).
Proof.
  unfold build_block_proposal_observed, build_block_proposal.
  erases_step; [apply produce_block_erases|].
  match goal with x : _ * _ * _ |- _ => destruct x as [[? ?] ?] end. erases_steps.
  apply sign_block_shows.
Qed.

Lemma attest_shows vs data idx : shows (attest_observed metrics vs data idx) (attest vs data idx).
Proof.
  unfold attest_observed, attest. shows_steps.
  unfold attestation_signature_observed, attestation_signature. case_match; shows_steps.
Qed.

Lemma foldM_omap {A B} (f : A -> outcome (option B)) acc l :
  foldM (fun acc x => y ← f x; Ok (acc ++ option_list y)) acc l =
  (ys ← mapM f l; Ok (acc ++ omap id ys)).
Proof.
  revert acc. induction l as [|x l IH]; intros acc; cbn; [by rewrite app_nil_r|].
  destruct (f x) as [y| | |]; cbn; [|done..]. rewrite IH.
  destruct (mapM f l) as [ys| | |]; cbn; [|done..]. destruct y; cbn; by rewrite <-app_assoc.
Qed.

Lemma create_attestations_shows vs s slot :
  shows (create_attestations_observed metrics vs s slot) (create_attestations vs s slot).
Proof.
  unfold create_attestations_observed, create_attestations. shows_step; [shows_steps|].
  case_match; [shows_steps|]. case_match; [|shows_steps]. cbv zeta.
  intros r. etransitivity; [|exact (foldM_omap _ [] _)]. revert r. apply shows_fold.
  intros atts idx. shows_steps. apply attest_shows.
Qed.

Lemma new_with_keys_shows {FS : FileSystem} config n dir :
  shows (new_with_keys_observed metrics config n dir) (new_with_keys config n dir).
Proof. unfold new_with_keys_observed, set_validators_count, new_with_keys. shows_steps. Qed.
End Handlers.
