(* ===== verification/Gauges.v ===== *)
(** * The gauges of fork choice

    Whatever ticks, blocks, votes and proposals a node handles from genesis on, the
    gauges [lean_head_slot], [lean_safe_target_slot], [lean_latest_justified_slot] and
    [lean_latest_finalized_slot] show the slots of the head, the safe target and the
    checkpoints of its store ([run_gauges]), and recording metrics changes nothing that a
    handler does. *)

From stdpp Require Import strings.
From S2P Require Import Prelude Slot Ssz Xmss Containers State StateInv StateTheorems BuildBlock.
From S2P Require Import ForkChoice StoreInv StoreBlocks StoreTheorems Derivation Validator Node.
From S2P Require Import Discovery Metrics Observed Example.

#[local] Open Scope N_scope.

(** What the gauges follow. *)
Definition view (s : Store) : H256 * H256 * Checkpoint * Checkpoint :=
  (s_head s, s_safe_target s, s_latest_justified s, s_latest_finalized s).

Section Gauges.
Context {P : Prometheus} {HP : PrometheusLaws P}.

(** The gauges show the store. *)
Record gauges_show (m : Metrics) (s : Store) (r : PromState) : Prop := mkGaugesShow {
  gs_head : exists b, s_blocks s !! s_head s = Some b /\
    gauge_value r (lean_head_slot m) [] = Z.of_N (b_slot b);
  gs_safe : exists b, s_blocks s !! s_safe_target s = Some b /\
    gauge_value r (lean_safe_target_slot m) [] = Z.of_N (b_slot b);
  gs_just : gauge_value r (lean_latest_justified_slot m) [] =
    Z.of_N (cp_slot (s_latest_justified s));
  gs_fin : gauge_value r (lean_latest_finalized_slot m) [] =
    Z.of_N (cp_slot (s_latest_finalized s))
}.

Definition same_gauges (r0 r : PromState) : Prop :=
  forall x ls, gauge_value r x ls = gauge_value r0 x ls.

(** ** Four different gauges *)

Lemma field_ne m i j x y :
  metric_name <$> metric_fields m = field_names ->
  metric_fields m !! i = Some x -> metric_fields m !! j = Some y -> i <> j -> x <> y.
Proof.
  intros E%fields_distinct Hi Hj Hne ->. apply Hne. by apply (NoDup_lookup _ i j y E).
Qed.

(** The four gauges are fields 10, 12, 19 and 20. *)
Lemma gauges_differ m :
  metric_name <$> metric_fields m = field_names ->
  NoDup [lean_head_slot m; lean_safe_target_slot m; lean_latest_justified_slot m;
         lean_latest_finalized_slot m].
Proof.
  intros E. repeat (apply NoDup_cons; split; [|]); [..|by apply NoDup_nil];
    rewrite ?not_elem_of_cons; repeat split; try apply not_elem_of_nil;
    [apply (field_ne m 10 12)|apply (field_ne m 10 19)|apply (field_ne m 10 20)
    |apply (field_ne m 12 19)|apply (field_ne m 12 20)|apply (field_ne m 19 20)]; done.
Qed.

Lemma set_gauge_value m getter v r x :
  v < 9223372036854775808 ->
  gauge_value (set_gauge_u64 (Some m) getter (Ok v) r) x [] =
  if bool_decide (x = getter m) then Z.of_N v else gauge_value r x [].
Proof.
  intros Hv. unfold set_gauge_u64. cbn [mbind outcome_bind]. rewrite try_into_i64_small by done.
  cbn [ok_or]. rewrite gauge_set_value.
  by rewrite (bool_decide_ext (x = getter m /\ [] = []) (x = getter m)) by tauto.
Qed.
End Gauges.

(** ** Steps that leave the gauges alone *)

(** A property of the metrics that plain counters and histograms do not touch. *)
Class Calm {P : Prometheus} (Q : PromState -> Prop) : Prop := {
  calm_count : forall x n r, Q r -> Q (counter_inc_by x [] n r);
  calm_observe : forall x r, Q r -> Q (observe x r)
}.

#[export] Instance same_gauges_calm {P : Prometheus} {HP : PrometheusLaws P} r0 :
  Calm (same_gauges r0).
Proof.
  split.
  - intros x n r Hr y ls. rewrite counter_inc_by_gauge. apply Hr.
  - intros x r Hr y ls. rewrite observe_gauge. apply Hr.
Qed.

Section Calm.
Context {P : Prometheus} (metrics : option Metrics) (Q : PromState -> Prop) {HQ : Calm Q}.

Lemma count_calm getter n : keeps Q (count metrics getter n).
Proof.
  intros r Hr. unfold count, record, modify_st. cbn. destruct metrics; [|done]. by apply calm_count.
Qed.

Lemma timed_calm {A} discard getter (m : stM PromState A) :
  keeps Q m -> keeps Q (timed metrics (fun f => f) discard getter m).
Proof.
  intros H r Hr. specialize (H r Hr). unfold timed. destruct (m r) as [r' x]; cbn in *.
  destruct (discard x), metrics; cbn; try done. by apply calm_observe.
Qed.

Lemma fold_keeps {S A B} (R : S -> Prop) (f : B -> A -> stM S B) b l :
  (forall b x, keeps R (f b x)) -> keeps R (fold_st f b l).
Proof.
  intros Hf. revert b. induction l as [|x l IH]; intros b; [apply keeps_ret|].
  apply keeps_bind; auto.
Qed.
End Calm.

Lemma count_with_gauges {P : Prometheus} {HP : PrometheusLaws P} metrics r0 getter l :
  keeps (same_gauges r0) (count_with metrics getter l).
Proof.
  unfold count_with. destruct metrics; [|apply keeps_ret]. case_match; [|apply keeps_lift].
  apply keeps_modify. intros r Hr x ls. unfold counter_inc. rewrite counter_inc_by_gauge. apply Hr.
Qed.

(** One step of a proof that a computation leaves the gauges alone. *)
Ltac calm_step :=
  cbv zeta;
  match goal with
  | |- Calm _ => exact _
  | |- keeps _ (mret _) => apply keeps_ret
  | |- keeps _ (lift_st _) => apply keeps_lift
  | |- keeps _ (count _ _ _) => apply count_calm
  | |- keeps _ (timed _ _ _ _ _) => apply timed_calm
  | |- keeps _ (fold_st _ _ _) => apply fold_keeps; intros
  | |- keeps _ (_ ≫= _) => apply keeps_bind; [|intros]
  end.

Ltac calm_steps := repeat calm_step.

Section CalmSteps.
Context {P : Prometheus} (metrics : option Metrics) (Q : PromState -> Prop) {HQ : Calm Q}.
Context {C : SszContainers} {LS : LeanSig} {SO : SetOrder}.
Context {HState : SszHash State} {HHeader : SszHash BlockHeader}
  {HBody : SszHash BlockBody} {HData : SszHash AttestationData}.

Lemma process_slots_calm s t : keeps Q (process_slots_observed metrics s t).
Proof.
  unfold process_slots_observed. calm_steps. generalize (N.to_nat (t - st_slot s)). intros fuel.
  revert s. induction fuel as [|fuel IH]; intros s; cbn; case_match; calm_steps. apply IH.
Qed.

Lemma process_block_calm s b : keeps Q (process_block_observed metrics s b).
Proof. unfold process_block_observed, process_attestations_observed. calm_steps. Qed.

Lemma state_transition_calm s sb v : keeps Q (state_transition_observed metrics s sb v).
Proof.
  unfold state_transition_observed. calm_steps; [apply process_slots_calm|apply process_block_calm].
Qed.

Lemma apply_block_calm s b : keeps Q (apply_block_observed metrics s b).
Proof.
  unfold apply_block_observed. calm_steps; [apply process_slots_calm|apply process_block_calm].
Qed.

Lemma compute_aggregated_signatures_calm s atts gs ps :
  keeps Q (compute_aggregated_signatures_observed metrics s atts gs ps).
Proof.
  unfold compute_aggregated_signatures_observed, aggregate_group_observed, aggregate_observed.
  calm_steps; repeat (case_match; calm_steps).
Qed.

Lemma collect_loop_calm fuel s slot p parent av known gs ps atts :
  keeps Q (collect_loop_observed metrics fuel s slot p parent av known gs ps atts).
Proof.
  revert atts. induction fuel as [|fuel IH]; intros atts; cbn; calm_steps;
    try apply apply_block_calm; repeat case_match; calm_steps. apply IH.
Qed.

Lemma build_block_calm s slot p parent initial av known gs ps :
  keeps Q (build_block_observed metrics s slot p parent initial av known gs ps).
Proof.
  unfold build_block_observed. calm_step; [apply collect_loop_calm|].
  calm_step; [apply compute_aggregated_signatures_calm|].
  case_match. calm_step; [case_match; calm_steps|]. calm_steps. apply apply_block_calm.
Qed.
End CalmSteps.

(** * The handlers *)

(** A continuation that [R] allows. *)
Lemma bind_after {S A A'} (R : S -> S -> Prop) (m : stM S A) (f : A -> stM S A') s :
  (forall s, R s s) -> (forall a s, R s (f a s).1) -> R (m s).1 ((m ≫= f) s).1.
Proof.
  intros Hr Hf. unfold mbind, stM_bind. by destruct (m s) as [s' [a| | |]]; cbn.
Qed.

Section Handlers.
Context {P : Prometheus} {HP : PrometheusLaws P} (metrics : option Metrics).
Context (Hlabels : forall m, metrics = Some m -> labelled m).
Context (Hnames : forall m, metrics = Some m -> metric_name <$> metric_fields m = field_names).
Context {C : SszContainers} {HC : SszContainersLaws C} {LS : LeanSig}.
Context {SO : SetOrder} {HO : SetOrderLaws SO} {MO : MapOrder} {HM : MapOrderLaws MO}.
Context {HState : SszHash State} {HHeader : SszHash BlockHeader} {HBlock : SszHash Block}
  {HBody : SszHash BlockBody} {HData : SszHash AttestationData}.
Context (B : Block -> Prop) (HB : no_collisions B).

(** The invariant: a valid store, and gauges that show it. *)
Definition faithful (sr : Store * PromState) : Prop :=
  store_ok B sr.1 /\ forall m, metrics = Some m -> gauges_show m sr.1 sr.2.

(** The slots of a store fit a gauge. *)
Lemma store_slot_small s r b :
  store_ok B s -> s_blocks s !! r = Some b -> b_slot b < 9223372036854775808.
Proof.
  intros Hs Hb. destruct (proj1 (so_dom _ _ Hs r) (mk_is_Some _ _ Hb)) as [st Hst].
  apply (so_states _ _ Hs) in Hst as [Hwf (b' & Hb' & E) _ _ _]. simplify_eq.
  pose proof (wf_hist_len _ Hwf). pose proof (wf_hist_limit _ Hwf).
  unfold HistoricalRootsLimit in *. lia.
Qed.

Lemma checkpoint_slot_small s cp :
  store_ok B s -> checkpoint_ok (s_blocks s) cp -> cp_slot cp < 9223372036854775808.
Proof. intros Hs (b & Hb & <-). by eapply store_slot_small. Qed.

(** Blocks with the same root are the same. *)
Lemma same_block s s' r b :
  store_ok B s -> store_ok B s' -> s_blocks s !! r = Some b -> is_Some (s_blocks s' !! r) ->
  s_blocks s' !! r = Some b.
Proof.
  intros Hs Hs' Hb [b' Hb']. rewrite Hb'. f_equal.
  destruct (so_seen _ _ Hs r b Hb), (so_seen _ _ Hs' r b' Hb'). apply (nc_inj _ HB); congruence.
Qed.

Lemma gauges_show_transfer m s s' r r' :
  store_ok B s -> store_ok B s' -> view s' = view s -> same_gauges r r' ->
  gauges_show m s r -> gauges_show m s' r'.
Proof.
  intros Hs Hs' [= Eh Es Ej Ef] Hr [(b & Hb & Gh) (t & Ht & Gs) Gj Gf].
  pose proof (so_head _ _ Hs') as Hh. pose proof (so_safe _ _ Hs') as Hsafe. rewrite Eh in Hh.
  rewrite Es in Hsafe. split; rewrite ?Eh, ?Es, ?Ej, ?Ef, ?Hr; try done.
  - exists b. split; [by apply (same_block s s')|]. by rewrite ?Hr.
  - exists t. split; [by apply (same_block s s')|]. by rewrite ?Hr.
Qed.

Lemma quiet_exact {A} (m : stM Store A) :
  keeps (store_ok B) m -> (forall v, keeps (fun s => view s = v) m) -> keeps faithful (quiet m).
Proof.
  intros Hm Hv [s r] [Hs Hg]. specialize (Hm s Hs). specialize (Hv (view s) s eq_refl).
  unfold quiet. cbn in *. destruct (m s) as [s' x]; cbn in *. split; [done|].
  intros mt Hmt. by eapply gauges_show_transfer; [exact Hs|..|apply Hg].
Qed.

Lemma shown_exact {A} (m : stM PromState A) :
  (forall r0, keeps (same_gauges r0) m) -> keeps faithful (shown m).
Proof.
  intros Hm [s r] [Hs Hg]. specialize (Hm r r (fun _ _ => eq_refl)).
  unfold shown. cbn in *. destruct (m r) as [r' x]; cbn in *. split; [done|].
  intros mt Hmt. by eapply gauges_show_transfer; [exact Hs|..|apply Hg].
Qed.

Lemma timed_exact {A} discard getter (m : stM (Store * PromState) A) :
  keeps faithful m ->
  keeps faithful (timed metrics (fun f sr => (sr.1, f sr.2)) discard getter m).
Proof.
  intros H sr Hsr. specialize (H sr Hsr). unfold timed. destruct (m sr) as [[s r] x]; cbn in *.
  destruct (discard x); [done|]. destruct H as [Hs Hg]. split; [done|]. cbn. intros mt Hmt.
  eapply gauges_show_transfer; [exact Hs|done..| |by apply Hg]. rewrite Hmt. intros y ls.
  apply observe_gauge.
Qed.

Lemma inspect_exact {A} (m : stM (Store * PromState) A) h :
  keeps faithful m -> keeps faithful h -> keeps faithful (inspect m h).
Proof. intros Hm Hh. unfold inspect. eauto with lean. Qed.

Lemma inspect_err_exact {A} (m : stM (Store * PromState) A) h :
  keeps faithful m -> keeps faithful h -> keeps faithful (inspect_err m h).
Proof.
  intros Hm Hh sr Hsr. specialize (Hm sr Hsr). unfold inspect_err.
  destruct (m sr) as [sr' [|e| |]]; cbn in *; try done.
  by apply (keeps_bind faithful h _ Hh (fun _ => keeps_lift _ _)).
Qed.

(** ** Head, safe target and checkpoints *)

(** A gauge set to what the store has in its place. *)
Lemma set_gauge_exact (getter : Metrics -> Metric) v s r s' :
  faithful (s, r) -> store_ok B s' -> v < 9223372036854775808 ->
  (forall m r', metrics = Some m ->
    gauge_value r' (getter m) [] = Z.of_N v ->
    (forall x, x <> getter m -> gauge_value r' x [] = gauge_value r x []) -> gauges_show m s' r') ->
  faithful (s', (set_gauge metrics getter (Ok v) r).1).
Proof.
  intros [Hs Hg] Hs' Hv Hset. split; [done|]. cbn. intros m Hm. rewrite Hm. apply Hset; [done| |].
  - by rewrite set_gauge_value, bool_decide_eq_true_2.
  - intros x Hx. by rewrite set_gauge_value, bool_decide_eq_false_2.
Qed.

Lemma slot_of_block_Ok s root b e :
  s_blocks s !! root = Some b -> slot_of_block s root e = Ok (b_slot b).
Proof. intros Hb. unfold slot_of_block. by rewrite Hb. Qed.

(** The gauges that keep their metric keep their value. *)
Ltac other_gauge Hother :=
  rewrite Hother;
  [done|match goal with H : NoDup _ |- _ => rewrite !NoDup_cons, !not_elem_of_cons in H end;
        naive_solver].

Lemma update_head_exact : keeps faithful (update_head_observed metrics).
Proof.
  intros [s r] Hsr. pose proof (proj1 Hsr) as Hs; cbn in Hs.
  destruct (update_head_eq B s Hs) as (h & E & _ & _ & [b Hb]).
  pose proof (update_head_keeps B s Hs) as Hs'. rewrite E in Hs'; cbn in Hs'.
  unfold update_head_observed, quiet, shown, get_st, mbind, stM_bind. cbn [fst snd].
  rewrite E. cbn beta iota. rewrite (slot_of_block_Ok _ _ b) by done.
  apply (set_gauge_exact lean_head_slot (b_slot b) s r); [done..|by eapply store_slot_small|].
  intros m r' Hm Hset Hother. pose proof (gauges_differ m (Hnames m Hm)) as Hd.
  destruct (proj2 Hsr m Hm) as [_ (t & Ht & Gs) Gj Gf]. split; cbn in *.
  - by exists b.
  - exists t. split; [done|]. other_gauge Hother.
  - other_gauge Hother.
  - other_gauge Hother.
Qed.

Lemma update_safe_target_exact : keeps faithful (update_safe_target_observed metrics).
Proof.
  intros [s r] Hsr. pose proof (proj1 Hsr) as Hs; cbn in Hs.
  destruct (update_safe_target_eq B s Hs) as (h & E & _ & [b Hb]).
  pose proof (update_safe_target_keeps B s Hs) as Hs'. rewrite E in Hs'; cbn in Hs'.
  unfold update_safe_target_observed, quiet, shown, get_st, mbind, stM_bind. cbn [fst snd].
  rewrite E. cbn beta iota. rewrite (slot_of_block_Ok _ _ b) by done.
  apply (set_gauge_exact lean_safe_target_slot (b_slot b) s r);
    [done..|by eapply store_slot_small|].
  intros m r' Hm Hset Hother. pose proof (gauges_differ m (Hnames m Hm)) as Hd.
  destruct (proj2 Hsr m Hm) as [(t & Ht & Gh) _ Gj Gf]. split; cbn in *.
  - exists t. split; [done|]. other_gauge Hother.
  - by exists b.
  - other_gauge Hother.
  - other_gauge Hother.
Qed.

(** ** Ticks *)

Lemma modify_exact f :
  (forall s, store_ok B s -> store_ok B (f s)) -> (forall s, view (f s) = view s) ->
  keeps faithful (quiet (modify_st f)).
Proof.
  intros Hf Hv. apply quiet_exact; [by apply keeps_modify|]. intros v. apply keeps_modify.
  intros s <-. apply Hv.
Qed.

Lemma accept_new_exact : keeps faithful (accept_new_attestations_observed metrics).
Proof.
  apply keeps_bind; [|intros; apply update_head_exact].
  apply modify_exact; [|done]. intros s. apply store_ok_votes.
Qed.

Lemma tick_interval_exact p : keeps faithful (tick_interval_observed metrics p).
Proof.
  apply keeps_bind; [apply modify_exact; [|done]; intros s; apply store_ok_time|]. intros _.
  apply keeps_bind; [apply keeps_get|]. intros sr. cbv zeta.
  repeat case_match; try apply accept_new_exact; [apply update_safe_target_exact|apply keeps_ret].
Qed.

Lemma on_tick_exact now p : keeps faithful (on_tick_observed metrics now p).
Proof.
  apply keeps_bind; [apply keeps_get|]. intros sr. cbv zeta.
  generalize (saturating_sub now (genesis_time (s_config sr.1)) / SECONDS_PER_INTERVAL). intros t.
  generalize (N.to_nat (t - s_time sr.1)). intros fuel.
  induction fuel as [|fuel IH]; cbn; (apply keeps_bind; [apply keeps_get|]); intros sr';
    case_match; try apply keeps_ret; try apply keeps_lift.
  apply keeps_bind; [apply tick_interval_exact|]. intros _. apply IH.
Qed.

(** ** Votes *)

Lemma ok_from_keeps {A} (m : stM Store A) :
  (forall s0, keeps (ok_from B s0) m) -> keeps (store_ok B) m.
Proof. intros H s Hs. apply (H s s). by apply ok_from_refl. Qed.

Lemma on_attestation_internal_view v d fb w :
  keeps (fun s => view s = w) (on_attestation_internal v d fb).
Proof.
  unfold on_attestation_internal.
  destruct fb; [apply keeps_bind; [|intros _]|]; apply keeps_modify; intros s Hs;
    repeat case_match; done.
Qed.

Lemma on_attestation_internal_exact v d fb :
  keeps faithful (quiet (on_attestation_internal v d fb)).
Proof.
  apply quiet_exact; [apply ok_from_keeps; intros; apply on_attestation_internal_keeps|].
  intros. apply on_attestation_internal_view.
Qed.

Lemma insert_gossip_exact v d sig : keeps faithful (quiet (modify_st (insert_gossip v d sig))).
Proof. apply modify_exact; [|done]. intros s. apply store_ok_gossip. Qed.

Lemma count_with_exact getter l : keeps faithful (shown (count_with metrics getter l)).
Proof. apply shown_exact. intros. apply count_with_gauges. Qed.

Lemma on_attestation_exact sa fb : keeps faithful (on_attestation_observed metrics sa fb).
Proof.
  apply timed_exact. apply keeps_bind; [apply keeps_get|]. intros sr.
  apply keeps_bind; [apply inspect_err_exact; [apply keeps_lift|apply count_with_exact]|].
  intros _. apply keeps_bind; [|intros _; apply inspect_exact; [apply inspect_err_exact|];
    [apply on_attestation_internal_exact|apply count_with_exact..]].
  destruct fb; [by apply quiet_exact; [|intros]; apply keeps_ret|apply insert_gossip_exact].
Qed.

Lemma on_gossip_attestation_exact sa : keeps faithful (on_gossip_attestation_observed metrics sa).
Proof.
  apply timed_exact. apply keeps_bind; [apply keeps_get|]. intros sr.
  apply keeps_bind; [apply inspect_err_exact; [apply keeps_lift|apply count_with_exact]|].
  intros _. apply keeps_bind; [apply insert_gossip_exact|]. intros _.
  apply inspect_exact; [apply inspect_err_exact|];
    [apply on_attestation_internal_exact|apply count_with_exact..].
Qed.

(** ** Blocks *)

Lemma insert_block_view b st' s :
  view (insert_block (hash_tree_root b) b st' s) = (s_head s, s_safe_target s,
    if cp_slot (s_latest_justified s) <? cp_slot (st_latest_justified st')
    then st_latest_justified st' else s_latest_justified s,
    if cp_slot (s_latest_finalized s) <? cp_slot (st_latest_finalized st')
    then st_latest_finalized st' else s_latest_finalized s).
Proof. unfold insert_block. cbn. by do 2 case_match. Qed.

(** New checkpoints on their gauges, the other two gauges as before. *)
Lemma checkpoints_exact s r s' r' :
  faithful (s, r) -> store_ok B s' -> s_head s' = s_head s -> s_safe_target s' = s_safe_target s ->
  (forall m, metrics = Some m ->
    gauge_value r' (lean_latest_justified_slot m) [] = Z.of_N (cp_slot (s_latest_justified s')) /\
    gauge_value r' (lean_latest_finalized_slot m) [] = Z.of_N (cp_slot (s_latest_finalized s')) /\
    gauge_value r' (lean_head_slot m) [] = gauge_value r (lean_head_slot m) [] /\
    gauge_value r' (lean_safe_target_slot m) [] = gauge_value r (lean_safe_target_slot m) []) ->
  faithful (s', r').
Proof.
  intros [Hs Hg] Hs' Eh Es Hr'. cbn in *. split; [done|]. intros m Hm.
  destruct (Hr' m Hm) as (Gj & Gf & Gh & Gs).
  destruct (Hg m Hm) as [(hb & Hhb & Gh') (t & Ht & Gs') _ _]. split; cbn; [| |done..].
  - exists hb. rewrite Gh, Eh. split; [|done]. apply (same_block s); [done..|].
    rewrite <-Eh. exact (so_head _ _ Hs').
  - exists t. rewrite Gs, Es. split; [|done]. apply (same_block s); [done..|].
    rewrite <-Es. exact (so_safe _ _ Hs').
Qed.

Lemma insert_block_exact s r sb st st' :
  faithful (s, r) -> B (bwa_block (sb_message sb)) ->
  s_states s !! b_parent_root (bwa_block (sb_message sb)) = Some st ->
  state_transition st sb true = Ok st' ->
  faithful (insert_block_observed metrics (hash_tree_root (bwa_block (sb_message sb)))
    (bwa_block (sb_message sb)) st' (s, r)).1.
Proof.
  intros Hsr HBb Hst Ht. destruct (Hsr) as [Hs Hg]. cbn in Hs, Hg.
  pose proof (proj1 (insert_block_ok B HB s sb st st' Hs HBb Hst Ht)) as Hs1.
  set (b := bwa_block (sb_message sb)) in *. pose proof (insert_block_view b st' s) as Hv.
  set (s1 := insert_block (hash_tree_root b) b st' s) in *.
  pose proof (checkpoint_slot_small _ _ Hs1 (so_just _ _ Hs1)) as Lj.
  pose proof (checkpoint_slot_small _ _ Hs1 (so_fin _ _ Hs1)) as Lf.
  injection Hv as Eh Es Ej Ef. rewrite Ej in Lj. rewrite Ef in Lf.
  unfold insert_block_observed, quiet, shown, get_st, modify_st, mbind, stM_bind, set_gauge,
    mret, stM_ret. cbn [fst snd].
  revert Lj Lf Ej Ef.
  destruct (cp_slot (s_latest_justified s) <? _), (cp_slot (s_latest_finalized s) <? _);
    intros Lj Lf Ej Ef; cbn; apply (checkpoints_exact s r s1); try done;
    intros m Hm; rewrite ?Hm, Ej, Ef;
    pose proof (gauges_differ m (Hnames m Hm)) as Hd; destruct (Hg m Hm) as [_ _ Gj Gf];
    rewrite !NoDup_cons, !not_elem_of_cons in Hd;
    destruct_and! Hd; rewrite ?set_gauge_value by done; repeat case_bool_decide;
    repeat split; congruence.
Qed.

Lemma process_block_internal_exact sb :
  B (bwa_block (sb_message sb)) ->
  keeps faithful (process_block_internal_observed metrics sb
    (hash_tree_root (bwa_block (sb_message sb)))).
Proof.
  intros HBb. apply timed_exact. intros [s r] Hsr. cbv zeta.
  unfold get_st, lift_st, mbind at 1 2, stM_bind at 1 2. cbn [fst snd].
  destruct (s_states s !! _) as [st|] eqn:Est; cbn [ok_or]; [|done].
  unfold mbind at 1, stM_bind at 1.
  pose proof (shown_exact _ (fun r0 => state_transition_calm metrics (same_gauges r0) st sb true) (s, r) Hsr) as H1.
  pose proof (erases_shown _ _ (state_transition_shows metrics st sb true) s r) as E1.
  destruct (shown (state_transition_observed metrics st sb true) (s, r)) as [[s1 r1] x].
  cbn [fst snd] in H1, E1. injection E1 as -> ->. destruct (state_transition st sb true) as [st'| | |] eqn:Et;
    [|done..]. unfold mbind at 1, stM_bind at 1.
  pose proof (insert_block_exact s r1 sb st st' H1 HBb Est Et) as H2.
  destruct (insert_block_observed metrics _ _ st' (s, r1)) as [sr2 [[]| | |]]; [|done..].
  cbn [fst] in H2. revert sr2 H2. apply (keeps_bind faithful).
  { apply modify_exact; [|done]. intros s'. apply store_ok_payloads. }
  intros _. apply keeps_bind.
  { apply quiet_exact; [apply ok_from_keeps; intros|intros];
      (apply keeps_iterM; intros; apply keeps_iterM; intros);
      [apply on_attestation_internal_keeps|apply on_attestation_internal_view]. }
  intros _. apply keeps_bind; [apply update_head_exact|]. intros _.
  apply keeps_bind; [apply insert_gossip_exact|]. intros _. apply on_attestation_internal_exact.
Qed.

Lemma queue_exact q s r :
  faithful (s, r) -> store_ok B (set_blocks_queue q s) -> faithful (set_blocks_queue q s, r).
Proof.
  intros [Hs Hg] Hq. split; [done|]. intros m Hm.
  by apply (gauges_show_transfer m s _ r); [..|apply Hg].
Qed.

Lemma process_purgatory_exact l roots :
  (forall sb, sb ∈ l -> B (bwa_block (sb_message sb))) ->
  keeps faithful (process_purgatory_observed metrics l roots).
Proof.
  revert roots; induction l as [|sb l IH]; intros roots Hl; cbn [process_purgatory_observed];
    [apply keeps_ret|].
  apply keeps_bind; [|intros ok; apply IH; intros; apply Hl; by right].
  intros sr Hsr. pose proof (process_block_internal_exact sb (Hl _ (list_elem_of_here _ _)) sr Hsr).
  unfold try_st. by destruct (process_block_internal_observed metrics sb _ sr) as [sr1 []].
Qed.

Lemma pending_loop_exact fuel roots : keeps faithful (pending_loop_observed metrics fuel roots).
Proof.
  revert roots; induction fuel as [|fuel IH]; intros [|root roots]; cbn [pending_loop_observed];
    try apply keeps_ret; [apply keeps_lift|].
  intros [s r] Hsr. pose proof (proj1 Hsr) as Hs. cbn in Hs.
  unfold mbind at 1, stM_bind at 1, get_st. cbn [fst snd].
  destruct (s_blocks_queue s !! root) as [l|] eqn:El; [|by apply IH].
  unfold mbind at 1, stM_bind at 1, quiet, modify_st. cbn beta iota delta [fst snd].
  apply (keeps_bind faithful); [|intros; apply IH|].
  - apply process_purgatory_exact. intros sb Hsb. by apply (so_queue _ _ Hs root l).
  - apply queue_exact; [done|]. apply store_ok_queue; [done|]. intros p l' sb Hl'.
    apply lookup_delete_Some in Hl' as [_ Hl']. by apply (so_queue _ _ Hs).
Qed.

Lemma on_block_cases sb s r :
  let block := bwa_block (sb_message sb) in
  on_block_observed metrics sb (s, r) =
  if bool_decide (is_Some (s_blocks s !! hash_tree_root block)) then ((s, r), Ok tt) else
  if bool_decide (s_states s !! b_parent_root block = None) && negb (is_zero (b_parent_root block))
  then
    let s' := set_blocks_queue
      (<[b_parent_root block := default [] (s_blocks_queue s !! b_parent_root block) ++ [sb]]>
        (s_blocks_queue s)) s in
    ((s', r), Err (EBlockQueued (b_parent_root block) (queued s')))
  else (_ ← process_block_internal_observed metrics sb (hash_tree_root block);
        process_pending_blocks_observed metrics [hash_tree_root block]) (s, r).
Proof.
  cbv zeta. unfold on_block_observed, mbind at 1, stM_bind at 1, get_st at 1. cbn [fst snd].
  case_bool_decide; [done|]. by destruct (bool_decide _ && negb _).
Qed.

Lemma on_block_exact sb :
  B (bwa_block (sb_message sb)) -> keeps faithful (on_block_observed metrics sb).
Proof.
  intros HBb [s r] Hsr. pose proof (on_block_keeps B sb HB HBb s (proj1 Hsr)) as Hk.
  pose proof (f_equal fst (on_block_erases metrics sb s r)) as He. cbn [fst] in He.
  rewrite <-He in Hk. clear He. rewrite on_block_cases in *.
  case_bool_decide; [exact Hsr|]. destruct (bool_decide _ && negb _).
  { apply queue_exact; [done|exact Hk]. }
  apply keeps_bind; [by apply process_block_internal_exact| |exact Hsr].
  intros _. apply keeps_bind; [apply keeps_get|]. intros. apply pending_loop_exact.
Qed.

(** ** Proposals *)

Lemma get_proposal_head_exact slot : keeps faithful (get_proposal_head_observed metrics slot).
Proof.
  apply keeps_bind; [apply keeps_get|]. intros sr. apply keeps_bind; [apply on_tick_exact|].
  intros _. apply keeps_bind; [apply accept_new_exact|]. intros _.
  apply keeps_bind; [apply keeps_get|]. intros. apply keeps_ret.
Qed.

(** Gauges and what they follow stay as they are. *)
Definition undisturbed (sr sr' : Store * PromState) : Prop :=
  same_gauges sr.2 sr'.2 /\ view sr'.1 = view sr.1.

(** After a proposal has its head. *)
Lemma produce_block_rest slot v sr :
  undisturbed (get_proposal_head_observed metrics slot sr).1
    (produce_block_observed metrics slot v sr).1.
Proof.
  unfold produce_block_observed. apply bind_after; [by split|].
  intros h sr1. apply (keeps_bind (undisturbed sr1)); [apply keeps_get| |by split].
  intros sr2. cbv zeta. repeat (apply keeps_bind; [apply keeps_lift|intros]).
  apply keeps_bind; [|intros [[[b post] ?] ?]; apply keeps_bind; [|intros; apply keeps_ret]].
  - intros sr3 [Hg Hv].
    pose proof (build_block_calm metrics (same_gauges sr1.2) a slot v h None
      (Some ((fun '(i, data) => mkAttestation i data)
        <$> hm_iter (s_latest_known_attestations sr2.1)))
      (Some (dom (s_blocks sr2.1))) (Some (s_gossip_signatures sr2.1))
      (Some (s_aggregated_payloads sr2.1)) sr3.2 Hg) as Hc.
    unfold shown. destruct (build_block_observed metrics _ _ _ _ _ _ _ _ _ _). by split.
  - by intros sr3 [Hg Hv].
Qed.

(** A proposal whose block is one of the node's blocks. *)
Lemma produce_block_exact slot v s r :
  faithful (s, r) ->
  (forall root b proofs, (produce_block_with_signatures slot v s).2 = Ok (root, b, proofs) -> B b) ->
  faithful (produce_block_observed metrics slot v (s, r)).1.
Proof.
  intros Hsr HBb. pose proof (get_proposal_head_exact slot _ Hsr) as H1.
  destruct (produce_block_rest slot v (s, r)) as [Hg Hv].
  pose proof (f_equal fst (produce_block_erases metrics slot v s r)) as He. cbn [fst] in He.
  assert (Hs' : store_ok B (produce_block_observed metrics slot v (s, r)).1.1).
  { rewrite He. apply (si_produce (StoreInvariant := store_ok_invariant B HB True) I slot v s);
      [apply Hsr|done]. }
  split; [done|]. intros m Hm. destruct H1 as [Hs1 Hg1].
  by eapply gauges_show_transfer; [exact Hs1|..|apply Hg1].
Qed.
End Handlers.

(** * Runs *)

(** What a node does with its store. *)
Inductive StoreEvent :=
  | Ticked (now : u64) (has_proposal : bool)
  | BlockReceived (sb : SignedBlockWithAttestation)
  | AttestationReceived (sa : SignedAttestation) (is_from_block : bool)
  | GossipReceived (sa : SignedAttestation)
  | ProposalDue (vs : ValidatorService) (slot : Slot) (proposer_index : u64)
  | VotesDue (vs : ValidatorService) (slot : Slot).

(** What the node gets for an event: nothing but success, a signed block, or votes. *)
Inductive Reply :=
  | Done
  | Proposal (signed_block : SignedBlockWithAttestation)
  | Votes (signed_attestations : list SignedAttestation).

Definition reply {S A} (f : A -> Reply) (m : stM S A) : stM S Reply := a ← m; mret (f a).

Abbreviation reply_done := (reply (fun _ : unit => Done)).

Section Events.
Context {C : SszContainers} {LS : LeanSig} {SO : SetOrder} {MO : MapOrder}.
Context {HState : SszHash State} {HHeader : SszHash BlockHeader} {HBlock : SszHash Block}
  {HBody : SszHash BlockBody} {HData : SszHash AttestationData}.

Definition serve (e : StoreEvent) : stM Store Reply :=
  match e with
  | Ticked now has_proposal => reply_done (on_tick now has_proposal)
  | BlockReceived sb => reply_done (on_block sb)
  | AttestationReceived sa is_from_block => reply_done (on_attestation sa is_from_block)
  | GossipReceived sa => reply_done (on_gossip_attestation sa)
  | ProposalDue vs slot v => reply Proposal (build_block_proposal vs slot v)
  | VotesDue vs slot => s ← get_st; reply Votes (lift_st (create_attestations vs s slot))
  end.

Definition serve_observed {P : Prometheus} (metrics : option Metrics) (e : StoreEvent)
    : stM (Store * PromState) Reply :=
  match e with
  | Ticked now has_proposal => reply_done (on_tick_observed metrics now has_proposal)
  | BlockReceived sb => reply_done (on_block_observed metrics sb)
  | AttestationReceived sa is_from_block =>
      reply_done (on_attestation_observed metrics sa is_from_block)
  | GossipReceived sa => reply_done (on_gossip_attestation_observed metrics sa)
  | ProposalDue vs slot v => reply Proposal (build_block_proposal_observed metrics vs slot v)
  | VotesDue vs slot =>
      sr ← get_st; reply Votes (shown (create_attestations_observed metrics vs sr.1 slot))
  end.

(** The state after all events, and what each of them returned. *)
Fixpoint serve_all {S} (step : StoreEvent -> stM S Reply) (events : list StoreEvent) (s : S)
    : S * list (outcome Reply) :=
  match events with
  | [] => (s, [])
  | e :: events =>
      let '(s, x) := step e s in
      let '(s, xs) := serve_all step events s in (s, x :: xs)
  end.

(** The blocks that come in or are built are among the node's blocks. *)
Definition event_in (B : Block -> Prop) (s : Store) (e : StoreEvent) : Prop :=
  match e with
  | BlockReceived sb => B (bwa_block (sb_message sb))
  | ProposalDue _ slot v => forall root b proofs,
      (produce_block_with_signatures slot v s).2 = Ok (root, b, proofs) -> B b
  | _ => True
  end.

Fixpoint events_in (B : Block -> Prop) (s : Store) (events : list StoreEvent) : Prop :=
  match events with
  | [] => True
  | e :: events => event_in B s e /\ events_in B (serve e s).1 events
  end.
End Events.

Section Runs.
Context {P : Prometheus} {HP : PrometheusLaws P} (metrics : option Metrics).
Context (Hlabels : forall m, metrics = Some m -> labelled m).
Context {C : SszContainers} {HC : SszContainersLaws C} {LS : LeanSig}.
Context {SO : SetOrder} {HO : SetOrderLaws SO} {MO : MapOrder}.
Context {HState : SszHash State} {HHeader : SszHash BlockHeader} {HBlock : SszHash Block}
  {HBody : SszHash BlockBody} {HData : SszHash AttestationData}.

Lemma reply_erases {A} (f : A -> Reply) (m : stM (Store * PromState) A) m0 :
  erases m m0 -> erases (reply f m) (reply f m0).
Proof. intros H. apply erases_bind; [exact H|intros; apply erases_ret]. Qed.

Lemma serve_erases e : erases (serve_observed metrics e) (serve e).
Proof.
  destruct e; cbn.
  - apply reply_erases, on_tick_erases.
  - apply reply_erases, on_block_erases.
  - by apply reply_erases, on_attestation_erases.
  - by apply reply_erases, on_gossip_attestation_erases.
  - by apply reply_erases, build_block_proposal_erases.
  - erases_step. apply reply_erases, erases_shown, create_attestations_shows.
Qed.

Lemma serve_all_erases events s r :
  let x := serve_all (serve_observed metrics) events (s, r) in
  (x.1.1, x.2) = serve_all serve events s.
Proof.
  revert s r. induction events as [|e events IH]; intros s r; [done|]. cbn.
  rewrite <-(serve_erases e s r). destruct (serve_observed metrics e (s, r)) as [[s1 r1] x].
  cbn. rewrite <-(IH s1 r1). by destruct (serve_all _ events (s1, r1)) as [[s2 r2] xs].
Qed.

Section Exact.
Context (Hnames : forall m, metrics = Some m -> metric_name <$> metric_fields m = field_names).
Context {HM : MapOrderLaws MO} (B : Block -> Prop) (HB : no_collisions B).

Lemma reply_fst {S A} (f : A -> Reply) (m : stM S A) s : (reply f m s).1 = (m s).1.
Proof. unfold reply, mbind, stM_bind. by destruct (m s) as [? []]. Qed.

Lemma proposal_exact vs slot v s r :
  faithful metrics B (s, r) -> event_in B s (ProposalDue vs slot v) ->
  faithful metrics B (build_block_proposal_observed metrics vs slot v (s, r)).1.
Proof.
  intros Hsr HBb. pose proof (produce_block_exact metrics Hnames B HB slot v s r Hsr HBb) as H.
  unfold build_block_proposal_observed, mbind at 1, stM_bind at 1.
  destruct (produce_block_observed metrics slot v (s, r)) as [sr1 [[[root b] proofs]| | |]];
    [|done..]. cbn [fst] in H. revert sr1 H. apply (keeps_bind (faithful metrics B)); [apply keeps_get|].
  intros sr2. apply (shown_exact metrics B HB). intros r0. unfold sign_block_observed. calm_steps.
Qed.

Lemma serve_exact e s r :
  faithful metrics B (s, r) -> event_in B s e ->
  faithful metrics B (serve_observed metrics e (s, r)).1.
Proof.
  intros Hsr He. destruct e; cbn [serve_observed]; rewrite ?reply_fst.
  - by apply (on_tick_exact metrics Hnames B HB).
  - by apply (on_block_exact metrics Hnames B HB).
  - by apply (on_attestation_exact metrics B HB).
  - by apply (on_gossip_attestation_exact metrics B HB).
  - by apply proposal_exact.
  - revert Hsr. apply (keeps_bind (faithful metrics B)); [apply keeps_get|]. intros sr.
    apply keeps_bind; [|intros; apply keeps_ret].
    apply (shown_exact metrics B HB). intros r0.
    unfold create_attestations_observed, attest_observed, attestation_signature_observed.
    calm_steps; repeat (case_match; calm_steps).
Qed.

Lemma serve_all_exact events s r :
  faithful metrics B (s, r) -> events_in B s events ->
  faithful metrics B (serve_all (serve_observed metrics) events (s, r)).1.
Proof.
  revert s r. induction events as [|e events IH]; intros s r Hsr He; [done|].
  destruct He as [He Hes]. pose proof (serve_exact e s r Hsr He) as H1. cbn.
  rewrite <-(serve_erases e s r) in Hes.
  destruct (serve_observed metrics e (s, r)) as [[s1 r1] x]. cbn in H1, Hes.
  pose proof (IH s1 r1 H1 Hes). by destruct (serve_all _ events (s1, r1)).
Qed.
End Exact.
End Runs.

Section Theorems.
Context {P : Prometheus} {HP : PrometheusLaws P}.
Context {C : SszContainers} {HC : SszContainersLaws C} {LS : LeanSig}.
Context {SO : SetOrder} {HO : SetOrderLaws SO} {MO : MapOrder}.
Context {HState : SszHash State} {HHeader : SszHash BlockHeader} {HBlock : SszHash Block}
  {HBody : SszHash BlockBody} {HData : SszHash AttestationData}.

(** C23: metrics do not interfere: with the metrics the node makes, any sequence of
    ticks, blocks, votes and duties leaves the store that the handlers without metrics
    leave, and every handler returns what it returns without them, the proposed blocks
    and the signed votes included: no counter, gauge or timer fails, panics or changes a
    result or an error. *)
Theorem metrics_do_not_interfere r0 : exists m r1,
  Metrics_new r0 = (r1, Ok m) /\
  forall events s r,
    let x := serve_all (serve_observed (Some m)) events (s, r) in
    (x.1.1, x.2) = serve_all serve events s.
Proof.
  destruct (Metrics_new_ok r0) as (m & r1 & E & Hl & _). exists m, r1. split; [done|].
  intros events s r. refine (serve_all_erases (Some m) _ events s r). by intros ? [= <-].
Qed.

Lemma genesis_faithful B (HB : no_collisions B) g s secs r m r' :
  genesis_store g = Ok s ->
  (forall st, s_states s !! s_head s = Some st -> B (bwa_block (sb_message (genesis_block st)))) ->
  started secs r m r' -> faithful (Some m) B (s, r').
Proof.
  intros Hg HBg Hst. destruct (genesis_store_inv g s Hg) as (gst & cfg & -> & Hs & Ha).
  split; [apply (anchor_store_ok B HB _ _ _ Ha); by apply HBg|].
  intros m' [= <-]. destruct Ha as (_ & _ & Hz & _ & Hj & Hf).
  assert (Hzero : forall i x, metric_fields m !! i = Some x -> (2 <= i)%nat ->
    gauge_value r' x [] = 0%Z).
  { intros i x Hi Hle. apply (st_gauge_zero _ _ _ _ Hst); [by eapply list_elem_of_lookup_2|..];
      [apply (field_ne m i 0)|apply (field_ne m i 1)]; try done; try apply (st_names _ _ _ _ Hst); lia. }
  split; cbn [fst snd].
  - exists (block_of (genesis_block gst)). split; [apply lookup_singleton_eq|].
    rewrite (Hzero 10%nat) by done || lia. done.
  - exists (block_of (genesis_block gst)). split; [apply lookup_singleton_eq|].
    rewrite (Hzero 12%nat) by done || lia. done.
  - rewrite (Hzero 19%nat) by done || lia. unfold get_forkchoice_store. cbn. by rewrite Hj.
  - rewrite (Hzero 20%nat) by done || lia. unfold get_forkchoice_store. cbn. by rewrite Hf.
Qed.

(** After any run the gauges show the store. *)
Lemma run_gauges {HM : MapOrderLaws MO} B secs r m r0 g s events :
  no_collisions B -> started secs r m r0 -> genesis_store g = Ok s ->
  (forall st, s_states s !! s_head s = Some st -> B (bwa_block (sb_message (genesis_block st)))) ->
  events_in B s events ->
  gauges_show m (serve_all serve events s).1
    (serve_all (serve_observed (Some m)) events (s, r0)).1.2.
Proof.
  intros HB Hst Hg HBg He.
  assert (Hl : forall m', Some m = Some m' -> labelled m') by (intros ? [= <-]; apply Hst).
  assert (Hn : forall m', Some m = Some m' -> metric_name <$> metric_fields m' = field_names)
    by (intros ? [= <-]; apply Hst).
  rewrite <-(serve_all_erases (Some m) Hl events s r0).
  apply (serve_all_exact (Some m) Hl Hn B HB events s r0); [by eapply genesis_faithful|done..].
Qed.
End Theorems.

(** ** Counting *)

Section Counting.
Context {P : Prometheus} {HP : PrometheusLaws P} (m : Metrics).
Context {LS : LeanSig}.

(** Every signature of an attestation gives two samples: the first timer is still there
    when the second one is started. *)
Theorem signing_timed_twice vs km idx epoch message r :
  vs_key_manager vs = Some km ->
  sample_count (attestation_signature_observed (Some m) vs idx epoch message r).1
    (lean_pq_signature_attestation_signing_time_seconds m) =
  wadd (wadd (sample_count r (lean_pq_signature_attestation_signing_time_seconds m)) 1) 1.
Proof.
  intros Hk. unfold attestation_signature_observed, timed, lift_st. rewrite Hk. cbn [fst].
  by rewrite !observe_count, !bool_decide_eq_true_2.
Qed.

End Counting.

(** * A concrete run *)

Section Concrete.
Import Toy ToyProm.

#[local] Ltac is_seen := unfold seen, listed; rewrite !elem_of_cons; tauto.

(** Block 1 arrives, the node's validators vote, validator 2 proposes. *)
Definition toy_events : list StoreEvent :=
  [Ticked 1004 false; BlockReceived sb1; VotesDue toy_service 1; ProposalDue toy_service 2 2].

Lemma toy_events_seen : events_in seen store0 toy_events.
Proof.
  split; [done|]. split; [change (seen block1); is_seen|]. split; [done|]. split; [|done].
  cbn [event_in]. intros root b proofs H. set (s := (_ : Store)) in H.
  assert (Eb : match (produce_block_with_signatures 2 2 s).2 with
    | Ok (_, b, _) => b = pblock | _ => False end) by (vm_compute; reflexivity).
  rewrite H in Eb. subst b. is_seen.
Qed.

Lemma metrics_do_not_interfere_witness : exists m r1,
  Metrics_new toy_registry = (r1, Ok m) /\
  forall r, let x := serve_all (serve_observed (Some m)) toy_events (store0, r) in
    (x.1.1, x.2) = serve_all serve toy_events store0.
Proof.
  destruct (metrics_do_not_interfere toy_registry) as (m & r1 & E & H).
  exists m, r1. exact (conj E (H toy_events store0)).
Defined.

(** The metrics of the run. *)
Definition toy_metrics : option Metrics :=
  match (start_metrics toy_config (Some 1763757427) toy_registry).2 with Ok m => m | _ => None end.

Definition toy_shown (f : Metrics -> PromState -> Z) : option Z :=
  m ← toy_metrics;
  Some (f m (serve_all (serve_observed (Some m)) toy_events (store0, toy_registry)).1.2).

Example head_and_safe_target_shown :
  toy_shown (fun m r => gauge_value r (lean_head_slot m) []) = Some 1%Z /\
  toy_shown (fun m r => gauge_value r (lean_safe_target_slot m) []) = Some 0%Z.
Proof. split; vm_compute; reflexivity. Qed.
End Concrete.
