(* ===== verification/Counters.v ===== *)
(** * The counters of votes

    The handlers [on_attestation] and [on_gossip_attestation] count each vote by its
    source as valid or invalid, and nothing else does: after any sequence of events the
    counters are the numbers of votes that these handlers accepted and refused.  The votes
    that come in blocks bypass them and are not counted ([block_votes_uncounted]), although
    the counters have a label for them.  With [Gauges], what a node shows of fork choice. *)

From stdpp Require Import strings.
From S2P Require Import Prelude Slot Ssz Xmss Containers State StateTheorems BuildBlock.
From S2P Require Import ForkChoice StoreInv StoreBlocks StoreTheorems Validator Node.
From S2P Require Import Discovery Metrics Observed Gauges Example.

#[local] Open Scope N_scope.

(** The values of counters with one label. *)
Definition same_votes {P : Prometheus} (r0 r : PromState) : Prop :=
  forall x l, counter_value r x [l] = counter_value r0 x [l].

(** ** Everything but votes *)

#[export] Instance same_votes_calm {P : Prometheus} {HP : PrometheusLaws P} r0 :
  Calm (same_votes r0).
Proof.
  split.
  - intros x n r Hr y l. rewrite counter_inc_by_value, bool_decide_eq_false_2 by naive_solver.
    apply Hr.
  - intros x r Hr y l. rewrite observe_counter. apply Hr.
Qed.

Section Silent.
Context {P : Prometheus} {HP : PrometheusLaws P} (metrics : option Metrics) (r0 : PromState).
Context {C : SszContainers} {LS : LeanSig} {SO : SetOrder} {MO : MapOrder}.
Context {HState : SszHash State} {HHeader : SszHash BlockHeader} {HBlock : SszHash Block}
  {HBody : SszHash BlockBody} {HData : SszHash AttestationData}.

Definition votes_kept (sr : Store * PromState) : Prop := same_votes r0 sr.2.

Lemma quiet_silent {A} (m : stM Store A) : keeps votes_kept (quiet m).
Proof. intros [s r] Hr. unfold quiet. cbn. by destruct (m s). Qed.

Lemma shown_silent {A} (m : stM PromState A) :
  keeps (same_votes r0) m -> keeps votes_kept (shown m).
Proof. intros Hm [s r] Hr. specialize (Hm r Hr). unfold shown. cbn. by destruct (m r). Qed.

Lemma timed_silent {A} discard getter (m : stM (Store * PromState) A) :
  keeps votes_kept m ->
  keeps votes_kept (timed metrics (fun f sr => (sr.1, f sr.2)) discard getter m).
Proof.
  intros H sr Hsr. specialize (H sr Hsr). unfold timed. destruct (m sr) as [[s r] x]; cbn in *.
  destruct (discard x); [done|]. unfold votes_kept in *. cbn in *.
  destruct metrics; [by apply calm_observe|done].
Qed.

Lemma set_gauge_silent getter v : keeps (same_votes r0) (set_gauge metrics getter v).
Proof.
  intros r Hr. cbn. unfold set_gauge_u64. destruct metrics; [|done].
  case_match; try done. intros x l. rewrite gauge_set_counter. apply Hr.
Qed.

(** One step of a proof that no vote is counted. *)
Ltac silent_step :=
  cbv zeta;
  match goal with
  | |- keeps _ (mret _) => apply keeps_ret
  | |- keeps _ (lift_st _) => apply keeps_lift
  | |- keeps _ get_st => apply keeps_get
  | |- keeps _ (quiet _) => apply quiet_silent
  | |- keeps _ (shown _) => apply shown_silent
  | |- keeps _ (set_gauge _ _ _) => apply set_gauge_silent
  | |- keeps _ (timed _ (fun f sr => _) _ _ _) => apply timed_silent
  | |- keeps _ (_ ≫= _) => apply keeps_bind; [|intros]
  end.

Ltac silent_steps := repeat silent_step.

Lemma update_head_silent : keeps votes_kept (update_head_observed metrics).
Proof. unfold update_head_observed. silent_steps. Qed.

Lemma accept_new_silent : keeps votes_kept (accept_new_attestations_observed metrics).
Proof. unfold accept_new_attestations_observed. silent_steps; apply update_head_silent. Qed.

Lemma on_tick_silent now p : keeps votes_kept (on_tick_observed metrics now p).
Proof.
  unfold on_tick_observed. silent_steps. generalize (N.to_nat (saturating_sub now
    (genesis_time (s_config a.1)) / SECONDS_PER_INTERVAL - s_time a.1)). intros fuel.
  induction fuel as [|fuel IH]; cbn; silent_steps; case_match; silent_steps; [|apply IH].
  unfold tick_interval_observed, update_safe_target_observed. silent_steps.
  repeat case_match; silent_steps; apply accept_new_silent.
Qed.

Lemma process_block_internal_silent sb root :
  keeps votes_kept (process_block_internal_observed metrics sb root).
Proof.
  unfold process_block_internal_observed, insert_block_observed.
  silent_steps; try apply update_head_silent;
    [apply (state_transition_calm _ _)|case_match; silent_steps..].
Qed.

Lemma process_purgatory_silent l roots :
  keeps votes_kept (process_purgatory_observed metrics l roots).
Proof.
  revert roots; induction l as [|sb l IH]; intros roots; cbn; silent_steps; [|apply IH].
  intros sr Hsr. pose proof (process_block_internal_silent sb
    (hash_tree_root (bwa_block (sb_message sb))) sr Hsr).
  unfold try_st. by destruct (process_block_internal_observed metrics sb _ sr) as [sr1 []].
Qed.

Lemma on_block_silent sb : keeps votes_kept (on_block_observed metrics sb).
Proof.
  unfold on_block_observed, process_pending_blocks_observed. silent_steps.
  repeat case_match; silent_steps; [apply process_block_internal_silent|].
  generalize (length [hash_tree_root (bwa_block (sb_message sb))] + queued a1.1)%nat.
  intros fuel. generalize [hash_tree_root (bwa_block (sb_message sb))].
  induction fuel as [|fuel IH]; intros [|root roots]; cbn; silent_steps.
  case_match; [|apply IH]. silent_steps; [apply process_purgatory_silent|apply IH].
Qed.

Lemma produce_block_silent slot v : keeps votes_kept (produce_block_observed metrics slot v).
Proof.
  unfold produce_block_observed, get_proposal_head_observed.
  silent_steps; try apply on_tick_silent; try apply accept_new_silent;
    [apply (build_block_calm _ _)|]. repeat case_match; silent_steps.
Qed.
End Silent.

(** Votes that come in a block are not counted, under any label. *)
Theorem block_votes_uncounted {P : Prometheus} {HP : PrometheusLaws P}
    {C : SszContainers} {LS : LeanSig} {SO : SetOrder} {MO : MapOrder}
    {HState : SszHash State} {HHeader : SszHash BlockHeader} {HBlock : SszHash Block}
    {HBody : SszHash BlockBody} {HData : SszHash AttestationData} metrics sb s r x l :
  counter_value (on_block_observed metrics sb (s, r)).1.2 x [l] = counter_value r x [l].
Proof.
  assert (H : votes_kept r (s, r)) by done. exact (on_block_silent metrics r sb (s, r) H x l).
Qed.

(** ** Votes *)

(** The label of a vote that is handed to one of the two handlers.  Block events have
    none: the votes in the body of a block and the vote of its proposer go straight to
    [on_attestation_internal], which counts nothing. *)
Definition vote_source (e : StoreEvent) : option string :=
  match e with
  | AttestationReceived _ is_from_block =>
      Some (if is_from_block then "block" else "gossip")%string
  | GossipReceived _ => Some "gossip"%string
  | _ => None
  end.

(** How often votes that were handed to a handler as from [source] ended in a way. *)
Definition votes_ended (how : outcome Reply -> bool) (source : string)
    (events : list StoreEvent) (results : list (outcome Reply)) : N :=
  N.of_nat (length (filter (fun ex => vote_source ex.1 = Some source /\ how ex.2 = true)
    (zip events results))).

Section Votes.
Context {P : Prometheus} {HP : PrometheusLaws P} (m : Metrics).
Context (Hl : labelled m) (Hn : metric_name <$> metric_fields m = field_names).
Context {C : SszContainers} {LS : LeanSig} {SO : SetOrder} {MO : MapOrder}.
Context {HState : SszHash State} {HHeader : SszHash BlockHeader} {HBlock : SszHash Block}
  {HBody : SszHash BlockBody} {HData : SszHash AttestationData}.

Lemma vote_counters_differ : lean_attestations_valid_total m <> lean_attestations_invalid_total m.
Proof. by apply (field_ne m 14 15). Qed.

(** One more for [source] if [b]. *)
Definition one_more (b : bool) (source l : string) (c : u64) : u64 :=
  if b && bool_decide (l = source) then wadd c 1 else c.

(** [r'] is [r] after a vote from [source] that ended with [x]. *)
Definition vote_counted {A} (source : string) (x : outcome A) (r r' : PromState) : Prop :=
  forall l,
    counter_value r' (lean_attestations_valid_total m) [l] =
      one_more (is_ok x) source l (counter_value r (lean_attestations_valid_total m) [l]) /\
    counter_value r' (lean_attestations_invalid_total m) [l] =
      one_more (is_err x) source l (counter_value r (lean_attestations_invalid_total m) [l]).

Lemma count_vote (getter : Metrics -> Metric) source r :
  length (d_labels (metric_desc (getter m))) = 1%nat ->
  count_with (Some m) getter [source] r = (counter_inc (getter m) [source] r, Ok tt).
Proof.
  intros E. unfold count_with. by rewrite has_labels_length, E, bool_decide_eq_true_2.
Qed.

Lemma vote_inc (x : Metric) source r y l :
  counter_value (observe (lean_attestation_validation_time_seconds m)
    (counter_inc x [source] r)) y [l] =
  one_more (bool_decide (y = x)) source l (counter_value r y [l]).
Proof.
  rewrite observe_counter, counter_inc_value. unfold one_more. rewrite <-bool_decide_and.
  by rewrite (bool_decide_ext (y = x /\ [l] = [source]) (y = x /\ l = source)) by naive_solver.
Qed.

Lemma on_attestation_internal_Ok v d fb s : (on_attestation_internal v d fb s).2 = Ok tt.
Proof.
  destruct (on_attestation_internal_succeeds (fun _ => True) v d fb s I) as [[] E]. exact E.
Qed.

(** What the handler does to the metrics. *)
Lemma on_attestation_metrics sa (fb : bool) s r :
  let src := (if fb then "block" else "gossip")%string in
  let x := (on_attestation_observed (Some m) sa fb (s, r)).2 in
  (on_attestation_observed (Some m) sa fb (s, r)).1.2 =
  observe (lean_attestation_validation_time_seconds m)
    match x with
    | Ok _ => counter_inc (lean_attestations_valid_total m) [src] r
    | Err _ => counter_inc (lean_attestations_invalid_total m) [src] r
    | _ => r
    end.
Proof.
  cbv zeta. unfold on_attestation_observed, timed, get_st, lift_st, inspect_err, inspect, shown,
    quiet, mbind, stM_bind. cbn [fst snd].
  change (source_label fb) with [(if fb then "block" else "gossip")%string].
  destruct (validate_attestation_data s (sa_message sa)) as [[]|e|p|]; cbn beta iota;
    cbn [fst snd]; try done.
  - set (s1 := if fb then s else insert_gossip (sa_validator_id sa) (sa_message sa)
      (sa_signature sa) s).
    match goal with |- context [ (if fb then ?a else ?b) s ] =>
      assert (E1 : (if fb then a else b) s = (s1, Ok tt)) by (unfold s1; by destruct fb) end.
    rewrite E1. cbn [fst snd].
    pose proof (on_attestation_internal_Ok (sa_validator_id sa) (sa_message sa) fb s1) as E.
    destruct (on_attestation_internal _ _ fb s1) as [s2 x2]. cbn in E. subst x2. cbn [fst snd].
    by rewrite count_vote by (by rewrite (lb_valid m Hl)).
  - cbn [fst snd]. by rewrite count_vote by (by rewrite (lb_invalid m Hl)).
Qed.

Lemma attestation_counted sa (fb : bool) s r :
  vote_counted (if fb then "block" else "gossip")%string
    (on_attestation_observed (Some m) sa fb (s, r)).2 r
    (on_attestation_observed (Some m) sa fb (s, r)).1.2.
Proof.
  intros l. rewrite on_attestation_metrics. pose proof vote_counters_differ as Hd.
  destruct (on_attestation_observed (Some m) sa fb (s, r)).2; cbn beta iota;
    rewrite ?vote_inc, ?observe_counter; try done.
  - by rewrite bool_decide_eq_true_2, bool_decide_eq_false_2.
  - by rewrite bool_decide_eq_false_2, bool_decide_eq_true_2.
Qed.

Lemma reply_counted {A} (f : A -> Reply) (m0 : stM (Store * PromState) A) source sr r :
  vote_counted source (m0 sr).2 r (m0 sr).1.2 ->
  vote_counted source (reply f m0 sr).2 r (reply f m0 sr).1.2.
Proof. unfold reply, mbind, stM_bind. by destruct (m0 sr) as [? []]. Qed.

Lemma silent_counted (e : StoreEvent) s r :
  vote_source e = None -> same_votes r (serve_observed (Some m) e (s, r)).1.2.
Proof.
  intros He. cut (keeps (votes_kept r) (serve_observed (Some m) e));
    [intros K; by apply (K (s, r))|].
  destruct e; try done; cbn; try (apply keeps_bind; [|intros; apply keeps_ret]).
  - apply on_tick_silent.
  - apply on_block_silent.
  - unfold build_block_proposal_observed.
    apply keeps_bind; [apply produce_block_silent|]. intros [[? ?] ?].
    apply keeps_bind; [apply keeps_get|]. intros sr. apply shown_silent.
    unfold sign_block_observed. calm_steps.
  - apply keeps_bind; [apply keeps_get|]. intros sr.
    apply keeps_bind; [apply shown_silent|intros; apply keeps_ret].
    unfold create_attestations_observed, attest_observed, attestation_signature_observed.
    calm_steps; repeat (case_match; calm_steps).
Qed.

(** ** Runs *)

Lemma serve_counted e s r source :
  let x := (serve_observed (Some m) e (s, r)).2 in
  let r' := (serve_observed (Some m) e (s, r)).1.2 in
  let counts how := bool_decide (vote_source e = Some source) && how x in
  counter_value r' (lean_attestations_valid_total m) [source] =
    one_more (counts is_ok) source source (counter_value r (lean_attestations_valid_total m) [source]) /\
  counter_value r' (lean_attestations_invalid_total m) [source] =
    one_more (counts is_err) source source
      (counter_value r (lean_attestations_invalid_total m) [source]).
Proof.
  cbv zeta. destruct (vote_source e) as [src|] eqn:E.
  - assert (H : vote_counted src (serve_observed (Some m) e (s, r)).2 r
      (serve_observed (Some m) e (s, r)).1.2).
    { destruct e; try done; injection E as <-; cbn [serve_observed]; apply reply_counted;
        [apply attestation_counted|exact (attestation_counted sa false s r)]. }
    destruct (H source) as [-> ->]. unfold one_more.
    rewrite (bool_decide_eq_true_2 (source = source)), !andb_true_r by done.
    rewrite (bool_decide_ext (Some src = Some source) (source = src)) by naive_solver.
    by rewrite !(andb_comm (bool_decide (source = src))).
  - rewrite bool_decide_eq_false_2 by done. by rewrite !(silent_counted e s r E).
Qed.

Lemma one_more_mod b source c :
  c < u64_modulus ->
  one_more b source source c = (c + (if b then 1 else 0)) `mod` u64_modulus.
Proof.
  intros Hc. unfold one_more. rewrite bool_decide_eq_true_2, andb_true_r by done.
  destruct b; [done|]. by rewrite N.add_0_r, N.mod_small.
Qed.

Lemma votes_ended_cons how source e x events xs :
  votes_ended how source (e :: events) (x :: xs) =
  (if bool_decide (vote_source e = Some source) && how x then 1 else 0) +
  votes_ended how source events xs.
Proof.
  unfold votes_ended. cbn [zip zip_with]. rewrite filter_cons. cbn [fst snd].
  case_decide as H; case_bool_decide; destruct (how x); cbn [length andb]; try lia; naive_solver.
Qed.

(** One counter over a run, given what each step does to it. *)
Lemma run_vote_counter how (x : Metric) events s r source :
  (forall e s r, let y := serve_observed (Some m) e (s, r) in
    counter_value y.1.2 x [source] =
    one_more (bool_decide (vote_source e = Some source) && how y.2) source source
      (counter_value r x [source])) ->
  counter_value r x [source] < u64_modulus ->
  let y := serve_all (serve_observed (Some m)) events (s, r) in
  counter_value y.1.2 x [source] =
    (counter_value r x [source] + votes_ended how source events y.2) `mod` u64_modulus.
Proof.
  intros Hstep. revert s r. induction events as [|e events IH]; intros s r Hc; cbv zeta.
  { cbn. by rewrite N.add_0_r, N.mod_small. }
  pose proof (Hstep e s r) as E. cbn [serve_all]. cbv zeta in E.
  destruct (serve_observed (Some m) e (s, r)) as [[s1 r1] z]. cbn [fst snd] in E.
  rewrite one_more_mod in E by done. specialize (IH s1 r1). rewrite E in IH. cbv zeta in IH.
  destruct (serve_all (serve_observed (Some m)) events (s1, r1)) as [[s2 r2] xs].
  cbn [fst snd] in *. rewrite IH by (by apply N.mod_lt). rewrite votes_ended_cons.
  rewrite N.Div0.add_mod_idemp_l. f_equal. lia.
Qed.

Lemma run_votes_counted events s r source :
  counter_value r (lean_attestations_valid_total m) [source] = 0 ->
  counter_value r (lean_attestations_invalid_total m) [source] = 0 ->
  let y := serve_all (serve_observed (Some m)) events (s, r) in
  counter_value y.1.2 (lean_attestations_valid_total m) [source] =
    votes_ended is_ok source events y.2 `mod` u64_modulus /\
  counter_value y.1.2 (lean_attestations_invalid_total m) [source] =
    votes_ended is_err source events y.2 `mod` u64_modulus.
Proof.
  intros Hv Hi. cbv zeta. split.
  - rewrite (run_vote_counter is_ok); [by rewrite Hv|intros; apply serve_counted|by rewrite Hv].
  - rewrite (run_vote_counter is_err); [by rewrite Hi|intros; apply serve_counted|by rewrite Hi].
Qed.
End Votes.

Section Exact.
Context {P : Prometheus} {HP : PrometheusLaws P}.
Context {C : SszContainers} {HC : SszContainersLaws C} {LS : LeanSig}.
Context {SO : SetOrder} {HO : SetOrderLaws SO} {MO : MapOrder} {HM : MapOrderLaws MO}.
Context {HState : SszHash State} {HHeader : SszHash BlockHeader} {HBlock : SszHash Block}
  {HBody : SszHash BlockBody} {HData : SszHash AttestationData}.

(** C22: what a node shows of fork choice is exact: on a node that starts its metrics
    and its store from genesis, after any sequence of ticks, blocks, votes and duties,
    whatever each of them returned, the gauges [lean_head_slot], [lean_safe_target_slot],
    [lean_latest_justified_slot] and [lean_latest_finalized_slot] show the slots of the
    head, the safe target and the latest checkpoints of the store, and the counters
    [lean_attestations_valid_total] and [lean_attestations_invalid_total] of each label
    the number of votes that [on_attestation] and [on_gossip_attestation] were given under
    it and accepted and refused, modulo [2^64].  The votes inside blocks are not among
    them: they are counted nowhere. *)
Theorem metrics_exact B config secs r g s events :
  no_collisions B -> metrics_enabled config = true -> secs < 9223372036854775808 ->
  (forall name, name ∈ field_names -> name ∉ metric_name <$> registered r) ->
  genesis_store g = Ok s ->
  (forall st, s_states s !! s_head s = Some st -> B (bwa_block (sb_message (genesis_block st)))) ->
  events_in B s events ->
  exists m r0, start_metrics config (Some secs) r = (r0, Ok (Some m)) /\
    let '(s', results) := serve_all serve events s in
    let r' := (serve_all (serve_observed (Some m)) events (s, r0)).1.2 in
    gauges_show m s' r' /\
    forall source,
      counter_value r' (lean_attestations_valid_total m) [source] =
        votes_ended is_ok source events results `mod` u64_modulus /\
      counter_value r' (lean_attestations_invalid_total m) [source] =
        votes_ended is_err source events results `mod` u64_modulus.
Proof.
  intros HB Hc Hs Hr Hg HBg He. destruct (start_metrics_ok config secs r Hc Hs Hr) as (m & r0 & E & Hst).
  exists m, r0. split; [done|]. pose proof (run_gauges B secs r m r0 g s events HB Hst Hg HBg He) as Hx.
  assert (Hl : forall m', Some m = Some m' -> labelled m') by (intros ? [= <-]; apply Hst).
  pose proof (serve_all_erases (Some m) Hl events s r0) as Ex. cbv zeta in Ex.
  destruct (serve_all serve events s) as [s' results]. injection Ex as _ Ex. cbn [fst] in Hx.
  cbv zeta. split; [done|]. intros source. rewrite <-Ex.
  apply run_votes_counted; [apply Hst..| |]; apply (st_zero _ _ _ _ Hst);
    [apply (list_elem_of_lookup_2 _ 14)|apply (list_elem_of_lookup_2 _ 15)]; reflexivity.
Qed.
End Exact.

(** * A concrete run *)

Section Concrete.
Import Toy ToyProm.

(** After the run of [Gauges] two votes arrive by gossip, one of them for a block that
    nobody knows. *)
Definition known_vote : SignedAttestation :=
  mkSignedAttestation 1 (mkAttestationData 1 (mkCheckpoint (hash_tree_root block1) 1)
    (mkCheckpoint (hash_tree_root block1) 1) (mkCheckpoint (hash_tree_root gblock) 0))
    Signature_default.

Definition unknown_vote : SignedAttestation :=
  mkSignedAttestation 3 (mkAttestationData 1 (mkCheckpoint 77 1) (mkCheckpoint 77 1)
    (mkCheckpoint (hash_tree_root gblock) 0)) Signature_default.

Definition voting_events : list StoreEvent :=
  toy_events ++ [GossipReceived known_vote; AttestationReceived unknown_vote false].

Example votes_ended_both_ways :
  let results := (serve_all serve voting_events store0).2 in
  votes_ended is_ok "gossip" voting_events results = 1 /\
  votes_ended is_err "gossip" voting_events results = 1.
Proof. vm_compute. done. Qed.

(** Blocks 1 and 2 arrive; block 2 carries three votes, which become known, and no counter
    has moved. *)
Example three_votes_uncounted :
  let events := [Ticked 1008 false; BlockReceived sb1; BlockReceived sb2] in
  dom (s_latest_known_attestations (serve_all serve events store0).1) = {[0; 1; 2]} /\
  (m ← toy_metrics; Some (counter_value
    (serve_all (serve_observed (Some m)) events (store0, toy_registry)).1.2
    (lean_attestations_valid_total m) ["block"%string])) = Some 0.
Proof. split; vm_compute; reflexivity. Qed.

Lemma voting_events_seen : events_in seen store0 voting_events.
Proof.
  unfold voting_events. generalize toy_events_seen. generalize store0.
  induction toy_events as [|e l IH]; intros s; cbn; [done|]. intros [He Hl]. auto.
Qed.

Lemma metrics_exact_witness : exists m r0,
  start_metrics toy_config (Some 1763757427) toy_registry = (r0, Ok (Some m)) /\
  let '(s', results) := serve_all serve voting_events store0 in
  let r' := (serve_all (serve_observed (Some m)) voting_events (store0, r0)).1.2 in
  gauges_show m s' r' /\
  forall source,
    counter_value r' (lean_attestations_valid_total m) [source] =
      votes_ended is_ok source voting_events results `mod` u64_modulus /\
    counter_value r' (lean_attestations_invalid_total m) [source] =
      votes_ended is_err source voting_events results `mod` u64_modulus.
Proof.
  apply (metrics_exact seen toy_config 1763757427 toy_registry toy_genesis store0 voting_events
    seen_no_collisions).
  - reflexivity.
  - lia.
  - intros name _. apply not_elem_of_nil.
  - exact node0_start.
  - intros st Hst. assert (E : s_states store0 !! s_head store0 = Some genesis)
      by (vm_compute; reflexivity).
    rewrite E in Hst. injection Hst as <-. unfold seen, listed. rewrite !elem_of_cons. tauto.
  - exact voting_events_seen.
Defined.
End Concrete.
