(* ===== verification/Gossip.v ===== *)
(** * Gossip topics and messages

    [networking/src/gossipsub]: topic names, the payload of a gossip message, the
    message identifier, and [networking/src/compressor.rs].  SHA-256 is the class
    [Sha256]. *)

From Stdlib Require Import Strings.Byte Strings.Ascii Strings.String.
From stdpp Require Import strings.
From S2P Require Import Prelude Ssz Xmss Containers Bytes.

#[local] Open Scope N_scope.

Class Sha256 := sha256_digest : bytes -> bytes.

Definition TOPIC_PREFIX : string := "leanconsensus".
Definition SSZ_SNAPPY_ENCODING_POSTFIX : string := "ssz_snappy".
Definition BLOCK_TOPIC : string := "block".
Definition ATTESTATION_TOPIC : string := "attestation".

Inductive GossipsubKind := KBlock | KAttestation.

#[export] Instance GossipsubKind_eq_dec : EqDecision GossipsubKind.
Proof. solve_decision. Defined.

Record GossipsubTopic := mkGossipsubTopic { topic_fork : string; topic_kind : GossipsubKind }.

#[export] Instance GossipsubTopic_eq_dec : EqDecision GossipsubTopic.
Proof. solve_decision. Defined.

Definition get_topics (fork : string) : list GossipsubTopic :=
  [mkGossipsubTopic fork KBlock; mkGossipsubTopic fork KAttestation].

Definition ETopicPartCount : error := EExternal 20.
Definition ETopicParts : error := EExternal 21.
Definition ETopicKind : error := EExternal 22.

(** [Display for GossipsubKind] *)
Definition kind_str (k : GossipsubKind) : string :=
  match k with KBlock => BLOCK_TOPIC | KAttestation => ATTESTATION_TOPIC end.

(** [Display for GossipsubTopic], also the [TopicHash] and [IdentTopic] of it. *)
Definition topic_to_string (t : GossipsubTopic) : string :=
  "/" +:+ TOPIC_PREFIX +:+ "/" +:+ topic_fork t +:+ "/" +:+ kind_str (topic_kind t) +:+
  "/" +:+ SSZ_SNAPPY_ENCODING_POSTFIX.

Definition split_topic (topic : string) : outcome (list string) :=
  let parts := split_slash (trim_start_slash topic) in
  if negb (length parts =? 4)%nat then Err ETopicPartCount else Ok parts.

(** [parts[i]] *)
Definition part (parts : list string) (i : nat) : outcome string := or_panic (parts !! i) PIndex.

Definition validate_parts (parts : list string) : outcome unit :=
  p0 ← part parts 0;
  if negb (String.eqb p0 TOPIC_PREFIX) then Err ETopicParts else
  p3 ← part parts 3;
  if negb (String.eqb p3 SSZ_SNAPPY_ENCODING_POSTFIX) then Err ETopicParts else Ok tt.

Definition extract_fork (parts : list string) : outcome string := part parts 1.

Definition extract_kind (parts : list string) : outcome GossipsubKind :=
  p2 ← part parts 2;
  if String.eqb p2 BLOCK_TOPIC then Ok KBlock
  else if String.eqb p2 ATTESTATION_TOPIC then Ok KAttestation
  else Err ETopicKind.

Definition GossipsubTopic_decode (topic : string) : outcome GossipsubTopic :=
  topic_parts ← split_topic topic;
  _ ← validate_parts topic_parts;
  fork ← extract_fork topic_parts;
  kind ← extract_kind topic_parts;
  Ok (mkGossipsubTopic fork kind).

Inductive GossipsubMessage :=
  | GBlock (sb : SignedBlockWithAttestation)
  | GAttestation (sa : SignedAttestation).

Definition GossipsubMessage_decode `{SszCodec SignedBlockWithAttestation}
    `{SszCodec SignedAttestation} (topic : string) (data : bytes)
    : outcome GossipsubMessage :=
  t ← GossipsubTopic_decode topic;
  match topic_kind t with
  | KBlock => sb ← from_ssz_default data; Ok (GBlock sb)
  | KAttestation => sa ← from_ssz_default data; Ok (GAttestation sa)
  end.

(** ** The message identifier *)

(** libp2p's [RawMessage] and [Message], as far as they are used. *)
Record Message := mkMessage {
  msg_topic : string;
  msg_data : bytes;
  msg_sequence_number : option u64;
  msg_source : option N
}.

Definition MESSAGE_DOMAIN_VALID_SNAPPY : bytes := [x01].

Definition digest_input (m : Message) : bytes :=
  let topic_bytes := list_byte_of_string (msg_topic m) in
  MESSAGE_DOMAIN_VALID_SNAPPY ++ le_bytes 8 (len_u64 topic_bytes) ++ topic_bytes ++ msg_data m.

Definition compute_message_id {SHA : Sha256} (m : Message) : bytes :=
  take 20 (sha256_digest (digest_input m)).

(** ** The configuration of gossip *)

(** libp2p's [ValidationMode] *)
Inductive ValidationMode := Strict | Permissive | Anonymous | NoValidation.

(** What the client sets on libp2p's [ConfigBuilder]; times in milliseconds. *)
Record GossipParams := mkGossipParams {
  gp_max_transmit_size : N;
  gp_heartbeat_interval : u64;
  gp_fanout_ttl : u64;
  gp_history_length : N;
  gp_history_gossip : N;
  gp_duplicate_cache_time : u64;
  gp_mesh_n : N;
  gp_mesh_n_low : N;
  gp_mesh_n_high : N;
  gp_gossip_lazy : N;
  gp_validation_mode : ValidationMode;
  gp_validate_messages : bool;
  gp_message_id_fn : Message -> bytes
}.

Record GossipsubConfig := mkGossipsubConfig {
  gc_config : GossipParams;
  gc_topics : list GossipsubTopic
}.

(** Whether [ConfigBuilder::build] accepts, and what it documents: a transmit size of
    at least 100 bytes, no more gossip than history, ordered mesh sizes and half of the
    mesh at least the outbound minimum, which the client leaves at its default of 2. *)
Class GossipBuilder := gossip_build : GossipParams -> bool.

Definition mesh_outbound_min : N := 2.

Definition params_ok (p : GossipParams) : bool :=
  (100 <=? gp_max_transmit_size p) && (gp_history_gossip p <=? gp_history_length p) &&
  (mesh_outbound_min <=? gp_mesh_n_low p) && (gp_mesh_n_low p <=? gp_mesh_n p) &&
  (gp_mesh_n p <=? gp_mesh_n_high p) && (mesh_outbound_min * 2 <=? gp_mesh_n p).

Class GossipBuilderLaws (GB : GossipBuilder) : Prop := {
  gossip_build_ok : forall p, params_ok p = true -> gossip_build p = true
}.

Definition GossipsubConfig_new {GB : GossipBuilder} {SHA : Sha256} : outcome GossipsubConfig :=
  let justification_lookback_slots : u64 := 3 in
  let seconds_per_slot : u64 := 4 in
  let seen_ttl_secs := wmul (wmul seconds_per_slot justification_lookback_slots) 2 in
  let params := {|
    gp_max_transmit_size := 16 * 1024 * 1024;
    gp_heartbeat_interval := 700;
    gp_fanout_ttl := 60 * 1000;
    gp_history_length := 6;
    gp_history_gossip := 3;
    gp_duplicate_cache_time := seen_ttl_secs * 1000;
    gp_mesh_n := 8;
    gp_mesh_n_low := 6;
    gp_mesh_n_high := 12;
    gp_gossip_lazy := 6;
    gp_validation_mode := Anonymous;
    gp_validate_messages := true;
    gp_message_id_fn := compute_message_id |} in
  _ ← assert_ (gossip_build params) PUnwrap;
  Ok (mkGossipsubConfig params []).

Definition set_topics (topics : list GossipsubTopic) (c : GossipsubConfig) : GossipsubConfig :=
  mkGossipsubConfig (gc_config c) topics.

(** ** Compression of gossip *)

Definition inbound_transform {SN : Snappy} (raw : Message) : outcome Message :=
  data ← raw_decompress (msg_data raw);
  Ok (mkMessage (msg_topic raw) data (msg_sequence_number raw) (msg_source raw)).

Definition outbound_transform {SN : Snappy} (_ : string) (data : bytes) : outcome bytes :=
  raw_compress data.

(** * Lemmas *)

(** A topic without its leading slash. *)
Definition topic_body (t : GossipsubTopic) : string :=
  TOPIC_PREFIX +:+ String slash (topic_fork t +:+ String slash (kind_str (topic_kind t) +:+
    String slash SSZ_SNAPPY_ENCODING_POSTFIX)).

Lemma topic_to_string_body t : topic_to_string t = String slash (topic_body t).
Proof. done. Qed.

Lemma topic_body_concat t :
  topic_body t = String.concat "/" [TOPIC_PREFIX; topic_fork t; kind_str (topic_kind t);
    SSZ_SNAPPY_ENCODING_POSTFIX].
Proof. done. Qed.

Lemma split_topic_body t :
  slash_free (topic_fork t) ->
  split_slash (topic_body t) =
    [TOPIC_PREFIX; topic_fork t; kind_str (topic_kind t); SSZ_SNAPPY_ENCODING_POSTFIX].
Proof.
  intros Hf. unfold topic_body.
  rewrite split_slash_app by (apply (bool_decide_unpack _); reflexivity).
  rewrite split_slash_app by done.
  rewrite split_slash_app by (destruct (topic_kind t); apply (bool_decide_unpack _); reflexivity).
  by rewrite split_slash_single by (apply (bool_decide_unpack _); reflexivity).
Qed.

Lemma extract_kind_Ok a b s d k : extract_kind [a; b; s; d] = Ok k <-> s = kind_str k.
Proof.
  unfold extract_kind, part. cbn.
  destruct (String.eqb_spec s BLOCK_TOPIC) as [->|H1]; [by destruct k|].
  destruct (String.eqb_spec s ATTESTATION_TOPIC) as [->|H2]; [by destruct k|].
  split; [done|]. by destruct k; intros ->.
Qed.

Lemma topic_decode_parts topic t :
  GossipsubTopic_decode topic = Ok t <->
  split_slash (trim_start_slash topic) =
    [TOPIC_PREFIX; topic_fork t; kind_str (topic_kind t); SSZ_SNAPPY_ENCODING_POSTFIX].
Proof.
  unfold GossipsubTopic_decode, split_topic.
  destruct (split_slash (trim_start_slash topic)) as [|a [|b [|c [|d [|e l]]]]]; try done.
  cbn [length Nat.eqb negb mbind outcome_bind].
  unfold validate_parts, extract_fork, part. cbn [lookup list_lookup or_panic mbind outcome_bind].
  destruct (String.eqb_spec a TOPIC_PREFIX) as [->|Ha]; cbn [negb mbind outcome_bind];
    [|split; [done|by intros [= ?]]].
  destruct (String.eqb_spec d SSZ_SNAPPY_ENCODING_POSTFIX) as [->|Hd]; cbn [negb mbind outcome_bind];
    [|split; [done|by intros [= ?]]].
  split.
  - intros (k & Hk%extract_kind_Ok & [= <-])%bind_Ok. by rewrite Hk.
  - intros [= -> ->]. rewrite (proj2 (extract_kind_Ok _ _ _ _ (topic_kind t)) eq_refl).
    cbn. by destruct t.
Qed.

(** The topics a node accepts are exactly the printed ones: a topic string
    decodes to a topic exactly when its fork name has no slash and the string is
    the printed topic, with any number of leading slashes.  In particular
    printing and decoding round-trip, and two topics share no name. *)
Theorem topic_decode_correct s t :
  GossipsubTopic_decode s = Ok t <->
  slash_free (topic_fork t) /\ exists k, s = slashes k (topic_body t).
Proof.
  rewrite topic_decode_parts. split.
  - intros H. destruct (trim_start_spec s) as (k & Es & _).
    pose proof (split_slash_free (trim_start_slash s)) as Hfree. rewrite H in Hfree.
    split; [by apply (Forall_lookup_1 _ _ 1%nat _ Hfree)|]. exists k.
    by rewrite topic_body_concat, <-H, split_slash_concat.
  - intros (Hf & k & ->). rewrite trim_start_slashes by (by intros s').
    by apply split_topic_body.
Qed.

(** ** Message identifiers *)

Lemma list_byte_of_string_inj s s' : list_byte_of_string s = list_byte_of_string s' -> s = s'.
Proof.
  intros H. by rewrite <-(string_of_list_byte_of_string s), H, string_of_list_byte_of_string.
Qed.

(** The bytes that a message identifier hashes determine the topic and the
    data of the message, so that messages get the same identifier only through a
    collision of the truncated hash. *)
Theorem digest_input_injective m m' :
  is_u64 (len_u64 (list_byte_of_string (msg_topic m))) ->
  is_u64 (len_u64 (list_byte_of_string (msg_topic m'))) ->
  digest_input m = digest_input m' -> msg_topic m = msg_topic m' /\ msg_data m = msg_data m'.
Proof.
  intros Hu Hu' E. unfold digest_input in E. apply (app_inv_head MESSAGE_DOMAIN_VALID_SNAPPY) in E.
  apply app_inj_1 in E as [El E]; [|by rewrite !length_le_bytes].
  apply le_bytes_inj in El; [|done..]. unfold len_u64 in El.
  apply app_inj_1 in E as [Et Ed]; [|lia]. split; [by apply list_byte_of_string_inj|done].
Qed.

Lemma digest_input_injective_witness :
  let m := mkMessage "/leanconsensus/devnet0/block/ssz_snappy" [x01; x02] (Some 7) None in
  let m' := mkMessage "/leanconsensus/devnet0/block/ssz_snappy" [x01; x02] None (Some 3) in
  msg_topic m = msg_topic m' /\ msg_data m = msg_data m'.
Proof. apply digest_input_injective; vm_compute; reflexivity. Defined.

(** A slash too many is accepted, a fork with a slash is not. *)
Example topic_leading_slashes :
  GossipsubTopic_decode "///leanconsensus/devnet0/attestation/ssz_snappy" =
    Ok (mkGossipsubTopic "devnet0" KAttestation) /\
  GossipsubTopic_decode (topic_to_string (mkGossipsubTopic "dev/net0" KBlock)) =
    Err ETopicPartCount.
Proof. split; reflexivity. Qed.
