(* ===== verification/Config.v ===== *)
(** * The chain configuration

    [chain/src/config.rs]: the parameters of the devnet, and that they are the ones
    the other parts have written out: the clock of fork choice, the gossip cache, the
    limits of the SSZ lists. *)

From Stdlib Require Import Strings.String.
From stdpp Require Import strings.
From S2P Require Import Prelude Ssz Slot Containers State ForkChoice Gossip.

#[local] Open Scope N_scope.

Definition BasisPoint : Type := u64.

Definition BasisPoint_MAX : u64 := 10000.

Definition BasisPoint_new (value : u64) : option BasisPoint :=
  if value <=? BasisPoint_MAX then Some value else None.

Definition BasisPoint_get (b : BasisPoint) : u64 := b.

Record ChainConfig := mkChainConfig {
  cc_intervals_per_slot : u64;
  cc_slot_duration_ms : u64;
  cc_second_per_slot : u64;
  cc_seconds_per_interval : u64;
  cc_justification_lookback_slots : u64;
  cc_proposer_reorg_cutoff_bps : BasisPoint;
  cc_vote_due_bps : BasisPoint;
  cc_fast_confirm_due_bps : BasisPoint;
  cc_view_freeze_cutoff_bps : BasisPoint;
  cc_historical_roots_limit : u64;
  cc_validator_registry_limit : u64
}.

(** [expect] panics. *)
Definition ChainConfig_devnet : outcome ChainConfig :=
  let slot_duration_ms := 4000 in
  let seconds_per_slot := slot_duration_ms / 1000 in
  let intervals_per_slot := 4 in
  proposer_reorg_cutoff_bps ← or_panic (BasisPoint_new 2500) PUnwrap;
  vote_due_bps ← or_panic (BasisPoint_new 5000) PUnwrap;
  fast_confirm_due_bps ← or_panic (BasisPoint_new 7500) PUnwrap;
  view_freeze_cutoff_bps ← or_panic (BasisPoint_new 7500) PUnwrap;
  Ok {|
    cc_intervals_per_slot := intervals_per_slot;
    cc_slot_duration_ms := slot_duration_ms;
    cc_second_per_slot := seconds_per_slot;
    cc_seconds_per_interval := seconds_per_slot / intervals_per_slot;
    cc_justification_lookback_slots := 3;
    cc_proposer_reorg_cutoff_bps := proposer_reorg_cutoff_bps;
    cc_vote_due_bps := vote_due_bps;
    cc_fast_confirm_due_bps := fast_confirm_due_bps;
    cc_view_freeze_cutoff_bps := view_freeze_cutoff_bps;
    cc_historical_roots_limit := N.shiftl 1 18;
    cc_validator_registry_limit := N.shiftl 1 12
  |}.

(** A basis point is a number up to 10 000, and no other is made. *)
Lemma BasisPoint_new_spec v b : BasisPoint_new v = Some b <-> b = v /\ v <= BasisPoint_MAX.
Proof.
  unfold BasisPoint_new. destruct (N.leb_spec v BasisPoint_MAX) as [H|H].
  - split; [intros <-%(inj Some)|intros [-> _]]; done.
  - split; [done|]. lia.
Qed.

(** The devnet configuration is made without a panic, its parameters lie within
    their bounds, and they are the constants that the rest of the code has written out: a
    slot is four intervals of a second, as fork choice counts them, the list limits are
    those of the SSZ types, gossip remembers a message for twice the justification
    lookback, and libp2p accepts the gossip parameters. *)
Theorem devnet_configuration {GB : GossipBuilder} {HGB : GossipBuilderLaws GB} {SHA : Sha256} :
  exists c g, ChainConfig_devnet = Ok c /\ GossipsubConfig_new = Ok g /\
    cc_intervals_per_slot c = INTERVALS_PER_SLOT /\ cc_second_per_slot c = SECONDS_PER_SLOT /\
    cc_seconds_per_interval c = SECONDS_PER_INTERVAL /\
    cc_intervals_per_slot c * cc_seconds_per_interval c * 1000 = cc_slot_duration_ms c /\
    cc_justification_lookback_slots c = N.of_nat JUSTIFICATION_LOOKBACK_SLOTS /\
    cc_historical_roots_limit c = HistoricalRootsLimit /\
    cc_validator_registry_limit c = ValidatorRegistryLimit /\
    gp_duplicate_cache_time (gc_config g) =
      2 * cc_justification_lookback_slots c * cc_slot_duration_ms c /\
    cc_proposer_reorg_cutoff_bps c < cc_vote_due_bps c /\
    cc_vote_due_bps c < cc_fast_confirm_due_bps c /\
    cc_fast_confirm_due_bps c <= cc_view_freeze_cutoff_bps c /\
    cc_view_freeze_cutoff_bps c <= BasisPoint_MAX.
Proof.
  eexists _, _. split; [reflexivity|]. split.
  { unfold GossipsubConfig_new. rewrite gossip_build_ok by reflexivity. reflexivity. }
  repeat split; vm_compute; (reflexivity || discriminate).
Qed.

Section Concrete.
#[local] Instance documented_builder : GossipBuilder := params_ok.
#[local] Instance identity_digest : Sha256 := fun data => data.

#[local] Instance documented_builder_laws : GossipBuilderLaws documented_builder.
Proof. split. done. Qed.

Lemma devnet_configuration_witness :
  exists c g, ChainConfig_devnet = Ok c /\ GossipsubConfig_new = Ok g /\
    cc_intervals_per_slot c = INTERVALS_PER_SLOT /\
    gp_duplicate_cache_time (gc_config g) = 24000.
Proof.
  destruct (devnet_configuration (GB := documented_builder)) as (c & g & Hc & Hg & Hi & _ & _ & _
    & Hl & _ & _ & Ht & _).
  exists c, g. injection Hc as <-. split; [reflexivity|]. split; [exact Hg|]. split; [exact Hi|].
  rewrite Ht. reflexivity.
Defined.
End Concrete.
