(* ===== verification/ReqResp.v ===== *)
(** * The request/response protocol

    [networking/src/req_resp.rs]: requests and responses of a peer and their wire
    format, SSZ inside the Snappy framing format, the codec on a stream, and the
    behaviour with its protocols.  A stream is what reading it to the end gives, or
    what was written before it was closed; how two peers agree on a protocol is the
    class [Multistream]. *)

From Stdlib Require Import Strings.Byte Strings.Ascii Strings.String.
From stdpp Require Import strings.
From S2P Require Import Prelude Ssz Xmss Containers Bytes Example.

#[local] Open Scope N_scope.

Definition MAX_REQUEST_BLOCKS : nat := 1024.

Definition STATUS_PROTOCOL_V1 : string := "/leanconsensus/req/status/1/ssz_snappy".
Definition BLOCKS_BY_ROOT_PROTOCOL_V1 : string :=
  "/leanconsensus/req/blocks_by_root/1/ssz_snappy".

Inductive LeanRequest :=
  | RStatus (status : Status)
  | RBlocksByRoot (roots : list H256).

Inductive LeanResponse :=
  | PStatus (status : Status)
  | PBlocksByRoot (blocks : list SignedBlockWithAttestation)
  | PEmpty.

Definition ETooManyRoots : error := EExternal 30.
Definition EUnknownProtocol : error := EExternal 31.

Section Codec.
Context {SN : Snappy} {ZS : SszCodec Status} {ZB : SszCodec SignedBlockWithAttestation}.

(** [LeanCodec::compress], [LeanCodec::decompress] *)
Definition compress (data : bytes) : outcome bytes := frame_encode data.
Definition decompress (data : bytes) : outcome bytes := frame_decode data.

Definition encode_request (request : LeanRequest) : outcome bytes :=
  ssz_bytes ← match request with
              | RStatus status => to_ssz status
              | RBlocksByRoot roots =>
                  Ok (foldl (fun acc root => acc ++ h256_bytes root) [] roots)
              end;
  compress ssz_bytes.

(** The roots in the full chunks of 32 bytes. *)
Definition read_roots (ssz_bytes : bytes) : list H256 :=
  foldl (fun roots chunk => if (length chunk =? 32)%nat then roots ++ [h256_of_bytes chunk]
                            else roots) [] (chunks 32 ssz_bytes).

Definition decode_request (protocol : string) (data : bytes) : outcome LeanRequest :=
  match data with
  | [] => Ok (RStatus Status_default)
  | _ =>
      ssz_bytes ← decompress data;
      if str_contains "status" protocol then
        status ← from_ssz_default ssz_bytes; Ok (RStatus status)
      else if str_contains "blocks_by_root" protocol then
        let roots := read_roots ssz_bytes in
        if (MAX_REQUEST_BLOCKS <? length roots)%nat then Err ETooManyRoots
        else Ok (RBlocksByRoot roots)
      else Err EUnknownProtocol
  end.

Definition encode_response (response : LeanResponse) : outcome bytes :=
  ssz_bytes ← match response with
              | PStatus status => to_ssz status
              | PBlocksByRoot blocks =>
                  foldM (fun acc block => block_bytes ← to_ssz block; Ok (acc ++ block_bytes))
                    [] blocks
              | PEmpty => Ok []
              end;
  match ssz_bytes with
  | [] => Ok []
  | _ => compress ssz_bytes
  end.

Definition decode_response (protocol : string) (data : bytes) : outcome LeanResponse :=
  match data with
  | [] => Ok PEmpty
  | _ =>
      ssz_bytes ← decompress data;
      if str_contains "status" protocol then
        status ← from_ssz_default ssz_bytes; Ok (PStatus status)
      else if str_contains "blocks_by_root" protocol then
        match ssz_bytes with
        | [] => Ok (PBlocksByRoot [])
        | _ => block ← from_ssz_default ssz_bytes; Ok (PBlocksByRoot [block])
        end
      else Err EUnknownProtocol
  end.

(** ** [Codec for LeanCodec]

    [io] is the outcome of [read_to_end], or of [write_all] and [close]. *)

Definition read_request (protocol : string) (io : outcome bytes) : outcome LeanRequest :=
  data ← io; decode_request protocol data.

Definition read_response (protocol : string) (io : outcome bytes) : outcome LeanResponse :=
  data ← io; decode_response protocol data.

Definition write_request (_protocol : string) (io : bytes -> outcome unit) (request : LeanRequest)
    : outcome bytes :=
  data ← encode_request request; _ ← io data; Ok data.

Definition write_response (_protocol : string) (io : bytes -> outcome unit)
    (response : LeanResponse) : outcome bytes :=
  data ← encode_response response; _ ← io data; Ok data.
End Codec.

(** ** [Codec for GenericCodec]: requests and responses are their bytes. *)

Definition generic_read (_protocol : string) (io : outcome bytes) : outcome bytes :=
  data ← io; Ok data.

Definition generic_write (_protocol : string) (io : bytes -> outcome unit) (data : bytes)
    : outcome bytes :=
  _ ← io data; Ok data.

(** ** The behaviour *)

Inductive ProtocolSupport := InboundOnly | OutboundOnly | Full.

(** [RequestResponse::with_codec]: the protocols, by preference. *)
Definition ReqResp : Type := list (string * ProtocolSupport).

Definition build (protocols : list string) : ReqResp := (fun name => (name, Full)) <$> protocols.

Definition build_default : ReqResp := build [STATUS_PROTOCOL_V1; BLOCKS_BY_ROOT_PROTOCOL_V1].

(** The protocols a request is offered on, and those that are answered. *)
Definition outbound_protocols (b : ReqResp) : list string :=
  omap (fun '(name, support) => match support with InboundOnly => None | _ => Some name end) b.

Definition inbound_protocols (b : ReqResp) : list string :=
  omap (fun '(name, support) => match support with OutboundOnly => None | _ => Some name end) b.

(** The protocol that the two sides of a stream agree on: every request of a behaviour
    is offered on all its protocols, and the first that the other side has is used. *)
Class Multistream := negotiate : list string -> list string -> option string.

Class MultistreamLaws (M : Multistream) : Prop := {
  negotiate_first : forall offered supported,
    negotiate offered supported = find (fun p => bool_decide (p ∈ supported)) offered
}.

(** The SSZ form of a status: two checkpoints of 40 bytes. *)
Class StatusSize (Z : SszCodec Status) : Prop := {
  status_size : forall bs (s : Status), from_ssz_default bs = Ok s -> length bs = 80%nat
}.

(** * Lemmas *)

Section CodecLemmas.
Context {SN : Snappy} {HSN : SnappyLaws SN}.
Context {ZS : SszCodec Status} {HZS : SszCodecLaws Status}.
Context {ZB : SszCodec SignedBlockWithAttestation} {HZB : SszCodecLaws SignedBlockWithAttestation}.

Lemma foldl_app_concat {A B} (f : A -> list B) acc l :
  foldl (fun acc x => acc ++ f x) acc l = acc ++ concat (f <$> l).
Proof.
  revert acc; induction l as [|x l IH]; intros acc; cbn; [by rewrite app_nil_r|].
  by rewrite IH, <-app_assoc.
Qed.

Lemma filter_keeps_all {A} (P : A -> Prop) `{forall x, Decision (P x)} l :
  Forall P l -> filter P l = l.
Proof.
  induction 1 as [|x l Hx _ IH]; [done|]. by rewrite filter_cons_True, IH.
Qed.

Lemma read_roots_alt bs :
  read_roots bs = h256_of_bytes <$> filter (fun c => length c = 32%nat) (chunks 32 bs).
Proof.
  unfold read_roots. enough (H : forall cs acc,
    foldl (fun roots chunk => if (length chunk =? 32)%nat then roots ++ [h256_of_bytes chunk]
      else roots) acc cs = acc ++ (h256_of_bytes <$> filter (fun c => length c = 32%nat) cs))
    by apply H.
  induction cs as [|c cs IH]; intros acc; cbn [foldl]; [by rewrite app_nil_r|].
  rewrite filter_cons, IH. destruct (Nat.eqb_spec (length c) 32) as [E|E].
  - rewrite decide_True by done. cbn. by rewrite <-app_assoc.
  - by rewrite decide_False by done.
Qed.

Lemma read_roots_written roots :
  Forall is_h256 roots -> read_roots (concat (h256_bytes <$> roots)) = roots.
Proof.
  intros Hr. assert (Hl : Forall (fun c => length c = 32%nat) (h256_bytes <$> roots))
    by (apply Forall_fmap, Forall_true; intros; apply length_h256_bytes).
  rewrite read_roots_alt, chunks_concat by (done || lia). rewrite filter_keeps_all by done.
  rewrite <-list_fmap_compose. rewrite <-(list_fmap_id roots) at 2.
  apply list_fmap_ext. intros i r Hi. apply h256_of_to_bytes. by eapply Forall_lookup_1.
Qed.

(** Compressed data is empty only if the data is. *)
Lemma compress_nonempty d c : compress d = Ok c -> d <> [] -> c <> [].
Proof.
  intros Hc Hd ->. apply frame_roundtrip in Hc. rewrite frame_empty in Hc. naive_solver.
Qed.

Lemma decode_request_written protocol d c :
  compress d = Ok c -> d <> [] ->
  decode_request protocol c =
    (if str_contains "status" protocol then
       status ← from_ssz_default d; Ok (RStatus status)
     else if str_contains "blocks_by_root" protocol then
       if (MAX_REQUEST_BLOCKS <? length (read_roots d))%nat then Err ETooManyRoots
       else Ok (RBlocksByRoot (read_roots d))
     else Err EUnknownProtocol).
Proof.
  intros Hc Hd. pose proof (compress_nonempty _ _ Hc Hd). destruct c as [|b c]; [done|].
  unfold decode_request, decompress. by rewrite (frame_roundtrip _ _ Hc).
Qed.

(** The requests a client sends: a status, or up to 1024 roots, but at least one;
    and the protocol each is sent on. *)
Definition request_ok (r : LeanRequest) : Prop :=
  match r with
  | RStatus _ => True
  | RBlocksByRoot roots => roots <> [] /\ (length roots <= MAX_REQUEST_BLOCKS)%nat /\
      Forall is_h256 roots
  end.

Definition request_protocol (r : LeanRequest) : string :=
  match r with RStatus _ => STATUS_PROTOCOL_V1 | RBlocksByRoot _ => BLOCKS_BY_ROOT_PROTOCOL_V1 end.

Lemma encoded_request_read r bs :
  request_ok r -> encode_request r = Ok bs -> decode_request (request_protocol r) bs = Ok r.
Proof.
  unfold encode_request. intros Hr (d & Hd & Hc)%bind_Ok. destruct r as [st|roots].
  - rewrite (decode_request_written _ d _ Hc) by (by apply (ssz_nonempty st)). cbn.
    by rewrite (ssz_roundtrip _ _ Hd).
  - destruct Hr as (Hne & Hle & Hr). injection Hd as <-. rewrite foldl_app_concat in Hc.
    cbn [app] in Hc. rewrite (decode_request_written _ _ _ Hc).
    + rewrite read_roots_written by done. cbn -[Nat.ltb]. by rewrite (proj2 (Nat.ltb_ge _ _) Hle).
    + destruct roots as [|r roots]; [done|]. cbn [fmap list_fmap concat]. intros E.
      apply (f_equal length) in E.
      rewrite length_app, length_h256_bytes in E. cbn in E. lia.
Qed.

(** A peer reads from the wire exactly the request that was sent, for a status
    and for one to 1024 block roots, when both sides use the protocol of its kind. *)
Theorem request_roundtrip io r bs :
  request_ok r -> write_request (request_protocol r) io r = Ok bs ->
  read_request (request_protocol r) (Ok bs) = Ok r.
Proof.
  intros Hr Hw. apply bind_Ok in Hw as (d & Hd & (u & _ & E)%bind_Ok). injection E as ->.
  by apply encoded_request_read.
Qed.

(** C40: whatever bytes arrive, a decoded request for blocks names at most 1024 roots,
    and these are exactly the decompressed data, 32 bytes after 32 bytes, up to an
    incomplete root at the end. *)
Theorem decode_request_bounded protocol bs roots :
  decode_request protocol bs = Ok (RBlocksByRoot roots) ->
  (length roots <= MAX_REQUEST_BLOCKS)%nat /\ Forall is_h256 roots /\
  exists d rest, decompress bs = Ok d /\ d = concat (h256_bytes <$> roots) ++ rest /\
    (length rest < 32)%nat.
Proof.
  unfold decode_request. destruct bs as [|b bs]; [done|]. intros (d & Hd & H)%bind_Ok.
  destruct (str_contains "status" protocol); [by apply bind_Ok in H as (? & _ & ?)|].
  destruct (str_contains "blocks_by_root" protocol); [|done].
  destruct (Nat.ltb_spec MAX_REQUEST_BLOCKS (length (read_roots d))); [done|].
  injection H as <-. split; [done|]. rewrite read_roots_alt. split.
  - apply Forall_fmap, Forall_forall. intros c [Hc _]%list_elem_of_filter.
    by apply h256_of_bytes_bound.
  - destruct (full_chunks_concat (length d) 32 d) as (rest & E & Hr); [lia..|].
    exists d, rest. split; [done|]. split; [|done]. rewrite E at 1. f_equal. f_equal.
    rewrite <-list_fmap_compose. rewrite <-(list_fmap_id (filter _ _)) at 1.
    apply list_fmap_ext. intros i c Hi%list_elem_of_lookup_2%list_elem_of_filter.
    symmetry. apply h256_bytes_of, Hi.
Qed.

Lemma decode_response_written protocol d c :
  compress d = Ok c -> d <> [] ->
  decode_response protocol c =
    (if str_contains "status" protocol then
       status ← from_ssz_default d; Ok (PStatus status)
     else if str_contains "blocks_by_root" protocol then
       block ← from_ssz_default d; Ok (PBlocksByRoot [block])
     else Err EUnknownProtocol).
Proof.
  intros Hc Hd. pose proof (compress_nonempty _ _ Hc Hd). destruct c as [|b c]; [done|].
  unfold decode_response, decompress. rewrite (frame_roundtrip _ _ Hc). by destruct d.
Qed.

(** A request for blocks cannot be read as a status. *)
Lemma roots_not_status {HS : StatusSize ZS} roots bs r :
  roots <> [] -> encode_request (RBlocksByRoot roots) = Ok bs ->
  decode_request STATUS_PROTOCOL_V1 bs <> Ok r.
Proof.
  unfold encode_request. intros Hne (d & [= <-] & Hc)%bind_Ok. rewrite foldl_app_concat in Hc. cbn [app] in Hc.
  assert (Hl : length (concat (h256_bytes <$> roots)) = (32 * length roots)%nat).
  { clear. induction roots as [|x roots IH]; [done|]. rewrite fmap_cons. cbn [concat length].
    rewrite length_app, length_h256_bytes, IH. lia. }
  rewrite (decode_request_written _ _ _ Hc).
  - cbn. intros (st & Hs%status_size & _)%bind_Ok. rewrite Hl in Hs. lia.
  - intros E. rewrite E in Hl. destruct roots; cbn in Hl; [done|lia].
Qed.

Lemma negotiated_status {M : Multistream} {HM : MultistreamLaws M} :
  negotiate (outbound_protocols build_default) (inbound_protocols build_default) =
    Some STATUS_PROTOCOL_V1.
Proof. rewrite negotiate_first. reflexivity. Qed.

(** Two peers of this client agree on the status protocol for every request, since
    it is the first that both offer: a status arrives as it was sent, and a request for
    blocks cannot be read. *)
Theorem requests_negotiated {M : Multistream} {HM : MultistreamLaws M} {HS : StatusSize ZS} io r bs :
  write_request STATUS_PROTOCOL_V1 io r = Ok bs -> request_ok r ->
  negotiate (outbound_protocols build_default) (inbound_protocols build_default) =
    Some STATUS_PROTOCOL_V1 /\
  match r with
  | RStatus _ => read_request STATUS_PROTOCOL_V1 (Ok bs) = Ok r
  | RBlocksByRoot _ => forall r', read_request STATUS_PROTOCOL_V1 (Ok bs) <> Ok r'
  end.
Proof.
  intros Hw Hr. split; [apply negotiated_status|].
  apply bind_Ok in Hw as (d & Hd & (u & _ & E)%bind_Ok). injection E as ->.
  destruct r as [st|roots]; cbn [read_request mbind outcome_bind].
  - by apply (encoded_request_read (RStatus st)).
  - intros r'. apply (roots_not_status roots); [apply Hr|done].
Qed.

(** What the other side makes of a response: no blocks and nothing are the same. *)
Definition response_read (r : LeanResponse) : LeanResponse :=
  match r with PBlocksByRoot [] => PEmpty | _ => r end.

Definition response_ok (r : LeanResponse) : Prop :=
  match r with PBlocksByRoot blocks => (length blocks <= 1)%nat | _ => True end.

Definition response_protocol (r : LeanResponse) : string :=
  match r with PStatus _ => STATUS_PROTOCOL_V1 | _ => BLOCKS_BY_ROOT_PROTOCOL_V1 end.

(** A response with a status or a single block is read as it was sent, and one
    without blocks as an empty response. *)
Theorem response_roundtrip r bs :
  response_ok r -> encode_response r = Ok bs ->
  decode_response (response_protocol r) bs = Ok (response_read r).
Proof.
  unfold encode_response. intros Hr (d & Hd & Hc)%bind_Ok. destruct r as [st|blocks|].
  - pose proof (ssz_nonempty _ _ Hd). destruct d as [|x d]; [done|].
    rewrite (decode_response_written _ _ _ Hc) by done. cbn. by rewrite (ssz_roundtrip _ _ Hd).
  - destruct blocks as [|b [|b' blocks]]; [|..|cbn in Hr; lia].
    { injection Hd as <-. by injection Hc as <-. }
    cbn in Hd. destruct (to_ssz b) as [bb| | |] eqn:Hb; try done. injection Hd as <-.
    pose proof (ssz_nonempty _ _ Hb). destruct bb as [|x bb]; [done|].
    rewrite (decode_response_written _ _ _ Hc) by done. cbn. by rewrite (ssz_roundtrip _ _ Hb).
  - injection Hd as <-. by injection Hc as <-.
Qed.

(** A response never carries more than one block: what is read has at most one,
    so a response with two or more blocks is lost or read as another one. *)
Theorem response_single_block protocol bs blocks :
  decode_response protocol bs = Ok (PBlocksByRoot blocks) -> (length blocks <= 1)%nat.
Proof.
  unfold decode_response. destruct bs as [|b bs]; [done|]. intros (d & Hd & H)%bind_Ok.
  destruct (str_contains "status" protocol); [by apply bind_Ok in H as (? & _ & ?)|].
  destruct (str_contains "blocks_by_root" protocol); [|done].
  destruct d as [|x d]; [injection H as <-; cbn; lia|].
  apply bind_Ok in H as (block & _ & [= <-]). cbn. lia.
Qed.
End CodecLemmas.

(** * Concrete encodings

    The SSZ encoding of a status, a codec that knows a single value, and a framing
    that adds a marker byte. *)

Module ToyNet.

#[export] Instance toy_snappy : Snappy := {|
  frame_encode := fun d => match d with [] => Ok [] | _ => Ok (xff :: d) end;
  frame_decode := fun c => Ok (tail c);
  raw_compress := fun d => Ok (x01 :: d);
  raw_decompress := fun c => match c with x01 :: d => Ok d | _ => Err EDecode end
|}.

#[export] Instance toy_snappy_laws : SnappyLaws toy_snappy.
Proof. split; [by intros [|b d] c [= <-]|done|by intros d c [= <-]]. Qed.

Definition checkpoint_bytes (c : Checkpoint) : bytes :=
  h256_bytes (cp_root c) ++ le_bytes 8 (cp_slot c).

Definition checkpoint_of (l : bytes) : Checkpoint :=
  mkCheckpoint (h256_of_bytes (take 32 l)) (of_le_bytes (drop 32 l)).

Definition checkpoint_fits (c : Checkpoint) : bool :=
  (cp_root c <? 256 ^ 32) && (cp_slot c <? 256 ^ 8).

#[export] Instance status_codec : SszCodec Status := {|
  to_ssz := fun s =>
    if checkpoint_fits (status_finalized s) && checkpoint_fits (status_head s)
    then Ok (checkpoint_bytes (status_finalized s) ++ checkpoint_bytes (status_head s))
    else Err EDecode;
  from_ssz_default := fun l =>
    if (length l =? 80)%nat then Ok (mkStatus (checkpoint_of (take 40 l)) (checkpoint_of (drop 40 l)))
    else Err EDecode
|}.

Lemma length_checkpoint_bytes c : length (checkpoint_bytes c) = 40%nat.
Proof. unfold checkpoint_bytes. by rewrite length_app, length_h256_bytes, length_le_bytes. Qed.

Lemma checkpoint_of_bytes c : checkpoint_fits c = true -> checkpoint_of (checkpoint_bytes c) = c.
Proof.
  intros [Hr%N.ltb_lt Hs%N.ltb_lt]%andb_true_iff. unfold checkpoint_of, checkpoint_bytes.
  rewrite take_app_length', drop_app_length' by (by rewrite length_h256_bytes).
  rewrite h256_of_to_bytes, of_le_bytes_le by done. by destruct c.
Qed.

#[export] Instance status_codec_laws : SszCodecLaws Status.
Proof.
  split; intros [f h] bs; cbn [to_ssz from_ssz_default status_codec status_finalized status_head].
  - destruct (checkpoint_fits f) eqn:Ef, (checkpoint_fits h) eqn:Eh; try done.
    intros E%Ok_inj. rewrite <-E, length_app, !length_checkpoint_bytes. cbn [Nat.add Nat.eqb].
    rewrite take_app_length', drop_app_length' by (by rewrite length_checkpoint_bytes).
    by rewrite !checkpoint_of_bytes.
  - destruct (_ && _); [|done]. intros E%Ok_inj Hbs. rewrite Hbs in E. apply (f_equal length) in E.
    rewrite length_app, !length_checkpoint_bytes in E. done.
Qed.

(** A codec for the value [a]. *)
Definition one_codec {A} `{EqDecision A} (a : A) : SszCodec A := {|
  to_ssz := fun x => if decide (x = a) then Ok [x2a] else Err EDecode;
  from_ssz_default := fun l => match l with [x2a] => Ok a | _ => Err EDecode end
|}.

Lemma one_codec_laws {A} `{EqDecision A} (a : A) : @SszCodecLaws A (one_codec a).
Proof. split; intros x bs; cbn; case_decide as E; try done; intros [= <-]; by rewrite ?E. Qed.

#[export] Instance bytes_eq_dec : EqDecision Byte.byte := Byte.byte_eq_dec.

#[export] Instance Signature_eq_dec : EqDecision Signature.
Proof. solve_decision. Defined.

#[export] Instance AggregatedSignature_eq_dec : EqDecision AggregatedSignature.
Proof. solve_decision. Defined.

#[export] Instance AggregatedSignatureProof_eq_dec : EqDecision AggregatedSignatureProof.
Proof. solve_decision. Defined.

#[export] Instance BlockSignatures_eq_dec : EqDecision BlockSignatures.
Proof. solve_decision. Defined.

#[export] Instance BlockWithAttestation_eq_dec : EqDecision BlockWithAttestation.
Proof. solve_decision. Defined.

#[export] Instance SignedBlockWithAttestation_eq_dec : EqDecision SignedBlockWithAttestation.
Proof. solve_decision. Defined.

#[export] Instance SignedAttestation_eq_dec : EqDecision SignedAttestation.
Proof. solve_decision. Defined.

Definition signed1 : SignedBlockWithAttestation := Toy.sign_block Toy.block1 Toy.vote0.

#[export] Instance block_codec : SszCodec SignedBlockWithAttestation := one_codec signed1.

#[export] Instance block_codec_laws : SszCodecLaws SignedBlockWithAttestation :=
  one_codec_laws signed1.

Definition signed_vote : SignedAttestation :=
  mkSignedAttestation 0 (at_data Toy.vote0) Signature_default.

#[export] Instance vote_codec : SszCodec SignedAttestation := one_codec signed_vote.

#[export] Instance vote_codec_laws : SszCodecLaws SignedAttestation :=
  one_codec_laws signed_vote.
End ToyNet.

Section Concrete.
Import ToyNet.

Definition two_roots : LeanRequest := RBlocksByRoot [cp_root Toy.cp1; cp_root Toy.cp2].

#[export] Instance toy_multistream : Multistream :=
  fun offered supported => find (fun p => bool_decide (p ∈ supported)) offered.

#[export] Instance toy_multistream_laws : MultistreamLaws toy_multistream.
Proof. split. done. Qed.

#[export] Instance toy_status_size : StatusSize status_codec.
Proof.
  split. intros bs s. cbn [from_ssz_default status_codec].
  by destruct (Nat.eqb_spec (length bs) 80).
Qed.

(** A stream that takes everything. *)
Definition open_stream (_ : bytes) : outcome unit := Ok tt.

Lemma requests_negotiated_witness :
  exists bs, write_request STATUS_PROTOCOL_V1 open_stream two_roots = Ok bs /\
    negotiate (outbound_protocols build_default) (inbound_protocols build_default) =
      Some STATUS_PROTOCOL_V1 /\
    forall r', read_request STATUS_PROTOCOL_V1 (Ok bs) <> Ok r'.
Proof.
  eexists. split; [vm_compute; reflexivity|]. apply (requests_negotiated open_stream two_roots).
  - vm_compute. reflexivity.
  - split; [discriminate|]. split; [vm_compute; lia|]. repeat constructor.
Defined.

Lemma request_roundtrip_witness :
  exists bs, write_request BLOCKS_BY_ROOT_PROTOCOL_V1 open_stream two_roots = Ok bs /\
    read_request BLOCKS_BY_ROOT_PROTOCOL_V1 (Ok bs) = Ok two_roots.
Proof.
  eexists. split; [vm_compute; reflexivity|]. apply (request_roundtrip open_stream two_roots).
  - split; [discriminate|]. split; [vm_compute; lia|]. repeat constructor.
  - vm_compute. reflexivity.
Defined.

Lemma decode_request_bounded_witness :
  let roots : list H256 := [5] in
  (length roots <= MAX_REQUEST_BLOCKS)%nat /\ Forall is_h256 roots /\
  exists d rest, decompress (xff :: h256_bytes 5 ++ [x00]) = Ok d /\
    d = concat (h256_bytes <$> roots) ++ rest /\ (length rest < 32)%nat.
Proof.
  apply (decode_request_bounded BLOCKS_BY_ROOT_PROTOCOL_V1). vm_compute. reflexivity.
Defined.

Lemma response_roundtrip_witness :
  exists bs, encode_response (PBlocksByRoot [signed1]) = Ok bs /\
    decode_response BLOCKS_BY_ROOT_PROTOCOL_V1 bs = Ok (PBlocksByRoot [signed1]).
Proof.
  eexists. split; [vm_compute; reflexivity|].
  apply (response_roundtrip (PBlocksByRoot [signed1])); [cbn; lia|vm_compute; reflexivity].
Defined.

Lemma response_single_block_witness : (length [signed1] <= 1)%nat.
Proof.
  apply (response_single_block BLOCKS_BY_ROOT_PROTOCOL_V1 [xff; x2a]). vm_compute. reflexivity.
Defined.

(** Two blocks in one response cannot be read. *)
Example two_blocks_unreadable :
  exists bs, encode_response (PBlocksByRoot [signed1; signed1]) = Ok bs /\
    decode_response BLOCKS_BY_ROOT_PROTOCOL_V1 bs = Err EDecode.
Proof. eexists. split; vm_compute; reflexivity. Qed.
End Concrete.
