(* ===== verification/Network.v ===== *)
(** * The network service

    [networking/src/network/service.rs], [networking/src/network/behaviour.rs],
    [networking/src/bootnodes.rs] and the peer types of [networking/src/types.rs]: how
    the service is set up, the peer table, dialling, discovered peers, gossip in and
    out, requests and responses, and the peer metrics.  libp2p and discv5 are the class
    [Libp2p]; the calls on the swarm are recorded as commands; whether a call succeeds
    and which peer the random choice picks come with the event.  The task that forwards
    the blocks of a response sends them in order. *)

From Stdlib Require Import Strings.Byte Strings.String.
From stdpp Require Import strings.
From S2P Require Import Prelude Ssz Xmss Containers State ForkChoice Node Bytes Discovery Metrics.
From S2P Require Import Gossip ReqResp.
From S2P Require Import Example.

#[local] Open Scope N_scope.

Inductive ConnectionState := Disconnected | Connecting | Connected | Disconnecting.

#[export] Instance ConnectionState_eq_dec : EqDecision ConnectionState.
Proof. solve_decision. Defined.

(** ** Goodbye reasons and peer counts *)

Inductive GoodbyeReason := ClientShutdown | IrrelevantNetwork | FaultOrError.

Definition GoodbyeReason_from_code (code : u64) : option GoodbyeReason :=
  match code with
  | 1 => Some ClientShutdown
  | 2 => Some IrrelevantNetwork
  | 3 => Some FaultOrError
  | _ => None
  end.

Definition GoodbyeReason_code (r : GoodbyeReason) : u64 :=
  match r with ClientShutdown => 1 | IrrelevantNetwork => 2 | FaultOrError => 3 end.

Record PeerCount := mkPeerCount {
  pc_disconnected : u64;
  pc_connecting : u64;
  pc_connected : u64;
  pc_disconnecting : u64
}.

Definition PeerCount_default : PeerCount := mkPeerCount 0 0 0 0.

Definition count_peer (c : PeerCount) (state : ConnectionState) : PeerCount :=
  match state with
  | Connected => mkPeerCount (pc_disconnected c) (pc_connecting c) (wadd (pc_connected c) 1)
      (pc_disconnecting c)
  | Connecting => mkPeerCount (pc_disconnected c) (wadd (pc_connecting c) 1) (pc_connected c)
      (pc_disconnecting c)
  | Disconnected => mkPeerCount (wadd (pc_disconnected c) 1) (pc_connecting c) (pc_connected c)
      (pc_disconnecting c)
  | Disconnecting => mkPeerCount (pc_disconnected c) (pc_connecting c) (pc_connected c)
      (wadd (pc_disconnecting c) 1)
  end.

(** [metrics] is [METRICS.get()]. *)
Definition PeerCount_new {MO : MapOrder} {PR : Prometheus} (metrics : option Metrics)
    (states : gmap PeerId ConnectionState) : stM PromState PeerCount :=
  let count := foldl count_peer PeerCount_default (hm_iter states).*2 in
  _ ← match metrics with
      | Some m =>
          match try_into_i64 (pc_connected count) with
          | Some connected => set_with (lean_connected_peers m) ["unknown"%string] connected
          | None => mret tt
          end
      | None => mret tt
      end;
  mret count.

(** ** Bootnodes *)

Section Bootnodes.
Context {LP : Libp2p}.

Inductive Bootnode :=
  | BMultiaddr (addr : Multiaddr)
  | BEnr (enr : Enr).

Definition Bootnode_parse (s : string) : option Bootnode :=
  if String.prefix "enr:" s then
    match parse_enr s with Ok enr => Some (BEnr enr) | _ => None end
  else BMultiaddr <$> parse_multiaddr s.

Definition to_multiaddr (b : Bootnode) : option Multiaddr :=
  match b with BMultiaddr addr => Some addr | BEnr enr => enr_to_multiaddr enr end.

Definition as_enr (b : Bootnode) : option Enr :=
  match b with BEnr enr => Some enr | BMultiaddr _ => None end.

Record StaticBootnodes := mkStaticBootnodes {
  sbn_multiaddrs : list Multiaddr;
  sbn_enrs : list Enr
}.

Definition add_bootnode (acc : StaticBootnodes) (bootnode : Bootnode) : StaticBootnodes :=
  match bootnode with
  | BMultiaddr addr => mkStaticBootnodes (sbn_multiaddrs acc ++ [addr]) (sbn_enrs acc)
  | BEnr enr =>
      mkStaticBootnodes
        match enr_to_multiaddr enr with
        | Some addr => sbn_multiaddrs acc ++ [addr]
        | None => sbn_multiaddrs acc
        end (sbn_enrs acc ++ [enr])
  end.

Definition StaticBootnodes_new (bootnodes : list Bootnode) : StaticBootnodes :=
  foldl add_bootnode (mkStaticBootnodes [] []) bootnodes.

Definition StaticBootnodes_parse (bootnode_strs : list string) : StaticBootnodes :=
  StaticBootnodes_new (omap Bootnode_parse bootnode_strs).

(** ** [Bootnode] and [NetworkServiceConfig] of [service.rs]

    The two [Bootnode] types have the same constructors and are one type here. *)

Definition addrs (b : Bootnode) : outcome (list Multiaddr) :=
  match b with BMultiaddr addr => Ok [addr] | BEnr enr => multiaddr_quic enr end.

(** [read_file] opens a file and reads its YAML: nothing without a file, nothing inside
    when it does not parse. *)
Definition parse_bootnode_argument (read_file : string -> option (option (list Bootnode)))
    (arg : string) : list Bootnode :=
  match parse_multiaddr arg with
  | Some value => [BMultiaddr value]
  | None =>
      match parse_enr_str arg with
      | Some rec => [BEnr rec]
      | None =>
          match read_file arg with
          | None => []
          | Some None => []
          | Some (Some bootnodes) => bootnodes
          end
      end
  end.

Record NetworkServiceConfig := mkNetworkServiceConfig {
  nsc_gossipsub_config : GossipsubConfig;
  nsc_socket_address : IpAddr;
  nsc_socket_port : N;
  nsc_discovery_port : N;
  nsc_discovery_enabled : bool;
  nsc_bootnodes : StaticBootnodes
}.

(** [addrs] is evaluated for a warning, and may panic. *)
Definition NetworkServiceConfig_new (read_file : string -> option (option (list Bootnode)))
    (gossipsub_config : GossipsubConfig) (socket_address : IpAddr)
    (socket_port discovery_port : N) (discovery_enabled : bool) (bootnodes : list string)
    : outcome NetworkServiceConfig :=
  let bootnodes := bootnodes ≫= parse_bootnode_argument read_file in
  bootnodes ← foldM (fun acc b => _ ← addrs b; Ok (acc ++ [b])) [] bootnodes;
  Ok (mkNetworkServiceConfig gossipsub_config socket_address socket_port discovery_port
    discovery_enabled (StaticBootnodes_new bootnodes)).

Definition enr_bootnodes (cfg : NetworkServiceConfig) : list Enr := sbn_enrs (nsc_bootnodes cfg).

(** The address the service listens on. *)
Definition listen_multiaddr (cfg : NetworkServiceConfig) : Multiaddr :=
  addr_push (addr_push (addr_from_ip (nsc_socket_address cfg)) (Udp (nsc_socket_port cfg))) QuicV1.
End Bootnodes.

(** ** The service *)

Abbreviation Channel := N (only parsing).

Definition ENetwork : error := EExternal 60.

(** [LeanNetworkBehaviour]: the parameters of its parts. *)
Record LeanNetworkBehaviour := mkLeanNetworkBehaviour {
  bh_identify_protocol : string;
  bh_identify_agent : string;
  bh_req_resp : ReqResp;
  bh_gossipsub : GossipParams;
  bh_max_pending_incoming : N;
  bh_max_pending_outgoing : N;
  bh_max_established_per_peer : N
}.

Section Types.
Context {LP : Libp2p} {PR : Prometheus}.

(** The calls on the swarm and on discovery. *)
Inductive SwarmCommand :=
  | ListenOn (addr : Multiaddr)
  | Subscribe (topic : string)
  | Dial (addr : Multiaddr)
  | SendRequest (peer : PeerId) (request : LeanRequest)
  | SendResponse (channel : Channel) (response : LeanResponse)
  | Publish (topic : string) (data : bytes)
  | AddExternalAddress (addr : Multiaddr)
  | FindRandomPeers.

(** [ns_metrics] is [METRICS.get()], [ns_prometheus] the state of prometheus;
    [ns_commands] are the calls made so far and [ns_chain] the messages sent to the
    chain task. *)
Record NetworkService := mkNetworkService {
  ns_config : NetworkServiceConfig;
  ns_local_peer_id : PeerId;
  ns_behaviour : LeanNetworkBehaviour;
  ns_discovery : option DiscoveryService;
  ns_peer_table : gmap PeerId ConnectionState;
  ns_peer_count : u64;
  ns_metrics : option Metrics;
  ns_prometheus : PromState;
  ns_commands : list SwarmCommand;
  ns_chain : list ChainMessage
}.

Definition ns_topics (n : NetworkService) : list GossipsubTopic :=
  gc_topics (nsc_gossipsub_config (ns_config n)).

Definition set_discovery (v : option DiscoveryService) (n : NetworkService) : NetworkService :=
  mkNetworkService (ns_config n) (ns_local_peer_id n) (ns_behaviour n) v (ns_peer_table n)
    (ns_peer_count n) (ns_metrics n) (ns_prometheus n) (ns_commands n) (ns_chain n).

Definition set_peer_table (v : gmap PeerId ConnectionState) (n : NetworkService)
    : NetworkService :=
  mkNetworkService (ns_config n) (ns_local_peer_id n) (ns_behaviour n) (ns_discovery n) v
    (ns_peer_count n) (ns_metrics n) (ns_prometheus n) (ns_commands n) (ns_chain n).

Definition set_peer_count (v : u64) (n : NetworkService) : NetworkService :=
  mkNetworkService (ns_config n) (ns_local_peer_id n) (ns_behaviour n) (ns_discovery n)
    (ns_peer_table n) v (ns_metrics n) (ns_prometheus n) (ns_commands n) (ns_chain n).

(** [METRICS.get().map(|m| f(m))]: a failure of [f] is dropped. *)
Definition with_metrics (f : Metrics -> stM PromState unit) (n : NetworkService) : NetworkService :=
  match ns_metrics n with
  | Some m =>
      mkNetworkService (ns_config n) (ns_local_peer_id n) (ns_behaviour n) (ns_discovery n)
        (ns_peer_table n) (ns_peer_count n) (ns_metrics n) (f m (ns_prometheus n)).1
        (ns_commands n) (ns_chain n)
  | None => n
  end.

Definition command (c : SwarmCommand) (n : NetworkService) : NetworkService :=
  mkNetworkService (ns_config n) (ns_local_peer_id n) (ns_behaviour n) (ns_discovery n)
    (ns_peer_table n) (ns_peer_count n) (ns_metrics n) (ns_prometheus n) (ns_commands n ++ [c])
    (ns_chain n).

(** [chain_message_sink.send(message)] *)
Definition to_chain (m : ChainMessage) (n : NetworkService) : NetworkService :=
  mkNetworkService (ns_config n) (ns_local_peer_id n) (ns_behaviour n) (ns_discovery n)
    (ns_peer_table n) (ns_peer_count n) (ns_metrics n) (ns_prometheus n) (ns_commands n)
    (ns_chain n ++ [m]).

Inductive NetworkEvent :=
  | PeerConnectedIncoming (peer : PeerId)
  | PeerConnectedOutgoing (peer : PeerId)
  | PeerDisconnected (peer : PeerId)
  | EvStatus (peer : PeerId)
  | EvPing (peer : PeerId)
  | EvMetaData (peer : PeerId)
  | DisconnectPeer (peer : PeerId).

(** The events of the behaviours. *)
Inductive GossipEvent :=
  | GSubscribed (peer : PeerId) (topic : string)
  | GUnsubscribed (peer : PeerId) (topic : string)
  | GMessage (message : Message)
  | GOther.

Inductive ReqRespEvent :=
  | RRResponse (peer : PeerId) (response : LeanResponse)
  | RRRequest (peer : PeerId) (request : LeanRequest) (channel : Channel)
  | RROutboundFailure (peer : PeerId)
  | RRInboundFailure (peer : PeerId)
  | RRResponseSent (peer : PeerId).

Inductive IdentifyEvent :=
  | IdReceived (peer : PeerId)
  | IdSent (peer : PeerId)
  | IdPushed (peer : PeerId)
  | IdError (peer : PeerId).

(** The side of a connection, and why it closed. *)
Inductive ConnectedPoint := Dialer | Listener.

Inductive IoErrorKind := UnexpectedEof | ConnectionReset | TimedOut | OtherIo.

Inductive ConnectionError := IO (kind : IoErrorKind) | KeepAliveTimeout.

Inductive SwarmEvent :=
  | SGossipsub (e : GossipEvent)
  | SReqResp (e : ReqRespEvent)
  | SIdentify (e : IdentifyEvent)
  | SConnectionLimits
  | SConnectionEstablished (peer : PeerId) (endpoint : ConnectedPoint)
  | SConnectionClosed (peer : PeerId) (cause : option ConnectionError) (endpoint : ConnectedPoint)
  | SIncomingConnection
  | SDialing (peer : option PeerId)
  | SNewListenAddr (addr : Multiaddr)
  | SNewExternalAddrCandidate (addr : Multiaddr)
  | SExternalAddrConfirmed (addr : Multiaddr)
  | SExternalAddrExpired (addr : Multiaddr)
  | SIncomingConnectionError
  | SOutgoingConnectionError (peer : option PeerId)
  | SOther.

Definition is_dialer (e : ConnectedPoint) : bool := match e with Dialer => true | Listener => false end.
Definition is_listener (e : ConnectedPoint) : bool := negb (is_dialer e).
End Types.

(** ** Setting the service up *)

Section Setup.
Context {LP : Libp2p} {PR : Prometheus}.

(** What libp2p answers: the gossip behaviour, [listen_on], [subscribe]. *)
Record SwarmEnv := mkSwarmEnv {
  se_behaviour : bool;
  se_listen : Multiaddr -> bool;
  se_subscribe : string -> bool;
  se_discv5 : Discv5Env
}.

Definition build_behaviour (env : SwarmEnv) (cfg : NetworkServiceConfig)
    : outcome LeanNetworkBehaviour :=
  _ ← ensure (se_behaviour env) ENetwork;
  Ok {|
    bh_identify_protocol := "eth2/1.0.0";
    bh_identify_agent := "0.0.1";
    bh_req_resp := build [STATUS_PROTOCOL_V1; BLOCKS_BY_ROOT_PROTOCOL_V1];
    bh_gossipsub := gc_config (nsc_gossipsub_config cfg);
    bh_max_pending_incoming := 5;
    bh_max_pending_outgoing := 16;
    bh_max_established_per_peer := 2 |}.

Definition listen (env : SwarmEnv) (addr : Multiaddr) (n : NetworkService) : outcome NetworkService :=
  _ ← ensure (se_listen env addr) ENetwork; Ok (command (ListenOn addr) n).

Definition subscribe_to_topics (env : SwarmEnv) (n : NetworkService) : outcome NetworkService :=
  foldM (fun n topic =>
    _ ← ensure (se_subscribe env (topic_to_string topic)) ENetwork;
    Ok (command (Subscribe (topic_to_string topic)) n)) n (ns_topics n).

(** A discovery service that cannot be set up is left out. *)
Definition start_discovery (env : SwarmEnv) (cfg : NetworkServiceConfig) (local_key : Keypair)
    : option DiscoveryService :=
  if nsc_discovery_enabled cfg then
    let discovery_config := with_bootnodes (enr_bootnodes cfg)
      (DiscoveryConfig_new (nsc_socket_address cfg) (nsc_discovery_port cfg) (nsc_socket_port cfg)) in
    match DiscoveryService_new (se_discv5 env) discovery_config local_key with
    | Ok disc => Some disc
    | _ => None
    end
  else None.

(** [metrics] and [prometheus] are the process-wide state. *)
Definition new_with_keypair (env : SwarmEnv) (cfg : NetworkServiceConfig) (peer_count : u64)
    (local_key : Keypair) (metrics : option Metrics) (prometheus : PromState)
    : outcome NetworkService :=
  behaviour ← build_behaviour env cfg;
  let multiaddr := listen_multiaddr cfg in
  let discovery := start_discovery env cfg local_key in
  let service := mkNetworkService cfg (keypair_peer_id local_key) behaviour discovery ∅ peer_count
    metrics prometheus [] [] in
  service ← listen env multiaddr service;
  subscribe_to_topics env service.

(** [random_key] is [Keypair::generate_secp256k1()]. *)
Definition new_with_peer_count (env : SwarmEnv) (cfg : NetworkServiceConfig) (peer_count : u64)
    (random_key : Keypair) (metrics : option Metrics) (prometheus : PromState)
    : outcome NetworkService :=
  new_with_keypair env cfg peer_count random_key metrics prometheus.

Definition NetworkService_new (env : SwarmEnv) (cfg : NetworkServiceConfig) (random_key : Keypair)
    (metrics : option Metrics) (prometheus : PromState) : outcome NetworkService :=
  new_with_peer_count env cfg 0 random_key metrics prometheus.

Definition local_enr (n : NetworkService) : option Enr := ds_local_enr <$> ns_discovery n.
End Setup.

Section Service.
Context {LP : Libp2p} {PR : Prometheus} {MO : MapOrder}.
Context {ZB : SszCodec SignedBlockWithAttestation} {ZA : SszCodec SignedAttestation}.

(** [values().filter(|s| **s == Connected).count() as u64] *)
Definition connected_count (table : gmap PeerId ConnectionState) : u64 :=
  N.of_nat (length (filter (fun s => s = Connected) (hm_iter table).*2)).

Definition send_status_request (peer_id : PeerId) (n : NetworkService) : NetworkService :=
  command (SendRequest peer_id (RStatus Status_default)) n.

Definition send_blocks_by_root_request (peer_id : PeerId) (roots : list H256)
    (n : NetworkService) : NetworkService :=
  if bool_decide (roots = []) then n
  else if (MAX_REQUEST_BLOCKS <? length roots)%nat then n
  else command (SendRequest peer_id (RBlocksByRoot roots)) n.

(** The first [Protocol::P2p] of an address. *)
Definition peer_of (addr : Multiaddr) : option PeerId :=
  head (omap as_p2p (addr_iter addr)).

Definition dialable (state : option ConnectionState) : bool :=
  match state with
  | Some Disconnected | Some Connecting | None => true
  | _ => false
  end.

(** One round of [connect_to_peers]; [dial_ok] says whether [swarm.dial] succeeds. *)
Definition connect_to_peer (dial_ok : Multiaddr -> bool) (n : NetworkService)
    (peer : Multiaddr) : NetworkService :=
  match peer_of peer with
  | Some peer_id =>
      if peer_id =? ns_local_peer_id n then n
      else if negb (dialable (ns_peer_table n !! peer_id)) then n
      else
        let n := command (Dial peer) n in
        if negb (dial_ok peer) then n
        else set_peer_table (<[peer_id := Connecting]> (ns_peer_table n)) n
  | None => n
  end.

Definition connect_to_peers (dial_ok : Multiaddr -> bool) (peers : list Multiaddr)
    (n : NetworkService) : NetworkService :=
  foldl (connect_to_peer dial_ok) n peers.

(** [choose] is the random generator's choice from a slice. *)
Definition get_random_connected_peer (choose : list PeerId -> option PeerId)
    (n : NetworkService) : option PeerId :=
  let peers := (filter (fun '(_, state) => state = Connected) (hm_iter (ns_peer_table n))).*1 in
  if bool_decide (peers = []) then None else choose peers.

Definition publish_to_topic (kind : GossipsubKind) (data : bytes) (n : NetworkService)
    : NetworkService :=
  match find (fun topic => bool_decide (topic_kind topic = kind)) (ns_topics n) with
  | Some topic => command (Publish (topic_to_string topic) data) n
  | None => n
  end.

Definition dispatch_outbound_request (choose : list PeerId -> option PeerId)
    (request : OutboundP2pRequest) (n : NetworkService) : NetworkService :=
  match request with
  | GossipBlockWithAttestation sb =>
      match to_ssz sb with
      | Ok data => publish_to_topic KBlock data n
      | _ => n
      end
  | GossipAttestation sa =>
      match to_ssz sa with
      | Ok data => publish_to_topic KAttestation data n
      | _ => n
      end
  | RequestBlocksByRoot roots =>
      match get_random_connected_peer choose n with
      | Some peer_id => send_blocks_by_root_request peer_id roots n
      | None => n
      end
  end.

Definition handle_gossipsub_event (e : GossipEvent) (n : NetworkService) : NetworkService :=
  match e with
  | GMessage message =>
      match GossipsubMessage_decode (msg_topic message) (msg_data message) with
      | Ok (GBlock sb) => to_chain (ProcessBlock sb false true) n
      | Ok (GAttestation sa) => to_chain (ProcessAttestation sa false true) n
      | _ => n
      end
  | _ => n
  end.

(** The answer to a request. *)
Definition respond (request : LeanRequest) : LeanResponse :=
  match request with
  | RStatus _ => PStatus Status_default
  | RBlocksByRoot _ => PBlocksByRoot []
  end.

Definition handle_request_response_event (e : ReqRespEvent) (n : NetworkService)
    : NetworkService :=
  match e with
  | RRResponse _ (PBlocksByRoot blocks) =>
      foldl (fun n block => to_chain (ProcessBlock block false false) n) n blocks
  | RRRequest _ request channel => command (SendResponse channel (respond request)) n
  | _ => n
  end.

Definition handle_identify_event (e : IdentifyEvent) (n : NetworkService) : NetworkService :=
  match e with
  | IdReceived _ | IdSent _ | IdPushed _ | IdError _ => n
  end.

Definition disconnect_reason (cause : option ConnectionError) : DisconnectReason :=
  match cause with
  | None => LocalClose
  | Some (IO UnexpectedEof) | Some (IO ConnectionReset) => RemoteClose
  | Some (IO TimedOut) => Timeout
  | Some (IO _) => Error
  | Some KeepAliveTimeout => Timeout
  end.

(** Set a peer's state and recount. *)
Definition set_peer (peer : PeerId) (state : ConnectionState) (n : NetworkService)
    : NetworkService :=
  let n := set_peer_table (<[peer := state]> (ns_peer_table n)) n in
  set_peer_count (connected_count (ns_peer_table n)) n.

Definition parse_swarm_event (e : SwarmEvent) (n : NetworkService)
    : NetworkService * option NetworkEvent :=
  match e with
  | SGossipsub e => (handle_gossipsub_event e n, None)
  | SReqResp e => (handle_request_response_event e n, None)
  | SIdentify e => (handle_identify_event e n, None)
  | SConnectionEstablished peer endpoint =>
      let n := set_peer peer Connected n in
      let n := if is_dialer endpoint then send_status_request peer n else n in
      (with_metrics (fun m => register_peer_connection_success m (is_listener endpoint)) n, None)
  | SConnectionClosed peer cause endpoint =>
      let n := set_peer peer Disconnected n in
      (with_metrics (fun m =>
         register_peer_disconnect m (is_listener endpoint) (disconnect_reason cause)) n,
       Some (PeerDisconnected peer))
  | SDialing peer => (n, PeerConnectedOutgoing <$> peer)
  | SNewExternalAddrCandidate addr => (command (AddExternalAddress addr) n, None)
  | SIncomingConnectionError =>
      (with_metrics (fun m => register_peer_connection_failure m true) n, None)
  | SOutgoingConnectionError _ =>
      (with_metrics (fun m => register_peer_connection_failure m false) n, None)
  | _ => (n, None)
  end.

(** A peer that discovery found, if the stream has one. *)
Definition on_discovered (dial_ok : Multiaddr -> bool) (n : NetworkService) : NetworkService :=
  match ns_discovery n with
  | Some disc =>
      let '(disc, enr) := recv disc in
      let n := set_discovery (Some disc) n in
      match enr with
      | Some enr =>
          match enr_to_multiaddr enr with
          | Some multiaddr => connect_to_peers dial_ok [multiaddr] n
          | None => n
          end
      | None => n
      end
  | None => n
  end.

(** The rounds of the [select!] loop of [start]. *)
Inductive NetInput :=
  | ReconnectTick (dial_ok : Multiaddr -> bool)
  | DiscoveryTick
  | OutboundRequest (request : OutboundP2pRequest) (choose : list PeerId -> option PeerId)
  | SwarmInput (e : SwarmEvent)
  | Discovered (dial_ok : Multiaddr -> bool).

Definition network_step (i : NetInput) (n : NetworkService) : NetworkService :=
  match i with
  | ReconnectTick dial_ok =>
      connect_to_peers dial_ok (sbn_multiaddrs (nsc_bootnodes (ns_config n))) n
  | DiscoveryTick =>
      match ns_discovery n with Some _ => command FindRandomPeers n | None => n end
  | OutboundRequest request choose => dispatch_outbound_request choose request n
  | SwarmInput e => (parse_swarm_event e n).1
  | Discovered dial_ok => on_discovered dial_ok n
  end.
End Service.

(** The codes are those of the reasons. *)
Lemma goodbye_code_roundtrip c r :
  GoodbyeReason_from_code c = Some r <-> GoodbyeReason_code r = c.
Proof.
  split; [|by intros <-; destruct r].
  unfold GoodbyeReason_from_code. repeat case_match; by intros [= <-].
Qed.

(** * Peers *)

Section Peers.
Context {LP : Libp2p} {PR : Prometheus} {MO : MapOrder} {HM : MapOrderLaws MO}.
Context {ZB : SszCodec SignedBlockWithAttestation} {ZA : SszCodec SignedAttestation}.

Lemma length_filter_snd (l : list (PeerId * ConnectionState)) :
  length (filter (fun s => s = Connected) l.*2) =
  length (filter (fun kv : PeerId * ConnectionState => kv.2 = Connected) l).
Proof.
  induction l as [|[k s] l IH]; [done|]. cbn [fmap list_fmap snd]. rewrite !filter_cons.
  cbn [snd]. case_decide; cbn; by rewrite IH.
Qed.

Lemma size_filter_map (P : PeerId * ConnectionState -> Prop) `{forall x, Decision (P x)}
    (m : gmap PeerId ConnectionState) : size (filter P m) = length (filter P (map_to_list m)).
Proof.
  rewrite <-length_map_to_list, map_filter_alt, map_to_list_to_map; [done|].
  eapply sublist_NoDup; [apply (NoDup_fst_map_to_list m)|]. apply fmap_sublist, sublist_filter.
Qed.

Lemma connected_count_size table :
  connected_count table =
    N.of_nat (size (filter (fun kv : PeerId * ConnectionState => kv.2 = Connected) table)).
Proof.
  unfold connected_count. f_equal. rewrite length_filter_snd.
  rewrite size_filter_map. by rewrite (hm_iter_perm table).
Qed.

Lemma connected_count_not table p s :
  dialable (table !! p) = true -> s <> Connected ->
  connected_count (<[p := s]> table) = connected_count table.
Proof.
  intros Hd Hs. rewrite !connected_count_size. f_equal. f_equal. apply map_eq. intros q.
  apply option_eq. intros t. rewrite !map_lookup_filter_Some. cbn.
  destruct (decide (p = q)) as [<-|Hne]; [|by rewrite lookup_insert_ne].
  rewrite lookup_insert_eq. split; intros [E ->]; [by simplify_eq|]. by rewrite E in Hd.
Qed.

Lemma PeerCount_fold l c :
  pc_connected c + N.of_nat (length l) < u64_modulus ->
  pc_connected (foldl count_peer c l) =
    pc_connected c + N.of_nat (length (filter (fun s => s = Connected) l)).
Proof.
  revert c; induction l as [|s l IH]; intros c Hc; [cbn; lia|].
  cbn [foldl length] in *. rewrite filter_cons.
  assert (Hw : wadd (pc_connected c) 1 = pc_connected c + 1).
  { unfold wadd. apply N.mod_small. unfold u64_modulus in *. lia. }
  rewrite IH; destruct s; cbn [count_peer pc_connected]; rewrite ?Hw;
    repeat (case_decide; try done); cbn [length]; lia.
Qed.

(** The counts of a table, and the gauge that shows them. *)
Lemma PeerCount_new_spec {HPR : PrometheusLaws PR} metrics table r :
  N.of_nat (size table) < 9223372036854775808 -> (forall m, metrics = Some m -> labelled m) ->
  exists r' c, PeerCount_new metrics table r = (r', Ok c) /\
    pc_connected c = connected_count table /\
    forall m, metrics = Some m ->
      gauge_value r' (lean_connected_peers m) ["unknown"%string] = Z.of_N (connected_count table).
Proof.
  intros Hs Hl. unfold PeerCount_new. cbv zeta. set (count := foldl _ _ _).
  assert (Hc : pc_connected count = connected_count table).
  { unfold count. rewrite PeerCount_fold; [done|].
    rewrite length_fmap, (hm_iter_perm table), length_map_to_list. cbn [pc_connected PeerCount_default].
    unfold u64_modulus. lia. }
  destruct metrics as [m|]; [|by exists r, count].
  rewrite try_into_i64_small.
  - unfold set_with. rewrite has_labels_length, (lb_connected m (Hl m eq_refl)). cbn [length].
    rewrite bool_decide_eq_true_2 by done. eexists _, count. split; [done|]. split; [done|].
    intros m' <-%(inj Some). by rewrite gauge_set_value, bool_decide_eq_true_2, Hc.
  - rewrite Hc, connected_count_size.
    pose proof (map_size_filter (fun kv : PeerId * ConnectionState => kv.2 = Connected) table). lia.
Qed.

(** ** One step of the peer table *)

(** How a peer's entry can change in a step. *)
Inductive peer_step (n : NetworkService) (i : NetInput) (p : PeerId)
    : option ConnectionState -> option ConnectionState -> Prop :=
  | peer_same s : peer_step n i p s s
  | peer_connects s endpoint : i = SwarmInput (SConnectionEstablished p endpoint) ->
      peer_step n i p s (Some Connected)
  | peer_leaves s cause endpoint : i = SwarmInput (SConnectionClosed p cause endpoint) ->
      peer_step n i p s (Some Disconnected)
  | peer_dialled s addr : p <> ns_local_peer_id n -> peer_of addr = Some p ->
      Dial addr ∈ ns_commands (network_step i n) -> dialable s = true ->
      peer_step n i p s (Some Connecting).

(** A round of dialling, compared with its start. *)
Record dialled (n n' : NetworkService) : Prop := mkDialled {
  dl_local : ns_local_peer_id n' = ns_local_peer_id n;
  dl_count : ns_peer_count n' = ns_peer_count n;
  dl_chain : ns_chain n' = ns_chain n;
  dl_connected : connected_count (ns_peer_table n') = connected_count (ns_peer_table n);
  dl_commands : exists l, ns_commands n' = ns_commands n ++ l /\ forall c, c ∈ l ->
    exists addr p, c = Dial addr /\ peer_of addr = Some p /\ p <> ns_local_peer_id n /\
      dialable (ns_peer_table n !! p) = true;
  dl_table : forall p, ns_peer_table n' !! p = ns_peer_table n !! p \/
    (ns_peer_table n' !! p = Some Connecting /\ dialable (ns_peer_table n !! p) = true /\
     p <> ns_local_peer_id n /\ exists addr, peer_of addr = Some p /\ Dial addr ∈ ns_commands n')
}.

Lemma dialled_discovery d n : dialled n (set_discovery d n).
Proof.
  split; try done; [|by left]. exists []. split; [by rewrite app_nil_r|].
  by intros c ?%not_elem_of_nil.
Qed.

Lemma dialled_refl n : dialled n n.
Proof.
  split; try done; [|by left]. exists []. split; [by rewrite app_nil_r|].
  by intros c ?%not_elem_of_nil.
Qed.

Lemma dialled_trans n1 n2 n3 : dialled n1 n2 -> dialled n2 n3 -> dialled n1 n3.
Proof.
  intros [L1 C1 H1 K1 (l1 & E1 & D1) T1] [L2 C2 H2 K2 (l2 & E2 & D2) T2].
  assert (Hd : forall p, dialable (ns_peer_table n2 !! p) = true ->
    dialable (ns_peer_table n1 !! p) = true).
  { intros p Hp. destruct (T1 p) as [<-|(_ & ? & _)]; done. }
  split; try congruence.
  - exists (l1 ++ l2). split; [by rewrite E2, E1, app_assoc|].
    intros c [Hc|Hc]%elem_of_app; [by apply D1|].
    destruct (D2 c Hc) as (addr & p & -> & Hp & Hl & Ht). exists addr, p.
    rewrite L1 in Hl. auto.
  - intros p. destruct (T2 p) as [->|(E & Ht & Hl & addr & Ha & Hin)].
    + destruct (T1 p) as [->|(E & Ht & Hl & addr & Ha & Hin)]; [by left|right].
      do 3 (split; [done|]). exists addr. split; [done|]. rewrite E2. set_solver.
    + right. rewrite L1 in Hl. split; [done|]. split; [by apply Hd|]. split; [done|]. eauto.
Qed.

Lemma connect_to_peer_dialled ok n addr : dialled n (connect_to_peer ok n addr).
Proof.
  unfold connect_to_peer. destruct (peer_of addr) as [p|] eqn:Hp; [|apply dialled_refl].
  destruct (N.eqb_spec p (ns_local_peer_id n)) as [E|Hl]; [apply dialled_refl|].
  destruct (dialable (ns_peer_table n !! p)) eqn:Hd; cbn [negb]; [|apply dialled_refl].
  assert (Hcmd : exists l, ns_commands (command (Dial addr) n) = ns_commands n ++ l /\
    forall c, c ∈ l -> exists addr p, c = Dial addr /\ peer_of addr = Some p /\
      p <> ns_local_peer_id n /\ dialable (ns_peer_table n !! p) = true).
  { exists [Dial addr]. split; [done|]. intros c ->%list_elem_of_singleton. by exists addr, p. }
  destruct (ok addr); cbn [negb]; split; try done; cbn [set_peer_table command ns_peer_table];
    [by apply connected_count_not| |by left].
  intros q. destruct (decide (p = q)) as [<-|Hne]; [right|left; by rewrite lookup_insert_ne].
  rewrite lookup_insert_eq. do 3 (split; [done|]). exists addr. split; [done|]. cbn. set_solver.
Qed.

Lemma connect_to_peers_dialled ok peers n : dialled n (connect_to_peers ok peers n).
Proof.
  unfold connect_to_peers. revert n. induction peers as [|a peers IH]; intros n;
    [apply dialled_refl|]. cbn. eapply dialled_trans; [apply connect_to_peer_dialled|apply IH].
Qed.

(** The steps that leave the peers alone. *)
Record peers_kept (n n' : NetworkService) : Prop := mkPeersKept {
  pk_local : ns_local_peer_id n' = ns_local_peer_id n;
  pk_table : ns_peer_table n' = ns_peer_table n;
  pk_count : ns_peer_count n' = ns_peer_count n
}.

Lemma dispatch_kept choose r n : peers_kept n (dispatch_outbound_request choose r n).
Proof.
  unfold dispatch_outbound_request, publish_to_topic, send_blocks_by_root_request.
  repeat case_match; done.
Qed.

Lemma gossip_kept e n : peers_kept n (handle_gossipsub_event e n).
Proof. unfold handle_gossipsub_event. repeat case_match; done. Qed.

Lemma req_resp_kept e n : peers_kept n (handle_request_response_event e n).
Proof.
  unfold handle_request_response_event. destruct e as [q r|q r c|q|q|q]; try done.
  destruct r as [st|blocks|]; try done.
  revert n. induction blocks as [|b blocks IH]; intros n; [done|]. cbn.
  by destruct (IH (to_chain (ProcessBlock b false false) n)).
Qed.

Lemma with_metrics_kept f n : peers_kept n (with_metrics f n).
Proof. unfold with_metrics. by destruct (ns_metrics n). Qed.

Lemma with_metrics_table f n : ns_peer_table (with_metrics f n) = ns_peer_table n.
Proof. apply with_metrics_kept. Qed.

Lemma with_metrics_count f n : ns_peer_count (with_metrics f n) = ns_peer_count n.
Proof. apply with_metrics_kept. Qed.

Lemma with_metrics_chain f n : ns_chain (with_metrics f n) = ns_chain n.
Proof. unfold with_metrics. by destruct (ns_metrics n). Qed.

Lemma on_discovered_dialled ok n : dialled n (on_discovered ok n).
Proof.
  unfold on_discovered. destruct (ns_discovery n) as [d|]; [|apply dialled_refl].
  destruct (recv d) as [d' [enr|]]; [|apply dialled_discovery].
  destruct (enr_to_multiaddr enr) as [addr|]; [|apply dialled_discovery].
  eapply dialled_trans; [apply dialled_discovery|apply connect_to_peers_dialled].
Qed.

Lemma network_step_peers i n p :
  peer_step n i p (ns_peer_table n !! p) (ns_peer_table (network_step i n) !! p).
Proof.
  assert (Hk : forall n', peers_kept n n' ->
    peer_step n i p (ns_peer_table n !! p) (ns_peer_table n' !! p)).
  { intros n' [_ -> _]. constructor. }
  assert (Hd : dialled n (network_step i n) ->
    peer_step n i p (ns_peer_table n !! p) (ns_peer_table (network_step i n) !! p)).
  { intros [_ _ _ _ _ Ht]. destruct (Ht p) as [->|(-> & Hd & Hl & addr & Ha & Hin)];
      [constructor|by eapply peer_dialled]. }
  destruct i as [ok| |r choose|e|ok]; cbn [network_step] in *.
  - apply Hd, connect_to_peers_dialled.
  - apply Hk. by destruct (ns_discovery n).
  - apply Hk, dispatch_kept.
  - destruct e as [ge|re|ie| |q d|q c d| |q|a|a|a|a| |q|]; cbn [parse_swarm_event fst] in *;
      try (by apply Hk); try (by apply Hk, with_metrics_kept);
      [by apply Hk, gossip_kept|by apply Hk, req_resp_kept|by destruct ie; apply Hk|..];
      rewrite with_metrics_table; (destruct (decide (q = p)) as [->|Hne]);
      destruct d; cbn; rewrite ?lookup_insert_eq, ?lookup_insert_ne by done;
      first [constructor; fail | by eapply peer_connects | by eapply peer_leaves].
  - apply Hd, on_discovered_dialled.
Qed.

(** The counter equals the number of connected peers. *)
Definition count_ok (n : NetworkService) : Prop :=
  ns_peer_count n = connected_count (ns_peer_table n).

Lemma network_step_count i n : count_ok n -> count_ok (network_step i n).
Proof.
  unfold count_ok. intros Hn.
  assert (Hk : forall n', peers_kept n n' -> ns_peer_count n' = connected_count (ns_peer_table n'))
    by (by intros n' [_ -> ->]).
  assert (Hd : forall n', dialled n n' -> ns_peer_count n' = connected_count (ns_peer_table n'))
    by (intros n' [_ -> _ -> _ _]; done).
  destruct i as [ok| |r choose|e|ok]; cbn [network_step].
  - apply Hd, connect_to_peers_dialled.
  - apply Hk. by destruct (ns_discovery n).
  - apply Hk, dispatch_kept.
  - destruct e as [ge|re|ie| |q d|q c d| |q|a|a|a|a| |q|]; cbn [parse_swarm_event fst];
      rewrite ?with_metrics_table, ?with_metrics_count;
      try done; [apply Hk, gossip_kept|apply Hk, req_resp_kept|by destruct ie|by destruct d].
  - apply Hd, on_discovered_dialled.
Qed.

(** The services a run of the loop reaches; the shared counter starts at zero. *)
Inductive network_reachable : NetworkService -> Prop :=
  | network_start env cfg key metrics prometheus n :
      new_with_keypair env cfg 0 key metrics prometheus = Ok n -> network_reachable n
  | network_next i n : network_reachable n -> network_reachable (network_step i n).

Lemma subscribe_to_topics_spec env n n' :
  subscribe_to_topics env n = Ok n' ->
  n' = mkNetworkService (ns_config n) (ns_local_peer_id n) (ns_behaviour n) (ns_discovery n)
    (ns_peer_table n) (ns_peer_count n) (ns_metrics n) (ns_prometheus n)
    (ns_commands n ++ ((fun topic => Subscribe (topic_to_string topic)) <$> ns_topics n)) (ns_chain n).
Proof.
  unfold subscribe_to_topics. generalize (ns_topics n). intros l. revert n.
  induction l as [|x l IH]; intros n; cbn [foldM].
  { intros <-%Ok_inj. cbn. rewrite app_nil_r. by destruct n. }
  destruct (se_subscribe env (topic_to_string x)); [|done]. cbn [ensure mbind outcome_bind].
  intros ->%IH. cbn. by rewrite <-app_assoc.
Qed.

(** A service that was set up: it listens on its address and follows its topics. *)
Lemma new_with_keypair_spec env cfg count key metrics prometheus n :
  new_with_keypair env cfg count key metrics prometheus = Ok n ->
  exists bh, build_behaviour env cfg = Ok bh /\
    n = mkNetworkService cfg (keypair_peer_id key) bh (start_discovery env cfg key) ∅ count
      metrics prometheus
      (ListenOn (listen_multiaddr cfg) ::
       ((fun topic => Subscribe (topic_to_string topic)) <$> gc_topics (nsc_gossipsub_config cfg))) [].
Proof.
  unfold new_with_keypair. intros (bh & Hb & (n1 & Hl & Hs)%bind_Ok)%bind_Ok. exists bh.
  split; [done|]. unfold listen in Hl. apply bind_Ok in Hl as (u & _ & [= <-]).
  by apply subscribe_to_topics_spec in Hs as ->.
Qed.

Lemma network_count_ok n : network_reachable n -> count_ok n.
Proof.
  induction 1 as [env cfg key ms pr n H|i n _ IH]; [|by apply network_step_count].
  apply new_with_keypair_spec in H as (bh & _ & ->).
  unfold count_ok. by rewrite connected_count_size.
Qed.

(** C38: the shared peer counter always equals the number of peers in the table
    that are connected, as [PeerCount] counts them and as its gauge shows them:
    dialling, messages and repeated connection events never make it drift. *)
Theorem peer_count_exact {HPR : PrometheusLaws PR} n :
  network_reachable n -> N.of_nat (size (ns_peer_table n)) < 9223372036854775808 ->
  (forall m, ns_metrics n = Some m -> labelled m) ->
  exists r c, PeerCount_new (ns_metrics n) (ns_peer_table n) (ns_prometheus n) = (r, Ok c) /\
    ns_peer_count n = pc_connected c /\
    forall m, ns_metrics n = Some m ->
      gauge_value r (lean_connected_peers m) ["unknown"%string] = Z.of_N (ns_peer_count n).
Proof.
  intros Hn Hs Hl. destruct (PeerCount_new_spec _ _ (ns_prometheus n) Hs Hl) as (r & c & E & Ec & Eg).
  exists r, c. rewrite (network_count_ok n Hn). done.
Qed.

(** A peer's entry becomes connected only when a connection is established,
    disconnected only when one closes, and connecting only by dialling an address
    of that peer while it was neither the node itself nor connected; every other
    step leaves it alone, and no peer is ever disconnecting. *)
Theorem peer_state_machine n i p :
  network_reachable n ->
  peer_step n i p (ns_peer_table n !! p) (ns_peer_table (network_step i n) !! p) /\
  ns_peer_table n !! p <> Some Disconnecting.
Proof.
  intros Hn. split; [apply network_step_peers|].
  induction Hn as [env cfg key ms pr n H|i' n Hn IH];
    [by apply new_with_keypair_spec in H as (bh & _ & ->)|]. pose proof (network_step_peers i' n p) as Hp.
  intros E. rewrite E in Hp. inversion Hp. congruence.
Qed.
End Peers.

(** The two lists of bootnodes, in the order given. *)
Lemma StaticBootnodes_new_lists {LP : Libp2p} bs :
  sbn_multiaddrs (StaticBootnodes_new bs) = omap to_multiaddr bs /\
  sbn_enrs (StaticBootnodes_new bs) = omap as_enr bs.
Proof.
  unfold StaticBootnodes_new. enough (H : forall acc,
    sbn_multiaddrs (foldl add_bootnode acc bs) = sbn_multiaddrs acc ++ omap to_multiaddr bs /\
    sbn_enrs (foldl add_bootnode acc bs) = sbn_enrs acc ++ omap as_enr bs) by apply H.
  induction bs as [|b bs IH]; intros acc; cbn [foldl omap list_omap];
    [by rewrite !app_nil_r|].
  destruct (IH (add_bootnode acc b)) as [-> ->].
  destruct b as [addr|enr]; cbn; [by rewrite <-app_assoc|].
  destruct (enr_to_multiaddr enr); by rewrite <-!app_assoc.
Qed.

(** * Messages *)

Section Messages.
Context {LP : Libp2p} {PR : Prometheus} {MO : MapOrder} {HM : MapOrderLaws MO}.
Context {SN : Snappy} {HSN : SnappyLaws SN}.
Context {ZB : SszCodec SignedBlockWithAttestation} {HZB : SszCodecLaws SignedBlockWithAttestation}.
Context {ZA : SszCodec SignedAttestation} {HZA : SszCodecLaws SignedAttestation}.
Context {ZS : SszCodec Status} {HZS : SszCodecLaws Status}.

(** ** Gossip *)

(** The payload and the topic of a gossip request, and the message it should
    become on the other side. *)
Definition gossip_payload (r : OutboundP2pRequest) : outcome (GossipsubKind * bytes) :=
  match r with
  | GossipBlockWithAttestation sb => data ← to_ssz sb; Ok (KBlock, data)
  | GossipAttestation sa => data ← to_ssz sa; Ok (KAttestation, data)
  | RequestBlocksByRoot _ => Err EDecode
  end.

Definition gossip_received (r : OutboundP2pRequest) : list ChainMessage :=
  match r with
  | GossipBlockWithAttestation sb => [block_with_attestation sb]
  | GossipAttestation sa => [attestation_message sa]
  | RequestBlocksByRoot _ => []
  end.

Lemma dispatch_gossip choose r n fork kind data :
  ns_topics n = get_topics fork -> gossip_payload r = Ok (kind, data) ->
  dispatch_outbound_request choose r n =
    command (Publish (topic_to_string (mkGossipsubTopic fork kind)) data) n.
Proof.
  intros Ht Hp. unfold dispatch_outbound_request, publish_to_topic. rewrite Ht.
  destruct r as [sb|sa|roots]; [..|done]; cbn in Hp; apply bind_Ok in Hp as (d & -> & [= <- <-]);
    done.
Qed.

Lemma topic_string_decodes fork kind :
  slash_free fork ->
  GossipsubTopic_decode (topic_to_string (mkGossipsubTopic fork kind)) =
    Ok (mkGossipsubTopic fork kind).
Proof.
  intros Hf. apply topic_decode_parts. rewrite topic_to_string_body.
  change (String slash ?s) with (slashes 1 s). rewrite trim_start_slashes by done.
  by apply split_topic_body.
Qed.

(** What the receiving side makes of the published bytes. *)
Lemma gossip_handed r fork kind data wire seq source :
  slash_free fork -> gossip_payload r = Ok (kind, data) ->
  outbound_transform (topic_to_string (mkGossipsubTopic fork kind)) data = Ok wire ->
  exists m, inbound_transform
      (mkMessage (topic_to_string (mkGossipsubTopic fork kind)) wire seq source) = Ok m /\
    forall n', ns_chain (network_step (SwarmInput (SGossipsub (GMessage m))) n') =
      ns_chain n' ++ gossip_received r.
Proof.
  intros Hf Hp Hw. unfold inbound_transform. cbn [msg_data].
  rewrite (raw_roundtrip _ _ Hw). eexists. split; [done|]. intros n'.
  cbn [network_step parse_swarm_event handle_gossipsub_event msg_topic msg_data fst].
  unfold GossipsubMessage_decode. rewrite topic_string_decodes by done.
  destruct r as [sb|sa|roots]; [..|done]; apply bind_Ok in Hp as (d & Hd & [= <- <-]); cbn;
    by rewrite (ssz_roundtrip _ _ Hd).
Qed.

(** Gossip arrives as it was sent: a node that publishes a block or an
    attestation publishes it once, on the topic of its kind, and a node that
    receives these bytes through the compression hands exactly that block or
    attestation to its chain, marked for further gossip. *)
Theorem gossip_end_to_end choose r n fork kind data :
  ns_topics n = get_topics fork -> slash_free fork -> gossip_payload r = Ok (kind, data) ->
  exists topic,
    ns_commands (network_step (OutboundRequest r choose) n) = ns_commands n ++ [Publish topic data] /\
    forall wire seq source, outbound_transform topic data = Ok wire ->
      exists m, inbound_transform (mkMessage topic wire seq source) = Ok m /\
        forall n', ns_chain (network_step (SwarmInput (SGossipsub (GMessage m))) n') =
          ns_chain n' ++ gossip_received r.
Proof.
  intros Ht Hf Hp. exists (topic_to_string (mkGossipsubTopic fork kind)). split.
  { cbn [network_step]. by rewrite (dispatch_gossip _ _ _ _ _ _ Ht Hp). }
  intros wire seq source Hw. by eapply gossip_handed.
Qed.

(** ** What reaches the chain *)

Definition message_origin (i : NetInput) (m : ChainMessage) : Prop :=
  match i with
  | SwarmInput (SGossipsub (GMessage msg)) =>
      (exists sb, GossipsubMessage_decode (msg_topic msg) (msg_data msg) = Ok (GBlock sb) /\
         m = block_with_attestation sb) \/
      (exists sa, GossipsubMessage_decode (msg_topic msg) (msg_data msg) = Ok (GAttestation sa) /\
         m = attestation_message sa)
  | SwarmInput (SReqResp (RRResponse _ (PBlocksByRoot blocks))) =>
      exists sb, sb ∈ blocks /\ m = ProcessBlock sb false false
  | _ => False
  end.

Lemma forward_blocks blocks n :
  ns_chain (foldl (fun n block => to_chain (ProcessBlock block false false) n) n blocks) =
    ns_chain n ++ ((fun block => ProcessBlock block false false) <$> blocks).
Proof.
  revert n. induction blocks as [|b blocks IH]; intros n; cbn; [by rewrite app_nil_r|].
  rewrite IH. cbn. by rewrite <-app_assoc.
Qed.

(** The chain task gets exactly two kinds of messages from the network: a block
    or attestation that a gossip message decodes to, to be gossiped on, and the
    blocks of a response, not to be gossiped; never a trusted one, and messages
    already sent stay. *)
Theorem chain_messages_origin i n :
  exists l, ns_chain (network_step i n) = ns_chain n ++ l /\
    forall m, m ∈ l -> message_origin i m.
Proof.
  assert (Hnil : forall n', ns_chain n' = ns_chain n -> exists l,
    ns_chain n' = ns_chain n ++ l /\ forall m, m ∈ l -> message_origin i m).
  { intros n' ->. exists []. split; [by rewrite app_nil_r|]. by intros m ?%not_elem_of_nil. }
  destruct i as [ok| |r choose|e|ok]; cbn [network_step].
  - apply Hnil, connect_to_peers_dialled.
  - apply Hnil. by destruct (ns_discovery n).
  - apply Hnil. unfold dispatch_outbound_request, publish_to_topic, send_blocks_by_root_request.
    repeat case_match; done.
  - destruct e as [ge|re|ie| |q d|q c d| |q|a|a|a|a| |q|]; cbn [parse_swarm_event fst];
      try (by apply Hnil); try (apply Hnil; rewrite with_metrics_chain; by try destruct d);
      try (by destruct ie; apply Hnil).
    + destruct ge as [? ?|? ?|msg|]; try (by apply Hnil). cbn [handle_gossipsub_event].
      destruct (GossipsubMessage_decode _ _) as [[sb|sa]| | |] eqn:E; try (by apply Hnil);
        eexists; (split; [done|]); intros m ->%list_elem_of_singleton; cbn; rewrite E; eauto.
    + destruct re as [q [st|blocks|]|q r c|q|q|q]; try (by apply Hnil).
      eexists. split; [apply forward_blocks|]. intros m (b & -> & Hb)%list_elem_of_fmap. cbn. eauto.
  - apply Hnil, on_discovered_dialled.
Qed.

(** ** Requests for blocks *)

(** The random generator returns an element of a nonempty slice. *)
Definition choice_ok (choose : list PeerId -> option PeerId) : Prop :=
  forall l, l <> [] -> exists p, choose l = Some p /\ p ∈ l.

Lemma random_peer_connected choose n :
  choice_ok choose -> (exists p, ns_peer_table n !! p = Some Connected) ->
  exists p, get_random_connected_peer choose n = Some p /\ ns_peer_table n !! p = Some Connected.
Proof.
  intros Hc (q & Hq). unfold get_random_connected_peer. set (l := filter _ _).
  assert (Hl : forall kv, kv ∈ l <-> ns_peer_table n !! kv.1 = Some Connected /\ kv.2 = Connected).
  { intros [k s]. unfold l. rewrite list_elem_of_filter, (hm_iter_perm (ns_peer_table n)).
    rewrite elem_of_map_to_list. cbn. naive_solver. }
  rewrite bool_decide_eq_false_2.
  - destruct (Hc l.*1) as (p & Hp & Hin).
    + intros E%fmap_nil_inv. assert (H : (q, Connected) ∈ l) by (by apply Hl).
      rewrite E in H. by apply not_elem_of_nil in H.
    + exists p. split; [done|]. apply list_elem_of_fmap in Hin as ([k s] & -> & [H _]%Hl). done.
  - intros E%fmap_nil_inv. assert (H : (q, Connected) ∈ l) by (by apply Hl).
    rewrite E in H. by apply not_elem_of_nil in H.
Qed.

(** C39: a request for one to 1024 missing blocks goes to a single connected peer,
    when there is one; a peer of this client never reads it: the two agree on the
    status protocol, on which the roots are no status. *)
Theorem blocks_request_lost {M : Multistream} {HMS : MultistreamLaws M} {HS : StatusSize ZS}
    choose roots n :
  choice_ok choose -> (exists p, ns_peer_table n !! p = Some Connected) ->
  request_ok (RBlocksByRoot roots) ->
  exists p, ns_peer_table n !! p = Some Connected /\
    ns_commands (network_step (OutboundRequest (RequestBlocksByRoot roots) choose) n) =
      ns_commands n ++ [SendRequest p (RBlocksByRoot roots)] /\
    forall cfg cfg' env env' bh bh' io bs,
      build_behaviour env cfg = Ok bh -> build_behaviour env' cfg' = Ok bh' ->
      exists protocol, negotiate (outbound_protocols (bh_req_resp bh))
          (inbound_protocols (bh_req_resp bh')) = Some protocol /\
        (write_request protocol io (RBlocksByRoot roots) = Ok bs ->
         forall r, read_request protocol (Ok bs) <> Ok r).
Proof.
  intros Hc Hp Hr. destruct (random_peer_connected choose n Hc Hp) as (p & Ep & Hcp).
  exists p. split; [done|]. split.
  - cbn [network_step dispatch_outbound_request]. rewrite Ep. destruct Hr as (Hne & Hle & _).
    unfold send_blocks_by_root_request. rewrite bool_decide_eq_false_2 by done.
    by rewrite (proj2 (Nat.ltb_ge _ _) Hle).
  - intros cfg cfg' env env' bh bh' io bs Hb Hb'. exists STATUS_PROTOCOL_V1.
    unfold build_behaviour in Hb, Hb'. apply bind_Ok in Hb as (u & _ & <-%Ok_inj).
    apply bind_Ok in Hb' as (u' & _ & <-%Ok_inj). split; [apply negotiated_status|].
    intros Hw. apply bind_Ok in Hw as (d & Hd & (w & _ & <-%Ok_inj)%bind_Ok).
    intros r. apply (roots_not_status roots); [apply Hr|done].
Qed.

(** A node answers every request for blocks without blocks, and the asking
    node reads this as an empty response and hands nothing to its chain: missing
    blocks never arrive this way. *)
Theorem requested_blocks_never_arrive roots peer channel n bs r' peer' n' :
  ns_commands (network_step (SwarmInput (SReqResp (RRRequest peer (RBlocksByRoot roots) channel))) n)
    = ns_commands n ++ [SendResponse channel (PBlocksByRoot [])] /\
  (encode_response (PBlocksByRoot []) = Ok bs ->
   decode_response BLOCKS_BY_ROOT_PROTOCOL_V1 bs = Ok r' ->
   r' = PEmpty /\
   ns_chain (network_step (SwarmInput (SReqResp (RRResponse peer' r'))) n') = ns_chain n').
Proof. split; [done|]. intros [= <-] [= <-]. done. Qed.
End Messages.

(** * Discovered peers *)

Section Discovered.
Context {LP : Libp2p} {HLP : Libp2pLaws LP} {PR : Prometheus} {MO : MapOrder}.
Context {ZB : SszCodec SignedBlockWithAttestation} {ZA : SszCodec SignedAttestation}.


End Discovered.

(** * Peer metrics *)

Section PeerMetrics.
Context {LP : Libp2p} {PR : Prometheus} {HPR : PrometheusLaws PR} {MO : MapOrder}.
Context {ZB : SszCodec SignedBlockWithAttestation} {ZA : SszCodec SignedAttestation}.

Definition network_run (inputs : list NetInput) (n : NetworkService) : NetworkService :=
  foldl (fun n i => network_step i n) n inputs.

(** The direction and the result of a connection event, and of a disconnection. *)
Definition connection_event (i : NetInput) : option (bool * string) :=
  match i with
  | SwarmInput (SConnectionEstablished _ Dialer) => Some (false, "success"%string)
  | SwarmInput (SConnectionEstablished _ Listener) => Some (true, "success"%string)
  | SwarmInput SIncomingConnectionError => Some (true, "failure"%string)
  | SwarmInput (SOutgoingConnectionError _) => Some (false, "failure"%string)
  | _ => None
  end.

Definition disconnection_event (i : NetInput) : option (bool * string) :=
  match i with
  | SwarmInput (SConnectionClosed _ cause endpoint) =>
      Some (match endpoint with Dialer => false | Listener => true end,
        match cause with
        | None => "local_close"%string
        | Some (IO OtherIo) => "error"%string
        | Some (IO TimedOut) | Some KeepAliveTimeout => "timeout"%string
        | Some (IO _) => "remote_close"%string
        end)
  | _ => None
  end.

Definition count_events (event : NetInput -> option (bool * string)) (x : bool * string)
    (inputs : list NetInput) : N :=
  N.of_nat (length (filter (fun i => event i = Some x) inputs)).

(** What an input does to the metrics. *)
Definition metric_effect (i : NetInput) (m : Metrics) (r : PromState) : PromState :=
  match connection_event i, disconnection_event i with
  | Some (inbound, result), _ =>
      counter_inc (lean_peer_connection_events_total m) [direction inbound; result] r
  | _, Some (inbound, reason) =>
      counter_inc (lean_peer_disconnection_events_total m) [direction inbound; reason] r
  | _, _ => r
  end.

(** Two services with the same metrics. *)
Definition same_metrics (n n' : NetworkService) : Prop :=
  ns_metrics n' = ns_metrics n /\ ns_prometheus n' = ns_prometheus n.

Lemma connect_to_peers_metrics ok peers n : same_metrics n (connect_to_peers ok peers n).
Proof.
  unfold connect_to_peers. revert n. induction peers as [|a peers IH]; intros n; [done|]. cbn [foldl].
  destruct (IH (connect_to_peer ok n a)) as [E1 E2]. unfold same_metrics. rewrite E1, E2.
  unfold connect_to_peer. by repeat case_match.
Qed.

Lemma on_discovered_metrics ok n : same_metrics n (on_discovered ok n).
Proof.
  unfold on_discovered. destruct (ns_discovery n) as [d|]; [|done].
  destruct (recv d) as [d' [enr|]]; [|done]. destruct (enr_to_multiaddr enr); [|done].
  apply (connect_to_peers_metrics ok _ (set_discovery (Some d') n)).
Qed.

Lemma req_resp_metrics e n : same_metrics n (handle_request_response_event e n).
Proof.
  unfold handle_request_response_event. destruct e as [q r|q r c|q|q|q]; try done.
  destruct r as [st|blocks|]; try done. revert n.
  induction blocks as [|b blocks IH]; intros n; [done|]. apply (IH (to_chain _ n)).
Qed.

Lemma inc_with_ok x ls r :
  length ls = length (d_labels (metric_desc x)) -> (inc_with x ls r).1 = counter_inc x ls r.
Proof. intros Hl. unfold inc_with. by rewrite has_labels_length, bool_decide_eq_true_2. Qed.

Lemma with_metrics_inc n m f x ls r :
  ns_metrics n = Some m -> ns_prometheus n = r -> f m = inc_with x ls ->
  length ls = length (d_labels (metric_desc x)) ->
  ns_metrics (with_metrics f n) = Some m /\
  ns_prometheus (with_metrics f n) = counter_inc x ls r.
Proof.
  intros Hm <- Hf Hl. unfold with_metrics. rewrite Hm, Hf. cbn. by rewrite inc_with_ok.
Qed.

Lemma step_metrics i n m :
  ns_metrics n = Some m -> labelled m ->
  ns_metrics (network_step i n) = Some m /\
  ns_prometheus (network_step i n) = metric_effect i m (ns_prometheus n).
Proof.
  intros Hm [_ _ Lc Ld]. rewrite <-Hm.
  assert (Hs : forall n', same_metrics n n' ->
    ns_metrics n' = ns_metrics n /\ ns_prometheus n' = ns_prometheus n) by done.
  destruct i as [ok| |r choose|e|ok]; cbn [network_step].
  - apply connect_to_peers_metrics.
  - by destruct (ns_discovery n).
  - unfold dispatch_outbound_request, publish_to_topic, send_blocks_by_root_request.
    by repeat case_match.
  - destruct e as [ge|re|ie| |q d|q c d| |q|a|a|a|a| |q|]; cbn [parse_swarm_event fst]; try done.
    + unfold handle_gossipsub_event. by repeat case_match.
    + apply req_resp_metrics.
    + by destruct ie.
    + rewrite Hm. destruct d; (eapply with_metrics_inc; [exact Hm|done|done|by rewrite Lc]).
    + rewrite Hm. destruct c as [[[| | |]|]|], d;
        (eapply with_metrics_inc; [exact Hm|done|done|by rewrite Ld]).
    + rewrite Hm. eapply with_metrics_inc; [exact Hm|done|done|by rewrite Lc].
    + rewrite Hm. eapply with_metrics_inc; [exact Hm|done|done|by rewrite Lc].
  - apply on_discovered_metrics.
Qed.

Lemma direction_inj b b' : direction b = direction b' -> b = b'.
Proof. by destruct b, b'. Qed.

(** A step adds one to the counter of its event and to no other. *)
Definition counts_event (m : Metrics) (x : Metric) (event : NetInput -> option (bool * string))
    : Prop :=
  forall i r inbound label, counter_value (metric_effect i m r) x [direction inbound; label] =
    if bool_decide (event i = Some (inbound, label))
    then wadd (counter_value r x [direction inbound; label]) 1
    else counter_value r x [direction inbound; label].

Lemma inc_event x inbound label r b l :
  counter_value (counter_inc x [direction b; l] r) x [direction inbound; label] =
    if bool_decide (Some (b, l) = Some (inbound, label))
    then wadd (counter_value r x [direction inbound; label]) 1
    else counter_value r x [direction inbound; label].
Proof.
  rewrite counter_inc_value. do 2 case_bool_decide; try done; exfalso.
  - destruct H as [_ [= E%direction_inj ->]]. congruence.
  - apply H. by simplify_eq.
Qed.

Lemma inc_other x y ls r ls' : x <> y ->
  counter_value (counter_inc y ls r) x ls' = counter_value r x ls'.
Proof. intros H. by rewrite counter_inc_value, bool_decide_eq_false_2 by (by intros []). Qed.

Lemma connection_counted m :
  lean_peer_connection_events_total m <> lean_peer_disconnection_events_total m ->
  counts_event m (lean_peer_connection_events_total m) connection_event /\
  counts_event m (lean_peer_disconnection_events_total m) disconnection_event.
Proof.
  intros Hne. split; intros i r inbound label; unfold metric_effect.
  - destruct (connection_event i) as [[b l]|] eqn:E; [apply inc_event|].
    rewrite bool_decide_eq_false_2 by done.
    destruct (disconnection_event i) as [[b l]|]; [by rewrite inc_other|done].
  - destruct (connection_event i) as [[b l]|] eqn:E.
    + assert (Ed : disconnection_event i = None) by (unfold connection_event in E; by repeat case_match).
      by rewrite Ed, inc_other.
    + destruct (disconnection_event i) as [[b l]|]; [apply inc_event|done].
Qed.

Lemma run_counted m x event inputs n inbound label :
  counts_event m x event -> ns_metrics n = Some m -> labelled m ->
  is_u64 (counter_value (ns_prometheus n) x [direction inbound; label]) ->
  counter_value (ns_prometheus (network_run inputs n)) x [direction inbound; label] =
    (counter_value (ns_prometheus n) x [direction inbound; label] +
     count_events event (inbound, label) inputs) `mod` u64_modulus.
Proof.
  intros Hc. revert n. induction inputs as [|i inputs IH]; intros n Hm Hl Hu.
  { cbn. rewrite N.add_0_r, N.mod_small by exact Hu. done. }
  destruct (step_metrics i n m Hm Hl) as [Hm' Hp]. cbn [network_run foldl].
  change (foldl _ ?x inputs) with (network_run inputs x).
  assert (Ec : count_events event (inbound, label) (i :: inputs) =
    (if decide (event i = Some (inbound, label)) then 1 else 0) +
    count_events event (inbound, label) inputs).
  { unfold count_events. rewrite filter_cons. case_decide; cbn [length]; lia. }
  rewrite Ec.
  assert (Hw : forall c, is_u64 (wadd c 1)) by (intros c; by apply N.mod_lt).
  specialize (Hc i (ns_prometheus n) inbound label). rewrite IH; [|done..|]; rewrite Hp, Hc.
  - case_decide as E; [rewrite bool_decide_eq_true_2 by done|rewrite bool_decide_eq_false_2 by done; done].
    unfold wadd. rewrite N.Div0.add_mod_idemp_l. f_equal. lia.
  - case_bool_decide; [apply Hw|done].
Qed.

Lemma run_counted_zero m x event inputs n inbound label :
  counts_event m x event -> ns_metrics n = Some m -> labelled m ->
  counter_value (ns_prometheus n) x [direction inbound; label] = 0 ->
  counter_value (ns_prometheus (network_run inputs n)) x [direction inbound; label] =
    count_events event (inbound, label) inputs `mod` u64_modulus.
Proof. intros Hc Hm Hl Hz. by rewrite (run_counted m x event), Hz by (by rewrite ?Hz). Qed.

(** C25: on a node started with metrics, whatever the network service goes through, the
    two peer counters show, for each direction and result or reason, how many such
    connection events there were, up to the width of a counter: none is missed, none
    is counted twice or under another label. *)
Theorem peer_events_counted config secs r env cfg key :
  metrics_enabled config = true -> secs < 9223372036854775808 ->
  (forall name, name ∈ field_names -> name ∉ metric_name <$> registered r) ->
  exists m r', start_metrics config (Some secs) r = (r', Ok (Some m)) /\
    forall n inputs (inbound : bool) label, new_with_keypair env cfg 0 key (Some m) r' = Ok n ->
      let r'' := ns_prometheus (network_run inputs n) in
      let labels := [if inbound then "inbound" else "outbound"; label]%string in
      counter_value r'' (lean_peer_connection_events_total m) labels =
        count_events connection_event (inbound, label) inputs `mod` u64_modulus /\
      counter_value r'' (lean_peer_disconnection_events_total m) labels =
        count_events disconnection_event (inbound, label) inputs `mod` u64_modulus.
Proof.
  intros Hc Hs Hr. destruct (start_metrics_ok config secs r Hc Hs Hr) as (m & r' & E & [Hl Hn _ Hz _ _]).
  exists m, r'. split; [done|]. intros n inputs inbound label (bh & _ & ->)%new_with_keypair_spec.
  destruct (connection_counted m (peer_counters_distinct m Hn)) as [H1 H2].
  destruct (peer_counters_fields m) as [F1 F2].
  split; (eapply run_counted_zero; [eassumption|done|done|by apply Hz]).
Qed.
End PeerMetrics.

(** * A concrete network *)

Section Concrete.
Import ToyNet ToyNode ToyProm.

(** The address of a node of the toy library. *)
Definition toy_addr (port : N) (peer : PeerId) : list Protocol := [Ip4 10; Udp port; QuicV1; P2p peer].

Definition toy_discv5 (events : list Discv5Event) : Discv5Env :=
  mkDiscv5Env true (fun _ => true) true (Some events).

(** A libp2p where everything works. *)
Definition toy_swarm (events : list Discv5Event) : SwarmEnv :=
  mkSwarmEnv true (fun _ => true) (fun _ => true) (toy_discv5 events).

Definition toy_gossip : GossipsubConfig :=
  set_topics (get_topics "devnet0")
    (mkGossipsubConfig (mkGossipParams 16777216 700 60000 6 3 24000 8 6 12 6 Anonymous true
      (compute_message_id (SHA := fun data => data))) []).

Definition toy_cfg (port : N) (bootnodes : list (list Protocol)) : NetworkServiceConfig :=
  mkNetworkServiceConfig toy_gossip (V4 10) port 9001 true (mkStaticBootnodes bootnodes []).

Definition toy_started : option Metrics * PromState :=
  match start_metrics toy_config (Some 1763757427) toy_registry with
  | (r, Ok m) => (m, r)
  | (r, _) => (None, r)
  end.

(** Node 1, with itself and two others as bootnodes. *)
Definition toy_new (port key : N) (bootnodes : list (list Protocol)) (events : list Discv5Event)
    : outcome NetworkService :=
  new_with_keypair (toy_swarm events) (toy_cfg port bootnodes) 0 key toy_started.1 toy_started.2.

(** The service when it was set up. *)
Definition or_empty (m : outcome NetworkService) : NetworkService :=
  match m with
  | Ok n => n
  | _ => mkNetworkService (toy_cfg 0 []) 0 (mkLeanNetworkBehaviour "" "" [] (gc_config toy_gossip) 0 0 0)
      None ∅ 0 None toy_registry [] []
  end.

Definition toy_net0 : NetworkService :=
  or_empty (toy_new 9000 1 [toy_addr 9000 1; toy_addr 9000 2; toy_addr 9000 3] []).

Lemma toy_net0_new :
  new_with_keypair (toy_swarm []) (toy_cfg 9000 [toy_addr 9000 1; toy_addr 9000 2; toy_addr 9000 3]) 0 1
    toy_started.1 toy_started.2 = Ok toy_net0.
Proof. reflexivity. Qed.

(** Dial the bootnodes, and connect to one of them. *)
Definition toy_net : NetworkService :=
  network_step (SwarmInput (SConnectionEstablished 2 Dialer))
    (network_step (ReconnectTick (fun _ => true)) toy_net0).

Lemma toy_net_reachable : network_reachable toy_net.
Proof. do 2 apply network_next. eapply network_start, toy_net0_new. Qed.

(** The peer a command dials or asks for its status. *)
Definition addressed (c : SwarmCommand) : option PeerId :=
  match c with
  | Dial a => peer_of a
  | SendRequest p (RStatus _) => Some p
  | _ => None
  end.

Example toy_net_commands :
  omap addressed (ns_commands toy_net) = [2; 3; 2] /\ ns_peer_count toy_net = 1.
Proof. split; vm_compute; reflexivity. Qed.

Lemma toy_net_topics : ns_topics toy_net = get_topics "devnet0".
Proof. vm_compute. reflexivity. Qed.

Lemma toy_metrics : exists m, ns_metrics toy_net = Some m /\ labelled m.
Proof.
  destruct (start_metrics_ok toy_config 1763757427 toy_registry) as (m & r & E & Hst);
    [reflexivity|lia|intros name _; apply not_elem_of_nil|].
  exists m. split; [|apply Hst]. unfold toy_net.
  assert (H0 : ns_metrics toy_net0 = Some m).
  { destruct (new_with_keypair_spec _ _ _ _ _ _ _ toy_net0_new) as (bh & _ & ->).
    cbn [ns_metrics]. unfold toy_started. by rewrite E. }
  do 2 (apply step_metrics; [|apply Hst]). done.
Qed.

Lemma peer_count_exact_witness :
  exists r c, PeerCount_new (ns_metrics toy_net) (ns_peer_table toy_net) (ns_prometheus toy_net) =
      (r, Ok c) /\
    ns_peer_count toy_net = pc_connected c /\
    forall m, ns_metrics toy_net = Some m ->
      gauge_value r (lean_connected_peers m) ["unknown"%string] = Z.of_N (ns_peer_count toy_net).
Proof.
  apply (peer_count_exact toy_net toy_net_reachable).
  - vm_compute. reflexivity.
  - destruct toy_metrics as (m & E & Hl). intros m'. rewrite E. by intros <-%(inj Some).
Defined.




(** A connection, its loss and a failed dial. *)
Definition toy_events : list NetInput :=
  [SwarmInput (SConnectionEstablished 2 Dialer);
   SwarmInput (SConnectionClosed 2 (Some (IO TimedOut)) Dialer);
   SwarmInput (SOutgoingConnectionError (Some 3))].

Lemma peer_events_counted_witness :
  exists m r', start_metrics toy_config (Some 1763757427) toy_registry = (r', Ok (Some m)) /\
    forall n inputs (inbound : bool) label,
      new_with_keypair (toy_swarm []) (toy_cfg 9000 []) 0 1 (Some m) r' = Ok n ->
      let r'' := ns_prometheus (network_run inputs n) in
      let labels := [if inbound then "inbound" else "outbound"; label]%string in
      counter_value r'' (lean_peer_connection_events_total m) labels =
        count_events connection_event (inbound, label) inputs `mod` u64_modulus /\
      counter_value r'' (lean_peer_disconnection_events_total m) labels =
        count_events disconnection_event (inbound, label) inputs `mod` u64_modulus.
Proof.
  apply (peer_events_counted toy_config 1763757427 toy_registry (toy_swarm []) (toy_cfg 9000 []) 1).
  - reflexivity.
  - lia.
  - intros name _. apply not_elem_of_nil.
Defined.

Example toy_events_counted :
  count_events connection_event (false, "success"%string) toy_events = 1 /\
  count_events connection_event (false, "failure"%string) toy_events = 1 /\
  count_events disconnection_event (false, "timeout"%string) toy_events = 1.
Proof. repeat split; vm_compute; reflexivity. Qed.

Lemma peer_state_machine_witness :
  peer_step toy_net DiscoveryTick 3 (ns_peer_table toy_net !! 3)
    (ns_peer_table (network_step DiscoveryTick toy_net) !! 3) /\
  ns_peer_table toy_net !! 3 <> Some Disconnecting.
Proof. apply (peer_state_machine toy_net DiscoveryTick 3 toy_net_reachable). Defined.

Lemma gossip_end_to_end_witness :
  exists topic,
    ns_commands (network_step (OutboundRequest (GossipBlockWithAttestation signed1) head) toy_net)
      = ns_commands toy_net ++ [Publish topic [x2a]] /\
    forall wire seq source, outbound_transform topic [x2a] = Ok wire ->
      exists m, inbound_transform (mkMessage topic wire seq source) = Ok m /\
        forall n', ns_chain (network_step (SwarmInput (SGossipsub (GMessage m))) n') =
          ns_chain n' ++ [block_with_attestation signed1].
Proof.
  apply (gossip_end_to_end head (GossipBlockWithAttestation signed1) toy_net "devnet0" KBlock).
  - exact toy_net_topics.
  - apply (bool_decide_unpack _). reflexivity.
  - vm_compute. reflexivity.
Defined.

Definition two_blocks : NetInput :=
  SwarmInput (SReqResp (RRResponse 2 (PBlocksByRoot [signed1; signed1]))).

Lemma chain_messages_origin_witness :
  exists l, ns_chain (network_step two_blocks toy_net) = ns_chain toy_net ++ l /\
    forall m, m ∈ l -> message_origin two_blocks m.
Proof. apply (chain_messages_origin two_blocks toy_net). Defined.

Lemma blocks_request_lost_witness :
  exists p, ns_peer_table toy_net !! p = Some Connected /\
    ns_commands (network_step (OutboundRequest (RequestBlocksByRoot [7]) head) toy_net) =
      ns_commands toy_net ++ [SendRequest p (RBlocksByRoot [7])] /\
    forall cfg cfg' env env' bh bh' io bs,
      build_behaviour env cfg = Ok bh -> build_behaviour env' cfg' = Ok bh' ->
      exists protocol, negotiate (outbound_protocols (bh_req_resp bh))
          (inbound_protocols (bh_req_resp bh')) = Some protocol /\
        (write_request protocol io (RBlocksByRoot [7]) = Ok bs ->
         forall r, read_request protocol (Ok bs) <> Ok r).
Proof.
  apply (blocks_request_lost head [7] toy_net).
  - intros [|p l] Hl; [done|]. exists p. split; [done|left].
  - exists 2. vm_compute. reflexivity.
  - split; [discriminate|]. split; [vm_compute; lia|]. repeat constructor.
Defined.

Lemma requested_blocks_never_arrive_witness :
  ns_commands (network_step (SwarmInput (SReqResp (RRRequest 2 (RBlocksByRoot [7]) 0))) toy_net)
    = ns_commands toy_net ++ [SendResponse 0 (PBlocksByRoot [])] /\
  PEmpty = PEmpty /\
  ns_chain (network_step (SwarmInput (SReqResp (RRResponse 2 PEmpty))) toy_net) = ns_chain toy_net.
Proof.
  destruct (requested_blocks_never_arrive [7] 2 0 toy_net [] PEmpty 2 toy_net) as [H1 H2].
  split; [exact H1|]. apply H2; vm_compute; reflexivity.
Defined.

(** A peer may have two connections: when one of them closes, the peer counts as
    disconnected although the other is open. *)
Example second_connection_forgotten :
  let n := network_step (SwarmInput (SConnectionClosed 2 None Listener))
    (network_step (SwarmInput (SConnectionEstablished 2 Listener)) toy_net) in
  ns_peer_table n !! 2 = Some Disconnected /\ ns_peer_count n = 0.
Proof. split; vm_compute; reflexivity. Qed.
End Concrete.
