(* ===== verification/Propagation.v ===== *)
(** * A block travels from node to node

    The chain task and the network service of one node, the wire, and the network
    service and the chain task of another: a block that one node passes on is, once
    delivered, in the store of the other, with the same state after it. *)

From Stdlib Require Import Strings.Byte.
From stdpp Require Import strings.
From S2P Require Import Prelude Ssz Xmss Containers State StateInv BuildBlock ForkChoice.
From S2P Require Import ForkChoiceHead StoreInv StoreBlocks.
From S2P Require Import StoreTheorems Derivation Validator Node Sync Bytes Discovery Metrics Gossip.
From S2P Require Import ReqResp Network.
From S2P Require Import Example.

#[local] Open Scope N_scope.

Section Accept.
Context {C : SszContainers} {HC : SszContainersLaws C} {LS : LeanSig}.
Context {SO : SetOrder} {HO : SetOrderLaws SO} {MO : MapOrder} {HM : MapOrderLaws MO}.
Context {HState : SszHash State} {HHeader : SszHash BlockHeader} {HBlock : SszHash Block}
  {HBody : SszHash BlockBody} {HData : SszHash AttestationData}.

(** The chain task of a node that knows the parent. *)
Lemma block_accepted (B : Block -> Prop) gb gst sA n sb now :
  no_collisions B -> b_parent_root gb = 0 -> chain_ok B gb gst sA -> chain_ok B gb gst (n_store n) ->
  good sA sb -> is_Some (s_blocks (n_store n) !! b_parent_root (block_of sb)) -> is_u64 now ->
  exists n' r, handle_message (block_with_attestation sb) now n = (n', r) /\
    s_blocks (n_store n') !! root_of sb = Some (block_of sb) /\
    s_states (n_store n') !! root_of sb = s_states sA !! root_of sb /\
    (s_blocks_queue (n_store n) !! root_of sb = None ->
     r = Ok tt /\ n_sent n' = n_sent n ++ [GossipBlockWithAttestation sb]).
Proof.
  intros HB Hz HA Hc Hg Hp Hu. unfold block_with_attestation. rewrite handle_block_eq.
  destruct (on_tick_spec B now false (n_store n) (proj1 Hc) Hu) as (s1 & E1 & _).
  pose proof (on_tick_chain (n_store n) now false (n_store n)) as Hi.
  destruct (si_tick (StoreInvariant := chain_ok_invariant B HB gb gst True) now false Hu _ Hc) as [Hc1 _].
  rewrite E1 in *. cbn in Hc1, Hi. destruct Hi as (Eb & _ & Eq & _); [done|].
  destruct (on_block_parent_known B HB gb gst Hz sA HA s1 sb Hc1 Hg)
    as (s2 & r & -> & Hc2 & Hb2 & Hr); [by rewrite Eb|]. rewrite Eq in Hr.
  assert (Hst : s_states s2 !! root_of sb = s_states sA !! root_of sb).
  { destruct (good_derives B gb gst sA HA sb Hg) as (st & Hst & _).
    destruct (proj1 (so_dom _ _ (proj1 Hc2) (root_of sb))) as [st2 Hst2]; [by eexists|].
    destruct (derived_agree B HB gb gst Hz _ _ _ _ _ Hc2 HA Hst2 Hst) as [_ ->]. congruence. }
  destruct r as [u|e|p|]; [|destruct e|..]; try case_match; eexists _, _; (split; [done|]);
    (split; [done|]); (split; [done|]); intros Hq; by specialize (Hr Hq).
Qed.

End Accept.

Section Propagation.
Context {C : SszContainers} {HC : SszContainersLaws C} {LS : LeanSig}.
Context {SO : SetOrder} {HO : SetOrderLaws SO} {MO : MapOrder} {HM : MapOrderLaws MO}.
Context {HState : SszHash State} {HHeader : SszHash BlockHeader} {HBlock : SszHash Block}
  {HBody : SszHash BlockBody} {HData : SszHash AttestationData}.
Context {LP : Libp2p} {PR : Prometheus} {SN : Snappy} {HSN : SnappyLaws SN}.
Context {ZB : SszCodec SignedBlockWithAttestation} {HZB : SszCodecLaws SignedBlockWithAttestation}.
Context {ZA : SszCodec SignedAttestation} {HZA : SszCodecLaws SignedAttestation}.

(** C9: a block that a node has passed on, its own proposal or one it received,
    is published once on the block topic; a node with the same genesis that gets
    these bytes and has the parent puts the block in its store, with the same state
    as the sender's, and passes it on in turn if no block was waiting for it. *)
Theorem block_propagates {SO' : SetOrder} {HO' : SetOrderLaws SO'} {MO' : MapOrder}
    {HM' : MapOrderLaws MO'} (B : Block -> Prop) g vs vs' n n' sb data service choose fork :
  no_collisions B -> node_reachable (SO := SO) (MO := MO) B vs g n ->
  node_reachable (SO := SO') (MO := MO') B vs' g n' ->
  GossipBlockWithAttestation sb ∈ n_sent n ->
  is_Some (s_blocks (n_store n') !! b_parent_root (block_of sb)) ->
  ns_topics service = get_topics fork -> slash_free fork -> to_ssz sb = Ok data ->
  exists topic,
    ns_commands (network_step (MO := MO) (OutboundRequest (GossipBlockWithAttestation sb) choose)
        service) =
      ns_commands service ++ [Publish topic data] /\
    forall wire seq source, outbound_transform topic data = Ok wire ->
      exists m, inbound_transform (mkMessage topic wire seq source) = Ok m /\
        (forall service', ns_chain (network_step (MO := MO') (SwarmInput (SGossipsub (GMessage m))) service') =
          ns_chain service' ++ [block_with_attestation sb]) /\
        forall now, is_u64 now ->
          exists n2 r, handle_message (MO := MO') (block_with_attestation sb) now n' = (n2, r) /\
            s_blocks (n_store n2) !! root_of sb = Some (block_of sb) /\
            s_states (n_store n2) !! root_of sb = s_states (n_store n) !! root_of sb /\
            (s_blocks_queue (n_store n') !! root_of sb = None ->
             r = Ok tt /\ n_sent n2 = n_sent n' ++ [GossipBlockWithAttestation sb]).
Proof.
  intros HB Hn Hn' Hsent Hp Ht Hf Hz.
  assert (Hpay : gossip_payload (GossipBlockWithAttestation sb) = Ok (KBlock, data))
    by (cbn; by rewrite Hz).
  exists (topic_to_string (mkGossipsubTopic fork KBlock)). split.
  { cbn [network_step]. by rewrite (dispatch_gossip _ _ _ _ _ _ Ht Hpay). }
  intros wire seq source Hw.
  destruct (gossip_handed _ fork KBlock data wire seq source Hf Hpay Hw) as (m & Hm & Hd).
  exists m. split; [done|]. split; [done|]. intros now Hu.
  pose proof (node_reachable_chain B HB _ _ _ Hn) as (_ & _ & _ & _ & _ & _ & _ & Hrel).
  destruct (common_genesis (SO := SO) (MO := MO) (SO' := SO') (MO' := MO') B g vs vs' n n' HB Hn Hn')
    as (gb & gst & Hgz & _ & Hc & Hc').
  by apply (block_accepted (SO := SO') (MO := MO') B gb gst); [..|apply Hrel| |].
Qed.
End Propagation.

(** * A concrete delivery *)

Section Concrete.
Import Toy ToyNet ToyNode ToyProm.

(** Block 1, passed on by a node that runs validators, reaches a node at genesis. *)
Lemma block_propagates_witness :
  exists topic,
    ns_commands (network_step (OutboundRequest (GossipBlockWithAttestation sb1) head) toy_net) =
      ns_commands toy_net ++ [Publish topic [x2a]] /\
    forall wire seq source, outbound_transform topic [x2a] = Ok wire ->
      exists m, inbound_transform (mkMessage topic wire seq source) = Ok m /\
        (forall service', ns_chain (network_step (MO := reversed_order) (SwarmInput (SGossipsub (GMessage m))) service') =
          ns_chain service' ++ [block_with_attestation sb1]) /\
        forall now, is_u64 now ->
          exists n2 r, handle_message (MO := reversed_order) (block_with_attestation sb1) now node0
              = (n2, r) /\
            s_blocks (n_store n2) !! root_of sb1 = Some (block_of sb1) /\
            s_states (n_store n2) !! root_of sb1 = s_states (n_store node2) !! root_of sb1 /\
            (s_blocks_queue (n_store node0) !! root_of sb1 = None ->
             r = Ok tt /\ n_sent n2 = n_sent node0 ++ [GossipBlockWithAttestation sb1]).
Proof.
  apply (block_propagates (MO := map_to_list_order) (MO' := reversed_order)
    (HM' := reversed_order_laws) seen toy_genesis (Some toy_service) None node2 node0 sb1 [x2a]
    toy_net head "devnet0" seen_no_collisions node2_reachable
    (node0_reachable (MO := reversed_order))).
  - assert (E : n_sent node1 = [GossipBlockWithAttestation sb1]) by (vm_compute; reflexivity).
    assert (E2 : take 1 (n_sent node2) = n_sent node1) by (vm_compute; reflexivity).
    rewrite E in E2. rewrite <-(take_drop 1 (n_sent node2)), E2. left.
  - vm_compute. by eexists.
  - exact toy_net_topics.
  - apply (bool_decide_unpack _). reflexivity.
  - vm_compute. reflexivity.
Defined.
End Concrete.
