(* ===== verification/Main.v ===== *)
(** * Start-up of the node

    [src/main.rs] up to the spawning of the tasks: the command line, the node's key, the
    genesis file, the validator service, the metrics, the network service.  Files are
    the class [MainFiles]: what opening and parsing them gives; the clock, the random
    key and the answers of libp2p are arguments, and the optional features, of another
    crate, are the class [Features]. *)

From Stdlib Require Import Strings.Ascii Strings.String.
From stdpp Require Import strings.
From S2P Require Import Prelude Ssz Xmss Containers State StateTheorems BuildBlock ForkChoice.
From S2P Require Import Validator Node.
From S2P Require Import Bytes Serde Discovery Metrics Observed Gossip ReqResp Network Example.

#[local] Open Scope N_scope.

(** The type of the optional features. *)
Class Features := Feature : Type.

Record Args {FT : Features} := mkArgs {
  args_address : IpAddr;
  args_port : N;
  args_discovery_port : N;
  args_disable_discovery : bool;
  args_bootnodes : list string;
  args_genesis : option string;
  args_node_id : option string;
  args_validator_registry_path : option string;
  args_node_key : option string;
  args_hash_sig_key_dir : option string;
  args_http_config : HttpServerConfig;
  args_features : list Feature
}.

#[global] Arguments mkArgs {FT}.

(** The command line's defaults. *)
Definition Args_default {FT : Features} : Args :=
  mkArgs (V4 2130706433) 8083 8084 false [] None None None None None HttpServerConfig_default [].

(** The files, read and parsed: the genesis configuration, the validator registry, a
    file of bootnodes, the text of the key file. *)
Class MainFiles {LP : Libp2p} := {
  genesis_file : string -> option GenesisConfig;
  registry_file : string -> option ValidatorRegistry;
  bootnode_file : string -> option (option (list Bootnode));
  node_key_file : string -> option string
}.

Definition EFile : error := EExternal 80.

(** [str::trim], for ASCII text. *)
Definition is_space (c : ascii) : bool :=
  let n := N_of_ascii c in ((9 <=? n) && (n <=? 13)) || (n =? 32).

Fixpoint trim_start (s : string) : string :=
  match s with
  | String c s' => if is_space c then trim_start s' else s
  | EmptyString => s
  end.

Fixpoint trim_end (s : string) : string :=
  match s with
  | String c s' =>
      match trim_end s' with
      | EmptyString => if is_space c then EmptyString else String c EmptyString
      | t => String c t
      end
  | EmptyString => s
  end.

Definition str_trim (s : string) : string := trim_end (trim_start s).

(** [match m { Ok(a) => .., Err(e) => .. }], the error logged *)
Definition catch_st {S A} (m : stM S A) : stM S (option A) := fun s =>
  match m s with
  | (s', Ok a) => (s', Ok (Some a))
  | (s', Err _) => (s', Ok None)
  | (s', Panic p) => (s', Panic p)
  | (s', Diverge) => (s', Diverge)
  end.

(** [result.expect(..)] *)
Definition expect {A} (m : outcome A) : outcome A :=
  match m with Err _ => Panic PUnwrap | _ => m end.

Section Program.
Context {LP : Libp2p} {PR : Prometheus} {FT : Features}.

(** What [main] has set up when it spawns the tasks; [pr_enabled] are the features it
    called [enable] on, in order. *)
Record Program := mkProgram {
  pr_enabled : list Feature;
  pr_metrics : option Metrics;
  pr_node : Node;
  pr_validator_service : option ValidatorService;
  pr_network : NetworkService
}.
End Program.

Section Main.
Context {LP : Libp2p} {PR : Prometheus} {HX : Hex} {MF : MainFiles} {FS : FileSystem}.
Context {C : SszContainers} {LS : LeanSig} {GB : GossipBuilder} {SHA : Sha256} {FT : Features}.
Context {HState : SszHash State} {HHeader : SszHash BlockHeader} {HBlock : SszHash Block}
  {HBody : SszHash BlockBody} {HData : SszHash AttestationData}.

Definition load_node_key (path : string) : outcome Keypair :=
  hex_str ← str_trim <$> ok_or (node_key_file path) EFile;
  bytes ← ok_or (hex_decode hex_str) EHex;
  ok_or (secp256k1_keypair bytes) EKeyConversion.

Definition load_genesis (args : Args) : outcome (option (u64 * list PublicKey)) :=
  match args_genesis args with
  | Some genesis_path =>
      genesis_config ← expect (ok_or (genesis_file genesis_path) EFile);
      keys ← genesis_keys genesis_config;
      Ok (Some (gc_genesis_time genesis_config, keys))
  | None => Ok None
  end.

Definition network_config (args : Args) : outcome NetworkServiceConfig :=
  let fork := "devnet0"%string in
  let gossipsub_topics := get_topics fork in
  gossipsub_config ← GossipsubConfig_new;
  let gossipsub_config := set_topics gossipsub_topics gossipsub_config in
  let discovery_enabled := negb (args_disable_discovery args) in
  NetworkServiceConfig_new bootnode_file gossipsub_config (args_address args) (args_port args)
    (args_discovery_port args) discovery_enabled (args_bootnodes args).

(** The validator service, with what it shows in the metrics. *)
Definition start_validator_service_observed (metrics : option Metrics) (id : option string)
    (registry : option (outcome ValidatorRegistry)) (hash_sig_key_dir : option string)
    (num_validators : u64) : stM PromState (option ValidatorService) :=
  match id, registry with
  | Some id, Some registry =>
      config ← catch_st (lift_st (r ← registry; load_from_registry r id));
      match config with
      | Some config =>
          let zero_signatures :=
            service ← ValidatorService_new_observed metrics config num_validators;
            mret (Some service) in
          match hash_sig_key_dir with
          | Some keys_dir =>
              if fs_exists keys_dir then
                service ← catch_st (new_with_keys_observed metrics config num_validators keys_dir);
                match service with
                | Some service => mret (Some service)
                | None => zero_signatures
                end
              else zero_signatures
          | None => zero_signatures
          end
      | None => mret None
      end
  | _, _ => mret None
  end.

(** The network service, with the node's key or a random one. *)
Definition start_network (env : SwarmEnv) (random_key : Keypair) (args : Args)
    (cfg : NetworkServiceConfig) (metrics : option Metrics) (prometheus : PromState)
    : outcome NetworkService :=
  match args_node_key args with
  | Some key_path =>
      match load_node_key key_path with
      | Ok keypair => expect (new_with_keypair env cfg 0 keypair metrics prometheus)
      | _ => expect (new_with_peer_count env cfg 0 random_key metrics prometheus)
      end
  | None => expect (new_with_peer_count env cfg 0 random_key metrics prometheus)
  end.

Definition main (env : SwarmEnv) (now : option u64) (random_key : Keypair) (args : Args)
    : stM PromState Program :=
  let enabled := args_features args in
  metrics ← start_metrics (args_http_config args) now;
  genesis ← lift_st (load_genesis args);
  genesis_state ← lift_st (genesis_state_of genesis);
  let store := get_forkchoice_store genesis_state (genesis_block genesis_state)
    (mkConfig (genesis_time_of genesis)) in
  let num_validators := len_u64 (st_validators genesis_state) in
  validator_service ← start_validator_service_observed metrics (args_node_id args)
    ((fun path => ok_or (registry_file path) EFile) <$> args_validator_registry_path args)
    (args_hash_sig_key_dir args) num_validators;
  cfg ← lift_st (network_config args);
  prometheus ← get_st;
  network_service ← lift_st (start_network env random_key args cfg metrics prometheus);
  mret (mkProgram enabled metrics (initial_node store) validator_service network_service).
End Main.

(** * Start-up succeeds *)

Section Started.
Context {LP : Libp2p} {PR : Prometheus} {HPR : PrometheusLaws PR} {HX : Hex} {MF : MainFiles}.
Context {FS : FileSystem} {C : SszContainers} {LS : LeanSig}.
Context {GB : GossipBuilder} {HGB : GossipBuilderLaws GB} {SHA : Sha256} {FT : Features}.
Context {HState : SszHash State} {HHeader : SszHash BlockHeader} {HBlock : SszHash Block}
  {HBody : SszHash BlockBody} {HData : SszHash AttestationData}.

(** A computation that returns a value or an error. *)
Definition returns {A} (m : outcome A) : Prop := match m with Ok _ | Err _ => True | _ => False end.

Lemma returns_bind {A B} (m : outcome A) (f : A -> outcome B) :
  returns m -> (forall a, m = Ok a -> returns (f a)) -> returns (m ≫= f).
Proof. intros Hm Hf. destruct m; try done. by apply Hf. Qed.

Lemma new_with_keys_returns config n dir : returns (new_with_keys config n dir).
Proof.
  unfold new_with_keys, KeyManager_new. destruct (fs_exists dir); [|done].
  cbn [ensure mbind outcome_bind]. apply returns_bind; [|done].
  generalize (mkKeyManager ∅ dir).
  induction (validator_indices config) as [|i is' IH]; intros km; [done|]. cbn [foldM].
  apply returns_bind; [|by intros km' _]. unfold load_key, SecretKey_try_from.
  destruct (fs_read _) as [bs|]; [|done]. cbn [ok_or mbind outcome_bind].
  by destruct (sk_from_bytes bs).
Qed.

(** A registry or keys that cannot be read leave the node without duties or without
    keys; they do not stop it. *)
Lemma start_validator_service_ok id registry dir n :
  exists v, start_validator_service id
    ((fun path => ok_or (registry_file path) EFile) <$> registry) dir n = Ok v.
Proof.
  unfold start_validator_service. destruct id as [id|]; [|by eexists].
  destruct registry as [path|]; [|by eexists]. cbn [fmap option_fmap option_map].
  destruct (registry_file path) as [r|]; [|by eexists]. cbn [ok_or mbind outcome_bind].
  unfold load_from_registry. destruct (r !! id) as [indices|]; [|by eexists].
  cbn [ok_or mbind outcome_bind]. destruct dir as [dir|]; [|by eexists].
  destruct (fs_exists dir); [|by eexists].
  pose proof (new_with_keys_returns (mkValidatorConfig id indices) n dir) as H.
  destruct (new_with_keys _ _ _); try done; by eexists.
Qed.

Lemma catch_shows {S A} (m : stM S A) o :
  shows m o ->
  shows (catch_st m) match o with
    | Ok a => Ok (Some a) | Err _ => Ok None | Panic p => Panic p | Diverge => Diverge end.
Proof.
  intros H s. specialize (H s). unfold catch_st. destruct (m s) as [s' x]; cbn in *. subst o.
  by destruct x.
Qed.

(** The metrics make no difference to the service. *)
Lemma start_validator_service_shows metrics id registry dir n :
  shows (start_validator_service_observed metrics id registry dir n)
    (start_validator_service id registry dir n).
Proof.
  unfold start_validator_service_observed, start_validator_service.
  destruct id as [id|]; [|apply shows_ret]. destruct registry as [registry|]; [|apply shows_ret].
  intros s. unfold mbind, stM_bind. pose proof (catch_shows _ _ (shows_lift (S := PromState)
    (r ← registry; load_from_registry r id)) s) as H. unfold mbind in H.
  destruct (catch_st _ s) as [s' x]; cbn in H; subst x.
  destruct (outcome_bind _ _) as [config| | |]; try done.
  destruct dir as [dir|]; [|done]. destruct (fs_exists dir); [|done].
  pose proof (catch_shows _ _ (new_with_keys_shows metrics config n dir) s') as H.
  destruct (catch_st _ s') as [s2 x]; cbn in H; subst x. by destruct (new_with_keys config n dir).
Qed.

(** A service that was started shows how many validators it has. *)
Lemma start_validator_service_gauge m id registry dir n r r' v :
  start_validator_service_observed (Some m) id registry dir n r = (r', Ok (Some v)) ->
  gauge_value r' (lean_validators_count m) [] =
    as_i64 (len_u64 (validator_indices (vs_config v))).
Proof.
  unfold start_validator_service_observed, mbind, stM_bind. destruct id as [id|]; [|done].
  destruct registry as [registry|]; [|done]. destruct (catch_st _ r) as [r1 [[config|]| | |]]; try done.
  assert (Hset : forall r0, gauge_value (gauge_set (lean_validators_count m) []
    (as_i64 (len_u64 (validator_indices config))) r0) (lean_validators_count m) [] =
    as_i64 (len_u64 (validator_indices config))).
  { intros r0. by rewrite gauge_set_value, bool_decide_eq_true_2. }
  destruct dir as [dir|]; [|by intros [= <- <-]].
  destruct (fs_exists dir); [|by intros [= <- <-]].
  unfold catch_st, new_with_keys_observed, mbind, stM_bind, lift_st.
  destruct (KeyManager_new dir) as [km| | |]; try done; [|by intros [= <- <-]].
  destruct (foldM _ _ _) as [km'| | |]; try done; by intros [= <- <-].
Qed.

(** Everything libp2p is asked for at start-up works, discovery apart. *)
Record swarm_ok (env : SwarmEnv) : Prop := mkSwarmOk {
  sk_behaviour : se_behaviour env = true;
  sk_listen : forall addr, se_listen env addr = true;
  sk_subscribe : forall topic, se_subscribe env topic = true
}.

Lemma subscribe_all env topics n :
  swarm_ok env -> exists n', foldM (fun n topic =>
    _ ← ensure (se_subscribe env (topic_to_string topic)) ENetwork;
    Ok (command (Subscribe (topic_to_string topic)) n)) n topics = Ok n'.
Proof.
  intros [_ _ Hs]. revert n. induction topics as [|t topics IH]; intros n; [by eexists|].
  cbn [foldM]. rewrite Hs. apply IH.
Qed.

Lemma new_with_keypair_ok env cfg count key metrics prometheus :
  swarm_ok env -> exists n, new_with_keypair env cfg count key metrics prometheus = Ok n.
Proof.
  intros Hk. pose proof Hk as [Hb Hl _]. unfold new_with_keypair, build_behaviour, listen.
  rewrite Hb. cbn [ensure mbind outcome_bind]. rewrite Hl. cbn [ensure mbind outcome_bind].
  by apply subscribe_all.
Qed.

(** The key the node runs with. *)
Definition used_key (random_key : Keypair) (args : Args) : Keypair :=
  match args_node_key args with
  | Some path => match load_node_key path with Ok key => key | _ => random_key end
  | None => random_key
  end.

Lemma start_network_used env random_key args cfg metrics prometheus :
  start_network env random_key args cfg metrics prometheus =
    expect (new_with_keypair env cfg 0 (used_key random_key args) metrics prometheus).
Proof.
  unfold start_network, used_key, new_with_peer_count. destruct (args_node_key args); [|done].
  by destruct (load_node_key _).
Qed.

Lemma collect_bootnodes bs acc :
  Forall (fun b => exists l, addrs b = Ok l) bs ->
  foldM (fun acc b => _ ← addrs b; Ok (acc ++ [b])) acc bs = Ok (acc ++ bs).
Proof.
  intros H. revert acc. induction H as [|b bs [l Hb] _ IH]; intros acc; cbn [foldM];
    [by rewrite app_nil_r|].
  rewrite Hb. cbn [mbind outcome_bind]. rewrite IH. by rewrite <-app_assoc.
Qed.

(** The bootnodes of the command line. *)
Definition bootnodes_of (args : Args) : list Bootnode :=
  args_bootnodes args ≫= parse_bootnode_argument bootnode_file.

Lemma network_config_ok args :
  Forall (fun b => exists l, addrs b = Ok l) (bootnodes_of args) ->
  exists g, network_config args = Ok (mkNetworkServiceConfig (set_topics (get_topics "devnet0") g)
    (args_address args) (args_port args) (args_discovery_port args)
    (negb (args_disable_discovery args)) (StaticBootnodes_new (bootnodes_of args))).
Proof.
  intros H. unfold network_config, GossipsubConfig_new, NetworkServiceConfig_new.
  rewrite gossip_build_ok by reflexivity. cbn [assert_ mbind outcome_bind].
  eexists. fold (bootnodes_of args). rewrite (collect_bootnodes _ [] H). reflexivity.
Qed.

Lemma genesis_state_ok {HC : SszContainersLaws C} genesis :
  (forall t keys, genesis = Some (t, keys) -> len_u64 keys <= ValidatorRegistryLimit) ->
  exists st, genesis_state_of genesis = Ok st /\
    st_validators st = genesis_validators (snd <$> genesis).
Proof.
  intros Hl. unfold genesis_state_of, generate_genesis_with_validators.
  rewrite push_all_Ok; [by eexists|]. destruct genesis as [[t keys]|]; [|by vm_compute].
  specialize (Hl t keys eq_refl). unfold len_u64 in *. cbn [fmap option_fmap option_map snd
    genesis_validators app]. unfold enumerate. by rewrite length_fmap, length_enumerate_from.
Qed.
Lemma start_metrics_any config now r :
  (metrics_enabled config = true -> exists secs, now = Some secs /\ secs < 9223372036854775808 /\
     forall name, name ∈ field_names -> name ∉ metric_name <$> registered r) ->
  exists metrics r', start_metrics config now r = (r', Ok metrics) /\
    (is_Some metrics <-> metrics_enabled config = true) /\ forall m, metrics = Some m -> labelled m.
Proof.
  intros H. destruct (metrics_enabled config) eqn:E.
  - destruct (H eq_refl) as (secs & -> & Hs & Hr).
    destruct (start_metrics_ok config secs r E Hs Hr) as (m & r' & -> & Hst).
    eexists _, _. split; [done|]. split; [by split|]. intros m' <-%(inj Some). apply Hst.
  - exists None, r. unfold start_metrics. rewrite E. split; [done|]. split; [|done].
    split; [by intros []|done].
Qed.

(** The validator service works with the size of the registry. *)
Lemma start_validator_service_count id registry dir n v :
  start_validator_service id registry dir n = Ok (Some v) -> vs_num_validators v = n.
Proof.
  unfold start_validator_service, new_with_keys. intros H. repeat case_match; try done; simplify_eq; try done.
  match goal with E : _ ≫= _ = Ok v |- _ => apply bind_Ok in E as (? & _ & (? & _ & <-%Ok_inj)%bind_Ok) end.
  done.
Qed.

(** C21: the node starts whenever libp2p lets it listen and subscribe, its genesis file
    has at most 4096 readable keys and the records of its bootnodes have valid keys:
    whether the node's key, the validator registry, the validator keys or discovery
    can be set up makes no difference.  It then holds the genesis store of its file, runs
    under its key or the random one, follows the two gossip topics of the devnet, has its
    metrics exactly when they are enabled, its network service and its validator
    service are in their initial states, the metrics show how many validators it runs,
    and exactly the features of the command line are enabled. *)
Theorem program_starts {HC : SszContainersLaws C} env now random_key args r genesis :
  swarm_ok env ->
  (metrics_enabled (args_http_config args) = true ->
     exists secs, now = Some secs /\ secs < 9223372036854775808 /\
       forall name, name ∈ field_names -> name ∉ metric_name <$> registered r) ->
  load_genesis args = Ok genesis ->
  (forall t keys, genesis = Some (t, keys) -> len_u64 keys <= ValidatorRegistryLimit) ->
  Forall (fun b => exists l, addrs b = Ok l) (bootnodes_of args) ->
  exists p r', main env now random_key args r = (r', Ok p) /\
    (exists s, genesis_store genesis = Ok s /\ pr_node p = initial_node s) /\
    (exists cfg, new_with_keypair env cfg 0 (used_key random_key args) (pr_metrics p) r' =
       Ok (pr_network p)) /\
    ns_topics (pr_network p) = get_topics "devnet0" /\
    ns_local_peer_id (pr_network p) = keypair_peer_id (used_key random_key args) /\
    (is_Some (pr_metrics p) <-> metrics_enabled (args_http_config args) = true) /\
    (forall m, pr_metrics p = Some m -> labelled m) /\
    (forall v, pr_validator_service p = Some v ->
       vs_num_validators v = len_u64 (genesis_validators (snd <$> genesis))) /\
    (forall m v, pr_metrics p = Some m -> pr_validator_service p = Some v ->
       gauge_value r' (lean_validators_count m) [] =
         as_i64 (len_u64 (validator_indices (vs_config v)))) /\
    pr_enabled p = args_features args.
Proof.
  intros Henv Hm Hg Hl Hb. unfold main.
  destruct (start_metrics_any _ _ _ Hm) as (metrics & r' & Em & Hen & Hlab).
  destruct (genesis_state_ok genesis Hl) as (st & Est & Hv).
  destruct (start_validator_service_ok (args_node_id args) (args_validator_registry_path args)
    (args_hash_sig_key_dir args) (len_u64 (st_validators st))) as [v Ev].
  destruct (network_config_ok args Hb) as (g & Ec).
  set (cfg := mkNetworkServiceConfig _ _ _ _ _ _) in Ec.
  pose proof (start_validator_service_shows metrics (args_node_id args)
    ((fun path => ok_or (registry_file path) EFile) <$> args_validator_registry_path args)
    (args_hash_sig_key_dir args) (len_u64 (st_validators st)) r') as Eo. rewrite Ev in Eo.
  destruct (start_validator_service_observed _ _ _ _ _ r') as [r2 x] eqn:Es; cbn in Eo; subst x.
  destruct (new_with_keypair_ok env cfg 0 (used_key random_key args) metrics r2 Henv) as [n En].
  unfold mbind, stM_bind, lift_st, get_st. rewrite Em, Hg, Est, Es, Ec, start_network_used, En.
  eexists _, r2. split; [reflexivity|]. cbn [pr_node pr_network pr_metrics pr_validator_service].
  split; [exists (get_forkchoice_store st (genesis_block st) (mkConfig (genesis_time_of genesis)));
    unfold genesis_store; by rewrite Est|].
  split; [by exists cfg|]. apply new_with_keypair_spec in En as (bh & _ & ->).
  do 4 (split; [done|]). split; [|split; [|done]].
  - intros v' ->. rewrite <-Hv. by eapply start_validator_service_count.
  - intros m v' -> ->. by eapply start_validator_service_gauge.
Qed.
End Started.

(** * A concrete start *)

Section Concrete.
Import Toy ToyHex ToyNode ToyProm.

#[local] Existing Instance toy_fs.

#[local] Instance toy_files : MainFiles := {|
  genesis_file := fun _ => Some (mkGenesisConfig 1000 0 1 [PublicKey_to_string toy_key]);
  registry_file := fun _ => None;
  bootnode_file := fun _ => Some (Some [BMultiaddr (toy_addr 9000 2)]);
  node_key_file := fun _ => Some " 0700000000000000
"%string
|}.

#[local] Instance toy_features : Features := string.
#[local] Instance toy_digest : Sha256 := fun data => data.
#[local] Instance toy_builder : GossipBuilder := params_ok.

#[local] Instance toy_builder_laws : GossipBuilderLaws toy_builder.
Proof. split. done. Qed.

(** A node with a key, a genesis file, a file of bootnodes, metrics and a registry that
    cannot be read. *)
Definition toy_args : Args :=
  mkArgs (V4 10) 9000 9001 false ["nodes.yaml"%string] (Some "genesis.yaml"%string)
    (Some "node0"%string) (Some "validators.yaml"%string) (Some "node.key"%string) None
    ToyProm.toy_config ["trust"%string].

(** The key file holds white space around the key. *)
Example toy_node_key : load_node_key "node.key" = Ok 7.
Proof. vm_compute. reflexivity. Qed.

Lemma program_starts_witness :
  exists p r', main (toy_swarm []) (Some 1763757427) 9 toy_args toy_registry = (r', Ok p) /\
    (exists s, genesis_store (Some (1000, [toy_key])) = Ok s /\ pr_node p = initial_node s) /\
    (exists cfg, new_with_keypair (toy_swarm []) cfg 0 (used_key 9 toy_args) (pr_metrics p) r' =
       Ok (pr_network p)) /\
    ns_topics (pr_network p) = get_topics "devnet0" /\
    ns_local_peer_id (pr_network p) = keypair_peer_id (used_key 9 toy_args) /\
    (is_Some (pr_metrics p) <-> metrics_enabled (args_http_config toy_args) = true) /\
    (forall m, pr_metrics p = Some m -> labelled m) /\
    (forall v, pr_validator_service p = Some v ->
       vs_num_validators v = len_u64 (genesis_validators (snd <$> Some (1000, [toy_key])))) /\
    (forall m v, pr_metrics p = Some m -> pr_validator_service p = Some v ->
       gauge_value r' (lean_validators_count m) [] =
         as_i64 (len_u64 (validator_indices (vs_config v)))) /\
    pr_enabled p = args_features toy_args.
Proof.
  apply (program_starts (toy_swarm []) (Some 1763757427) 9 toy_args toy_registry
    (Some (1000, [toy_key]))).
  - by split.
  - intros _. exists 1763757427. split; [done|]. split; [lia|]. intros name _. apply not_elem_of_nil.
  - vm_compute. reflexivity.
  - intros t keys [= _ <-]. vm_compute. discriminate.
  - repeat constructor. by eexists.
Defined.
End Concrete.
